(* ===== verification/_CoqProject ===== *)
-Q . S2P
Prelude.v
RustStd.v
External.v
Error.v
Manifest.v
Limits.v
Model.v
Records.v
Planning.v
StateDb.v
StateDbFacts.v
StateDbSpec.v
Migrations.v
FileSys.v
FolderStore.v
Scanner.v
ScannerSpec.v
PathCodec.v
RequestSigning.v
PeerCrypto.v
PeerStore.v
HttpText.v
PeerRequest.v
PeerRequestSpec.v
PeerServer.v
PeerServerSpec.v
PeerUploadSpec.v
PeerSharedSpec.v
PeerClient.v
PeerClientSpec.v
PeerExchangeSpec.v
PeerPutSpec.v
PeerJsonSpec.v
PeerWitness.v
Agreement.v
AgentError.v
Agent.v
AgentCommands.v
AgentSpec.v
AgentSafety.v
AgentRemote.v
AgentMeeting.v
AgentWitness.v
AgentPull.v
AgentPullWitness.v
AgentPush.v
AgentPushWitness.v
AgentRound.v
AgentRoundPush.v
AgentRoundWitness.v
AgentRisks.v
DesktopCommand.v
Desktop.v
DesktopSpec.v
DesktopWitness.v
