(* ===== verification/Prelude.v ===== *)
(** * Syncer: a verification development

    Syncer (src/crates, Rust) keeps folders of paired devices in step.  A core
    library scans a folder into a SQLite database, compares two manifests of it
    and queues the transfers that follow; an agent pairs devices, serves its
    folder to them, and works its queue off against a peer over signed requests
    that carry encrypted files; a desktop backend configures folders and starts
    the agent on them.  The development models the library, the agent and the
    desktop backend, and proves what each promises, alone and together.

    ** How the program fits together

    A folder is a directory with a metadata directory [.syncer] that holds
    [folder.json] (the configuration) and [state.db].  [LinuxFolderScanner]
    walks the directory, turns every name into a [RelativePath] and upserts a
    [FileEntry]; a later [plan_manifest_sync] of the stored entries with those of
    a peer gives a [SyncPlan], which [enqueue_sync_plan] turns into rows
    of [sync_operations].  The agent works off the pending rows ([run_sync_queue]:
    scan, read the peer's manifest, downloads, then uploads); each request it
    sends is signed ([request_signing]), names files in percent encoding
    ([path_codec]) and carries file contents in the chunked format of
    [peer_crypto].  [profile] and [peer_store] keep the device's own identity,
    the pairing tickets it gave out and the peers it trusts.  The desktop backend
    keeps its folders in [state.json] and reaches everything else through command
    lines of the agent.

    ** The files, and what of the source each models

    - Prelude: results, the two effect monads, generic lemmas, tactics, the
      hint database [syncer].
      [result] is Rust's [Result] with the monad [?] works in; [M S E A] is a
      computation on a state [S] that ends in a [result] (an error keeps the
      changes made before it, as the source does without a transaction).
    - RustStd: what is used of Rust's standard library: [str] as bytes, [trim]
      over Unicode white space, UTF-8 decoding, [Path::components], [push],
      [join], [u64] arithmetic (saturating and wrapping), stable sorts.
    - External: one class per third-party crate, see below.
    - Error: core/error.rs, core/ids.rs.
    - Manifest: core/manifest.rs ([RelativePath], [FileEntry], block hashes).
    - Limits: core/limits.rs (the folder limit and its transfer planner).
    - Model: core/model.rs, core/security.rs (names, configuration, tickets).
    - Records: the records and enumerations of core/state_db.rs.
    - Planning: core/planning.rs (manifest comparison, three-way changes).
    - StateDb: the operations of [StateDatabase] in core/state_db.rs on the
      state [Database], one field per table; StateDbFacts has the
      well-formedness invariant [db_wf_at] ([db_typed] whatever the paths are, [db_wf]
      with paths that parse to themselves) and what each operation does to the
      tables, StateDbSpec the specifications and properties.
    - Migrations: [migrate] and [ensure_column] of core/state_db.rs.
    - FileSys: the file-system calls used, on a tree of entries.
    - FolderStore: core/folder_store.rs ([folder.json]).
    - Scanner: core/scanner.rs; ScannerSpec has its specification and proof.
    - PathCodec, RequestSigning, PeerCrypto: the files of the agent of the same
      names.  PeerStore: agent/profile.rs and agent/peer_store.rs.
    - HttpText: the text of HTTP messages, of both agent/peer_server.rs and
      agent/peer_client.rs, and the functions of [str] it needs.
    - PeerRequest: reading and authenticating a request (agent/peer_server.rs);
      its state [Server] is the connection, what was sent, the file system and
      the database.  PeerRequestSpec: what is read, who is let in.
    - PeerServer: the handlers of agent/peer_server.rs, [handle_stream] on top.
      PeerServerSpec: what a request can change; PeerUploadSpec: uploads, one and
      two at a time; PeerSharedSpec: the manifest, downloads and deletions.
    - PeerClient: agent/peer_client.rs.  PeerClientSpec: the messages it writes
      and reads; PeerExchangeSpec, PeerPutSpec: client and server together, for
      downloads and uploads, PeerJsonSpec for presence, manifests and deletions.
      PeerWitness: two small machines that run them.
    - AgentError: the errors of agent/main.rs and the texts stored with a failed
      operation.  Agent: the transfer engine of agent/main.rs, from one upload or
      download to [run_sync_queue] and [sync_loop], over an interface [World] to
      clocks, network and remote machine.  AgentCommands: one definition per
      command and the dispatch [run_command].
    - AgentSpec: requests do not depend on answers, the queue settles, the loop
      ends.  AgentSafety: what a run of the queue can do to local files.
    - Agreement: what two scanned folders that agree make of a plan and a queue.
      AgentRemote: an instance of [World] whose remote machine is the server of
      PeerServer; AgentPull and AgentPush: a queued download and a queued upload
      through it from end to end.  AgentMeeting: a round of sync-once up to its
      queue, and rounds between folders that agree; AgentRound and AgentRoundPush:
      a whole round that brings a file and one that sends a file.
      AgentRisks: two ways to lose a file.  AgentWitness, AgentPullWitness,
      AgentRoundWitness, AgentPushWitness: small machines.
    - DesktopCommand: linux-tauri's agent_command.rs; Desktop: its main.rs
      (src/apps/linux-tauri/src-tauri/src), [run_ui] on top.  DesktopSpec: what
      sessions of the desktop keep; DesktopWitness: a small desktop.

    Here core is src/crates/syncer-core/src and agent is
    src/crates/syncer-agent/src.  Names are the source's; a method [T::f] is
    [f] or [t_f] where the plain name is taken, and a field [f] of a record
    carries the record's initials.

    ** What is proved

    - Paths (Manifest, PathCodec): parsing as a function of the names of the
      trimmed text with every error; a parsed path never leaves the folder nor
      enters [.syncer]; which parsed paths parse to themselves; equality is
      equality of names; encoding and decoding of request paths.
    - Planning: a transfer never overwrites a file the other side knows and
      respects the sync mode; one entry per known path, in order; both sides
      compute mirrored plans; the summary counts.
    - Limits: the transfer planner refines a greedy specification over the queue
      in stable order of time, keeps the limit and loses nothing.
    - State database: in every database reachable through the operations, with
      any paths, a listing or aggregate fails only when a path it lists does not
      parse, and is the rows in their order otherwise ([listings_total], by rule
      induction over the reachable states); queuing a plan is atomic and replaces
      exactly the open operations of its peer; retry, blocked resolution, upsert, listing
      and aggregate operations, each on every branch.
    - Migrations: a database that lacks any of the later columns gets every
      column the queries name, what is there is kept, a second run changes nothing.
    - Folder store: [folder.json] reads back, and a process that dies inside or
      between the calls of a write leaves the old or the new document.  The write
      is one definition over the class [FileCalls]; its instance on watched disks
      collects the states each call passes through.  Nothing is synced to the
      disk, so a loss of power is not covered.
    - Scanner: the scan terminates and leaves the database holding exactly the
      files of the folder, everything else marked missing.
    - Agent: signatures verify, and one accepted for two requests means the same
      request (or two different signed texts with the same HMAC); decryption inverts encryption;
      nonces and associated data bind a chunk to its place; accepting a ticket
      trusts exactly its device; tickets expire when they say.
    - The peer protocol: whatever segments the network cuts the messages into,
      the request read is the request sent; a file fetched from or uploaded to a
      peer arrives unchanged, nothing else changes on either side, and the sender
      of an upload is told; no request overwrites a file, only a signed deletion
      that names size and hash of what is there removes one, and without a
      trusted signature nothing is answered or changed.
    - The transfer engine: whatever the remote machine and the network send, a run
      of the queue settles each operation it picks and replaces a local file only
      by a download planned against its present content, and only by content of
      the announced hash; the sync loop ends after its rounds.  Against the real
      server, whatever the network cuts messages into, a queued download brings
      the server's content into the folder and a queued upload the local content
      to the server, recorded, with the operation done.  A round of sync-once
      (presence, scan, plan, queue, transfer) brings a file only the server has,
      or sends one only the agent has, and afterwards both folders hold the same
      files and the databases list exactly those.  Between folders that hold
      the same files the loop transfers nothing, in any number of rounds.
    - The desktop backend: in every session the configured folders stay distinct,
      well-formed and reachable by id; adding one is all or nothing for the state
      file.
    - Limits of the code that modelling showed, each with a concrete run:
      parsing can fail on its own output (a name that ends in white space), and
      such a path, once stored, breaks every listing of its folder; one
      unacceptable name aborts a scan; an encryption with more reads than the size has
      chunks succeeds and cannot be decrypted; a file is never removed from the skipped list;
      the limit warning fires early when its product saturates; of two uploads of
      one path that are checked before either is moved the second replaces the
      first; the body of a rejected upload stays on the server's disk; an upload
      that replaces a remote file and does not fit there loses it; a deletion on
      both sides without a peer loses the local file; the desktop can never
      synchronise, since nothing it offers gives a folder a peer.

    ** Third-party code

    uuid, time, blake3, sqlx, serde_json, hex, sha2, hmac, the XChaCha20-Poly1305
    cipher and the key derivation are parameters: the fields of classes
    ([UuidLib], [TimeLib], [Blake3Lib], [SqlxLib], [SerdeJson], [HexLib],
    [Sha256Lib], [HmacLib] in External, the cipher in PeerCrypto).  What a
    theorem needs of them is a law of a second class ([UuidLaws], [SerdeLaws],
    [HexLaws], ...), which states documented behaviour: text forms read back,
    decryption inverts encryption under the same key, nonce and data.
    [External.Sample] and the [Sample] or [Witness] modules of other files
    instantiate every class by small functions and prove the laws of them; the
    witnesses run there.  How many bytes a [read] returns, the order of a
    directory listing, the clocks and random values are parameters or arguments.

    ** Fuel and bounds

    Sizes and counters are [Z] with the source's [u64], [u8] or [i64] range:
    saturating where the source saturates, checked where it converts, and modulo
    2^64 where a release build wraps.  The scanner's work list is run with any
    fuel of at least the number of entries of the file system;
    [scan_records_folder] proves the result under it, so the loop ends.  The sync
    loop takes fuel, since without a number of iterations it is to run for ever;
    with one, as much fuel as rounds is enough ([sync_loop_ends]).  [trim_start_matches]
    recurses on the length of its input.  The chunk loops recurse on the list of
    reads or the remaining bytes.

    ** Assumptions

    SQLite itself does not fail (a full disk, a locked database); its
    constraints and value ranges are modelled, and its clock gives times the time
    crate can hold (the theorems on the state database say so).  Rows that tie under an
    [ORDER BY] come in insertion order.  The file system follows no symbolic
    link and resolves no parent component; it does not change during a scan; its devices do
    not fail.  A transfer's source and destination are different files.  A write to
    a connection does not fail; opening a migrated database changes nothing;
    requests are handled one after another, but for the theorem on two uploads.
    A call of the agent's client is one exchange: what arrives is a function of
    what was sent, which is faithful because what a call sends does not depend on
    what arrives ([request_before_response]).  An agent works on one folder.
    A local file does not change during a run of the queue but by the run.  The
    agent leaves the desktop's state file alone ([leaves_state]).

    ** Not modelled

    Sockets, the spawning of processes, Tauri and the reading of command lines by
    clap are I/O or third-party code: the agent's commands start from the parsed
    [Command], the desktop's end at the argument list it starts a process with.
    What that process answers is a parameter of Desktop, since the two meet only
    in the texts clap and serde_json read.  Handlers of the server that run
    concurrently are modelled for two uploads of a path only.  The user interfaces
    (JavaScript, Kotlin), the crate roots and the build script hold no logic of
    the core. *)

From stdpp Require Export base numbers list gmap strings sorting.
From stdpp Require Import options.
From Stdlib Require Export ZArith Lia.

#[export] Set Warnings "-clear-no-such-hyp".

(** ** Results and the two effect monads *)

(** [Result<A, E>]. *)
Inductive result (E A : Type) : Type :=
| Ok (a : A)
| Err (e : E).
Arguments Ok {E A} a.
Arguments Err {E A} e.

#[global] Instance result_ret E : MRet (result E) := λ A a, Ok a.
#[global] Instance result_bind E : MBind (result E) := λ A B f r,
  match r with Ok a => f a | Err e => Err e end.
#[global] Instance result_fmap E : FMap (result E) := λ A B f r,
  match r with Ok a => Ok (f a) | Err e => Err e end.

Definition map_err {E F A} (f : E → F) (r : result E A) : result F A :=
  match r with Ok a => Ok a | Err e => Err (f e) end.

Definition ok_or {E A} (e : E) (o : option A) : result E A :=
  match o with Some a => Ok a | None => Err e end.

Definition result_ok {E A} (r : result E A) : option A :=
  match r with Ok a => Some a | Err _ => None end.

Definition is_ok {E A} (r : result E A) : bool :=
  match r with Ok _ => true | Err _ => false end.

(** [Option<Result<A, E>>::transpose] after [Option::map]. *)
Definition traverse_option {E A B} (f : A → result E B) (o : option A)
    : result E (option B) :=
  match o with None => Ok None | Some a => b ← f a; Ok (Some b) end.

(** A computation over a state [S]: the state reached is kept when the
    computation fails, as the side effects of an early [?] return are. *)
Definition M (S E A : Type) : Type := S → result E A * S.

#[global] Instance M_ret S E : MRet (M S E) := λ A a s, (Ok a, s).
#[global] Instance M_bind S E : MBind (M S E) := λ A B f m s,
  match m s with (Ok a, s') => f a s' | (Err e, s') => (Err e, s') end.

Definition lift {S E A} (r : result E A) : M S E A := λ s, (r, s).
Definition get_st {S E} : M S E S := λ s, (Ok s, s).
Definition modify {S E} (f : S → S) : M S E unit := λ s, (Ok tt, f s).
Definition throw {S E A} (e : E) : M S E A := λ s, (Err e, s).

(** A computation on a part of the state, with its error mapped. *)
Definition zoom {S T E F A} (part : T → S) (put : S → T → T) (f : E → F) (m : M S E A) : M T F A :=
  λ t, match m (part t) with
       | (Ok a, s) => (Ok a, put s t)
       | (Err e, s) => (Err (f e), put s t)
       end.

Fixpoint forM_ {S E A} (f : A → M S E unit) (l : list A) : M S E unit :=
  match l with
  | [] => mret tt
  | x :: l => _ ← f x; forM_ f l
  end.

(** A loop that threads local variables [b] and leaves early on an error. *)
Fixpoint foldM {S E A B} (f : B → A → M S E B) (b : B) (l : list A) : M S E B :=
  match l with
  | [] => mret b
  | x :: l => b' ← f b x; foldM f b' l
  end.

(** ** Machine integers *)

Definition u64_max : Z := 18446744073709551615.
Definition i64_max : Z := 9223372036854775807.
Definition i64_min : Z := -9223372036854775808.

Definition is_u64 (z : Z) : Prop := (0 ≤ z ≤ u64_max)%Z.
Definition is_i64 (z : Z) : Prop := (i64_min ≤ z ≤ i64_max)%Z.

Definition u64_saturating_add (a b : Z) : Z := Z.min (a + b) u64_max.
Definition u64_saturating_sub (a b : Z) : Z := Z.max (a - b) 0.
Definition u64_saturating_mul (a b : Z) : Z := Z.min (a * b) u64_max.
(** [+] on [u64] in a release build: it wraps. *)
Definition u64_wrapping_add (a b : Z) : Z := ((a + b) mod (u64_max + 1))%Z.
(** [i64::try_from] of a [u64] and [u64::try_from] of an [i64]. *)
Definition i64_try_from_u64 (z : Z) : option Z :=
  if (z <=? i64_max)%Z then Some z else None.
Definition u64_try_from_i64 (z : Z) : option Z :=
  if (0 <=? z)%Z then Some z else None.

(** [counter = counter.saturating_add(1)] guarded by a match arm. *)
Definition bump (b : bool) (n : Z) : Z := if b then u64_saturating_add n 1 else n.

(** ** A stable sort ([slice::sort_by_key], [ORDER BY]) *)

Section sort.
Context {A : Type} (le : A → A → bool).

Fixpoint insert_by (x : A) (l : list A) : list A :=
  match l with
  | [] => [x]
  | y :: l' => if le x y then x :: y :: l' else y :: insert_by x l'
  end.

Definition sort_by (l : list A) : list A := foldr insert_by [] l.

Definition total_by : Prop := ∀ x y, le x y = true ∨ le y x = true.
Definition trans_by : Prop := ∀ x y z, le x y = true → le y z = true → le x z = true.
Definition sorted_by (l : list A) : Prop := StronglySorted (λ x y, le x y = true) l.

End sort.

(** The number of elements that satisfy a test, as the program counts. *)
Definition countb {A} (p : A → bool) (l : list A) : nat := length (filter (λ x, p x = true) l).

(** ** Automation *)

Create HintDb syncer discriminated.
Create Rewrite HintDb syncer.

(** Case analysis on the scrutinee of the first match in the goal or in [H]. *)
Ltac case_match_goal :=
  match goal with |- context [match ?x with _ => _ end] => destruct x eqn:? end.
Ltac case_match_in H :=
  match type of H with context [match ?x with _ => _ end] => destruct x eqn:? end.

(** Take a successful monadic computation apart. *)
Ltac inv_ok H :=
  repeat first
    [ progress simplify_eq/=
    | match type of H with
      | (mbind _ ?r) = Ok _ => destruct r eqn:?; [|discriminate H]
      | (mbind _ ?r) = Err _ => destruct r eqn:?
      end
    | match type of H with context [if ?b then _ else _] => destruct b eqn:? end ].

(** ** Lemmas: results *)

Lemma result_bind_Ok {E A B} (f : A → result E B) (r : result E A) b :
  (a ← r; f a) = Ok b ↔ ∃ a, r = Ok a ∧ f a = Ok b.
Proof. destruct r; naive_solver. Qed.

Lemma map_err_Ok {E F A} (f : E → F) (r : result E A) a :
  map_err f r = Ok a ↔ r = Ok a.
Proof. destruct r; naive_solver. Qed.

Lemma ok_or_Ok {E A} (e : E) (o : option A) a : ok_or e o = Ok a ↔ o = Some a.
Proof. destruct o; naive_solver. Qed.

Lemma result_mapM_Ok {E A B} (f : A → result E B) l k :
  mapM f l = Ok k ↔ Forall2 (λ x y, f x = Ok y) l k.
Proof.
  revert k; induction l as [|x l IH]; intros k; simpl.
  { split; [intros [= <-]; constructor | by inversion 1]. }
  rewrite result_bind_Ok. split.
  - intros (y & Hy & (k' & Hk & [= <-])%result_bind_Ok). constructor; naive_solver.
  - inversion 1 as [|? y ? k' Hy Hk]; subst. exists y; split; [done|].
    apply result_bind_Ok. exists k'. split; [by apply IH | done].
Qed.

Lemma result_mapM_total {E A B} (f : A → result E B) l :
  (∀ x, x ∈ l → ∃ y, f x = Ok y) → ∃ k, mapM f l = Ok k.
Proof.
  induction l as [|x l IH]; intros H; simpl; [by exists []|].
  destruct (H x) as [y ->]; [left|]. simpl.
  destruct IH as [k ->]; [intros; apply H; by right|]. by eexists.
Qed.

Lemma result_mapM_fmap {E A B} (f : A → result E B) (g : A → B) l :
  (∀ x, x ∈ l → f x = Ok (g x)) → mapM f l = Ok (g <$> l).
Proof.
  induction l as [|x l IH]; intros H; [done|]. simpl.
  rewrite (H x) by left. simpl. rewrite IH; [done|]. intros; apply H; by right.
Qed.

Lemma result_mapM_err {E A B} (f : A → result E B) l x :
  x ∈ l → is_ok (f x) = false → is_ok (mapM f l) = false.
Proof.
  induction 1 as [l|y z l ? IH]; intros Hx; simpl.
  - by destruct (f _).
  - destruct (f z); simpl; [|done]. specialize (IH Hx). by destruct (mapM f l).
Qed.

Lemma result_mapM_ext {E A B} (f g : A → result E B) l :
  (∀ x, x ∈ l → f x = g x) → mapM f l = mapM g l.
Proof.
  induction l as [|x l IH]; intros H; [done|]. simpl. rewrite (H x) by left.
  rewrite IH; [done|]. intros; apply H; by right.
Qed.

Lemma result_mapM_is_ok {E A B} (f : A → result E B) l :
  is_ok (mapM f l) = true ↔ ∀ x, x ∈ l → is_ok (f x) = true.
Proof.
  split.
  - intros Hok x Hx. destruct (is_ok (f x)) eqn:E0; [done|]. by rewrite (result_mapM_err f l x) in Hok.
  - intros Hall. destruct (result_mapM_total f l) as [k ->]; [|done].
    intros x Hx. specialize (Hall x Hx). destruct (f x) as [y|]; [by exists y|done].
Qed.

Lemma traverse_option_Ok {E A B} (f : A → result E B) o b :
  traverse_option f o = Ok b ↔
  (o = None ∧ b = None) ∨ (∃ x y, o = Some x ∧ f x = Ok y ∧ b = Some y).
Proof.
  destruct o as [x|]; simpl; [|naive_solver].
  rewrite result_bind_Ok. naive_solver.
Qed.

(** ** Lemmas: the state monad *)

Lemma M_bind_eq {S E A B} (f : A → M S E B) (m : M S E A) s :
  (x ← m; f x) s = match m s with (Ok a, s') => f a s' | (Err e, s') => (Err e, s') end.
Proof. done. Qed.

Lemma bind_lift_Ok {S E A B} (f : A → M S E B) (a : A) s : (x ← lift (Ok a); f x) s = f a s.
Proof. done. Qed.
Lemma bind_lift_Err {S E A B} (f : A → M S E B) (e : E) s : (x ← lift (Err e); f x) s = (Err e, s).
Proof. done. Qed.
Lemma bind_Ok {S E A B} (m : M S E A) (f : A → M S E B) s a s' :
  m s = (Ok a, s') → (x ← m; f x) s = f a s'.
Proof. intros H. by rewrite M_bind_eq, H. Qed.
Lemma bind_Err {S E A B} (m : M S E A) (f : A → M S E B) s e s' :
  m s = (Err e, s') → (x ← m; f x) s = (Err e, s').
Proof. intros H. by rewrite M_bind_eq, H. Qed.

Lemma forM_app {S E A} (f : A → M S E unit) l1 l2 s :
  forM_ f (l1 ++ l2) s = (_ ← forM_ f l1; forM_ f l2) s.
Proof.
  revert s; induction l1 as [|x l1 IH]; intros s; [done|].
  unfold mbind, M_bind in *. simpl. unfold mbind, M_bind in *.
  destruct (f x s) as [[[]|] s']; [|done]. by rewrite IH.
Qed.

(** A step that fails whatever the state makes the loop fail. *)
Lemma foldM_err {S E A B} (f : B → A → M S E B) x l :
  x ∈ l → (∀ b s, is_ok (f b x s).1 = false) → ∀ b s, is_ok (foldM f b l s).1 = false.
Proof.
  induction 1 as [x l|x y l _ IH]; intros Hx b s; cbn [foldM]; rewrite M_bind_eq.
  - specialize (Hx b s). by destruct (f b x s) as [[]].
  - destruct (f b y s) as [[b'|e] s']; [by apply IH|done].
Qed.

(** *** Invariants of a computation: whatever it answers, it keeps [P] *)

Definition preserves {S E A} (P : S → Prop) (m : M S E A) : Prop := ∀ s, P s → P (m s).2.

Section preserves.
Context {S E : Type} (P : S → Prop).

Lemma preserves_ret {A} (a : A) : preserves P (mret a : M S E A).
Proof. by intros s. Qed.
Lemma preserves_lift {A} (r : result E A) : preserves P (lift r).
Proof. by intros s. Qed.
Lemma preserves_throw {A} (e : E) : preserves P (throw e : M S E A).
Proof. by intros s. Qed.
Lemma preserves_get : preserves P (get_st : M S E S).
Proof. by intros s. Qed.
Lemma preserves_modify (f : S → S) : (∀ s, P s → P (f s)) → preserves P (modify f : M S E unit).
Proof. intros H s. apply H. Qed.
Lemma preserves_bind {A B} (m : M S E A) (f : A → M S E B) :
  preserves P m → (∀ a, preserves P (f a)) → preserves P (m ≫= f).
Proof.
  intros Hm Hf s Hs. rewrite M_bind_eq. specialize (Hm s Hs). destruct (m s) as [[a|e] s']; [|done].
  by apply Hf.
Qed.
Lemma preserves_bind_lift {A B} (r : result E A) (f : A → M S E B) :
  (∀ a, r = Ok a → preserves P (f a)) → preserves P (lift r ≫= f).
Proof. intros Hf s Hs. rewrite M_bind_eq. unfold lift. destruct r as [a|e]; [by apply Hf|done]. Qed.
Lemma preserves_forM {A} (f : A → M S E unit) l :
  (∀ x, x ∈ l → preserves P (f x)) → preserves P (forM_ f l).
Proof.
  induction l as [|x l IH]; intros H; [apply preserves_ret|]. simpl.
  apply preserves_bind; [by apply H; left|]. intros []. apply IH. intros; apply H; by right.
Qed.

Lemma preserves_foldM {A B} (f : B → A → M S E B) l :
  (∀ b x, x ∈ l → preserves P (f b x)) → ∀ b, preserves P (foldM f b l).
Proof.
  induction l as [|x l IH]; intros Hf b; [apply preserves_ret|]. cbn [foldM].
  apply preserves_bind; [by apply Hf; left|]. intros b'. apply IH. intros b1 y Hy. by apply Hf; right.
Qed.

Lemma preserves_if {A} (b : bool) (m1 m2 : M S E A) :
  preserves P m1 → preserves P m2 → preserves P (if b then m1 else m2).
Proof. by destruct b. Qed.

(** A computation that never changes the state. *)
Lemma preserves_read {A} (m : M S E A) : (∀ s, (m s).2 = s) → preserves P m.
Proof. intros H s Hs. by rewrite H. Qed.
End preserves.

(** A computation on a part: the invariant speaks of that part, or of the rest. *)
Lemma preserves_zoom {S T E F A} (part : T → S) (put : S → T → T) (f : E → F) (P : S → Prop)
    (m : M S E A) :
  (∀ s t, part (put s t) = s) → preserves P m → preserves (λ t, P (part t)) (zoom part put f m).
Proof.
  intros Hp Hm t Ht. unfold zoom. specialize (Hm _ Ht). destruct (m (part t)) as [[a|e] s]; simpl;
    by rewrite Hp.
Qed.
Lemma preserves_zoom_rest {S T E F A} (part : T → S) (put : S → T → T) (f : E → F) (P : T → Prop)
    (m : M S E A) :
  (∀ s t, P t → P (put s t)) → preserves P (zoom part put f m).
Proof. intros Hp t Ht. unfold zoom. destruct (m (part t)) as [[a|e] s]; by apply Hp. Qed.

#[export] Hint Resolve preserves_ret preserves_lift preserves_throw preserves_get : syncer.

(** A computation keeps what each of its steps keeps. *)
Ltac keep_steps :=
  repeat first
    [ solve [eauto with syncer]
    | match goal with
      | |- preserves _ (mbind _ (lift _)) => apply preserves_bind_lift; intros
      | |- preserves _ (mbind _ _) => apply preserves_bind; [|intros]
      | |- preserves _ (if _ then _ else _) => apply preserves_if
      | |- preserves _ (match ?x with _ => _ end) => destruct x
      | |- preserves _ (let _ := _ in _) => cbv zeta
      end ].

(** *** Post-conditions: what holds when a computation succeeds, by its last step *)

Definition ends {S E A} (Q : A → S → Prop) (m : M S E A) : Prop :=
  ∀ s a s', m s = (Ok a, s') → Q a s'.

Section ends.
Context {S E A : Type} (Q : A → S → Prop).

Lemma ends_throw (e : E) : ends Q (throw e).
Proof. by intros s a s'. Qed.
Lemma ends_bind {B} (m : M S E B) (f : B → M S E A) : (∀ b, ends Q (f b)) → ends Q (m ≫= f).
Proof.
  intros Hf s a s'. rewrite M_bind_eq. destruct (m s) as [[b|e] s1]; [apply Hf|done].
Qed.
End ends.

Ltac end_steps :=
  repeat match goal with
  | |- ends _ (throw _) => apply ends_throw
  | |- ends _ (if _ then _ else _) => case_match
  | |- ends _ (let _ := _ in _) => cbv zeta
  end.

(** ** Lemmas: integers *)

Lemma i64_try_from_u64_Some z v :
  i64_try_from_u64 z = Some v ↔ v = z ∧ (z ≤ i64_max)%Z.
Proof. unfold i64_try_from_u64. destruct (Z.leb_spec z i64_max); naive_solver lia. Qed.

Lemma u64_try_from_i64_Some z v :
  u64_try_from_i64 z = Some v ↔ v = z ∧ (0 ≤ z)%Z.
Proof. unfold u64_try_from_i64. destruct (Z.leb_spec 0 z); naive_solver lia. Qed.

Lemma foldl_proj {S T A} (π : S → T) (f : S → A → S) (g : T → A → T) l s :
  (∀ s x, π (f s x) = g (π s) x) → π (foldl f s l) = foldl g (π s) l.
Proof. intros H. revert s; induction l as [|x l IH]; intros s; simpl; [done|]. by rewrite IH, H. Qed.

Lemma foldl_const {A B} (l : list A) (b : B) : foldl (λ acc _, acc) b l = b.
Proof. by induction l. Qed.

Lemma countb_cons {A} (p : A → bool) x l :
  countb p (x :: l) = ((if p x then 1 else 0) + countb p l)%nat.
Proof. unfold countb. rewrite filter_cons. by destruct (p x). Qed.

Lemma countb_false {A} (l : list A) : countb (λ _, false) l = 0%nat.
Proof. by induction l. Qed.

Lemma countb_app {A} (p : A → bool) l1 l2 : countb p (l1 ++ l2) = countb p l1 + countb p l2.
Proof. unfold countb. by rewrite filter_app, length_app. Qed.

Lemma countb_le {A} (p : A → bool) l : countb p l ≤ length l.
Proof. apply length_filter. Qed.

Lemma countb_ext {A} (p q : A → bool) l : (∀ x, x ∈ l → p x = q x) → countb p l = countb q l.
Proof.
  induction l as [|x l IH]; intros H; [done|]. rewrite !countb_cons, (H x) by left.
  by rewrite IH by (intros; apply H; by right).
Qed.

Lemma countb_fmap {A B} (p : B → bool) (f : A → B) l : countb p (f <$> l) = countb (λ x, p (f x)) l.
Proof. induction l as [|x l IH]; [done|]. by rewrite fmap_cons, !countb_cons, IH. Qed.

Lemma countb_perm {A} (p : A → bool) l k : l ≡ₚ k → countb p l = countb p k.
Proof. intros H. unfold countb. by rewrite H. Qed.

(** Counting with [saturating_add] is exact until the counter is full. *)
Lemma foldl_bump {A} (p : A → bool) l n :
  (0 ≤ n ≤ u64_max)%Z →
  foldl (λ acc x, bump (p x) acc) n l = Z.min (n + Z.of_nat (countb p l)) u64_max.
Proof.
  revert n; induction l as [|x l IH]; intros n Hn; simpl.
  { unfold countb; simpl. lia. }
  rewrite countb_cons. unfold bump, u64_saturating_add in *.
  destruct (p x); rewrite IH; lia.
Qed.

(** ** Lemmas: the sort *)

Section sort_facts.
Context {A : Type} (le : A → A → bool).

Lemma insert_by_perm x l : insert_by le x l ≡ₚ x :: l.
Proof.
  induction l as [|y l IH]; simpl; [done|]. destruct (le x y); [done|].
  rewrite IH. apply Permutation_swap.
Qed.

Lemma sort_by_perm l : sort_by le l ≡ₚ l.
Proof. induction l as [|x l IH]; simpl; [done|]. by rewrite insert_by_perm, IH. Qed.

Lemma sort_by_elem x l : x ∈ sort_by le l ↔ x ∈ l.
Proof. by rewrite sort_by_perm. Qed.

Lemma sort_by_length l : length (sort_by le l) = length l.
Proof. by rewrite sort_by_perm. Qed.

Lemma insert_by_sorted x l :
  total_by le → trans_by le → sorted_by le l → sorted_by le (insert_by le x l).
Proof.
  intros Ht Htr. induction l as [|y l IH]; intros Hs; simpl; [repeat constructor|].
  apply StronglySorted_inv in Hs as [Hs Hall].
  destruct (le x y) eqn:E.
  - repeat constructor; [done|done|done|]. eapply Forall_impl; [done|]. eauto.
  - constructor; [by apply IH|]. rewrite insert_by_perm. constructor; [|done].
    destruct (Ht x y); congruence.
Qed.

Lemma sort_by_sorted l : total_by le → trans_by le → sorted_by le (sort_by le l).
Proof. intros. induction l as [|x l IH]; simpl; [constructor|]. by apply insert_by_sorted. Qed.

(** Elements the order does not separate keep their original order. *)
Lemma insert_by_stable x l z :
  total_by le → trans_by le → sorted_by le l →
  filter (λ y, le z y && le y z = true) (insert_by le x l)
  = filter (λ y, le z y && le y z = true) (x :: l).
Proof.
  intros Ht Htr. induction l as [|y l IH]; intros Hs; simpl; [done|].
  apply StronglySorted_inv in Hs as [Hs Hall].
  destruct (le x y) eqn:E; [done|].
  rewrite filter_cons, IH by done. rewrite !filter_cons.
  destruct (decide _) as [H1|]; [|done]. destruct (decide _) as [H2|]; [|done].
  apply andb_true_iff in H1 as [? ?]. apply andb_true_iff in H2 as [? ?].
  assert (le x y = true) by eauto. congruence.
Qed.

Lemma sort_by_stable l z :
  total_by le → trans_by le →
  filter (λ y, le z y && le y z = true) (sort_by le l)
  = filter (λ y, le z y && le y z = true) l.
Proof.
  intros Ht Htr. induction l as [|x l IH]; [done|]. simpl.
  rewrite insert_by_stable by (done || by apply sort_by_sorted).
  rewrite !filter_cons, IH. done.
Qed.

(** A list that is already in order is left as it is. *)
Lemma sort_by_id l : sorted_by le l → sort_by le l = l.
Proof.
  induction 1 as [|x l Hs IH Hall]; [done|]. simpl. rewrite IH.
  destruct Hall as [|y l Hxy]; simpl; [done|]. by rewrite Hxy.
Qed.

Lemma sorted_by_nodup_unique l1 l2 :
  (∀ x y, le x y = true → le y x = true → x = y) →
  sorted_by le l1 → sorted_by le l2 → l1 ≡ₚ l2 → l1 = l2.
Proof. intros Ha. apply StronglySorted_unique_strong. eauto. Qed.

End sort_facts.

(** ** Lemmas: lists *)

Lemma omap_cons_eq {A B} (f : A → option B) x (l : list A) :
  omap f (x :: l) = match f x with Some y => y :: omap f l | None => omap f l end.
Proof. done. Qed.

Lemma list_find_first {A} (P : A → Prop) `{∀ x, Decision (P x)} (l : list A) :
  (∃ i x, list_find P l = Some (i, x)) ↔ Exists P l.
Proof.
  rewrite Exists_exists. split.
  - intros (i & x & (? & ? & ?)%list_find_Some). exists x. split; [by eapply list_elem_of_lookup_2|done].
  - intros (x & Hx & HP). destruct (list_find_elem_of P l x Hx HP) as [[i y] ?]. eauto.
Qed.

(** A separator determines both sides, when one of them does not hold it. *)
Lemma app_sep_inj_l {A} (x : A) (a b c d : list A) :
  x ∉ a → x ∉ c → a ++ x :: b = c ++ x :: d → a = c ∧ b = d.
Proof.
  revert c; induction a as [|y a IH]; intros [|z c] Ha Hc H; simplify_eq/=; try done.
  - by destruct Hc; left.
  - by destruct Ha; left.
  - destruct (IH c) as [-> ->]; [by intros ?; apply Ha; right|by intros ?; apply Hc; right|done|done].
Qed.

Lemma app_sep_inj_r {A} (x : A) (a b c d : list A) :
  x ∉ b → x ∉ d → a ++ x :: b = c ++ x :: d → a = c ∧ b = d.
Proof.
  intros Hb Hd H. apply (f_equal reverse) in H. rewrite !reverse_app, !reverse_cons, <-!app_assoc in H.
  apply app_sep_inj_l in H as [H1 H2]; [|by rewrite elem_of_reverse..].
  by apply (inj reverse) in H1, H2.
Qed.

Lemma fmap_eq_elem {A B} (f g : A → B) (l : list A) : f <$> l = g <$> l → ∀ x, x ∈ l → f x = g x.
Proof.
  induction l as [|y l IH]; intros H x Hx; [by apply not_elem_of_nil in Hx|].
  rewrite !fmap_cons in H. pose proof (f_equal (head (A := B)) H) as Hh. pose proof (f_equal tail H) as Ht.
  apply elem_of_cons in Hx as [->|Hx]; [by injection Hh|by apply IH].
Qed.
