(* ===== verification/RustStd.v ===== *)
(** * The parts of Rust's standard library the sources use

    A [str] is the sequence of its UTF-8 bytes (Rocq's [string] is a sequence of
    8-bit [ascii]).  [trim] removes the bytes of every [White_Space] character,
    [chars] decodes UTF-8, paths follow [std::path] on Unix (camino's [Utf8Path]
    is a UTF-8 restricted wrapper of [std::path::Path] with the same [components],
    [push], [join] and [is_absolute]). *)

From S2P Require Import Prelude.
From stdpp Require Import options pretty.
From Stdlib Require Ascii String.

Abbreviation ascii := Ascii.ascii.

(** ** Bytes and strings *)

Definition byte_val (a : ascii) : N := Ascii.N_of_ascii a.
Definition bytes (s : string) : list ascii := String.list_ascii_of_string s.
Definition of_bytes (l : list ascii) : string := String.string_of_list_ascii l.

Definition between (lo hi n : N) : bool := (lo <=? n)%N && (n <=? hi)%N.
Definition is_byte (n : N) (a : ascii) : bool := (byte_val a =? n)%N.

(** Byte-wise order of [str] ([Ord for str], [ORDER BY] with BINARY collation). *)
Definition str_le (s t : string) : bool := String.leb s t.

(** ** [str::trim] *)

Definition ws1 (a : ascii) : bool :=
  let n := byte_val a in between 9 13 n || (n =? 32)%N.
Definition ws2 (a b : ascii) : bool :=
  is_byte 194 a && (is_byte 133 b || is_byte 160 b).
Definition ws3 (a b c : ascii) : bool :=
  let n := byte_val c in
  (is_byte 225 a && is_byte 154 b && is_byte 128 c)
  || (is_byte 226 a && is_byte 128 b
      && (between 128 138 n || (n =? 168)%N || (n =? 169)%N || (n =? 175)%N))
  || (is_byte 226 a && is_byte 129 b && is_byte 159 c)
  || (is_byte 227 a && is_byte 128 b && is_byte 128 c).

Fixpoint trim_start_l (l : list ascii) : list ascii :=
  match l with
  | a :: l1 =>
      if ws1 a then trim_start_l l1 else
      match l1 with
      | b :: l2 =>
          if ws2 a b then trim_start_l l2 else
          match l2 with
          | c :: l3 => if ws3 a b c then trim_start_l l3 else l
          | [] => l
          end
      | [] => l
      end
  | [] => []
  end.

(** The same walk from the other end, on the reversed bytes. *)
Fixpoint trim_end_rev (l : list ascii) : list ascii :=
  match l with
  | c :: l1 =>
      if ws1 c then trim_end_rev l1 else
      match l1 with
      | b :: l2 =>
          if ws2 b c then trim_end_rev l2 else
          match l2 with
          | a :: l3 => if ws3 a b c then trim_end_rev l3 else l
          | [] => l
          end
      | [] => l
      end
  | [] => []
  end.

(** What [trim_start_l] tests on the bytes at the head of the list. *)
Definition no_ws_head (l : list ascii) : bool :=
  match l with
  | [] => true
  | a :: l1 =>
      negb (ws1 a) && match l1 with
                      | [] => true
                      | b :: l2 => negb (ws2 a b) && match l2 with
                                                     | [] => true
                                                     | c :: _ => negb (ws3 a b c)
                                                     end
                      end
  end.
Definition no_ws_tail (l : list ascii) : bool :=
  match l with
  | [] => true
  | c :: l1 =>
      negb (ws1 c) && match l1 with
                      | [] => true
                      | b :: l2 => negb (ws2 b c) && match l2 with
                                                     | [] => true
                                                     | a :: _ => negb (ws3 a b c)
                                                     end
                      end
  end.

Definition trim_bytes (l : list ascii) : list ascii :=
  rev (trim_end_rev (rev (trim_start_l l))).
Definition trim (s : string) : string := of_bytes (trim_bytes (bytes s)).

(** ** UTF-8 *)

Definition cont (a : ascii) : bool := between 128 191 (byte_val a).
Definition cont_bits (a : ascii) : N := N.land (byte_val a) 63.

(** Strict UTF-8 decoding ([String::from_utf8], [str::chars]). *)
Fixpoint utf8_decode (l : list ascii) : option (list N) :=
  match l with
  | [] => Some []
  | a :: l1 =>
      let n := byte_val a in
      if (n <? 128)%N then cons n <$> utf8_decode l1 else
      match l1 with
      | [] => None
      | b :: l2 =>
          if between 194 223 n && cont b then
            cons (N.lor (N.shiftl (N.land n 31) 6) (cont_bits b)) <$> utf8_decode l2
          else
          match l2 with
          | [] => None
          | c :: l3 =>
              if between 224 239 n && cont b && cont c
                 && implb (n =? 224)%N (160 <=? byte_val b)%N
                 && implb (n =? 237)%N (byte_val b <=? 159)%N then
                cons (N.lor (N.shiftl (N.land n 15) 12)
                       (N.lor (N.shiftl (cont_bits b) 6) (cont_bits c))) <$> utf8_decode l3
              else
              match l3 with
              | [] => None
              | d :: l4 =>
                  if between 240 244 n && cont b && cont c && cont d
                     && implb (n =? 240)%N (144 <=? byte_val b)%N
                     && implb (n =? 244)%N (byte_val b <=? 143)%N then
                    cons (N.lor (N.shiftl (N.land n 7) 18)
                           (N.lor (N.shiftl (cont_bits b) 12)
                              (N.lor (N.shiftl (cont_bits c) 6) (cont_bits d))))
                      <$> utf8_decode l4
                  else None
              end
          end
      end
  end.

Definition utf8_valid (s : string) : bool :=
  match utf8_decode (bytes s) with Some _ => true | None => false end.
(** [String::from_utf8(bytes).ok()]. *)
Definition from_utf8 (l : list ascii) : option string :=
  match utf8_decode l with Some _ => Some (of_bytes l) | None => None end.
Definition chars (s : string) : list N := default [] (utf8_decode (bytes s)).

(** [char::is_control]: the Unicode category Cc. *)
Definition is_control (c : N) : bool := (c <? 32)%N || between 127 159 c.

(** ** Splitting *)

Fixpoint split_bytes (sep : ascii) (l : list ascii) : list (list ascii) :=
  match l with
  | [] => [[]]
  | a :: l1 =>
      if Ascii.eqb a sep then [] :: split_bytes sep l1
      else match split_bytes sep l1 with
           | seg :: segs => (a :: seg) :: segs
           | [] => [[a]]
           end
  end.
(** [str::split(char)]. *)
Definition split_on (sep : ascii) (s : string) : list string :=
  of_bytes <$> split_bytes sep (bytes s).

Fixpoint join_bytes (sep : ascii) (segs : list (list ascii)) : list ascii :=
  match segs with
  | [] => []
  | seg :: rest => match rest with [] => seg | _ => seg ++ sep :: join_bytes sep rest end
  end.
(** [[&str]::join]. *)
Definition join_with (sep : ascii) (segs : list string) : string :=
  of_bytes (join_bytes sep (bytes <$> segs)).

Fixpoint strip_prefix_l (p l : list ascii) : option (list ascii) :=
  match p, l with
  | [], _ => Some l
  | a :: p, b :: l => if Ascii.eqb a b then strip_prefix_l p l else None
  | _ :: _, [] => None
  end.
Definition starts_with (s p : string) : bool :=
  match strip_prefix_l (bytes p) (bytes s) with Some _ => true | None => false end.

(** [str::trim_start_matches(&str)] for a non-empty pattern: every leading copy goes. *)
Fixpoint trim_start_matches_fuel (fuel : nat) (p l : list ascii) : list ascii :=
  match fuel with
  | O => l
  | S fuel => match strip_prefix_l p l with
              | Some l' => trim_start_matches_fuel fuel p l'
              | None => l
              end
  end.
Definition trim_start_matches (p s : string) : string :=
  of_bytes (trim_start_matches_fuel (length (bytes s)) (bytes p) (bytes s)).

(** ** [std::path] on Unix *)

Definition slash : ascii := Ascii.ascii_of_N 47.

Inductive Component :=
| RootDir
| CurDir
| ParentDir
| Normal (part : string).

#[export] Instance Component_eq_dec : EqDecision Component.
Proof. solve_decision. Defined.

Definition is_absolute (path : string) : bool :=
  match path with String a _ => Ascii.eqb a slash | EmptyString => false end.

(** A segment between separators: empty segments and [.] disappear. *)
Definition segment_component (seg : string) : option Component :=
  if bool_decide (seg = "") then None
  else if bool_decide (seg = ".") then None
  else if bool_decide (seg = "..") then Some ParentDir
  else Some (Normal seg).

Definition components (path : string) : list Component :=
  let segs := split_on slash path in
  if is_absolute path then RootDir :: omap segment_component segs
  else match segs with
       | seg :: rest =>
           if bool_decide (seg = ".") then CurDir :: omap segment_component rest
           else omap segment_component segs
       | [] => []
       end.

Definition component_as_str (c : Component) : string :=
  match c with
  | RootDir => "/"
  | CurDir => "."
  | ParentDir => ".."
  | Normal part => part
  end.

Definition ends_with_slash (s : string) : bool :=
  match last (bytes s) with Some a => Ascii.eqb a slash | None => false end.

(** [Utf8PathBuf::push] (and [join] on a copy). *)
Definition path_push (buf part : string) : string :=
  if is_absolute part then part
  else if bool_decide (buf = "") || ends_with_slash buf
  then String.append buf part
  else String.append buf (String.append "/" part).

(** [Path]'s [PartialEq] compares components. *)
Definition path_eqb (p q : string) : bool :=
  bool_decide (components p = components q).

(** A name a directory entry can have. *)
Definition valid_name (n : string) : Prop :=
  n ≠ "" ∧ n ≠ "." ∧ n ≠ ".." ∧ slash ∉ bytes n.

(** ** Integers as text *)

(** The decimal digits of [u64::to_string] and [i64::to_string]. *)
Definition digit_val (a : ascii) : option Z :=
  let n := byte_val a in
  if between 48 57 n then Some (Z.of_N n - 48)%Z else None.

Fixpoint parse_digits (acc : Z) (l : list ascii) : option Z :=
  match l with
  | [] => Some acc
  | a :: l => match digit_val a with
              | Some d => parse_digits (10 * acc + d)%Z l
              | None => None
              end
  end.

(** [str::parse] for an unsigned type with the given maximum: an optional [+],
    at least one digit, nothing else, and no overflow. *)
Definition parse_unsigned (max : Z) (s : string) : option Z :=
  let digits l := match l with
                  | [] => None
                  | _ => match parse_digits 0 l with
                         | Some v => if (v <=? max)%Z then Some v else None
                         | None => None
                         end
                  end in
  match bytes s with
  | a :: l => if is_byte 43 a then digits l else digits (a :: l)
  | [] => None
  end.

(** ** Lemmas: bytes *)

Lemma of_bytes_bytes s : of_bytes (bytes s) = s.
Proof. apply String.string_of_list_ascii_of_string. Qed.
Lemma bytes_of_bytes l : bytes (of_bytes l) = l.
Proof. apply String.list_ascii_of_string_of_list_ascii. Qed.
Lemma bytes_inj s t : bytes s = bytes t → s = t.
Proof. intros H. by rewrite <-(of_bytes_bytes s), H, of_bytes_bytes. Qed.
Lemma bytes_app s t : bytes (String.append s t) = bytes s ++ bytes t.
Proof. induction s as [|a s IH]; simpl; [done|]. unfold bytes in *. cbn. by rewrite IH. Qed.
Lemma length_bytes s : length (bytes s) = String.length s.
Proof. induction s as [|a s IH]; [done|]. simpl. by rewrite <-IH. Qed.
Lemma bytes_nil s : bytes s = [] ↔ s = "".
Proof. split; [intros H; by apply bytes_inj|by intros ->]. Qed.

#[export] Hint Rewrite of_bytes_bytes bytes_of_bytes bytes_app : syncer.

(** ** Lemmas: byte order *)

Lemma str_le_total : total_by str_le.
Proof. intros x y. apply String.leb_total. Qed.
Lemma str_le_antisym x y : str_le x y = true → str_le y x = true → x = y.
Proof. apply String.leb_antisym. Qed.
Lemma str_le_trans : trans_by str_le.
Proof.
  intros x y z Hxy Hyz. apply Is_true_true in Hxy, Hyz. apply Is_true_true.
  by apply (transitivity (R:=String.le) (y:=y)).
Qed.
Lemma str_le_refl x : str_le x x = true.
Proof. by destruct (str_le_total x x). Qed.

(** ** Lemmas: trimming *)

Lemma trim_start_id l : no_ws_head l = true → trim_start_l l = l.
Proof.
  destruct l as [|a [|b [|c l]]]; simpl; [done|..];
    by intros; destruct (ws1 a); try destruct (ws2 a b); try destruct (ws3 a b c).
Qed.

Lemma trim_end_id l : no_ws_tail l = true → trim_end_rev l = l.
Proof.
  destruct l as [|a [|b [|c l]]]; simpl; [done|..];
    by intros; destruct (ws1 a); try destruct (ws2 b a); try destruct (ws3 c b a).
Qed.

Lemma trim_start_spec l :
  no_ws_head (trim_start_l l) = true ∧ (∃ k, l = k ++ trim_start_l l).
Proof.
  induction l as [l IH] using (induction_ltof1 _ length). unfold ltof in IH.
  destruct l as [|a l1]; [by split; [|exists []]|]. simpl.
  destruct (ws1 a) eqn:E1.
  { destruct (IH l1) as [? [k Hk]]; [simpl; lia|]. split; [done|]. exists (a :: k). simpl. by rewrite <-Hk. }
  destruct l1 as [|b l2]; [simpl; rewrite E1; by split; [|exists []]|].
  destruct (ws2 a b) eqn:E2.
  { destruct (IH l2) as [? [k Hk]]; [simpl; lia|]. split; [done|]. exists (a :: b :: k). simpl. by rewrite <-Hk. }
  destruct l2 as [|c l3]; [simpl; rewrite E1, E2; by split; [|exists []]|].
  destruct (ws3 a b c) eqn:E3.
  { destruct (IH l3) as [? [k Hk]]; [simpl; lia|]. split; [done|]. exists (a :: b :: c :: k). simpl. by rewrite <-Hk. }
  simpl. rewrite E1, E2, E3. by split; [|exists []].
Qed.

Lemma trim_end_spec l :
  no_ws_tail (trim_end_rev l) = true ∧ (∃ k, l = k ++ trim_end_rev l).
Proof.
  induction l as [l IH] using (induction_ltof1 _ length). unfold ltof in IH.
  destruct l as [|a l1]; [by split; [|exists []]|]. simpl.
  destruct (ws1 a) eqn:E1.
  { destruct (IH l1) as [? [k Hk]]; [simpl; lia|]. split; [done|]. exists (a :: k). simpl. by rewrite <-Hk. }
  destruct l1 as [|b l2]; [simpl; rewrite E1; by split; [|exists []]|].
  destruct (ws2 b a) eqn:E2.
  { destruct (IH l2) as [? [k Hk]]; [simpl; lia|]. split; [done|]. exists (a :: b :: k). simpl. by rewrite <-Hk. }
  destruct l2 as [|c l3]; [simpl; rewrite E1, E2; by split; [|exists []]|].
  destruct (ws3 c b a) eqn:E3.
  { destruct (IH l3) as [? [k Hk]]; [simpl; lia|]. split; [done|]. exists (a :: b :: c :: k). simpl. by rewrite <-Hk. }
  simpl. rewrite E1, E2, E3. by split; [|exists []].
Qed.

(** A byte sequence whose head is not white space keeps that when its tail goes. *)
Lemma no_ws_head_prefix l k : no_ws_head (l ++ k) = true → no_ws_head l = true.
Proof.
  destruct l as [|a [|b [|c l]]]; simpl; rewrite ?andb_true_iff; [done|..|done].
  - destruct (ws1 a); naive_solver.
  - destruct k; rewrite ?andb_true_iff; naive_solver.
Qed.

Lemma trim_bytes_idem l : trim_bytes (trim_bytes l) = trim_bytes l.
Proof.
  unfold trim_bytes. destruct (trim_start_spec l) as [Hh _].
  destruct (trim_end_spec (rev (trim_start_l l))) as [Ht [k Hk]].
  set (t := trim_end_rev _) in *.
  assert (no_ws_head (rev t) = true) as Hr.
  { apply no_ws_head_prefix with (k := rev k). rewrite <-rev_app_distr, <-Hk.
    by rewrite rev_involutive. }
  rewrite (trim_start_id (rev t)) by done.
  by rewrite rev_involutive, (trim_end_id t).
Qed.

Lemma trim_idem s : trim (trim s) = trim s.
Proof. unfold trim. by rewrite bytes_of_bytes, trim_bytes_idem. Qed.

Lemma trim_bytes_length l : length (trim_bytes l) ≤ length l.
Proof.
  unfold trim_bytes. destruct (trim_start_spec l) as [_ [k1 H1]].
  destruct (trim_end_spec (rev (trim_start_l l))) as [_ [k2 H2]].
  apply (f_equal length) in H1, H2. rewrite length_app in H1, H2.
  rewrite length_rev in H2. rewrite length_rev. lia.
Qed.

(** Trimming either changes nothing or makes the text shorter. *)
Lemma trim_bytes_shorter l : trim_bytes l = l ∨ length (trim_bytes l) < length l.
Proof.
  unfold trim_bytes. destruct (trim_start_spec l) as [_ [k1 H1]].
  destruct (trim_end_spec (rev (trim_start_l l))) as [_ [k2 H2]].
  set (t := trim_end_rev _) in *. destruct k1 as [|x k1].
  - simpl in H1. destruct k2 as [|y k2]; simpl in H2.
    + left. by rewrite <-H2, rev_involutive, <-H1.
    + right. apply (f_equal length) in H2. simpl in H2.
      rewrite length_rev, length_app, <-H1 in H2. rewrite length_rev. lia.
  - right. apply (f_equal length) in H1, H2. simpl in H1.
    rewrite length_app in H1, H2. rewrite length_rev in H2. rewrite length_rev. lia.
Qed.

(** ** Lemmas: splitting and joining *)

Lemma ascii_eqb_true a b : Ascii.eqb a b = true ↔ a = b.
Proof. apply Ascii.eqb_eq. Qed.

Lemma split_bytes_ne sep l : split_bytes sep l ≠ [].
Proof.
  destruct l as [|a l]; simpl; [done|].
  destruct (Ascii.eqb a sep); [done|]. by destruct (split_bytes sep l).
Qed.

Lemma split_bytes_no_sep sep l seg : seg ∈ split_bytes sep l → sep ∉ seg.
Proof.
  revert seg; induction l as [|a l IH]; intros seg; simpl.
  { intros ->%list_elem_of_singleton. by apply not_elem_of_nil. }
  destruct (Ascii.eqb a sep) eqn:E.
  - intros [->|?]%elem_of_cons; [by apply not_elem_of_nil|by apply IH].
  - assert (sep ≠ a) as Hne. { intros ->. by rewrite Ascii.eqb_refl in E. }
    destruct (split_bytes sep l) as [|s segs] eqn:Es.
    + by eapply split_bytes_ne in Es.
    + intros [->|?]%elem_of_cons.
      * apply not_elem_of_cons. split; [done|]. apply IH. left.
      * apply IH. by right.
Qed.

Lemma join_bytes_cons_head sep a seg segs :
  join_bytes sep ((a :: seg) :: segs) = a :: join_bytes sep (seg :: segs).
Proof. by destruct segs. Qed.

Lemma join_split_bytes sep l : join_bytes sep (split_bytes sep l) = l.
Proof.
  induction l as [|a l IH]; [done|]. simpl.
  destruct (Ascii.eqb a sep) eqn:E.
  - apply ascii_eqb_true in E as ->. simpl.
    destruct (split_bytes sep l) eqn:Es; [by eapply split_bytes_ne in Es|]. by rewrite IH.
  - destruct (split_bytes sep l) as [|s segs] eqn:Es; [by eapply split_bytes_ne in Es|].
    by rewrite join_bytes_cons_head, IH.
Qed.

Lemma split_bytes_app sep l k :
  sep ∉ l → split_bytes sep (l ++ sep :: k) = l :: split_bytes sep k.
Proof.
  induction l as [|a l IH]; intros H; simpl.
  { by rewrite Ascii.eqb_refl. }
  apply not_elem_of_cons in H as [Hne H].
  destruct (Ascii.eqb a sep) eqn:E; [by apply ascii_eqb_true in E as ->|]. by rewrite IH.
Qed.

Lemma split_bytes_single sep l : sep ∉ l → split_bytes sep l = [l].
Proof.
  induction l as [|a l IH]; intros H; [done|]. simpl.
  apply not_elem_of_cons in H as [Hne H].
  destruct (Ascii.eqb a sep) eqn:E; [by apply ascii_eqb_true in E as ->|]. by rewrite IH.
Qed.

Lemma split_bytes_app_gen sep l k :
  split_bytes sep (l ++ sep :: k) = split_bytes sep l ++ split_bytes sep k.
Proof.
  induction l as [|a l IH]; simpl; [by rewrite Ascii.eqb_refl|].
  destruct (Ascii.eqb a sep); [by rewrite IH|]. rewrite IH.
  destruct (split_bytes sep l) as [|s segs] eqn:E; [by eapply split_bytes_ne in E|done].
Qed.

Lemma split_join_bytes sep segs :
  segs ≠ [] → Forall (λ seg, sep ∉ seg) segs → split_bytes sep (join_bytes sep segs) = segs.
Proof.
  intros Hne Hall. induction Hall as [|seg segs Hs Hall IH]; [done|].
  destruct segs as [|s segs]; simpl in *; [by apply split_bytes_single|].
  rewrite split_bytes_app by done. by rewrite IH.
Qed.

Lemma split_on_join sep segs :
  segs ≠ [] → Forall (λ seg, sep ∉ bytes seg) segs → split_on sep (join_with sep segs) = segs.
Proof.
  intros Hne Hall. unfold split_on, join_with. rewrite bytes_of_bytes, split_join_bytes.
  - rewrite <-list_fmap_compose. rewrite <-(list_fmap_id segs) at 2.
    apply list_fmap_ext. intros; simpl. apply of_bytes_bytes.
  - by destruct segs.
  - by apply Forall_fmap.
Qed.

Lemma split_on_no_sep sep s seg : seg ∈ split_on sep s → sep ∉ bytes seg.
Proof.
  unfold split_on. intros (l & -> & Hl)%list_elem_of_fmap. rewrite bytes_of_bytes.
  by eapply split_bytes_no_sep.
Qed.

(** Dropping segments never makes the joined text longer. *)
Lemma join_bytes_length_cons sep seg segs :
  length (join_bytes sep segs) + length seg ≤ length (join_bytes sep (seg :: segs)).
Proof. destruct segs as [|s segs]; simpl; [lia|]. rewrite length_app. simpl. lia. Qed.

Lemma join_bytes_sublist sep k l :
  k `sublist_of` l → length (join_bytes sep k) ≤ length (join_bytes sep l).
Proof.
  induction 1 as [|x k l H IH|x k l H IH].
  - done.
  - destruct k as [|y k].
    + pose proof (join_bytes_length_cons sep x l). simpl in *. lia.
    + destruct l as [|z l]; [by apply sublist_nil_r in H|].
      simpl in *. rewrite !length_app. simpl. lia.
  - pose proof (join_bytes_length_cons sep x l). lia.
Qed.

(** ** Lemmas: paths *)

Lemma segment_component_Normal seg : valid_name seg → segment_component seg = Some (Normal seg).
Proof. intros (? & ? & ? & ?). unfold segment_component. by rewrite !bool_decide_eq_false_2. Qed.

Lemma segment_component_valid seg n :
  slash ∉ bytes seg → segment_component seg = Some (Normal n) → valid_name n ∧ n = seg.
Proof.
  intros Hs. unfold segment_component. repeat case_bool_decide; try done.
  intros [= ->]. by repeat split.
Qed.

Lemma omap_segment_names names :
  Forall valid_name names → omap segment_component names = Normal <$> names.
Proof.
  induction 1 as [|n names Hn _ IH]; [done|].
  by rewrite omap_cons_eq, segment_component_Normal, IH.
Qed.

Lemma is_absolute_bytes s : is_absolute s = match bytes s with a :: _ => Ascii.eqb a slash | [] => false end.
Proof. by destruct s. Qed.

Lemma is_absolute_join names :
  Forall valid_name names → is_absolute (join_with slash names) = false.
Proof.
  destruct 1 as [|n names (Hn & _ & _ & Hs) _]; [done|].
  unfold join_with. rewrite is_absolute_bytes, bytes_of_bytes, fmap_cons.
  destruct (bytes n) as [|a b] eqn:E; [by apply bytes_nil in E|].
  rewrite join_bytes_cons_head. destruct (Ascii.eqb a slash) eqn:Ea; [|done].
  apply ascii_eqb_true in Ea as ->. exfalso. apply Hs. left.
Qed.

(** The components of a joined list of names are the names. *)
Lemma components_join names :
  names ≠ [] → Forall valid_name names → components (join_with slash names) = Normal <$> names.
Proof.
  intros Hne Hv. unfold components. rewrite is_absolute_join by done.
  rewrite split_on_join; [|done|].
  - destruct Hv as [|n names (H1 & H2 & H3 & H4) Hv]; [done|].
    rewrite bool_decide_eq_false_2 by done. apply omap_segment_names. by constructor.
  - eapply Forall_impl; [done|]. by intros n (?&?&?&?).
Qed.

Lemma join_with_snoc sep names n :
  names ≠ [] →
  bytes (join_with sep (names ++ [n])) = bytes (join_with sep names) ++ sep :: bytes n.
Proof.
  unfold join_with. rewrite !bytes_of_bytes, fmap_app.
  induction names as [|m names IH]; [done|]. intros _.
  destruct names as [|m' names]; [done|]. simpl in *. rewrite IH by done.
  by rewrite <-app_assoc.
Qed.

Lemma last_join names :
  names ≠ [] → Forall valid_name names → ends_with_slash (join_with slash names) = false.
Proof.
  intros Hne Hv. destruct names as [|n names _] using rev_ind; [done|].
  apply Forall_app in Hv as [_ [(Hn & _ & _ & Hs) _]%Forall_cons].
  unfold ends_with_slash.
  assert (∃ k, bytes (join_with slash (names ++ [n])) = k ++ bytes n) as [k ->].
  { destruct names as [|m names]; [exists []; unfold join_with; by rewrite bytes_of_bytes|].
    rewrite join_with_snoc by done. exists (bytes (join_with slash (m :: names)) ++ [slash]).
    by rewrite <-app_assoc. }
  destruct (bytes n) as [|a b _] eqn:E using rev_ind.
  - by apply bytes_nil in E.
  - rewrite app_assoc, last_snoc. destruct (Ascii.eqb a slash) eqn:E0; [|done].
    apply ascii_eqb_true in E0 as ->. exfalso. apply Hs. apply elem_of_app. right. by left.
Qed.

(** Pushing relative names appends them to the components, whatever the base is. *)
Lemma omap_app_eq {A B} (f : A → option B) (l k : list A) : omap f (l ++ k) = omap f l ++ omap f k.
Proof.
  induction l as [|x l IH]; [done|]. rewrite <-app_comm_cons, !omap_cons_eq, IH.
  by destruct (f x).
Qed.

Lemma segments_app abs (segs rest : list string) :
  segs ≠ [] →
  (if abs : bool then RootDir :: omap segment_component (segs ++ rest)
   else match segs ++ rest with
        | seg :: tl => if bool_decide (seg = ".") then CurDir :: omap segment_component tl
                       else omap segment_component (segs ++ rest)
        | [] => []
        end)
  = (if abs then RootDir :: omap segment_component segs
     else match segs with
          | seg :: tl => if bool_decide (seg = ".") then CurDir :: omap segment_component tl
                         else omap segment_component segs
          | [] => []
          end) ++ omap segment_component rest.
Proof.
  intros Hne. rewrite omap_app_eq. destruct abs; [done|].
  destruct segs as [|seg segs]; [done|]. rewrite <-app_comm_cons.
  case_bool_decide; [by rewrite omap_app_eq|done].
Qed.

Lemma is_absolute_append s t : s ≠ "" → is_absolute (String.append s t) = is_absolute s.
Proof. by destruct s. Qed.

Lemma split_on_append s t :
  split_on slash (String.append s (String.append "/" t)) = split_on slash s ++ split_on slash t.
Proof.
  unfold split_on. rewrite !bytes_app. change (bytes "/") with [slash].
  cbn [app]. by rewrite split_bytes_app_gen, fmap_app.
Qed.

Lemma split_on_ne sep s : split_on sep s ≠ [].
Proof. unfold split_on. intros H%fmap_nil_inv. by eapply split_bytes_ne. Qed.

Lemma components_slash s t :
  s ≠ "" → components (String.append s (String.append "/" t))
           = components s ++ omap segment_component (split_on slash t).
Proof.
  intros Hne. unfold components. rewrite is_absolute_append, split_on_append by done.
  apply segments_app, split_on_ne.
Qed.

Lemma ends_with_slash_split s :
  ends_with_slash s = true → ∃ r, s = String.append r "/".
Proof.
  unfold ends_with_slash. destruct (bytes s) as [|b l _] eqn:E using rev_ind; [done|].
  rewrite last_snoc. intros ->%ascii_eqb_true. exists (of_bytes l). apply bytes_inj.
  by rewrite bytes_app, bytes_of_bytes, E.
Qed.

Lemma components_push root names :
  names ≠ [] → Forall valid_name names →
  components (path_push root (join_with slash names)) = components root ++ (Normal <$> names).
Proof.
  intros Hne Hv. unfold path_push. rewrite is_absolute_join by done.
  assert (omap segment_component (split_on slash (join_with slash names)) = Normal <$> names) as Hn.
  { rewrite split_on_join; [by apply omap_segment_names|done|].
    eapply Forall_impl; [done|]. by intros n (?&?&?&?). }
  destruct (decide (root = "")) as [->|Hr].
  { rewrite bool_decide_eq_true_2 by done. by apply components_join. }
  rewrite bool_decide_eq_false_2 by done. cbn [orb].
  destruct (ends_with_slash root) eqn:E; [|by rewrite components_slash, Hn].
  apply ends_with_slash_split in E as [r ->].
  assert (String.append (String.append r "/") (join_with slash names)
          = String.append r (String.append "/" (join_with slash names))) as ->.
  { apply bytes_inj. by rewrite !bytes_app, <-app_assoc. }
  assert (String.append r "/" = String.append r (String.append "/" "")) as -> by done.
  destruct (decide (r = "")) as [->|Hr'].
  - unfold components. rewrite !split_on_append, !omap_app_eq, Hn. done.
  - rewrite !components_slash by done. rewrite Hn. by rewrite app_nil_r.
Qed.

(** Pushing one more name is joining with one more name. *)
Lemma path_push_join names n :
  Forall valid_name names → valid_name n →
  path_push (join_with slash names) n = join_with slash (names ++ [n]).
Proof.
  intros Hv Hn. unfold path_push. pose proof Hn as (Hn1 & _ & _ & Hs).
  assert (is_absolute n = false) as ->.
  { rewrite is_absolute_bytes. destruct (bytes n) as [|a l] eqn:E; [done|].
    destruct (Ascii.eqb a slash) eqn:Ea; [|done]. apply ascii_eqb_true in Ea as ->.
    exfalso. apply Hs. left. }
  destruct names as [|m names].
  - unfold join_with; simpl. by rewrite of_bytes_bytes.
  - rewrite last_join, bool_decide_eq_false_2; [|inv Hv; destruct H1|done..].
    + cbn [orb]. apply bytes_inj. rewrite (join_with_snoc slash (m :: names)), !bytes_app by done.
      done.
    + intros E. apply (f_equal bytes) in E. unfold join_with in E. rewrite bytes_of_bytes in E.
      rewrite fmap_cons in E. destruct (bytes m) eqn:Em; [by apply bytes_nil in Em|].
      by rewrite join_bytes_cons_head in E.
Qed.

(** ** Lemmas: all the bytes *)

Definition all_bytes : list ascii := Ascii.ascii_of_N <$> (N.of_nat <$> seq 0 256).

Lemma all_bytes_elem a : a ∈ all_bytes.
Proof.
  unfold all_bytes. rewrite <-list_fmap_compose. apply list_elem_of_fmap.
  exists (N.to_nat (Ascii.N_of_ascii a)). split.
  - simpl. rewrite N2Nat.id. by rewrite Ascii.ascii_N_embedding.
  - apply elem_of_seq. pose proof (Ascii.N_ascii_bounded a). lia.
Qed.

(** A fact about every byte, checked on the 256 of them. *)
Lemma every_byte (p : ascii → bool) : forallb p all_bytes = true → ∀ a, p a = true.
Proof. intros H a. rewrite forallb_forall in H. apply H, list_elem_of_In, all_bytes_elem. Qed.

(** ** Lemmas: numbers and their text *)

Lemma digit_char (d : N) : (d < 10)%N → digit_val (pretty_N_char d) = Some (Z.of_N d).
Proof.
  intros Hd. assert (d ∈ N.of_nat <$> seq 0 10) as Hin.
  { apply list_elem_of_fmap. exists (N.to_nat d). rewrite N2Nat.id. split; [done|].
    apply elem_of_seq. lia. }
  clear -Hin. repeat (apply elem_of_cons in Hin as [->|Hin]; [reflexivity|]).
  by apply not_elem_of_nil in Hin.
Qed.

Local Open Scope Z_scope.

Lemma parse_pretty_go (x : N) (s : string) :
  parse_digits 0 (bytes (pretty_N_go x s)) = parse_digits (Z.of_N x) (bytes s).
Proof.
  revert s. induction x as [x IH] using (well_founded_induction N.lt_wf_0); intros s.
  destruct (decide (0 < x)%N) as [Hx|Hx].
  - rewrite pretty_N_go_step by done. rewrite IH by (by apply N.div_lt).
    set (d := (x `mod` 10)%N). assert (d < 10)%N as Hd by (by apply N.mod_lt).
    change (bytes (String (pretty_N_char d) s)) with (pretty_N_char d :: bytes s). cbn [parse_digits].
    rewrite digit_char by done.
    pose proof (N.div_mod x 10 ltac:(done)) as E. fold d in E. f_equal. lia.
  - assert (x = 0%N) as -> by lia. rewrite pretty_N_go_0. done.
Qed.

(** Decimal text starts with a digit. *)
Lemma pretty_go_head (x : N) (s : string) : (0 < x)%N ∨ (∃ a l, bytes s = a :: l ∧ is_Some (digit_val a)) →
  ∃ a l, bytes (pretty_N_go x s) = a :: l ∧ is_Some (digit_val a).
Proof.
  revert s. induction x as [x IH] using (well_founded_induction N.lt_wf_0); intros s Hs.
  destruct (decide (0 < x)%N) as [Hx|Hx].
  - rewrite pretty_N_go_step by done. apply IH; [by apply N.div_lt|]. right.
    eexists _, _. split; [done|]. rewrite digit_char by (by apply N.mod_lt). by eexists.
  - assert (x = 0%N) as -> by lia. rewrite pretty_N_go_0. destruct Hs as [Hs|?]; [lia|done].
Qed.

Lemma digit_not_sign a : is_Some (digit_val a) → is_byte 43 a = false ∧ is_byte 45 a = false.
Proof.
  unfold digit_val, is_byte. intros [d Hd]. destruct (between 48 57 (byte_val a)) eqn:E; [|done].
  unfold between in E. apply andb_true_iff in E as [?%N.leb_le ?%N.leb_le].
  split; apply N.eqb_neq; lia.
Qed.

Lemma parse_unsigned_pretty max (n : N) : Z.of_N n ≤ max → parse_unsigned max (pretty n) = Some (Z.of_N n).
Proof.
  intros Hn. destruct (decide (n = 0%N)) as [->|Hne].
  { unfold parse_unsigned. change (bytes (pretty 0%N)) with (bytes "0"). 
    change ((if 0 <=? max then Some 0 else None) = Some 0). by rewrite (proj2 (Z.leb_le _ _)). }
  assert (pretty n = pretty_N_go n "") as -> by (unfold pretty, pretty_N; by rewrite decide_False).
  destruct (pretty_go_head n "") as (a & l & Hb & Hd); [left; lia|].
  pose proof (parse_pretty_go n "") as Hp. unfold parse_unsigned. rewrite Hb in *.
  destruct (digit_not_sign a Hd) as [-> _]. rewrite Hp. simpl. by rewrite (proj2 (Z.leb_le _ _)).
Qed.

Lemma pretty_go_digits (x : N) (s : string) : Forall (λ a, is_Some (digit_val a)) (bytes s) →
  Forall (λ a, is_Some (digit_val a)) (bytes (pretty_N_go x s)).
Proof.
  revert s. induction x as [x IH] using (well_founded_induction N.lt_wf_0); intros s Hs.
  destruct (decide (0 < x)%N) as [Hx|Hx].
  - rewrite pretty_N_go_step by done. apply IH; [by apply N.div_lt|]. constructor; [|done].
    rewrite digit_char by (by apply N.mod_lt). by eexists.
  - assert (x = 0%N) as -> by lia. by rewrite pretty_N_go_0.
Qed.

(** Decimal text is digits, at least one. *)
Lemma pretty_digits (n : N) :
  Forall (λ a, is_Some (digit_val a)) (bytes (pretty n)) ∧ pretty n ≠ "".
Proof.
  unfold pretty, pretty_N. destruct (decide (n = 0%N)) as [->|Hn].
  { split; [|done]. repeat constructor. by eexists. }
  split; [apply pretty_go_digits; constructor|].
  destruct (pretty_go_head n "") as (a & l & Hb & _); [left; lia|]. intros E. by rewrite E in Hb.
Qed.
