(* ===== verification/External.v ===== *)
(** * Interfaces of the crates the sources call

    Nothing here has a definition of its own: every function of a third-party
    crate is a field of a class, and what the sources rely on is a law of a
    second class, which states documented behaviour only.  The module [Sample]
    at the end instantiates the classes with small concrete functions, on which
    the witnesses of the development evaluate. *)

From S2P Require Import Prelude RustStd.
From stdpp Require Import options pretty.

(** ** uuid: a 128-bit identifier and its text form *)

Definition Uuid : Type := N.

Class UuidLib := {
  uuid_to_string : Uuid → string;
  uuid_parse_str : string → option Uuid;
}.

(** The characters of the hyphenated form: lower-case hexadecimal digits and dashes. *)
Definition uuid_char (a : ascii) : bool :=
  let n := byte_val a in RustStd.between 48 57 n || RustStd.between 97 102 n || (n =? 45)%N.

Class UuidLaws `{!UuidLib} : Prop := {
  uuid_parse_to_string u : (u < 2 ^ 128)%N → uuid_parse_str (uuid_to_string u) = Some u;
  uuid_text u : uuid_to_string u ≠ "" ∧ Forall (λ a, uuid_char a = true) (bytes (uuid_to_string u));
}.

(** ** time: an instant, in nanoseconds since the Unix epoch

    [OffsetDateTime] compares as an instant; [unix_timestamp] is its whole
    seconds, rounded down; the crate accepts a bounded range of seconds. *)

Definition OffsetDateTime : Type := Z.
Definition nanos_per_second : Z := 1000000000.

Class TimeLib := {
  unix_in_range : Z → bool;
  component_range_message : string;
}.

Definition unix_timestamp (t : OffsetDateTime) : Z := (t / nanos_per_second)%Z.
Definition from_unix_timestamp `{!TimeLib} (s : Z) : result string OffsetDateTime :=
  if unix_in_range s then Ok (s * nanos_per_second)%Z else Err component_range_message.

(** An instant the crate can represent; its seconds fit an [i64]. *)
Definition valid_time `{!TimeLib} (t : OffsetDateTime) : Prop :=
  unix_in_range (unix_timestamp t) = true.

(** ** blake3 *)

Class Blake3Lib := {
  blake3_hex : list ascii → string;
}.

(** ** sqlx: the texts of the errors the model can meet *)

Class SqlxLib := {
  sqlx_decode_message : string;
  sqlx_unique_message : string;
  sqlx_no_table_message : string;
  sqlx_duplicate_column_message : string;
  sqlx_cannot_open_message : string;
}.

(** ** serde_json for one type *)

Class SerdeJson (A : Type) := {
  to_json : A → result string (list ascii);
  from_json : list ascii → result string A;
}.

Class SerdeLaws (A : Type) `{!SerdeJson A} : Prop := {
  from_to_json a bs : to_json a = Ok bs → from_json bs = Ok a;
}.

(** ** hex, sha2, hmac *)

Class HexLib := {
  hex_encode : list ascii → string;
  hex_decode : string → result string (list ascii);
}.

(** [hex::encode] writes two lower-case digits for each byte. *)
Definition hex_char (a : ascii) : bool :=
  RustStd.between 48 57 (byte_val a) || RustStd.between 97 102 (byte_val a).
Class HexLaws `{!HexLib} : Prop := {
  hex_decode_encode bs : hex_decode (hex_encode bs) = Ok bs;
  hex_encode_chars bs : Forall (λ a, hex_char a = true) (bytes (hex_encode bs));
  hex_encode_length bs : length (bytes (hex_encode bs)) = (2 * length bs)%nat;
}.

Class Sha256Lib := { sha256 : list ascii → list ascii }.

(** [new_from_slice] may refuse a key; [verify_slice] compares the whole tag. *)
Class HmacLib := {
  hmac_key_ok : list ascii → bool;
  hmac : list ascii → list ascii → list ascii;
}.

(** HMAC-SHA256 gives 32 bytes. *)
Class HmacLaws `{!HmacLib} : Prop := { hmac_length key m : length (hmac key m) = 32%nat }.

(** ** Lemmas *)

Lemma unix_timestamp_whole (s : Z) : unix_timestamp (s * nanos_per_second)%Z = s.
Proof. unfold unix_timestamp. by apply Z.div_mul. Qed.

Lemma from_unix_timestamp_Ok `{!TimeLib} s t :
  from_unix_timestamp s = Ok t ↔ unix_in_range s = true ∧ t = (s * nanos_per_second)%Z.
Proof. unfold from_unix_timestamp. destruct (unix_in_range s); naive_solver. Qed.

Lemma from_unix_timestamp_valid `{!TimeLib} s t :
  from_unix_timestamp s = Ok t → valid_time t.
Proof.
  intros [? ->]%from_unix_timestamp_Ok. unfold valid_time. by rewrite unix_timestamp_whole.
Qed.

(** ** Concrete instances for the witnesses *)

Module Sample.

Definition unhex (s : string) : option N :=
  match parse_unsigned (2 ^ 128 - 1) s with Some z => Some (Z.to_N z) | None => None end.

#[export] Instance uuid_lib : UuidLib :=
  {| uuid_to_string := λ u, pretty (u : N); uuid_parse_str := unhex |}.

#[export] Instance uuid_laws : UuidLaws.
Proof.
  constructor.
  - intros u Hu. simpl. unfold unhex. rewrite parse_unsigned_pretty by lia. by rewrite N2Z.id.
  - intros u. simpl. destruct (pretty_digits u) as [Hd Hne]. split; [done|].
    eapply Forall_impl; [exact Hd|]. intros a [d Ha]. unfold uuid_char. unfold digit_val in Ha.
    by destruct (RustStd.between 48 57 (byte_val a)).
Qed.

(** The range of the [time] crate without its [large-dates] feature. *)
#[export] Instance time_lib : TimeLib :=
  {| unix_in_range := λ s, (-377705116800 <=? s)%Z && (s <=? 253402300799)%Z;
     component_range_message := "timestamp out of range" |}.

(** A digest stands for its input: the text itself. *)
#[export] Instance blake3_lib : Blake3Lib := {| blake3_hex := of_bytes |}.

#[export] Instance sqlx_lib : SqlxLib :=
  {| sqlx_decode_message := "mismatched types";
     sqlx_unique_message := "UNIQUE constraint failed";
     sqlx_no_table_message := "no such table";
     sqlx_duplicate_column_message := "duplicate column name";
     sqlx_cannot_open_message := "unable to open database file" |}.

#[export] Instance block_hashes_json : SerdeJson (list string) :=
  {| to_json := λ _, Ok (bytes "[]"); from_json := λ _, Ok [] |}.

(** The digits of [hex::encode]. *)
Definition hex_digit (n : N) : ascii := Ascii.ascii_of_N (if (n <? 10)%N then 48 + n else 87 + n)%N.
Definition hex_high (a : ascii) : ascii := hex_digit (byte_val a / 16)%N.
Definition hex_low (a : ascii) : ascii := hex_digit (byte_val a mod 16)%N.
Definition unhex_digit (a : ascii) : N :=
  if RustStd.between 97 102 (byte_val a) then (byte_val a - 87)%N else (byte_val a - 48)%N.
Definition unhex_pair (h l : ascii) : ascii :=
  Ascii.ascii_of_N (16 * unhex_digit h + unhex_digit l)%N.

Fixpoint sample_hex (l : list ascii) : list ascii :=
  match l with [] => [] | a :: l => hex_high a :: hex_low a :: sample_hex l end.
Fixpoint sample_unhex (l : list ascii) : result string (list ascii) :=
  match l with
  | [] => Ok []
  | h :: l :: rest => bs ← sample_unhex rest; Ok (unhex_pair h l :: bs)
  | _ => Err "odd length"
  end.
#[export] Instance hex_lib : HexLib :=
  {| hex_encode := λ bs, of_bytes (sample_hex bs); hex_decode := λ s, sample_unhex (bytes s) |}.

#[export] Instance hex_laws : HexLaws.
Proof.
  assert (∀ a, Ascii.eqb (unhex_pair (hex_high a) (hex_low a)) a = true) as Hpair
    by (by apply every_byte; vm_compute).
  assert (∀ a, hex_char (hex_high a) && hex_char (hex_low a) = true) as Hchar
    by (by apply every_byte; vm_compute).
  constructor; intros bs; simpl; rewrite bytes_of_bytes; (induction bs as [|a bs IH]; [done|]);
    cbn [sample_hex].
  - cbn [sample_unhex]. rewrite IH. simpl. do 2 f_equal. by apply ascii_eqb_true.
  - specialize (Hchar a). apply andb_true_iff in Hchar as [? ?]. by repeat constructor.
  - simpl. rewrite IH. lia.
Qed.

#[export] Instance sha256_lib : Sha256Lib := {| sha256 := λ bs, bs |}.
#[export] Instance hmac_lib : HmacLib :=
  {| hmac_key_ok := λ _, true; hmac := λ k m, take 32 (m ++ k ++ replicate 32 Ascii.zero) |}.
#[export] Instance hmac_laws : HmacLaws.
Proof. constructor. intros k m. unfold hmac, hmac_lib. rewrite length_take, !length_app, length_replicate. lia. Qed.

End Sample.
