(* ===== verification/Error.v ===== *)
(** * [crates/syncer-core/src/error.rs] and [ids.rs]: errors and identifiers *)

From S2P Require Import Prelude RustStd External.
From stdpp Require Import options pretty.

(** ** [error.rs] *)

Inductive CoreError :=
| InvalidDeviceName
| EmptyRelativePath
| AbsoluteRelativePath
| TraversalRelativePath
| SyncerMetadataPath
| InvalidFolderLimit
| InvalidWarningThreshold
| InvalidPublicKeyLength
| ExpiredPairingTicket
| UnsupportedFolderSchema (found : Z)
| NativeStorageRootRequired
| Filesystem (path message : string)
| Json (message : string)
| StateDatabase (message : string)
| FileSizeOverflow.

#[export] Instance CoreError_eq_dec : EqDecision CoreError.
Proof. solve_decision. Defined.

Abbreviation CoreResult := (result CoreError).

(** The [#[error(...)]] texts ([Display]). *)
Definition core_error_to_string (e : CoreError) : string :=
  match e with
  | InvalidDeviceName => "device name must contain 1..=64 non-control characters"
  | EmptyRelativePath => "relative path is empty"
  | AbsoluteRelativePath => "relative path must not be absolute"
  | TraversalRelativePath => "relative path must not contain traversal components"
  | SyncerMetadataPath => "relative path must not target the .syncer metadata directory"
  | InvalidFolderLimit => "folder size limit must be greater than zero"
  | InvalidWarningThreshold => "warning threshold must be between 1 and 100"
  | InvalidPublicKeyLength => "public key must contain exactly 32 bytes"
  | ExpiredPairingTicket => "pairing ticket must not be expired at creation time"
  | UnsupportedFolderSchema found =>
      "folder configuration schema version " +:+ pretty (found : Z) +:+ " is not supported"
  | NativeStorageRootRequired =>
      "storage root must be a native filesystem path for this operation"
  | Filesystem path message =>
      "failed filesystem operation at " +:+ path +:+ ": " +:+ message
  | Json message => "failed to serialize or deserialize JSON: " +:+ message
  | StateDatabase message => "state database error: " +:+ message
  | FileSizeOverflow => "file size exceeded supported range"
  end.

(** [From<serde_json::Error>], [From<sqlx::Error>], [From<std::io::Error>]: what [?] applies. *)
Definition core_error_from_json (message : string) : CoreError := Json message.
Definition core_error_from_sqlx (message : string) : CoreError := StateDatabase message.
Definition core_error_from_io (message : string) : CoreError := Filesystem "" message.

(** ** [ids.rs]: transparent wrappers of a [Uuid] *)

Definition DeviceId : Type := Uuid.
Definition FolderId : Type := Uuid.
Definition OperationId : Type := Uuid.

Definition device_id_from_uuid (value : Uuid) : DeviceId := value.
Definition device_id_as_uuid (id : DeviceId) : Uuid := id.
Definition device_id_to_string `{!UuidLib} (id : DeviceId) : string := uuid_to_string id.
Definition folder_id_from_uuid (value : Uuid) : FolderId := value.
Definition folder_id_to_string `{!UuidLib} (id : FolderId) : string := uuid_to_string id.
Definition operation_id_to_string `{!UuidLib} (id : OperationId) : string := uuid_to_string id.

#[export] Instance DeviceId_eq_dec : EqDecision DeviceId := N.eq_dec.
#[export] Instance FolderId_eq_dec : EqDecision FolderId := N.eq_dec.
