(* ===== verification/Manifest.v ===== *)
(** * [crates/syncer-core/src/manifest.rs]: relative paths and file entries *)

From S2P Require Import Prelude RustStd External Error.
From stdpp Require Import options.

(** ** [RelativePath] *)

Record RelativePath := { rel_str : string }.

#[export] Instance RelativePath_eq_dec : EqDecision RelativePath.
Proof. solve_decision. Defined.

(** [RelativePath::as_path().as_str()] is [rel_str]; [PartialEq] is the
    component-wise equality of the wrapped path buffer. *)
Definition rel_eqb (p q : RelativePath) : bool := path_eqb (rel_str p) (rel_str q).

(** The loop of [RelativePath::parse] over the components. *)
Fixpoint normalize (normalized : string) (cs : list Component) : CoreResult string :=
  match cs with
  | [] => Ok normalized
  | Normal part :: cs => normalize (path_push normalized part) cs
  | CurDir :: cs => normalize normalized cs
  | ParentDir :: _ => Err TraversalRelativePath
  | RootDir :: _ => Err AbsoluteRelativePath
  end.

(** The first component of a path is the metadata directory. *)
Definition first_component_is (name path : string) : bool :=
  match components path with
  | c :: _ => bool_decide (component_as_str c = name)
  | [] => false
  end.

Definition relative_path_parse (value : string) : CoreResult RelativePath :=
  let raw := trim value in
  if bool_decide (raw = "") then Err EmptyRelativePath
  else if is_absolute raw then Err AbsoluteRelativePath
  else
    normalized ← normalize "" (components raw);
    if bool_decide (normalized = "") then Err EmptyRelativePath
    else if first_component_is ".syncer" normalized then Err SyncerMetadataPath
    else Ok {| rel_str := normalized |}.

(** ** Hashes and file entries *)

Definition ContentHash : Type := string.
Definition BlockHash : Type := string.

Definition content_hash_from_hex (value : string) : ContentHash := value.
Definition content_hash_from_bytes `{!Blake3Lib} (bs : list ascii) : ContentHash := blake3_hex bs.
Definition content_hash_as_hex (h : ContentHash) : string := h.
Definition block_hash_from_bytes `{!Blake3Lib} (bs : list ascii) : BlockHash := blake3_hex bs.

Inductive FileKind := KFile | KDirectory.

#[export] Instance FileKind_eq_dec : EqDecision FileKind.
Proof. solve_decision. Defined.

Record FileVersion := {
  fv_generation : Z;
  fv_device_id : DeviceId;
}.

Record FileEntry := {
  fe_path : RelativePath;
  fe_kind : FileKind;
  fe_size_bytes : Z;
  fe_modified_at : OffsetDateTime;
  fe_content_hash : option ContentHash;
  fe_block_hashes : list BlockHash;
  fe_version : FileVersion;
}.

(** ** Specification of a parsed path *)

(** The names of a path: its normal components. *)
Definition component_name (c : Component) : option string :=
  match c with Normal part => Some part | _ => None end.
Definition path_names (path : string) : list string := omap component_name (components path).

(** A path of one or more ordinary names that does not start in [.syncer]. *)
Definition canonical (names : list string) (p : RelativePath) : Prop :=
  names ≠ [] ∧ Forall valid_name names ∧ head names ≠ Some ".syncer"
  ∧ rel_str p = join_with slash names.

(** Which outcome [parse] has, by the shape of the trimmed text. *)
Definition parse_outcome (value : string) : CoreResult RelativePath :=
  let raw := trim value in
  if is_absolute raw then Err AbsoluteRelativePath
  else if bool_decide (ParentDir ∈ components raw) then Err TraversalRelativePath
  else match path_names raw with
       | [] => Err EmptyRelativePath
       | n :: names =>
           if bool_decide (n = ".syncer") then Err SyncerMetadataPath
           else Ok {| rel_str := join_with slash (n :: names) |}
       end.

(** ** Lemmas *)

Lemma components_shape raw :
  is_absolute raw = false →
  Forall (λ c, c = CurDir ∨ c = ParentDir ∨ ∃ n, c = Normal n ∧ valid_name n) (components raw).
Proof.
  intros Ha. unfold components. rewrite Ha.
  assert (∀ segs, (∀ seg, seg ∈ segs → slash ∉ bytes seg) →
    Forall (λ c, c = CurDir ∨ c = ParentDir ∨ ∃ n, c = Normal n ∧ valid_name n)
      (omap segment_component segs)) as Hsegs.
  { intros segs Hs. apply Forall_forall. intros c (seg & Hseg & Hc)%list_elem_of_omap.
    specialize (Hs seg Hseg). unfold segment_component in Hc.
    repeat case_bool_decide; simplify_eq; [by right; left|].
    right; right. eexists; split; [done|]. by repeat split. }
  pose proof (split_on_no_sep slash raw) as Hs.
  destruct (split_on slash raw) as [|seg rest]; [done|].
  case_bool_decide.
  - constructor; [by left|]. apply Hsegs. intros; apply Hs; by right.
  - by apply Hsegs.
Qed.

Lemma path_names_valid raw : is_absolute raw = false → Forall valid_name (path_names raw).
Proof.
  intros Ha. apply Forall_forall. intros n (c & Hc & Hn)%list_elem_of_omap.
  pose proof (components_shape raw Ha) as H. rewrite Forall_forall in H.
  destruct (H c Hc) as [->|[->|(m & -> & Hm)]]; simpl in Hn; by simplify_eq.
Qed.

Lemma normalize_spec cs names :
  Forall valid_name names →
  Forall (λ c, c = CurDir ∨ c = ParentDir ∨ ∃ n, c = Normal n ∧ valid_name n) cs →
  normalize (join_with slash names) cs =
    if bool_decide (ParentDir ∈ cs) then Err TraversalRelativePath
    else Ok (join_with slash (names ++ omap component_name cs)).
Proof.
  intros Hv Hcs. revert names Hv. induction Hcs as [|c cs Hc Hcs IH]; intros names Hv.
  { simpl. by rewrite app_nil_r. }
  destruct Hc as [->|[->|(n & -> & Hn)]]; cbn [normalize].
  - rewrite IH by done. by rewrite (bool_decide_ext _ (ParentDir ∈ CurDir :: cs)) by set_solver.
  - by rewrite bool_decide_eq_true_2 by set_solver.
  - rewrite path_push_join, IH by (done || by apply Forall_app_2; [|constructor]).
    rewrite (bool_decide_ext _ (ParentDir ∈ Normal n :: cs)) by set_solver.
    by rewrite <-app_assoc.
Qed.

Lemma join_with_nil names : Forall valid_name names → join_with slash names = "" ↔ names = [].
Proof.
  intros Hv. split; [|by intros ->]. destruct Hv as [|n names (Hn & _) _]; [done|].
  intros E. apply (f_equal bytes) in E. unfold join_with in E. rewrite bytes_of_bytes, fmap_cons in E.
  destruct (bytes n) eqn:En; [by apply bytes_nil in En|]. by rewrite join_bytes_cons_head in E.
Qed.

Lemma omap_component_names (names : list string) : omap component_name (Normal <$> names) = names.
Proof. induction names as [|n names IH]; [done|]. by rewrite fmap_cons, omap_cons_eq, IH. Qed.

Lemma path_names_join names :
  Forall valid_name names → path_names (join_with slash names) = names.
Proof.
  intros Hv. unfold path_names. destruct names as [|n names]; [done|].
  by rewrite components_join, omap_component_names.
Qed.

Lemma first_component_join name names :
  Forall valid_name names →
  first_component_is name (join_with slash names) = bool_decide (head names = Some name).
Proof.
  intros Hv. unfold first_component_is. destruct names as [|n names]; [done|].
  rewrite components_join by done. simpl. apply bool_decide_ext. naive_solver.
Qed.

Lemma parse_eq_outcome value : relative_path_parse value = parse_outcome value.
Proof.
  unfold relative_path_parse, parse_outcome. set (raw := trim value).
  case_bool_decide as E; [by rewrite E|]. clear E.
  destruct (is_absolute raw) eqn:Ha; [done|].
  pose proof (normalize_spec (components raw) [] (Forall_nil_2 _) (components_shape raw Ha)) as Hn.
  change (join_with slash []) with "" in Hn. rewrite Hn. clear Hn.
  case_bool_decide; [done|]. simpl. pose proof (path_names_valid raw Ha) as Hv.
  change (omap component_name (components raw)) with (path_names raw).
  destruct (path_names raw) as [|n names] eqn:En; [done|].
  rewrite bool_decide_eq_false_2 by (rewrite join_with_nil; done).
  rewrite first_component_join by done. simpl.
  rewrite (bool_decide_ext (Some n = Some ".syncer") (n = ".syncer")) by naive_solver.
  by case_bool_decide.
Qed.

Lemma parse_canonical value p :
  relative_path_parse value = Ok p → canonical (path_names (trim value)) p.
Proof.
  rewrite parse_eq_outcome. unfold parse_outcome.
  destruct (is_absolute _) eqn:Ha; [done|]. case_bool_decide; [done|].
  pose proof (path_names_valid _ Ha) as Hv.
  destruct (path_names (trim value)) as [|n names]; [done|].
  case_bool_decide; [done|]. intros [= <-]. repeat split; [done|done|naive_solver].
Qed.

Lemma canonical_names names p : canonical names p → path_names (rel_str p) = names.
Proof. intros (_ & Hv & _ & ->). by apply path_names_join. Qed.

Lemma canonical_components names p :
  canonical names p → components (rel_str p) = Normal <$> names.
Proof. intros (Hne & Hv & _ & ->). by apply components_join. Qed.

(** Parsing the text of a canonical path again gives the path, when trimming
    does not change the text. *)
Lemma canonical_stable names p :
  canonical names p → trim (rel_str p) = rel_str p → relative_path_parse (rel_str p) = Ok p.
Proof.
  intros Hc Ht. pose proof Hc as (Hne & Hv & Hh & Hs).
  rewrite parse_eq_outcome. unfold parse_outcome. rewrite Ht.
  rewrite (canonical_names _ _ Hc), (canonical_components _ _ Hc).
  rewrite Hs, is_absolute_join by done.
  rewrite bool_decide_eq_false_2 by (intros (?&?&?)%list_elem_of_fmap; done).
  destruct names as [|n names]; [done|].
  rewrite bool_decide_eq_false_2 by (intros ->; by apply Hh).
  f_equal. destruct p; simpl in *. by f_equal.
Qed.

Lemma path_names_sublist path : path_names path `sublist_of` split_on slash path.
Proof.
  unfold path_names, components.
  assert (∀ segs, omap component_name (omap segment_component segs) `sublist_of` segs) as H.
  { induction segs as [|seg segs IH]; [done|]. rewrite omap_cons_eq.
    unfold segment_component. repeat case_bool_decide; [by apply sublist_cons..|by apply sublist_skip]. }
  destruct (is_absolute path); [apply H|].
  destruct (split_on slash path) as [|seg segs]; [done|].
  case_bool_decide; [apply sublist_cons|]; apply H.
Qed.

Lemma path_names_length path :
  String.length (join_with slash (path_names path)) ≤ String.length path.
Proof.
  rewrite <-!length_bytes. unfold join_with. rewrite bytes_of_bytes.
  etrans; [apply join_bytes_sublist, fmap_sublist, path_names_sublist|].
  unfold split_on. rewrite <-list_fmap_compose, <-(list_fmap_id (split_bytes slash (bytes path))).
  rewrite <-list_fmap_compose.
  rewrite (list_fmap_ext _ id) by (intros; simpl; apply bytes_of_bytes).
  by rewrite list_fmap_id, join_split_bytes.
Qed.

(** ** Theorems *)

(** C26. The outcome of [RelativePath::parse] is decided by the shape of the
    trimmed text: absolute, with a parent component, without a name, in the
    metadata directory, or a path whose text is its names joined by [/]. *)
Theorem parse_functional (value : string) : relative_path_parse value = parse_outcome value.
Proof. apply parse_eq_outcome. Qed.

(** C32. A parsed path never leaves the directory it is joined to: it is one or
    more ordinary names, not starting in [.syncer], and pushed on any root it
    only appends those names to the root's components. *)
Theorem parse_contained (value : string) (p : RelativePath) :
  relative_path_parse value = Ok p →
  ∃ names, canonical names p ∧
    ∀ root, components (path_push root (rel_str p)) = components root ++ (Normal <$> names).
Proof.
  intros H. pose proof (parse_canonical _ _ H) as Hc. eexists; split; [done|].
  intros root. destruct Hc as (Hne & Hv & _ & ->). by apply components_push.
Qed.

Lemma parse_contained_witness :
  relative_path_parse " ./photos//2026/a b.jpg" = Ok {| rel_str := "photos/2026/a b.jpg" |} ∧
  ∃ names, canonical names {| rel_str := "photos/2026/a b.jpg" |} ∧
    ∀ root, components (path_push root "photos/2026/a b.jpg") = components root ++ (Normal <$> names).
Proof.
  assert (relative_path_parse " ./photos//2026/a b.jpg" = Ok {| rel_str := "photos/2026/a b.jpg" |})
    as H by (vm_compute; reflexivity).
  split; [exact H|]. exact (parse_contained _ _ H).
Defined.

(** A parsed path survives being parsed again from its text (as every row
    read back from the state database is) exactly when trimming leaves that text
    unchanged. *)
Theorem parse_stable_iff (value : string) (p : RelativePath) :
  relative_path_parse value = Ok p →
  (relative_path_parse (rel_str p) = Ok p ↔ trim (rel_str p) = rel_str p).
Proof.
  intros H. pose proof (parse_canonical _ _ H) as Hc. split; [|by eapply canonical_stable].
  intros Hp%parse_canonical. destruct Hp as (_ & _ & _ & Hs).
  pose proof (path_names_length (trim (rel_str p))) as Hl. rewrite <-Hs in Hl.
  unfold trim in Hl |- *.
  destruct (trim_bytes_shorter (bytes (rel_str p))) as [->|Hlt]; [by rewrite of_bytes_bytes|].
  rewrite <-(length_bytes (of_bytes _)), bytes_of_bytes, <-length_bytes in Hl. lia.
Qed.

Lemma parse_stable_iff_witness :
  relative_path_parse "docs/" = Ok {| rel_str := "docs" |} ∧
  (relative_path_parse "docs" = Ok {| rel_str := "docs" |} ↔ trim "docs" = "docs").
Proof.
  assert (relative_path_parse "docs/" = Ok {| rel_str := "docs" |}) as H by (vm_compute; reflexivity).
  split; [exact H|]. exact (parse_stable_iff _ _ H).
Defined.

(** Path equality, which compares components, is equality of the texts on
    parsed paths. *)
Theorem parsed_eq_iff (s t : string) (p q : RelativePath) :
  relative_path_parse s = Ok p → relative_path_parse t = Ok q →
  (rel_eqb p q = true ↔ p = q).
Proof.
  intros Hp%parse_canonical Hq%parse_canonical. unfold rel_eqb, path_eqb.
  rewrite bool_decide_eq_true. split; [|by intros ->].
  rewrite (canonical_components _ _ Hp), (canonical_components _ _ Hq).
  intros E. apply (f_equal (omap component_name)) in E. rewrite !omap_component_names in E.
  destruct Hp as (_ & _ & _ & Hp), Hq as (_ & _ & _ & Hq).
  rewrite E, <-Hq in Hp. destruct p, q; simpl in *. by f_equal.
Qed.

Lemma parsed_eq_iff_witness :
  relative_path_parse "a//b" = Ok {| rel_str := "a/b" |} ∧
  relative_path_parse "a/./b/" = Ok {| rel_str := "a/b" |} ∧
  (rel_eqb {| rel_str := "a/b" |} {| rel_str := "a/b" |} = true
   ↔ {| rel_str := "a/b" |} = {| rel_str := "a/b" |}).
Proof.
  assert (relative_path_parse "a//b" = Ok {| rel_str := "a/b" |}) as H1 by (vm_compute; reflexivity).
  assert (relative_path_parse "a/./b/" = Ok {| rel_str := "a/b" |}) as H2 by (vm_compute; reflexivity).
  split; [exact H1|]. split; [exact H2|]. exact (parsed_eq_iff _ _ _ _ H1 H2).
Defined.

(** [parse] is not idempotent: ["./ .syncer/x"] is accepted as a path whose
    text parses as the metadata directory. *)
Theorem parse_not_idempotent :
  ∃ p, relative_path_parse "./ .syncer/x" = Ok p ∧
       relative_path_parse (rel_str p) = Err SyncerMetadataPath.
Proof. eexists; split; vm_compute; reflexivity. Qed.
