(* ===== verification/Limits.v ===== *)
(** * [crates/syncer-core/src/limits.rs]: the folder size limit and its transfer plan *)

From S2P Require Import Prelude RustStd External Error Manifest.
From stdpp Require Import options.
Local Open Scope Z_scope.

(** ** [FolderSizeLimit] *)

Definition DEFAULT_FOLDER_SIZE_LIMIT_BYTES : Z := 10 * 1024 * 1024 * 1024.

Record FolderSizeLimit := {
  max_bytes : Z;
  warning_threshold_percent : Z;
}.

Definition folder_size_limit_new (max percent : Z) : CoreResult FolderSizeLimit :=
  if max =? 0 then Err InvalidFolderLimit
  else if negb ((1 <=? percent) && (percent <=? 100)) then Err InvalidWarningThreshold
  else Ok {| max_bytes := max; warning_threshold_percent := percent |}.

Definition remaining_bytes (limit : FolderSizeLimit) (used_bytes : Z) : Z :=
  u64_saturating_sub limit.(max_bytes) used_bytes.

Definition is_warning_reached (limit : FolderSizeLimit) (used_bytes : Z) : bool :=
  let threshold :=
    u64_saturating_mul limit.(max_bytes) limit.(warning_threshold_percent) / 100 in
  threshold <=? used_bytes.

Definition folder_size_limit_default : FolderSizeLimit :=
  {| max_bytes := DEFAULT_FOLDER_SIZE_LIMIT_BYTES; warning_threshold_percent := 80 |}.

(** ** Transfers and their plan *)

Record PendingTransfer := {
  pt_operation_id : OperationId;
  pt_path : RelativePath;
  pt_size_bytes : Z;
  pt_queued_at : OffsetDateTime;
}.

Inductive FolderLimitDecision :=
| Accepted (transfer : PendingTransfer)
| SkippedLimit (transfer : PendingTransfer).

Record FolderLimitPlan := {
  accepted : list PendingTransfer;
  skipped : list PendingTransfer;
  final_used_bytes : Z;
  warning_reached : bool;
}.

Definition queued_le (a b : PendingTransfer) : bool := a.(pt_queued_at) <=? b.(pt_queued_at).

(** The loop of [plan_transfers]: bytes used, accepted and skipped so far. *)
Definition plan_step (limit : FolderSizeLimit)
    (st : Z * list PendingTransfer * list PendingTransfer) (transfer : PendingTransfer) :=
  let '(final_used, acc, skip) := st in
  if transfer.(pt_size_bytes) <=? remaining_bytes limit final_used
  then (u64_saturating_add final_used transfer.(pt_size_bytes), acc ++ [transfer], skip)
  else (final_used, acc, skip ++ [transfer]).

Definition plan_transfers (limit : FolderSizeLimit) (used_bytes : Z)
    (pending : list PendingTransfer) : FolderLimitPlan :=
  let '(final_used, acc, skip) :=
    foldl (plan_step limit) (used_bytes, [], []) (sort_by queued_le pending) in
  {| accepted := acc; skipped := skip; final_used_bytes := final_used;
     warning_reached := is_warning_reached limit final_used |}.

(** ** Specification: the oldest-first greedy schedule

    [greedy used q acc skip final]: going through the queue [q] with [used] bytes
    taken, exactly the transfers that fit are accepted, and [final] bytes are
    taken at the end.  No machine arithmetic. *)
Inductive greedy (max : Z) : Z → list PendingTransfer →
    list PendingTransfer → list PendingTransfer → Z → Prop :=
| greedy_done used : greedy max used [] [] [] used
| greedy_take used t q acc skip final :
    used + t.(pt_size_bytes) ≤ Z.max used max →
    greedy max (used + t.(pt_size_bytes)) q acc skip final →
    greedy max used (t :: q) (t :: acc) skip final
| greedy_skip used t q acc skip final :
    Z.max used max < used + t.(pt_size_bytes) →
    greedy max used q acc skip final →
    greedy max used (t :: q) acc (t :: skip) final.

Definition total_size (l : list PendingTransfer) : Z :=
  foldr (λ t z, t.(pt_size_bytes) + z) 0 l.

Definition limit_wf (limit : FolderSizeLimit) : Prop :=
  is_u64 limit.(max_bytes) ∧ 1 ≤ limit.(warning_threshold_percent) ≤ 100.

(** ** Lemmas *)

Lemma queued_le_total : total_by queued_le.
Proof. intros x y. unfold queued_le. rewrite !Z.leb_le. lia. Qed.
Lemma queued_le_trans : trans_by queued_le.
Proof. intros x y z. unfold queued_le. rewrite !Z.leb_le. lia. Qed.

Lemma plan_steps limit used q acc0 skip0 :
  is_u64 limit.(max_bytes) → is_u64 used →
  Forall (λ t, is_u64 t.(pt_size_bytes)) q →
  ∃ acc skip final,
    foldl (plan_step limit) (used, acc0, skip0) q = (final, acc0 ++ acc, skip0 ++ skip)
    ∧ greedy limit.(max_bytes) used q acc skip final.
Proof.
  intros Hmax. unfold is_u64 in *. revert used acc0 skip0.
  induction q as [|t q IH]; intros used acc0 skip0 Hused Hq.
  { exists [], [], used. rewrite !app_nil_r. split; [done|constructor]. }
  apply Forall_cons in Hq as [Ht Hq]. simpl.
  unfold remaining_bytes, u64_saturating_sub, u64_saturating_add.
  destruct (Z.leb_spec (pt_size_bytes t) (Z.max (max_bytes limit - used) 0)).
  - rewrite Z.min_l by (unfold u64_max in *; lia).
    destruct (IH (used + pt_size_bytes t) (acc0 ++ [t]) skip0) as (acc & skip & final & -> & Hg);
      [unfold u64_max in *; lia|done|].
    exists (t :: acc), skip, final. rewrite <-app_assoc. split; [done|].
    constructor; [lia|done].
  - destruct (IH used acc0 (skip0 ++ [t])) as (acc & skip & final & -> & Hg); [lia|done|].
    exists acc, (t :: skip), final. rewrite <-app_assoc. split; [done|].
    constructor; [lia|done].
Qed.

Lemma greedy_partition max used q acc skip final :
  greedy max used q acc skip final →
  acc `sublist_of` q ∧ skip `sublist_of` q ∧ acc ++ skip ≡ₚ q.
Proof.
  induction 1 as [|???????? (?&?&IH)|???????? (?&?&IH)].
  - done.
  - split_and!; [by apply sublist_skip|by apply sublist_cons|]. simpl. by rewrite IH.
  - split_and!; [by apply sublist_cons|by apply sublist_skip|].
    rewrite <-Permutation_middle. by rewrite IH.
Qed.

Lemma greedy_bounds max used q acc skip final :
  Forall (λ t, 0 ≤ t.(pt_size_bytes)) q →
  greedy max used q acc skip final →
  final = used + total_size acc ∧ used ≤ final ≤ Z.max used max.
Proof.
  intros Hq. induction 1 as [|used t q acc skip final Hfit _ IH|used t q acc skip final Hfit _ IH].
  - unfold total_size; simpl. lia.
  - apply Forall_cons in Hq as [Ht Hq]. destruct (IH Hq). simpl. lia.
  - apply Forall_cons in Hq as [Ht Hq]. destruct (IH Hq). done.
Qed.

Lemma greedy_maximal max used q acc skip final t :
  Forall (λ t, 0 ≤ t.(pt_size_bytes)) q →
  greedy max used q acc skip final → t ∈ skip → Z.max used max < final + t.(pt_size_bytes).
Proof.
  intros Hq Hg. induction Hg as [|used u q acc skip final Hfit Hg IH|used u q acc skip final Hfit Hg IH];
    intros Ht.
  - by apply not_elem_of_nil in Ht.
  - apply Forall_cons in Hq as [Hu Hq]. specialize (IH Hq Ht). lia.
  - apply Forall_cons in Hq as [Hu Hq]. destruct (greedy_bounds _ _ _ _ _ _ Hq Hg).
    apply elem_of_cons in Ht as [->|Ht]; [lia|by apply IH].
Qed.

Lemma sublist_sorted {A} (R : relation A) l k :
  l `sublist_of` k → StronglySorted R k → StronglySorted R l.
Proof.
  induction 1 as [|x l k Hl IH|x l k Hl IH]; intros Hs; [done|..];
    apply StronglySorted_inv in Hs as [Hs Hall].
  - constructor; [by apply IH|]. rewrite Forall_forall in *. intros y Hy. apply Hall.
    by eapply sublist_subseteq.
  - by apply IH.
Qed.

Lemma plan_transfers_greedy limit used pending :
  is_u64 limit.(max_bytes) → is_u64 used → Forall (λ t, is_u64 t.(pt_size_bytes)) pending →
  let plan := plan_transfers limit used pending in
  greedy limit.(max_bytes) used (sort_by queued_le pending)
    plan.(accepted) plan.(skipped) plan.(final_used_bytes)
  ∧ plan.(warning_reached) = is_warning_reached limit plan.(final_used_bytes).
Proof.
  intros Hmax Hused Hp. unfold plan_transfers.
  destruct (plan_steps limit used (sort_by queued_le pending) [] [] Hmax Hused)
    as (acc & skip & final & -> & Hg); [|done].
  by rewrite sort_by_perm.
Qed.

(** ** Theorems *)

(** C25. [plan_transfers] refines the oldest-first greedy schedule, computed without
    machine arithmetic, on the queue stably sorted by queue time; the saturating
    additions and subtractions never lose a byte. *)
Theorem plan_transfers_refines (limit : FolderSizeLimit) (used : Z) (pending : list PendingTransfer) :
  limit_wf limit → is_u64 used → Forall (λ t, is_u64 t.(pt_size_bytes)) pending →
  let plan := plan_transfers limit used pending in
  greedy limit.(max_bytes) used (sort_by queued_le pending)
    plan.(accepted) plan.(skipped) plan.(final_used_bytes)
  ∧ (∀ z, filter (λ t, queued_le z t && queued_le t z = true) (sort_by queued_le pending)
          = filter (λ t, queued_le z t && queued_le t z = true) pending).
Proof.
  intros [Hmax _] Hused Hp. simpl. split.
  - by apply plan_transfers_greedy.
  - intros z. apply sort_by_stable; [apply queued_le_total|apply queued_le_trans].
Qed.

(** C31. The plan decides every pending transfer once, keeps both lists in queue
    order, accounts for exactly the accepted bytes, never passes the limit (or
    the bytes already used, when they pass it), and skips nothing that still fits
    when it ends. *)
Theorem plan_transfers_correct (limit : FolderSizeLimit) (used : Z) (pending : list PendingTransfer) :
  limit_wf limit → is_u64 used → Forall (λ t, is_u64 t.(pt_size_bytes)) pending →
  let plan := plan_transfers limit used pending in
  plan.(accepted) ++ plan.(skipped) ≡ₚ pending
  ∧ sorted_by queued_le plan.(accepted) ∧ sorted_by queued_le plan.(skipped)
  ∧ plan.(final_used_bytes) = used + total_size plan.(accepted)
  ∧ plan.(final_used_bytes) ≤ Z.max used limit.(max_bytes)
  ∧ (∀ t, t ∈ plan.(skipped) → limit.(max_bytes) < plan.(final_used_bytes) + t.(pt_size_bytes)).
Proof.
  intros [Hmax _] Hused Hp. simpl.
  destruct (plan_transfers_greedy limit used pending Hmax Hused Hp) as [Hg _].
  pose proof (sort_by_sorted queued_le pending queued_le_total queued_le_trans) as Hs.
  destruct (greedy_partition _ _ _ _ _ _ Hg) as (Ha & Hk & Hperm).
  assert (Forall (λ t, 0 ≤ pt_size_bytes t) (sort_by queued_le pending)) as Hpos.
  { rewrite sort_by_perm. eapply Forall_impl; [done|]. unfold is_u64. simpl; lia. }
  destruct (greedy_bounds _ _ _ _ _ _ Hpos Hg) as [Hf [_ Hb]].
  split_and!; [by rewrite Hperm, sort_by_perm|by eapply sublist_sorted..|done|done|].
  intros t Ht. pose proof (greedy_maximal _ _ _ _ _ _ t Hpos Hg Ht). lia.
Qed.

(** The warning is never late: it is given as soon as [used] reaches the
    configured percentage of the limit; and unless the saturating multiplication
    saturates it is given only then (up to the rounding of the division). *)
Theorem warning_threshold_exact (limit : FolderSizeLimit) (used : Z) :
  limit_wf limit → is_u64 used →
  (limit.(max_bytes) * limit.(warning_threshold_percent) ≤ 100 * used →
   is_warning_reached limit used = true)
  ∧ (limit.(max_bytes) * limit.(warning_threshold_percent) ≤ u64_max →
     is_warning_reached limit used = true →
     limit.(max_bytes) * limit.(warning_threshold_percent) < 100 * (used + 1)).
Proof.
  intros [[? ?] [? ?]] [? ?]. unfold is_warning_reached, u64_saturating_mul.
  set (n := max_bytes limit * warning_threshold_percent limit). rewrite Z.leb_le. split.
  - intros Hn. apply Z.div_le_upper_bound; lia.
  - intros Hn. rewrite Z.min_l by done. intros Hd.
    pose proof (Z.mod_pos_bound n 100 ltac:(lia)). pose proof (Z.div_mod n 100 ltac:(lia)). lia.
Qed.

(** The multiplication does saturate: with the largest limits the warning is
    given although less than the configured share is used. *)
Theorem warning_early_on_saturation :
  let limit := {| max_bytes := u64_max; warning_threshold_percent := 80 |} in
  folder_size_limit_new u64_max 80 = Ok limit
  ∧ is_warning_reached limit (u64_max / 100) = true
  ∧ 100 * (u64_max / 100 + 1) < limit.(max_bytes) * 80.
Proof. vm_compute. done. Qed.

(** ** Witnesses *)

Definition transfer_at (id : N) (path : string) (size at_ : Z) : PendingTransfer :=
  {| pt_operation_id := id; pt_path := {| rel_str := path |};
     pt_size_bytes := size; pt_queued_at := at_ |}.
Definition sample_limit : FolderSizeLimit := {| max_bytes := 100; warning_threshold_percent := 80 |}.
Definition sample_queue : list PendingTransfer :=
  [transfer_at 1 "newest.bin" 40 12; transfer_at 2 "oldest.bin" 70 10; transfer_at 3 "middle.bin" 40 11].

Lemma sample_queue_sizes : Forall (λ t, is_u64 t.(pt_size_bytes)) sample_queue.
Proof. repeat constructor; unfold is_u64, u64_max; simpl; lia. Qed.

Lemma sample_limit_wf : limit_wf sample_limit.
Proof. unfold limit_wf, is_u64, u64_max; simpl; lia. Qed.

Example sample_plan :
  (λ p, (map pt_operation_id p.(accepted), map pt_operation_id p.(skipped),
         p.(final_used_bytes), p.(warning_reached))) (plan_transfers sample_limit 0 sample_queue)
  = ([2%N], [3%N; 1%N], 70, false).
Proof. vm_compute. reflexivity. Qed.

Lemma plan_transfers_refines_witness :
  greedy 100 0 (sort_by queued_le sample_queue)
    (plan_transfers sample_limit 0 sample_queue).(accepted)
    (plan_transfers sample_limit 0 sample_queue).(skipped)
    (plan_transfers sample_limit 0 sample_queue).(final_used_bytes).
Proof.
  assert (is_u64 0) as H0 by (unfold is_u64, u64_max; lia).
  exact (proj1 (plan_transfers_refines sample_limit 0 sample_queue sample_limit_wf H0 sample_queue_sizes)).
Defined.

Lemma plan_transfers_correct_witness :
  (plan_transfers sample_limit 0 sample_queue).(final_used_bytes) ≤ 100.
Proof.
  assert (is_u64 0) as H0 by (unfold is_u64, u64_max; lia).
  exact (proj1 (proj2 (proj2 (proj2 (proj2
    (plan_transfers_correct sample_limit 0 sample_queue sample_limit_wf H0 sample_queue_sizes)))))).
Defined.

Lemma warning_threshold_exact_witness :
  is_warning_reached sample_limit 85 = true ∧ 100 * 80 < 100 * (85 + 1).
Proof.
  assert (is_u64 85) as H by (unfold is_u64, u64_max; lia).
  destruct (warning_threshold_exact sample_limit 85 sample_limit_wf H) as [H1 H2].
  split; [apply H1; simpl; lia|]. apply H2; [unfold u64_max; simpl; lia|reflexivity].
Defined.
