(* ===== verification/Model.v ===== *)
(** * [crates/syncer-core/src/model.rs] and [security.rs]: names, configuration, pairing *)

From S2P Require Import Prelude RustStd External Error Manifest Limits.
From stdpp Require Import options.
Local Open Scope Z_scope.

(** ** [DeviceName] *)

Record DeviceName := { device_name : string }.

Definition device_name_parse (value : string) : CoreResult DeviceName :=
  let value := trim value in
  let valid :=
    negb (bool_decide (value = ""))
    && (Z.of_nat (length (chars value)) <=? 64)
    && forallb (λ character, negb (is_control character)) (chars value) in
  if valid then Ok {| device_name := value |} else Err InvalidDeviceName.

Definition device_name_as_str (n : DeviceName) : string := n.(device_name).

(** ** Folder configuration *)

Inductive FolderMode := Bidirectional | UploadOnly | DownloadOnly.
#[export] Instance FolderMode_eq_dec : EqDecision FolderMode.
Proof. solve_decision. Defined.
Definition folder_mode_default : FolderMode := Bidirectional.

Inductive DeleteScope := LocalOnly | PropagateToPeers.
#[export] Instance DeleteScope_eq_dec : EqDecision DeleteScope.
Proof. solve_decision. Defined.

Record RetentionPolicy := { max_versions_per_file : Z; max_age_days : Z }.
Definition retention_policy_default : RetentionPolicy :=
  {| max_versions_per_file := 5; max_age_days := 30 |}.

Record PeerEndpoint := { pe_host : string; pe_port : Z }.

(** [PublicKeyBytes([u8; 32])]: the length is part of the type. *)
Record PublicKeyBytes := {
  pk_bytes : list ascii;
  pk_length : bool_decide (length pk_bytes = 32%nat) = true;
}.

Record FolderPeer := {
  fp_device_id : DeviceId;
  fp_device_name : DeviceName;
  fp_public_key : PublicKeyBytes;
  fp_endpoint : option PeerEndpoint;
}.

Inductive StorageRoot :=
| NativePath (path : string)
| AndroidTreeUri (uri : string).

Record FolderConfig := {
  fc_id : FolderId;
  fc_display_name : string;
  fc_root : StorageRoot;
  fc_mode : FolderMode;
  fc_interval_seconds : Z;
  fc_size_limit : FolderSizeLimit;
  fc_retention : RetentionPolicy;
  fc_peers : list FolderPeer;
}.

#[export] Instance DeviceName_eq_dec : EqDecision DeviceName.
Proof. solve_decision. Defined.
#[export] Instance PeerEndpoint_eq_dec : EqDecision PeerEndpoint.
Proof. solve_decision. Defined.
#[export] Instance PublicKeyBytes_eq_dec : EqDecision PublicKeyBytes.
Proof.
  intros [b1 H1] [b2 H2]. destruct (decide (b1 = b2)) as [->|Hne]; [left|right; congruence].
  f_equal. apply (eq_pi _).
Defined.
#[export] Instance FolderPeer_eq_dec : EqDecision FolderPeer.
Proof. solve_decision. Defined.
#[export] Instance StorageRoot_eq_dec : EqDecision StorageRoot.
Proof. solve_decision. Defined.
#[export] Instance RetentionPolicy_eq_dec : EqDecision RetentionPolicy.
Proof. solve_decision. Defined.
#[export] Instance FolderSizeLimit_eq_dec : EqDecision FolderSizeLimit.
Proof. solve_decision. Defined.
#[export] Instance FolderConfig_eq_dec : EqDecision FolderConfig.
Proof. solve_decision. Defined.

(** [Duration::seconds] of the interval, in whole seconds ([i64]). *)
Definition sync_interval (c : FolderConfig) : Z :=
  default i64_max (i64_try_from_u64 c.(fc_interval_seconds)).

(** ** [security.rs] *)

Definition public_key_from_slice (bs : list ascii) : CoreResult PublicKeyBytes :=
  match decide (bool_decide (length bs = 32%nat) = true) with
  | left H => Ok {| pk_bytes := bs; pk_length := H |}
  | right _ => Err InvalidPublicKeyLength
  end.
Definition public_key_as_bytes (k : PublicKeyBytes) : list ascii := k.(pk_bytes).

Record PairingTicket := {
  tk_device_id : DeviceId;
  tk_device_name : DeviceName;
  tk_temporary_public_key : PublicKeyBytes;
  tk_endpoint : string;
  tk_expires_at : OffsetDateTime;
}.

Definition pairing_ticket_new (device_id : DeviceId) (name : DeviceName) (key : PublicKeyBytes)
    (endpoint : string) (expires_at now : OffsetDateTime) : CoreResult PairingTicket :=
  if expires_at <=? now then Err ExpiredPairingTicket
  else Ok {| tk_device_id := device_id; tk_device_name := name;
             tk_temporary_public_key := key; tk_endpoint := endpoint;
             tk_expires_at := expires_at |}.

Definition is_expired (t : PairingTicket) (now : OffsetDateTime) : bool :=
  t.(tk_expires_at) <=? now.

Record PeerPresence := {
  pp_device_id : DeviceId;
  pp_sent_at : OffsetDateTime;
  pp_agent_version : string;
}.

(** ** Theorems *)

(** [DeviceName::parse] returns the trimmed text exactly when it has 1 to 64
    characters, none of them a control character, and parsing a device name's own
    text gives the same name back. *)
Theorem device_name_parse_spec (value : string) (n : DeviceName) :
  (device_name_parse value = Ok n ↔
     n.(device_name) = trim value ∧ trim value ≠ ""
     ∧ Z.of_nat (length (chars (trim value))) ≤ 64
     ∧ Forall (λ c, is_control c = false) (chars (trim value)))
  ∧ (device_name_parse value = Ok n → device_name_parse (device_name_as_str n) = Ok n).
Proof.
  assert (∀ v m, device_name_parse v = Ok m ↔
     m.(device_name) = trim v ∧ trim v ≠ ""
     ∧ Z.of_nat (length (chars (trim v))) ≤ 64
     ∧ Forall (λ c, is_control c = false) (chars (trim v))) as H.
  { intros v m. unfold device_name_parse.
    assert (Forall (λ c, is_control c = false) (chars (trim v)) ↔
            forallb (λ c, negb (is_control c)) (chars (trim v)) = true) as ->.
    { rewrite forallb_forall, Forall_forall. setoid_rewrite negb_true_iff.
      by setoid_rewrite <-list_elem_of_In. }
    rewrite <-Z.leb_le.
    destruct (forallb _ _), (_ <=? _), (bool_decide_reflect (trim v = "")); simpl;
      (split; [by intros [= <-]|]); try (by intros (?&?&?&?)).
    intros (Hm & _). destruct m; simpl in *; by subst. }
  split; [apply H|]. intros (Hn & Hr)%H. apply H. unfold device_name_as_str.
  by rewrite Hn, trim_idem.
Qed.

Lemma device_name_parse_spec_witness :
  device_name_parse "  My Phone " = Ok {| device_name := "My Phone" |} ∧
  device_name_parse "My Phone" = Ok {| device_name := "My Phone" |}.
Proof.
  assert (device_name_parse "  My Phone " = Ok {| device_name := "My Phone" |}) as H
    by (vm_compute; reflexivity).
  split; [exact H|].
  exact (proj2 (device_name_parse_spec "  My Phone " {| device_name := "My Phone" |}) H).
Defined.

(** A pairing ticket is made only with an expiry still ahead: it is not
    expired when created, and from its expiry on it always is. *)
Theorem pairing_ticket_lifetime device_id name key endpoint (expires_at now : OffsetDateTime) :
  match pairing_ticket_new device_id name key endpoint expires_at now with
  | Ok t => is_expired t now = false ∧
            ∀ later, is_expired t later = bool_decide (expires_at ≤ later)
  | Err e => e = ExpiredPairingTicket ∧ expires_at ≤ now
  end.
Proof.
  unfold pairing_ticket_new. destruct (Z.leb_spec expires_at now); [done|].
  unfold is_expired; simpl. split; [by apply Z.leb_gt|]. intros later.
  destruct (Z.leb_spec expires_at later); symmetry;
    [by apply bool_decide_eq_true_2|apply bool_decide_eq_false_2; lia].
Qed.
