(* ===== verification/Records.v ===== *)
(** * [crates/syncer-core/src/state_db.rs]: the records the state database exchanges

    The enumerations are stored as text; [parse] and [as_str] are the source's. *)

From S2P Require Import Prelude RustStd External Error Manifest.
From stdpp Require Import options.
Local Open Scope Z_scope.

(** ** Files *)

Inductive FileSyncState :=
| LocalAvailable
| UnsynchronizedLocalMissing
| PendingUpload
| PendingDownload
| SkippedFolderLimit.

#[export] Instance FileSyncState_eq_dec : EqDecision FileSyncState.
Proof. solve_decision. Defined.

Definition file_sync_state_parse (value : string) : CoreResult FileSyncState :=
  if bool_decide (value = "local_available") then Ok LocalAvailable
  else if bool_decide (value = "unsynchronized_local_missing") then Ok UnsynchronizedLocalMissing
  else if bool_decide (value = "pending_upload") then Ok PendingUpload
  else if bool_decide (value = "pending_download") then Ok PendingDownload
  else if bool_decide (value = "skipped_folder_limit") then Ok SkippedFolderLimit
  else Err (StateDatabase ("unknown file sync state " +:+ value)).

Record FileRecord := {
  fr_path : RelativePath;
  fr_kind : FileKind;
  fr_size_bytes : Z;
  fr_modified_at : OffsetDateTime;
  fr_content_hash : option string;
  fr_generation : Z;
  fr_device_id : string;
  fr_sync_state : FileSyncState;
}.

Inductive SkippedReason := FolderLimit.

Definition skipped_reason_parse (value : string) : CoreResult SkippedReason :=
  if bool_decide (value = "folder_limit") then Ok FolderLimit
  else Err (StateDatabase ("unknown skipped reason " +:+ value)).

Record SkippedFileRecord := {
  sr_path : RelativePath;
  sr_reason : SkippedReason;
  sr_size_bytes : Z;
  sr_queued_at : OffsetDateTime;
}.

Record FolderStatus := {
  fs_indexed_files : Z;
  fs_indexed_bytes : Z;
  fs_local_available : Z;
  fs_unsynchronized_local_missing : Z;
  fs_pending_upload : Z;
  fs_pending_download : Z;
  fs_skipped_folder_limit : Z;
}.

Record FolderManifest := {
  fm_folder_id : FolderId;
  fm_device_id : DeviceId;
  fm_generated_at : OffsetDateTime;
  fm_files : list FileRecord;
}.

(** ** Queued operations *)

Inductive SyncOperationKind :=
| KUploadToRemote
| KDownloadFromRemote
| KResolveConflict
| KRepairLocalMissing
| KRepairRemoteMissing
| KModeBlocked.

#[export] Instance SyncOperationKind_eq_dec : EqDecision SyncOperationKind.
Proof. solve_decision. Defined.

Definition kind_parse (value : string) : CoreResult SyncOperationKind :=
  if bool_decide (value = "upload_to_remote") then Ok KUploadToRemote
  else if bool_decide (value = "download_from_remote") then Ok KDownloadFromRemote
  else if bool_decide (value = "resolve_conflict") then Ok KResolveConflict
  else if bool_decide (value = "repair_local_missing") then Ok KRepairLocalMissing
  else if bool_decide (value = "repair_remote_missing") then Ok KRepairRemoteMissing
  else if bool_decide (value = "mode_blocked") then Ok KModeBlocked
  else Err (StateDatabase ("unknown sync operation kind " +:+ value)).

Definition kind_as_str (k : SyncOperationKind) : string :=
  match k with
  | KUploadToRemote => "upload_to_remote"
  | KDownloadFromRemote => "download_from_remote"
  | KResolveConflict => "resolve_conflict"
  | KRepairLocalMissing => "repair_local_missing"
  | KRepairRemoteMissing => "repair_remote_missing"
  | KModeBlocked => "mode_blocked"
  end.

Inductive SyncOperationStatus := SPending | SBlocked | SDone | SFailed.

#[export] Instance SyncOperationStatus_eq_dec : EqDecision SyncOperationStatus.
Proof. solve_decision. Defined.

Definition status_parse (value : string) : CoreResult SyncOperationStatus :=
  if bool_decide (value = "pending") then Ok SPending
  else if bool_decide (value = "blocked") then Ok SBlocked
  else if bool_decide (value = "done") then Ok SDone
  else if bool_decide (value = "failed") then Ok SFailed
  else Err (StateDatabase ("unknown sync operation status " +:+ value)).

Definition status_as_str (s : SyncOperationStatus) : string :=
  match s with
  | SPending => "pending"
  | SBlocked => "blocked"
  | SDone => "done"
  | SFailed => "failed"
  end.

Record SyncOperationRecord := {
  op_id : string;
  op_path : RelativePath;
  op_kind : SyncOperationKind;
  op_status : SyncOperationStatus;
  op_reason : string;
  op_local_size_bytes : option Z;
  op_remote_size_bytes : option Z;
  op_local_content_hash : option string;
  op_remote_content_hash : option string;
  op_remote_device_id : string;
  op_last_error : option string;
  op_retry_count : Z;
  op_started_at : option OffsetDateTime;
  op_finished_at : option OffsetDateTime;
  op_created_at : OffsetDateTime;
  op_updated_at : OffsetDateTime;
}.

Record QueueStatus := {
  qs_total : Z;
  qs_pending : Z;
  qs_blocked : Z;
  qs_done : Z;
  qs_failed : Z;
  qs_upload_to_remote : Z;
  qs_download_from_remote : Z;
  qs_resolve_conflict : Z;
  qs_repair_local_missing : Z;
  qs_repair_remote_missing : Z;
  qs_mode_blocked : Z;
}.

Record RetryFailedSummary := {
  rf_retried : Z;
  rf_queue : QueueStatus;
}.

Inductive BlockedOperationResolution := RDownloadFromRemote | RUploadToRemote.

Definition resolution_reason (r : BlockedOperationResolution) : string :=
  match r with
  | RDownloadFromRemote => "user selected remote version"
  | RUploadToRemote => "user selected local version"
  end.

Record ResolveOperationSummary := {
  ro_operation : SyncOperationRecord;
  ro_queue : QueueStatus;
}.

(** ** Lemmas *)

Lemma kind_parse_as_str k : kind_parse (kind_as_str k) = Ok k.
Proof. by destruct k; vm_compute. Qed.
Lemma status_parse_as_str s : status_parse (status_as_str s) = Ok s.
Proof. by destruct s; vm_compute. Qed.

Lemma kind_parse_inv v k : kind_parse v = Ok k → v = kind_as_str k.
Proof. unfold kind_parse. repeat case_bool_decide; by intros [= <-]. Qed.
Lemma status_parse_inv v s : status_parse v = Ok s → v = status_as_str s.
Proof. unfold status_parse. repeat case_bool_decide; by intros [= <-]. Qed.

#[export] Instance kind_as_str_inj : Inj (=) (=) kind_as_str.
Proof.
  intros k1 k2 H. apply (f_equal kind_parse) in H. rewrite !kind_parse_as_str in H. congruence.
Qed.
#[export] Instance status_as_str_inj : Inj (=) (=) status_as_str.
Proof.
  intros k1 k2 H. apply (f_equal status_parse) in H. rewrite !status_parse_as_str in H. congruence.
Qed.
