(* ===== verification/Planning.v ===== *)
(** * [crates/syncer-core/src/planning.rs]: comparing two manifests *)

From S2P Require Import Prelude RustStd External Error Manifest Limits Model Records.
From stdpp Require Import options.
Local Open Scope Z_scope.

(** ** Three-way classification of one file *)

Inductive FilePresence :=
| Present (entry : FileEntry)
| MissingKnown
| Unknown.

Inductive ChangeClassification :=
| CInSync
| CLocalOnlyDelete
| CRemoteOnlyDelete
| CLocalNeedsDownload
| CRemoteNeedsUpload
| CConflict
| CUnknown.

#[export] Instance ChangeClassification_eq_dec : EqDecision ChangeClassification.
Proof. solve_decision. Defined.

Definition classify_file_presence (local remote : FilePresence) (common_base : option FileEntry)
    : ChangeClassification :=
  match local, remote with
  | Present left_, Present right_ =>
      if bool_decide (left_.(fe_content_hash) = right_.(fe_content_hash))
         && (left_.(fe_size_bytes) =? right_.(fe_size_bytes))
      then CInSync
      else match common_base with
           | Some base =>
               let local_changed := bool_decide (left_.(fe_content_hash) ≠ base.(fe_content_hash)) in
               let remote_changed := bool_decide (right_.(fe_content_hash) ≠ base.(fe_content_hash)) in
               match local_changed, remote_changed with
               | true, true => CConflict
               | true, false => CRemoteNeedsUpload
               | false, true => CLocalNeedsDownload
               | false, false => CInSync
               end
           | None => CConflict
           end
  | MissingKnown, Present _ => CLocalOnlyDelete
  | Present _, MissingKnown => CRemoteOnlyDelete
  | Unknown, _ | _, Unknown => CUnknown
  | MissingKnown, MissingKnown => CInSync
  end.

(** ** The sync plan *)

Inductive SyncAction :=
| InSync
| UploadToRemote
| DownloadFromRemote
| Conflict
| LocalMissingUnsynchronized
| RemoteMissingUnsynchronized
| ModeBlocked.

#[export] Instance SyncAction_eq_dec : EqDecision SyncAction.
Proof. solve_decision. Defined.

Record SyncPlanEntry := {
  pe_path : string;
  pe_action : SyncAction;
  pe_local_size_bytes : option Z;
  pe_remote_size_bytes : option Z;
  pe_local_content_hash : option string;
  pe_remote_content_hash : option string;
  pe_reason : string;
}.

Record SyncPlanSummary := {
  sm_in_sync : Z;
  sm_upload_to_remote : Z;
  sm_download_from_remote : Z;
  sm_conflicts : Z;
  sm_local_missing_unsynchronized : Z;
  sm_remote_missing_unsynchronized : Z;
  sm_mode_blocked : Z;
}.

Record SyncPlan := {
  sp_local_device_id : string;
  sp_remote_device_id : string;
  sp_entries : list SyncPlanEntry;
  sp_summary : SyncPlanSummary;
}.

Definition summary_default : SyncPlanSummary :=
  {| sm_in_sync := 0; sm_upload_to_remote := 0; sm_download_from_remote := 0;
     sm_conflicts := 0; sm_local_missing_unsynchronized := 0;
     sm_remote_missing_unsynchronized := 0; sm_mode_blocked := 0 |}.

Definition is_action (a b : SyncAction) : bool := bool_decide (a = b).

(** One arm of the match adds one to its counter and leaves the others. *)
Definition increment_summary (s : SyncPlanSummary) (action : SyncAction) : SyncPlanSummary :=
  {| sm_in_sync := bump (is_action action InSync) s.(sm_in_sync);
     sm_upload_to_remote := bump (is_action action UploadToRemote) s.(sm_upload_to_remote);
     sm_download_from_remote :=
       bump (is_action action DownloadFromRemote) s.(sm_download_from_remote);
     sm_conflicts := bump (is_action action Conflict) s.(sm_conflicts);
     sm_local_missing_unsynchronized :=
       bump (is_action action LocalMissingUnsynchronized) s.(sm_local_missing_unsynchronized);
     sm_remote_missing_unsynchronized :=
       bump (is_action action RemoteMissingUnsynchronized) s.(sm_remote_missing_unsynchronized);
     sm_mode_blocked := bump (is_action action ModeBlocked) s.(sm_mode_blocked) |}.

Definition entry (path : string) (action : SyncAction)
    (local_size_bytes remote_size_bytes : option Z)
    (local_content_hash remote_content_hash : option string) (reason : string) : SyncPlanEntry :=
  {| pe_path := path; pe_action := action;
     pe_local_size_bytes := local_size_bytes; pe_remote_size_bytes := remote_size_bytes;
     pe_local_content_hash := local_content_hash; pe_remote_content_hash := remote_content_hash;
     pe_reason := reason |}.

Definition is_missing (f : FileRecord) : bool :=
  bool_decide (f.(fr_sync_state) = UnsynchronizedLocalMissing).

Definition plan_existing_path (path : string) (local remote : FileRecord) : SyncPlanEntry :=
  let with_both action reason :=
    entry path action (Some local.(fr_size_bytes)) (Some remote.(fr_size_bytes))
      local.(fr_content_hash) remote.(fr_content_hash) reason in
  if is_missing local then
    with_both LocalMissingUnsynchronized "local side is missing a previously known file"
  else if is_missing remote then
    with_both RemoteMissingUnsynchronized "remote side is missing a previously known file"
  else if bool_decide (local.(fr_content_hash) = remote.(fr_content_hash))
          && (local.(fr_size_bytes) =? remote.(fr_size_bytes)) then
    with_both InSync "content hash and size match"
  else
    with_both Conflict "both sides have different content and no common base version is known".

Definition plan_path (path : string) (local_file remote_file : option FileRecord) : SyncPlanEntry :=
  match local_file, remote_file with
  | Some local, Some remote => plan_existing_path path local remote
  | Some local, None =>
      if is_missing local then
        entry path LocalMissingUnsynchronized (Some local.(fr_size_bytes)) None
          local.(fr_content_hash) None "local side is missing a previously known file"
      else
        entry path UploadToRemote (Some local.(fr_size_bytes)) None
          local.(fr_content_hash) None "remote side does not have this file"
  | None, Some remote =>
      if is_missing remote then
        entry path RemoteMissingUnsynchronized None (Some remote.(fr_size_bytes))
          None remote.(fr_content_hash) "remote side is missing a previously known file"
      else
        entry path DownloadFromRemote None (Some remote.(fr_size_bytes))
          None remote.(fr_content_hash) "local side does not have this file"
  | None, None => entry path InSync None None None None "file absent on both sides"
  end.

Definition apply_folder_mode (e : SyncPlanEntry) (mode : FolderMode) : SyncPlanEntry :=
  let blocked :=
    match mode, e.(pe_action) with
    | UploadOnly, DownloadFromRemote => Some "folder is upload-only"
    | DownloadOnly, UploadToRemote => Some "folder is download-only"
    | _, _ => None
    end in
  match blocked with
  | Some reason =>
      entry e.(pe_path) ModeBlocked e.(pe_local_size_bytes) e.(pe_remote_size_bytes)
        e.(pe_local_content_hash) e.(pe_remote_content_hash) reason
  | None => e
  end.

(** [collect] into a [BTreeMap]: a later file of the same path replaces an earlier one. *)
Definition files_by_path (files : list FileRecord) : gmap string FileRecord :=
  foldl (λ m f, <[rel_str f.(fr_path) := f]> m) ∅ files.

(** The keys of both maps as a [BTreeSet<String>], in its iteration order. *)
Definition plan_paths (local_by_path remote_by_path : gmap string FileRecord) : list string :=
  sort_by str_le (elements (dom local_by_path ∪ dom remote_by_path)).

Definition plan_manifest_sync_for_mode `{!UuidLib} (local remote : FolderManifest)
    (mode : FolderMode) : SyncPlan :=
  let local_by_path := files_by_path local.(fm_files) in
  let remote_by_path := files_by_path remote.(fm_files) in
  let plan0 :=
    {| sp_local_device_id := device_id_to_string local.(fm_device_id);
       sp_remote_device_id := device_id_to_string remote.(fm_device_id);
       sp_entries := []; sp_summary := summary_default |} in
  foldl (λ plan path,
      let e := apply_folder_mode
                 (plan_path path (local_by_path !! path) (remote_by_path !! path)) mode in
      {| sp_local_device_id := plan.(sp_local_device_id);
         sp_remote_device_id := plan.(sp_remote_device_id);
         sp_entries := plan.(sp_entries) ++ [e];
         sp_summary := increment_summary plan.(sp_summary) e.(pe_action) |})
    plan0 (plan_paths local_by_path remote_by_path).

Definition plan_manifest_sync `{!UuidLib} (local remote : FolderManifest) : SyncPlan :=
  plan_manifest_sync_for_mode local remote Bidirectional.

(** ** Specification *)

(** The roles of the two sides exchanged. *)
Definition mirror_action (a : SyncAction) : SyncAction :=
  match a with
  | UploadToRemote => DownloadFromRemote
  | DownloadFromRemote => UploadToRemote
  | LocalMissingUnsynchronized => RemoteMissingUnsynchronized
  | RemoteMissingUnsynchronized => LocalMissingUnsynchronized
  | a => a
  end.
Definition mirror_mode (m : FolderMode) : FolderMode :=
  match m with
  | Bidirectional => Bidirectional
  | UploadOnly => DownloadOnly
  | DownloadOnly => UploadOnly
  end.
Definition mirror_class (c : ChangeClassification) : ChangeClassification :=
  match c with
  | CLocalOnlyDelete => CRemoteOnlyDelete
  | CRemoteOnlyDelete => CLocalOnlyDelete
  | CLocalNeedsDownload => CRemoteNeedsUpload
  | CRemoteNeedsUpload => CLocalNeedsDownload
  | c => c
  end.

(** An entry without its explanation, as seen from the other side. *)
Definition entry_facts (e : SyncPlanEntry) :=
  (e.(pe_path), e.(pe_action), (e.(pe_local_size_bytes), e.(pe_local_content_hash)),
   (e.(pe_remote_size_bytes), e.(pe_remote_content_hash))).
Definition mirror_facts (e : SyncPlanEntry) :=
  (e.(pe_path), mirror_action e.(pe_action),
   (e.(pe_remote_size_bytes), e.(pe_remote_content_hash)),
   (e.(pe_local_size_bytes), e.(pe_local_content_hash))).

(** The record a manifest holds for a path: the last one listed. *)
Definition record_of (m : FolderManifest) (path : string) : option FileRecord :=
  last (filter (λ f, rel_str f.(fr_path) = path) m.(fm_files)).

Definition summary_count (s : SyncPlanSummary) (a : SyncAction) : Z :=
  match a with
  | InSync => s.(sm_in_sync)
  | UploadToRemote => s.(sm_upload_to_remote)
  | DownloadFromRemote => s.(sm_download_from_remote)
  | Conflict => s.(sm_conflicts)
  | LocalMissingUnsynchronized => s.(sm_local_missing_unsynchronized)
  | RemoteMissingUnsynchronized => s.(sm_remote_missing_unsynchronized)
  | ModeBlocked => s.(sm_mode_blocked)
  end.
Definition all_actions : list SyncAction :=
  [InSync; UploadToRemote; DownloadFromRemote; Conflict;
   LocalMissingUnsynchronized; RemoteMissingUnsynchronized; ModeBlocked].

(** The entry the plan holds for one path. *)
Definition entry_at (local remote : FolderManifest) (mode : FolderMode) (path : string)
    : SyncPlanEntry :=
  apply_folder_mode (plan_path path (record_of local path) (record_of remote path)) mode.

(** ** Lemmas *)

Lemma files_by_path_lookup files path :
  files_by_path files !! path = last (filter (λ f, rel_str f.(fr_path) = path) files).
Proof.
  unfold files_by_path. induction files as [|f files IH] using rev_ind; [done|].
  rewrite foldl_app, filter_app. simpl. rewrite filter_cons, filter_nil.
  destruct (decide (rel_str (fr_path f) = path)) as [<-|Hne].
  - by rewrite lookup_insert_eq, last_snoc.
  - by rewrite lookup_insert_ne, app_nil_r.
Qed.

Lemma record_of_lookup m path : files_by_path m.(fm_files) !! path = record_of m path.
Proof. apply files_by_path_lookup. Qed.

Lemma elem_of_plan_paths l r path :
  path ∈ plan_paths l r ↔ is_Some (l !! path) ∨ is_Some (r !! path).
Proof.
  unfold plan_paths. rewrite sort_by_elem, elem_of_elements, elem_of_union, !elem_of_dom. done.
Qed.

Lemma plan_paths_sorted l r : sorted_by str_le (plan_paths l r).
Proof. apply sort_by_sorted; [apply str_le_total|apply str_le_trans]. Qed.

Lemma plan_paths_NoDup l r : NoDup (plan_paths l r).
Proof. unfold plan_paths. rewrite sort_by_perm. apply NoDup_elements. Qed.

Lemma plan_fold `{!UuidLib} (local remote : FolderManifest) mode es s ps :
  foldl (λ plan path,
      let e := apply_folder_mode
                 (plan_path path (files_by_path local.(fm_files) !! path)
                    (files_by_path remote.(fm_files) !! path)) mode in
      {| sp_local_device_id := plan.(sp_local_device_id);
         sp_remote_device_id := plan.(sp_remote_device_id);
         sp_entries := plan.(sp_entries) ++ [e];
         sp_summary := increment_summary plan.(sp_summary) e.(pe_action) |})
    {| sp_local_device_id := device_id_to_string local.(fm_device_id);
       sp_remote_device_id := device_id_to_string remote.(fm_device_id);
       sp_entries := es; sp_summary := s |} ps
  = {| sp_local_device_id := device_id_to_string local.(fm_device_id);
       sp_remote_device_id := device_id_to_string remote.(fm_device_id);
       sp_entries := es ++ (entry_at local remote mode <$> ps);
       sp_summary := foldl (λ s e, increment_summary s e.(pe_action)) s
                       (entry_at local remote mode <$> ps) |}.
Proof.
  revert es s; induction ps as [|p ps IH]; intros es s; simpl; [by rewrite app_nil_r|].
  rewrite !record_of_lookup, IH. by rewrite <-app_assoc.
Qed.

Lemma plan_entries `{!UuidLib} (local remote : FolderManifest) mode :
  (plan_manifest_sync_for_mode local remote mode).(sp_entries)
  = entry_at local remote mode
    <$> plan_paths (files_by_path local.(fm_files)) (files_by_path remote.(fm_files)).
Proof. unfold plan_manifest_sync_for_mode. by rewrite plan_fold. Qed.

Lemma plan_summary `{!UuidLib} (local remote : FolderManifest) mode :
  (plan_manifest_sync_for_mode local remote mode).(sp_summary)
  = foldl (λ s e, increment_summary s e.(pe_action)) summary_default
      (plan_manifest_sync_for_mode local remote mode).(sp_entries).
Proof. rewrite plan_entries. unfold plan_manifest_sync_for_mode. by rewrite plan_fold. Qed.

Lemma entry_at_path local remote mode path : (entry_at local remote mode path).(pe_path) = path.
Proof.
  unfold entry_at, apply_folder_mode, plan_path, plan_existing_path.
  by repeat case_match.
Qed.

Lemma plan_entry_elem `{!UuidLib} (local remote : FolderManifest) mode e :
  e ∈ (plan_manifest_sync_for_mode local remote mode).(sp_entries) ↔
  e = entry_at local remote mode e.(pe_path)
  ∧ (is_Some (record_of local e.(pe_path)) ∨ is_Some (record_of remote e.(pe_path))).
Proof.
  rewrite plan_entries, list_elem_of_fmap. split.
  - intros (path & -> & Hp%elem_of_plan_paths). rewrite entry_at_path.
    by rewrite !record_of_lookup in Hp.
  - intros [He Hp]. exists (pe_path e). split; [done|]. apply elem_of_plan_paths.
    by rewrite !record_of_lookup.
Qed.

Lemma record_of_Some m path :
  is_Some (record_of m path) ↔ ∃ f, f ∈ m.(fm_files) ∧ rel_str f.(fr_path) = path.
Proof.
  unfold record_of. rewrite last_is_Some. split.
  - intros Hne. destruct (filter _ _) as [|f l] eqn:E; [done|]. exists f.
    assert (f ∈ f :: l) as Hf by left. rewrite <-E in Hf. by apply list_elem_of_filter in Hf as [? ?].
  - intros (f & Hf & Hp) E. eapply not_elem_of_nil with (x := f). rewrite <-E.
    by apply list_elem_of_filter.
Qed.

Lemma summary_foldl (es : list SyncPlanEntry) a :
  summary_count (foldl (λ s e, increment_summary s e.(pe_action)) summary_default es) a
  = Z.min (Z.of_nat (countb (λ e, is_action e.(pe_action) a) es)) u64_max.
Proof.
  rewrite (foldl_proj (λ s, summary_count s a) _
    (λ acc e, bump (is_action e.(pe_action) a) acc)) by (intros; by destruct a).
  rewrite foldl_bump by (unfold u64_max; destruct a; simpl; lia). by destruct a.
Qed.

Lemma countb_all_actions (es : list SyncPlanEntry) :
  foldr (λ a n, countb (λ e, is_action e.(pe_action) a) es + n)%nat 0%nat all_actions = length es.
Proof.
  induction es as [|e es IH]; [done|]. simpl in *. rewrite !countb_cons.
  unfold is_action in *. destruct (pe_action e); vm_compute bool_decide in *; simpl in *; lia.
Qed.

Lemma plan_paths_comm l r : plan_paths l r = plan_paths r l.
Proof. unfold plan_paths. by rewrite (comm_L (∪) (dom l)). Qed.

(** Exchanging the sides of one path exchanges the sides of its entry. *)
Lemma entry_mirror path l r mode :
  match l, r with Some f, Some g => is_missing f && is_missing g = false | _, _ => True end →
  entry_facts (apply_folder_mode (plan_path path r l) (mirror_mode mode))
  = mirror_facts (apply_folder_mode (plan_path path l r) mode).
Proof.
  unfold plan_path, plan_existing_path.
  destruct l as [f|], r as [g|]; simpl;
    [|by destruct (is_missing f), mode|by destruct (is_missing g), mode|by destruct mode].
  rewrite (bool_decide_ext (fr_content_hash g = fr_content_hash f)
             (fr_content_hash f = fr_content_hash g)) by done.
  rewrite (Z.eqb_sym (fr_size_bytes g)).
  destruct (is_missing f), (is_missing g); simpl; try done; intros _; try by destruct mode.
  destruct (_ && _); by destruct mode.
Qed.

(** ** Theorems *)

(** The plan has one entry per path of either manifest, in strictly increasing
    byte order of the paths, and nothing else; a manifest that lists a path twice
    counts with its last record. *)
Theorem plan_covers_paths `{!UuidLib} (local remote : FolderManifest) (mode : FolderMode) :
  let plan := plan_manifest_sync_for_mode local remote mode in
  sorted_by str_le (pe_path <$> plan.(sp_entries)) ∧ NoDup (pe_path <$> plan.(sp_entries))
  ∧ (∀ path, path ∈ pe_path <$> plan.(sp_entries) ↔
       ∃ f, f ∈ local.(fm_files) ++ remote.(fm_files) ∧ rel_str f.(fr_path) = path)
  ∧ (∀ e, e ∈ plan.(sp_entries) → e = entry_at local remote mode e.(pe_path)).
Proof.
  simpl. set (paths := plan_paths (files_by_path (fm_files local)) (files_by_path (fm_files remote))).
  assert (pe_path <$> sp_entries (plan_manifest_sync_for_mode local remote mode) = paths) as Hp.
  { rewrite plan_entries, <-list_fmap_compose. rewrite <-(list_fmap_id paths).
    apply list_fmap_ext. intros; apply entry_at_path. }
  rewrite Hp. split_and!; [apply plan_paths_sorted|apply plan_paths_NoDup| |].
  - intros path. unfold paths. rewrite elem_of_plan_paths, !record_of_lookup, !record_of_Some.
    setoid_rewrite elem_of_app. naive_solver.
  - intros e He. by apply plan_entry_elem in He as [? _].
Qed.

(** The summary counts the entries by action: each counter is the number of
    entries with its action (until it would pass [u64::MAX]), and the counters add
    up to the number of entries. *)
Theorem plan_summary_counts `{!UuidLib} (local remote : FolderManifest) (mode : FolderMode) :
  let plan := plan_manifest_sync_for_mode local remote mode in
  (∀ a, summary_count plan.(sp_summary) a
        = Z.min (Z.of_nat (countb (λ e, is_action e.(pe_action) a) plan.(sp_entries))) u64_max)
  ∧ (Z.of_nat (length plan.(sp_entries)) ≤ u64_max →
     foldr (λ a n, summary_count plan.(sp_summary) a + n) 0 all_actions
     = Z.of_nat (length plan.(sp_entries))).
Proof.
  intros plan; subst plan. rewrite plan_summary. set (es := sp_entries _).
  split; [intros a; apply summary_foldl|]. intros Hlen.
  rewrite <-(countb_all_actions es) in Hlen |- *. set (acts := all_actions) in *. clearbody acts.
  induction acts as [|a acts IH]; [done|]. cbn [foldr] in *.
  rewrite summary_foldl, IH by lia. lia.
Qed.

(** C15. No transfer of a plan overwrites a file: an upload is planned only for a
    file the local side has and the remote side does not know, a download only the
    other way round, both only in a mode that allows them; equal content is left
    alone and two different contents are never transferred. *)
Theorem plan_never_overwrites `{!UuidLib} (local remote : FolderManifest) (mode : FolderMode) e :
  e ∈ (plan_manifest_sync_for_mode local remote mode).(sp_entries) →
  let l := record_of local e.(pe_path) in
  let r := record_of remote e.(pe_path) in
  match e.(pe_action) with
  | UploadToRemote => mode ≠ DownloadOnly ∧ r = None ∧
      ∃ f, l = Some f ∧ f.(fr_sync_state) ≠ UnsynchronizedLocalMissing
           ∧ e.(pe_local_content_hash) = f.(fr_content_hash)
           ∧ e.(pe_local_size_bytes) = Some f.(fr_size_bytes)
  | DownloadFromRemote => mode ≠ UploadOnly ∧ l = None ∧
      ∃ f, r = Some f ∧ f.(fr_sync_state) ≠ UnsynchronizedLocalMissing
           ∧ e.(pe_remote_content_hash) = f.(fr_content_hash)
           ∧ e.(pe_remote_size_bytes) = Some f.(fr_size_bytes)
  | InSync => ∃ f g, l = Some f ∧ r = Some g
      ∧ f.(fr_content_hash) = g.(fr_content_hash) ∧ f.(fr_size_bytes) = g.(fr_size_bytes)
  | Conflict => ∃ f g, l = Some f ∧ r = Some g
      ∧ (f.(fr_content_hash) ≠ g.(fr_content_hash) ∨ f.(fr_size_bytes) ≠ g.(fr_size_bytes))
  | LocalMissingUnsynchronized =>
      ∃ f, l = Some f ∧ f.(fr_sync_state) = UnsynchronizedLocalMissing
  | RemoteMissingUnsynchronized =>
      ∃ f, r = Some f ∧ f.(fr_sync_state) = UnsynchronizedLocalMissing
  | ModeBlocked =>
      (mode = UploadOnly ∧ l = None ∧ is_Some r) ∨ (mode = DownloadOnly ∧ r = None ∧ is_Some l)
  end.
Proof.
  intros [He Hsome]%plan_entry_elem. cbn zeta. set (path := pe_path e) in *.
  clearbody path. subst e. revert Hsome.
  unfold entry_at, apply_folder_mode, plan_path, plan_existing_path, is_missing.
  destruct (record_of local path) as [f|], (record_of remote path) as [g|], mode;
    repeat case_bool_decide; simpl;
    repeat match goal with |- context [Z.eqb ?a ?b] => destruct (Z.eqb_spec a b) end;
    simpl; intros [Hs|Hs]; try (by destruct Hs); naive_solver.
Qed.

(** C30. The plan does not depend on which device computes it: planning from the
    other side, in the mode with its direction turned round, gives the same entries
    with the two sides exchanged, when no path is marked missing on both sides. *)
Theorem plan_mirror `{!UuidLib} (local remote : FolderManifest) (mode : FolderMode) :
  (∀ path f g, record_of local path = Some f → record_of remote path = Some g →
     is_missing f && is_missing g = false) →
  entry_facts <$> (plan_manifest_sync_for_mode remote local (mirror_mode mode)).(sp_entries)
  = mirror_facts <$> (plan_manifest_sync_for_mode local remote mode).(sp_entries).
Proof.
  intros Hboth. rewrite !plan_entries, <-!list_fmap_compose.
  rewrite plan_paths_comm. apply list_fmap_ext. intros i path _. simpl.
  specialize (Hboth path). revert Hboth.
  unfold entry_at. set (l := record_of local path). set (r := record_of remote path). clearbody l r.
  intros Hboth. apply entry_mirror. destruct l, r; try done. by apply Hboth.
Qed.

(** The three-way comparison treats the sides alike, decides a transfer only
    when exactly one side's content left the common base (and then towards the
    unchanged side), sees a conflict when both left it or no base is known, and
    never resolves a missing file into a transfer. *)
Theorem classify_three_way (local remote : FilePresence) (base : option FileEntry) :
  classify_file_presence remote local base = mirror_class (classify_file_presence local remote base)
  ∧ match classify_file_presence local remote base with
    | CRemoteNeedsUpload => ∃ l r b, local = Present l ∧ remote = Present r ∧ base = Some b
        ∧ l.(fe_content_hash) ≠ b.(fe_content_hash) ∧ r.(fe_content_hash) = b.(fe_content_hash)
    | CLocalNeedsDownload => ∃ l r b, local = Present l ∧ remote = Present r ∧ base = Some b
        ∧ l.(fe_content_hash) = b.(fe_content_hash) ∧ r.(fe_content_hash) ≠ b.(fe_content_hash)
    | CConflict => ∃ l r, local = Present l ∧ remote = Present r
        ∧ (l.(fe_content_hash) ≠ r.(fe_content_hash) ∨ l.(fe_size_bytes) ≠ r.(fe_size_bytes))
        ∧ (∀ b, base = Some b → l.(fe_content_hash) ≠ b.(fe_content_hash)
                                ∧ r.(fe_content_hash) ≠ b.(fe_content_hash))
    | CInSync => (local = MissingKnown ∧ remote = MissingKnown)
        ∨ ∃ l r, local = Present l ∧ remote = Present r
          ∧ l.(fe_content_hash) = r.(fe_content_hash)
          ∧ (l.(fe_size_bytes) = r.(fe_size_bytes)
             ∨ ∃ b, base = Some b ∧ b.(fe_content_hash) = l.(fe_content_hash))
    | CLocalOnlyDelete => local = MissingKnown ∧ ∃ r, remote = Present r
    | CRemoteOnlyDelete => remote = MissingKnown ∧ ∃ l, local = Present l
    | CUnknown => local = Unknown ∨ remote = Unknown
    end.
Proof.
  destruct local as [l| |], remote as [r| |], base as [b|]; simpl; try naive_solver;
    repeat case_bool_decide; simpl; try congruence;
    repeat match goal with |- context [Z.eqb ?a ?b] => destruct (Z.eqb_spec a b) end;
    simpl; try congruence; (split; [done|]); naive_solver congruence.
Qed.

(** With a common base whose content both sides still have, two different sizes
    of the same content are reported as in sync: the size is not compared again. *)
Theorem classify_ignores_size (l r b : FileEntry) :
  l.(fe_content_hash) = b.(fe_content_hash) → r.(fe_content_hash) = b.(fe_content_hash) →
  classify_file_presence (Present l) (Present r) (Some b) = CInSync.
Proof.
  intros Hl Hr. simpl. case_match; [done|].
  by rewrite !bool_decide_eq_false_2 by naive_solver.
Qed.

Definition sample_record (path hash : string) (size : Z) (st : FileSyncState) : FileRecord :=
  {| fr_path := {| rel_str := path |}; fr_kind := KFile; fr_size_bytes := size;
     fr_modified_at := 0; fr_content_hash := Some hash; fr_generation := 1;
     fr_device_id := "dev"; fr_sync_state := st |}.
Definition sample_manifest (device : N) (files : list FileRecord) : FolderManifest :=
  {| fm_folder_id := 7%N; fm_device_id := device; fm_generated_at := 0; fm_files := files |}.
Definition sample_local : FolderManifest :=
  sample_manifest 1 [sample_record "same.txt" "same" 10 LocalAvailable;
                     sample_record "local-only.txt" "local" 10 LocalAvailable;
                     sample_record "conflict.txt" "local" 10 LocalAvailable].
Definition sample_remote : FolderManifest :=
  sample_manifest 2 [sample_record "same.txt" "same" 10 LocalAvailable;
                     sample_record "remote-only.txt" "remote" 10 LocalAvailable;
                     sample_record "conflict.txt" "remote" 10 LocalAvailable].

Example sample_plan_actions :
  (λ e, (e.(pe_path), e.(pe_action)))
    <$> (plan_manifest_sync (H:=Sample.uuid_lib) sample_local sample_remote).(sp_entries)
  = [("conflict.txt", Conflict); ("local-only.txt", UploadToRemote);
     ("remote-only.txt", DownloadFromRemote); ("same.txt", InSync)].
Proof. vm_compute. reflexivity. Qed.

(** ** Witnesses *)

Lemma plan_summary_counts_witness :
  foldr (λ a n, summary_count (plan_manifest_sync_for_mode (H:=Sample.uuid_lib)
           sample_local sample_remote Bidirectional).(sp_summary) a + n) 0 all_actions = 4.
Proof.
  exact (proj2 (plan_summary_counts (H:=Sample.uuid_lib) sample_local sample_remote Bidirectional)
           ltac:(vm_compute; discriminate)).
Defined.

Definition sample_upload : SyncPlanEntry :=
  entry "local-only.txt" UploadToRemote (Some 10) None (Some "local") None
    "remote side does not have this file".

Lemma plan_never_overwrites_witness :
  sample_upload ∈ (plan_manifest_sync_for_mode (H:=Sample.uuid_lib)
                     sample_local sample_remote UploadOnly).(sp_entries)
  ∧ record_of sample_remote "local-only.txt" = None.
Proof.
  assert (sample_upload ∈ (plan_manifest_sync_for_mode (H:=Sample.uuid_lib)
            sample_local sample_remote UploadOnly).(sp_entries)) as Hin
    by (vm_compute; right; left).
  split; [exact Hin|].
  exact (proj1 (proj2 (plan_never_overwrites (H:=Sample.uuid_lib)
                         sample_local sample_remote UploadOnly sample_upload Hin))).
Defined.

Lemma sample_not_both_missing path f g :
  record_of sample_local path = Some f → record_of sample_remote path = Some g →
  is_missing f && is_missing g = false.
Proof.
  intros Hf _. apply andb_false_intro1.
  assert (f ∈ sample_local.(fm_files)) as Hin.
  { unfold record_of in Hf. apply last_Some_elem_of in Hf. by apply list_elem_of_filter in Hf as [_ ?]. }
  clear Hf. revert f Hin. apply Forall_forall. vm_compute. repeat constructor.
Qed.

Lemma plan_mirror_witness :
  entry_facts <$> (plan_manifest_sync_for_mode (H:=Sample.uuid_lib)
                     sample_remote sample_local DownloadOnly).(sp_entries)
  = mirror_facts <$> (plan_manifest_sync_for_mode (H:=Sample.uuid_lib)
                        sample_local sample_remote UploadOnly).(sp_entries).
Proof.
  exact (plan_mirror (H:=Sample.uuid_lib) sample_local sample_remote UploadOnly
           sample_not_both_missing).
Defined.

Definition sample_entry (hash : string) (size : Z) : FileEntry :=
  {| fe_path := {| rel_str := "a.txt" |}; fe_kind := KFile; fe_size_bytes := size;
     fe_modified_at := 0; fe_content_hash := Some hash; fe_block_hashes := [];
     fe_version := {| fv_device_id := 1%N; fv_generation := 1 |} |}.

Lemma classify_ignores_size_witness :
  classify_file_presence (Present (sample_entry "h" 1)) (Present (sample_entry "h" 2))
    (Some (sample_entry "h" 1)) = CInSync.
Proof. apply classify_ignores_size; reflexivity. Defined.
