(* ===== verification/StateDb.v ===== *)
(** * [crates/syncer-core/src/state_db.rs]: the operations of [StateDatabase]

    The tables are explicit state: [files] and [skipped_files] are maps from
    their primary key, [sync_operations] is the list of its rows in insertion
    order, which is the order SQLite scans them in.  Every [pub async fn] is a
    computation of [M Database CoreError].  [unixepoch()] is the argument [now]
    (seconds); a failure of SQLite itself (disk full, a locked file) is not
    modelled, a violated constraint is. *)

From S2P Require Import Prelude RustStd External Error Manifest Limits Model Records Planning.
From stdpp Require Import options.
Local Open Scope Z_scope.

(** ** Tables *)

Record FileRow := {
  w_kind : string;
  w_size_bytes : Z;
  w_modified_at_unix : Z;
  w_content_hash : option string;
  w_block_hashes_json : string;
  w_generation : Z;
  w_device_id : string;
  w_scan_missing : bool;
  w_sync_state : string;
  w_updated_at_unix : Z;
}.

Record SkippedRow := {
  k_reason : string;
  k_size_bytes : Z;
  k_queued_at_unix : Z;
  k_updated_at_unix : Z;
}.

Record OpRow := {
  o_id : string;
  o_path : string;
  o_kind : string;
  o_status : string;
  o_reason : string;
  o_local_size_bytes : option Z;
  o_remote_size_bytes : option Z;
  o_local_content_hash : option string;
  o_remote_content_hash : option string;
  o_remote_device_id : string;
  o_last_error : option string;
  o_retry_count : Z;
  o_started_at_unix : option Z;
  o_finished_at_unix : option Z;
  o_created_at_unix : Z;
  o_updated_at_unix : Z;
}.

Record Database := {
  db_files : gmap string FileRow;
  db_skipped : gmap string SkippedRow;
  db_operations : list OpRow;
}.

Abbreviation DB := (M Database CoreError).

Definition with_files (f : gmap string FileRow → gmap string FileRow) (db : Database) : Database :=
  {| db_files := f db.(db_files); db_skipped := db.(db_skipped);
     db_operations := db.(db_operations) |}.
Definition with_skipped (f : gmap string SkippedRow → gmap string SkippedRow) (db : Database)
    : Database :=
  {| db_files := db.(db_files); db_skipped := f db.(db_skipped);
     db_operations := db.(db_operations) |}.
Definition with_operations (f : list OpRow → list OpRow) (db : Database) : Database :=
  {| db_files := db.(db_files); db_skipped := db.(db_skipped);
     db_operations := f db.(db_operations) |}.

(** ** Conversions between columns and fields *)

Definition optional_i64 (value : option Z) : CoreResult (option Z) :=
  traverse_option (λ v, ok_or FileSizeOverflow (i64_try_from_u64 v)) value.
Definition optional_u64 (value : option Z) : CoreResult (option Z) :=
  traverse_option (λ v, ok_or FileSizeOverflow (u64_try_from_i64 v)) value.

Section decode.
Context `{!TimeLib, !SqlxLib}.

Definition state_unix_timestamp (timestamp : Z) : CoreResult OffsetDateTime :=
  map_err StateDatabase (from_unix_timestamp timestamp).
Definition optional_unix_timestamp (timestamp : option Z) : CoreResult (option OffsetDateTime) :=
  traverse_option state_unix_timestamp timestamp.

Definition file_kind_parse (value : string) : CoreResult FileKind :=
  if bool_decide (value = "file") then Ok KFile
  else if bool_decide (value = "directory") then Ok KDirectory
  else Err (StateDatabase ("unknown file kind " +:+ value)).

Definition row_to_file_record (row : string * FileRow) : CoreResult FileRecord :=
  let '(path, r) := row in
  kind ← file_kind_parse r.(w_kind);
  path ← relative_path_parse path;
  size_bytes ← ok_or FileSizeOverflow (u64_try_from_i64 r.(w_size_bytes));
  modified_at ← map_err StateDatabase (from_unix_timestamp r.(w_modified_at_unix));
  generation ← ok_or (StateDatabase "negative generation") (u64_try_from_i64 r.(w_generation));
  sync_state ← file_sync_state_parse r.(w_sync_state);
  Ok {| fr_path := path; fr_kind := kind; fr_size_bytes := size_bytes;
        fr_modified_at := modified_at; fr_content_hash := r.(w_content_hash);
        fr_generation := generation; fr_device_id := r.(w_device_id);
        fr_sync_state := sync_state |}.

Definition row_to_skipped_file_record (row : string * SkippedRow) : CoreResult SkippedFileRecord :=
  let '(path, r) := row in
  path ← relative_path_parse path;
  reason ← skipped_reason_parse r.(k_reason);
  size_bytes ← ok_or FileSizeOverflow (u64_try_from_i64 r.(k_size_bytes));
  queued_at ← map_err StateDatabase (from_unix_timestamp r.(k_queued_at_unix));
  Ok {| sr_path := path; sr_reason := reason; sr_size_bytes := size_bytes;
        sr_queued_at := queued_at |}.

(** An INTEGER column that passed [i64::MAX] holds a REAL, which [try_get] refuses. *)
Definition try_get_i64 (v : Z) : CoreResult Z :=
  if v <=? i64_max then Ok v else Err (core_error_from_sqlx sqlx_decode_message).

Definition row_to_sync_operation (r : OpRow) : CoreResult SyncOperationRecord :=
  retry_count ← try_get_i64 r.(o_retry_count);
  path ← relative_path_parse r.(o_path);
  kind ← kind_parse r.(o_kind);
  status ← status_parse r.(o_status);
  local_size_bytes ← optional_u64 r.(o_local_size_bytes);
  remote_size_bytes ← optional_u64 r.(o_remote_size_bytes);
  retry_count ← ok_or (StateDatabase "negative retry count") (u64_try_from_i64 retry_count);
  started_at ← optional_unix_timestamp r.(o_started_at_unix);
  finished_at ← optional_unix_timestamp r.(o_finished_at_unix);
  created_at ← state_unix_timestamp r.(o_created_at_unix);
  updated_at ← state_unix_timestamp r.(o_updated_at_unix);
  Ok {| op_id := r.(o_id); op_path := path; op_kind := kind; op_status := status;
        op_reason := r.(o_reason);
        op_local_size_bytes := local_size_bytes; op_remote_size_bytes := remote_size_bytes;
        op_local_content_hash := r.(o_local_content_hash);
        op_remote_content_hash := r.(o_remote_content_hash);
        op_remote_device_id := r.(o_remote_device_id); op_last_error := r.(o_last_error);
        op_retry_count := retry_count; op_started_at := started_at;
        op_finished_at := finished_at; op_created_at := created_at;
        op_updated_at := updated_at |}.

End decode.

(** ** The [files] table *)

Section files.
Context `{!TimeLib, !SqlxLib, !UuidLib, !SerdeJson (list BlockHash)}.

Definition kind_column (k : FileKind) : string :=
  match k with KFile => "file" | KDirectory => "directory" end.

(** The row an upsert writes: the serialised hashes and the two range checks come first. *)
Definition entry_row (now : Z) (entry : FileEntry) : CoreResult FileRow :=
  block_hashes ← map_err core_error_from_json (to_json entry.(fe_block_hashes));
  size_bytes ← ok_or FileSizeOverflow (i64_try_from_u64 entry.(fe_size_bytes));
  generation ← ok_or (StateDatabase "generation exceeded i64")
                 (i64_try_from_u64 entry.(fe_version).(fv_generation));
  Ok {| w_kind := kind_column entry.(fe_kind);
        w_size_bytes := size_bytes;
        w_modified_at_unix := unix_timestamp entry.(fe_modified_at);
        w_content_hash := content_hash_as_hex <$> entry.(fe_content_hash);
        w_block_hashes_json := of_bytes block_hashes;
        w_generation := generation;
        w_device_id := device_id_to_string entry.(fe_version).(fv_device_id);
        w_scan_missing := false;
        w_sync_state := "local_available";
        w_updated_at_unix := now |}.

Definition upsert_file (now : Z) (entry : FileEntry) : DB unit :=
  row ← lift (entry_row now entry);
  modify (with_files (<[rel_str entry.(fe_path) := row]>)).

Definition set_scan_missing (r : FileRow) : FileRow :=
  {| w_kind := r.(w_kind); w_size_bytes := r.(w_size_bytes);
     w_modified_at_unix := r.(w_modified_at_unix); w_content_hash := r.(w_content_hash);
     w_block_hashes_json := r.(w_block_hashes_json); w_generation := r.(w_generation);
     w_device_id := r.(w_device_id); w_scan_missing := true;
     w_sync_state := r.(w_sync_state); w_updated_at_unix := r.(w_updated_at_unix) |}.

Definition mark_scan_started : DB unit :=
  modify (with_files (fmap (λ r,
    if bool_decide (r.(w_sync_state) = "skipped_folder_limit") then r else set_scan_missing r))).

Definition set_missing (modified updated : Z) (r : FileRow) : FileRow :=
  {| w_kind := r.(w_kind); w_size_bytes := r.(w_size_bytes);
     w_modified_at_unix := modified; w_content_hash := r.(w_content_hash);
     w_block_hashes_json := r.(w_block_hashes_json); w_generation := r.(w_generation);
     w_device_id := r.(w_device_id); w_scan_missing := r.(w_scan_missing);
     w_sync_state := "unsynchronized_local_missing"; w_updated_at_unix := updated |}.

Definition finalize_scan (now : Z) : DB unit :=
  modify (with_files (fmap (λ r,
    if r.(w_scan_missing) then set_missing r.(w_modified_at_unix) now r else r))).

(** [ORDER BY path]. *)
Definition path_le {A} (x y : string * A) : bool := str_le x.1 y.1.
Definition file_rows (db : Database) : list (string * FileRow) :=
  sort_by path_le (map_to_list db.(db_files)).

Definition list_missing_after_scan : DB (list FileRecord) :=
  db ← get_st;
  lift (mapM row_to_file_record
    (filter (λ row, row.2.(w_sync_state) = "unsynchronized_local_missing") (file_rows db))).

Definition list_files : DB (list FileRecord) :=
  db ← get_st; lift (mapM row_to_file_record (file_rows db)).

Definition mark_file_deleted_locally (now : Z) (path : RelativePath) : DB unit :=
  modify (with_files (alter (λ r, set_missing now r.(w_updated_at_unix) r) (rel_str path))).

Definition forget_file (path : RelativePath) : DB unit :=
  modify (with_files (delete (rel_str path))).

(** ** The [skipped_files] table *)

Definition record_skipped_folder_limit (now : Z) (transfer : PendingTransfer) : DB unit :=
  size_bytes ← lift (ok_or FileSizeOverflow (i64_try_from_u64 transfer.(pt_size_bytes)));
  modify (with_skipped (<[rel_str transfer.(pt_path) :=
    {| k_reason := "folder_limit"; k_size_bytes := size_bytes;
       k_queued_at_unix := unix_timestamp transfer.(pt_queued_at);
       k_updated_at_unix := now |}]>)).

(** [ORDER BY queued_at_unix, path]. *)
Definition skipped_le (x y : string * SkippedRow) : bool :=
  (x.2.(k_queued_at_unix) <? y.2.(k_queued_at_unix))
  || ((x.2.(k_queued_at_unix) =? y.2.(k_queued_at_unix)) && str_le x.1 y.1).
Definition skipped_rows (db : Database) : list (string * SkippedRow) :=
  sort_by skipped_le (map_to_list db.(db_skipped)).

Definition list_skipped_files : DB (list SkippedFileRecord) :=
  db ← get_st; lift (mapM row_to_skipped_file_record (skipped_rows db)).

(** ** Aggregates of the folder *)

Definition is_state (s : FileSyncState) (f : FileRecord) : bool :=
  bool_decide (f.(fr_sync_state) = s).

(** One arm of the match adds one to its counter and leaves the others. *)
Definition count_file (s : FolderStatus) (f : FileRecord) : FolderStatus :=
  {| fs_indexed_files := s.(fs_indexed_files);
     fs_indexed_bytes := s.(fs_indexed_bytes);
     fs_local_available := bump (is_state LocalAvailable f) s.(fs_local_available);
     fs_unsynchronized_local_missing :=
       bump (is_state UnsynchronizedLocalMissing f) s.(fs_unsynchronized_local_missing);
     fs_pending_upload := bump (is_state PendingUpload f) s.(fs_pending_upload);
     fs_pending_download := bump (is_state PendingDownload f) s.(fs_pending_download);
     fs_skipped_folder_limit :=
       bump (is_state SkippedFolderLimit f) s.(fs_skipped_folder_limit) |}.

(** [sum()] of the sizes as [u64]: in a release build it wraps. *)
Definition sum_sizes (files : list FileRecord) : Z :=
  foldl (λ acc f, u64_wrapping_add acc f.(fr_size_bytes)) 0 files.

Definition status_of (files : list FileRecord) (skipped : list SkippedFileRecord) : FolderStatus :=
  foldl count_file
    {| fs_indexed_files := Z.of_nat (length files);
       fs_indexed_bytes := sum_sizes files;
       fs_local_available := 0; fs_unsynchronized_local_missing := 0;
       fs_pending_upload := 0; fs_pending_download := 0;
       fs_skipped_folder_limit := Z.of_nat (length skipped) |} files.

Definition folder_status : DB FolderStatus :=
  files ← list_files;
  skipped ← list_skipped_files;
  mret (status_of files skipped).

Definition export_manifest (now_utc : OffsetDateTime) (folder_id : FolderId)
    (device_id : DeviceId) : DB FolderManifest :=
  files ← list_files;
  mret {| fm_folder_id := folder_id; fm_device_id := device_id;
          fm_generated_at := now_utc; fm_files := files |}.

End files.

(** ** The [sync_operations] table *)

Section operations.
Context `{!TimeLib, !SqlxLib, !UuidLib}.

Definition operation_for_action (action : SyncAction)
    : option (SyncOperationKind * SyncOperationStatus) :=
  match action with
  | InSync => None
  | UploadToRemote => Some (KUploadToRemote, SPending)
  | DownloadFromRemote => Some (KDownloadFromRemote, SPending)
  | Conflict => Some (KResolveConflict, SBlocked)
  | LocalMissingUnsynchronized => Some (KRepairLocalMissing, SBlocked)
  | RemoteMissingUnsynchronized => Some (KRepairRemoteMissing, SBlocked)
  | ModeBlocked => Some (KModeBlocked, SBlocked)
  end.

(** [ORDER BY created_at_unix, path]. *)
Definition op_le (x y : OpRow) : bool :=
  (x.(o_created_at_unix) <? y.(o_created_at_unix))
  || ((x.(o_created_at_unix) =? y.(o_created_at_unix)) && str_le x.(o_path) y.(o_path)).

Definition list_sync_operations : DB (list SyncOperationRecord) :=
  db ← get_st; lift (mapM row_to_sync_operation (sort_by op_le db.(db_operations))).

(** *** Aggregates of the queue *)

Definition is_status (s : SyncOperationStatus) (o : SyncOperationRecord) : bool :=
  bool_decide (o.(op_status) = s).
Definition is_kind (k : SyncOperationKind) (o : SyncOperationRecord) : bool :=
  bool_decide (o.(op_kind) = k).

Definition count_operation (s : QueueStatus) (o : SyncOperationRecord) : QueueStatus :=
  {| qs_total := s.(qs_total);
     qs_pending := bump (is_status SPending o) s.(qs_pending);
     qs_blocked := bump (is_status SBlocked o) s.(qs_blocked);
     qs_done := bump (is_status SDone o) s.(qs_done);
     qs_failed := bump (is_status SFailed o) s.(qs_failed);
     qs_upload_to_remote := bump (is_kind KUploadToRemote o) s.(qs_upload_to_remote);
     qs_download_from_remote := bump (is_kind KDownloadFromRemote o) s.(qs_download_from_remote);
     qs_resolve_conflict := bump (is_kind KResolveConflict o) s.(qs_resolve_conflict);
     qs_repair_local_missing := bump (is_kind KRepairLocalMissing o) s.(qs_repair_local_missing);
     qs_repair_remote_missing := bump (is_kind KRepairRemoteMissing o) s.(qs_repair_remote_missing);
     qs_mode_blocked := bump (is_kind KModeBlocked o) s.(qs_mode_blocked) |}.

Definition queue_of (operations : list SyncOperationRecord) : QueueStatus :=
  foldl count_operation
    {| qs_total := Z.of_nat (length operations);
       qs_pending := 0; qs_blocked := 0; qs_done := 0; qs_failed := 0;
       qs_upload_to_remote := 0; qs_download_from_remote := 0; qs_resolve_conflict := 0;
       qs_repair_local_missing := 0; qs_repair_remote_missing := 0;
       qs_mode_blocked := 0 |} operations.

Definition queue_status : DB QueueStatus :=
  operations ← list_sync_operations;
  mret (queue_of operations).

(** *** Replacing the queue of a peer *)

(** A transaction: an early return drops it, which rolls it back. *)
Definition in_transaction {A} (m : DB A) : DB A := λ db,
  match m db with (Ok a, db') => (Ok a, db') | (Err e, _) => (Err e, db) end.

Definition is_open (status : string) : bool :=
  bool_decide (status = "pending") || bool_decide (status = "blocked").

Definition delete_open (remote_device_id : string) (rows : list OpRow) : list OpRow :=
  filter (λ r, negb (bool_decide (r.(o_remote_device_id) = remote_device_id)
                     && is_open r.(o_status)) = true) rows.

(** [id] is the primary key. *)
Definition insert_operation (r : OpRow) : DB unit :=
  db ← get_st;
  if bool_decide (r.(o_id) ∈ o_id <$> db.(db_operations))
  then throw (core_error_from_sqlx sqlx_unique_message)
  else modify (with_operations (λ rows, rows ++ [r])).

(** The inserted row; [stamp] is its [now_v7] id and its [unixepoch()]. *)
Definition operation_row (remote_device_id : string) (stamp : OperationId * Z)
    (e : SyncPlanEntry) (kind : SyncOperationKind) (status : SyncOperationStatus)
    (local_size_bytes remote_size_bytes : option Z) : OpRow :=
  {| o_id := operation_id_to_string stamp.1; o_path := e.(pe_path);
     o_kind := kind_as_str kind; o_status := status_as_str status;
     o_reason := e.(pe_reason);
     o_local_size_bytes := local_size_bytes; o_remote_size_bytes := remote_size_bytes;
     o_local_content_hash := e.(pe_local_content_hash);
     o_remote_content_hash := e.(pe_remote_content_hash);
     o_remote_device_id := remote_device_id; o_last_error := None;
     o_retry_count := 0; o_started_at_unix := None; o_finished_at_unix := None;
     o_created_at_unix := stamp.2; o_updated_at_unix := stamp.2 |}.

(** One iteration of the loop. *)
Definition enqueue_entry (remote_device_id : string) (stamp : OperationId * Z)
    (e : SyncPlanEntry) : DB unit :=
  match operation_for_action e.(pe_action) with
  | None => mret tt
  | Some (kind, status) =>
      local_size_bytes ← lift (optional_i64 e.(pe_local_size_bytes));
      remote_size_bytes ← lift (optional_i64 e.(pe_remote_size_bytes));
      insert_operation
        (operation_row remote_device_id stamp e kind status local_size_bytes remote_size_bytes)
  end.

(** [stamps i] belongs to the [i]-th entry of the plan. *)
Definition enqueue_sync_plan (stamps : nat → OperationId * Z) (plan : SyncPlan)
    : DB QueueStatus :=
  _ ← in_transaction (
    _ ← modify (with_operations (delete_open plan.(sp_remote_device_id)));
    forM_ (λ ie : nat * SyncPlanEntry,
      enqueue_entry plan.(sp_remote_device_id) (stamps ie.1) ie.2)
      (imap pair plan.(sp_entries)));
  queue_status.

(** *** Pending transfers *)

Definition list_pending_operations (remote_device_id : string) (kind : SyncOperationKind)
    (limit : Z) : DB (list SyncOperationRecord) :=
  limit ← lift (ok_or FileSizeOverflow (i64_try_from_u64 limit));
  db ← get_st;
  lift (mapM row_to_sync_operation
    (take (Z.to_nat limit) (sort_by op_le
      (filter (λ r, o_remote_device_id r = remote_device_id ∧ o_kind r = kind_as_str kind
                    ∧ o_status r = "pending") db.(db_operations))))).

Definition list_pending_download_operations (remote_device_id : string) (limit : Z) :=
  list_pending_operations remote_device_id KDownloadFromRemote limit.
Definition list_pending_upload_operations (remote_device_id : string) (limit : Z) :=
  list_pending_operations remote_device_id KUploadToRemote limit.

End operations.

(** *** Updates of one row *)

Section updates.
Context `{!TimeLib, !SqlxLib}.

(** [UPDATE ... WHERE p] with the assignments [f]. *)
Definition update_operations (p : OpRow → bool) (f : OpRow → OpRow) : DB unit :=
  modify (with_operations (fmap (λ r, if p r then f r else r))).

Definition has_id (operation_id : string) (r : OpRow) : bool := bool_decide (r.(o_id) = operation_id).

(** The columns an operation's life changes; the others stay as they were inserted. *)
Definition set_progress (kind status reason : string) (last_error : option string)
    (retry_count : Z) (started finished : option Z) (updated : Z) (r : OpRow) : OpRow :=
  {| o_id := r.(o_id); o_path := r.(o_path); o_kind := kind; o_status := status;
     o_reason := reason; o_local_size_bytes := r.(o_local_size_bytes);
     o_remote_size_bytes := r.(o_remote_size_bytes);
     o_local_content_hash := r.(o_local_content_hash);
     o_remote_content_hash := r.(o_remote_content_hash);
     o_remote_device_id := r.(o_remote_device_id); o_last_error := last_error;
     o_retry_count := retry_count; o_started_at_unix := started;
     o_finished_at_unix := finished; o_created_at_unix := r.(o_created_at_unix);
     o_updated_at_unix := updated |}.

Definition update_sync_operation_status (now : Z) (operation_id : string)
    (status : SyncOperationStatus) (error : option string) : DB unit :=
  update_operations (has_id operation_id) (λ r,
    set_progress r.(o_kind) (status_as_str status) r.(o_reason) error
      r.(o_retry_count) r.(o_started_at_unix) (Some now) now r).

Definition mark_sync_operation_done (now : Z) (operation_id : string) : DB unit :=
  update_sync_operation_status now operation_id SDone None.
Definition mark_sync_operation_failed (now : Z) (operation_id error : string) : DB unit :=
  update_sync_operation_status now operation_id SFailed (Some error).

Definition mark_sync_operation_started (now : Z) (operation_id : string) : DB unit :=
  update_operations (has_id operation_id) (λ r,
    set_progress r.(o_kind) r.(o_status) r.(o_reason) None
      r.(o_retry_count) (Some now) None now r).

Definition is_transfer_kind (kind : string) : bool :=
  bool_decide (kind = "upload_to_remote") || bool_decide (kind = "download_from_remote").

Definition retried_rows (remote_device_id : option string) (r : OpRow) : bool :=
  bool_decide (r.(o_status) = "failed") && is_transfer_kind r.(o_kind)
  && match remote_device_id with
     | Some remote => bool_decide (r.(o_remote_device_id) = remote)
     | None => true
     end.

Definition retry_failed_sync_operations (now : Z) (remote_device_id : option string)
    : DB RetryFailedSummary :=
  db ← get_st;
  _ ← update_operations (retried_rows remote_device_id) (λ r,
        set_progress r.(o_kind) "pending" r.(o_reason) None
          (r.(o_retry_count) + 1) None None now r);
  queue ← queue_status;
  mret {| rf_retried := Z.of_nat (countb (retried_rows remote_device_id) db.(db_operations));
          rf_queue := queue |}.

Definition get_sync_operation (operation_id : string) : DB SyncOperationRecord :=
  db ← get_st;
  row ← lift (ok_or (StateDatabase "sync operation not found")
                (head (filter (λ r, o_id r = operation_id) db.(db_operations))));
  lift (row_to_sync_operation row).

(** [{:?}] of the two enumerations. *)
Definition resolution_debug (r : BlockedOperationResolution) : string :=
  match r with
  | RDownloadFromRemote => "DownloadFromRemote"
  | RUploadToRemote => "UploadToRemote"
  end.
Definition kind_debug (k : SyncOperationKind) : string :=
  match k with
  | KUploadToRemote => "UploadToRemote"
  | KDownloadFromRemote => "DownloadFromRemote"
  | KResolveConflict => "ResolveConflict"
  | KRepairLocalMissing => "RepairLocalMissing"
  | KRepairRemoteMissing => "RepairRemoteMissing"
  | KModeBlocked => "ModeBlocked"
  end.

Definition resolution_target (kind : SyncOperationKind) (resolution : BlockedOperationResolution)
    : CoreResult SyncOperationKind :=
  match kind, resolution with
  | (KResolveConflict | KRepairLocalMissing), RDownloadFromRemote => Ok KDownloadFromRemote
  | (KResolveConflict | KRepairRemoteMissing), RUploadToRemote => Ok KUploadToRemote
  | _, _ => Err (StateDatabase ("resolution " +:+ resolution_debug resolution
                                +:+ " is not valid for " +:+ kind_debug kind))
  end.

Definition resolve_blocked_sync_operation (now : Z) (operation_id : string)
    (resolution : BlockedOperationResolution) : DB ResolveOperationSummary :=
  operation ← get_sync_operation operation_id;
  if negb (bool_decide (operation.(op_status) = SBlocked))
  then throw (StateDatabase "only blocked operations can be resolved")
  else
    target_kind ← lift (resolution_target operation.(op_kind) resolution);
    _ ← update_operations (has_id operation_id) (λ r,
          set_progress (kind_as_str target_kind) "pending" (resolution_reason resolution)
            None r.(o_retry_count) None None now r);
    operation ← get_sync_operation operation_id;
    queue ← queue_status;
    mret {| ro_operation := operation; ro_queue := queue |}.

End updates.
