(* ===== verification/StateDbFacts.v ===== *)
(** * The state database: well-formed tables, total listings, what each operation does *)

From S2P Require Import Prelude RustStd External Error Manifest Limits Model Records Planning StateDb.
From stdpp Require Import options.
Local Open Scope Z_scope.

(** ** Well-formed rows *)

(** A path that parses to itself: what a column must hold to be read back. *)
Definition stable_path (p : string) : Prop := relative_path_parse p = Ok {| rel_str := p |}.
Definition is_size (z : Z) : Prop := 0 ≤ z ≤ i64_max.
Definition size_column (o : option Z) : Prop := ∀ z, o = Some z → is_size z.

(** The row predicates take what is asked of the paths, [P]: nothing for a database as the
    program can leave it, or that they are stable. *)
Section wf.
Context `{TL : !TimeLib} {P : string → Prop}.

Definition time_column (o : option Z) : Prop := ∀ s, o = Some s → unix_in_range s = true.

Record file_row_ok_at (p : string) (r : FileRow) : Prop := {
  fo_path : P p;
  fo_kind : ∃ k, r.(w_kind) = kind_column k;
  fo_size : is_size r.(w_size_bytes);
  fo_modified : unix_in_range r.(w_modified_at_unix) = true;
  fo_generation : is_size r.(w_generation);
  fo_state : r.(w_sync_state) = "local_available" ∨ r.(w_sync_state) = "unsynchronized_local_missing";
}.

Record skipped_row_ok_at (p : string) (r : SkippedRow) : Prop := {
  so_path : P p;
  so_reason : r.(k_reason) = "folder_limit";
  so_size : is_size r.(k_size_bytes);
  so_queued : unix_in_range r.(k_queued_at_unix) = true;
}.

Definition transfer_kind (k : SyncOperationKind) : bool :=
  match k with KUploadToRemote | KDownloadFromRemote => true | _ => false end.

(** Status and kind agree: what is pending is a transfer, what is blocked is not. *)
Definition status_kind_ok (s : SyncOperationStatus) (k : SyncOperationKind) : Prop :=
  match s with
  | SPending => transfer_kind k = true
  | SBlocked => transfer_kind k = false
  | _ => True
  end.

(** [n] bounds the retries. *)
Record op_row_ok_at (n : Z) (r : OpRow) : Prop := {
  oo_path : P r.(o_path);
  oo_state : ∃ k s, r.(o_kind) = kind_as_str k ∧ r.(o_status) = status_as_str s
                    ∧ status_kind_ok s k;
  oo_local : size_column r.(o_local_size_bytes);
  oo_remote : size_column r.(o_remote_size_bytes);
  oo_retry : 0 ≤ r.(o_retry_count) ≤ n;
  oo_started : time_column r.(o_started_at_unix);
  oo_finished : time_column r.(o_finished_at_unix);
  oo_created : unix_in_range r.(o_created_at_unix) = true;
  oo_updated : unix_in_range r.(o_updated_at_unix) = true;
}.

Record db_wf_at (n : Z) (db : Database) : Prop := {
  wf_files : map_Forall file_row_ok_at db.(db_files);
  wf_skipped : map_Forall skipped_row_ok_at db.(db_skipped);
  wf_operations : Forall (op_row_ok_at n) db.(db_operations);
  wf_ids : NoDup (o_id <$> db.(db_operations));
}.
End wf.

Abbreviation file_row_ok := (file_row_ok_at (P := stable_path)).
Abbreviation skipped_row_ok := (skipped_row_ok_at (P := stable_path)).
Abbreviation op_row_ok := (op_row_ok_at (P := stable_path)).
Abbreviation db_wf := (db_wf_at (P := stable_path)).
(** Every value is in its column's range, whatever the paths are. *)
Abbreviation any_path := (λ _ : string, True).
Abbreviation db_typed := (db_wf_at (P := any_path)).

(** The path of a row in one of the three tables. *)
Definition stored_path (db : Database) (p : string) : Prop :=
  is_Some (db.(db_files) !! p) ∨ is_Some (db.(db_skipped) !! p) ∨ p ∈ o_path <$> db.(db_operations).

Definition db_empty : Database := {| db_files := ∅; db_skipped := ∅; db_operations := [] |}.

(** The records the rows stand for. *)
Definition file_record (row : string * FileRow) : FileRecord :=
  {| fr_path := {| rel_str := row.1 |};
     fr_kind := if bool_decide (row.2.(w_kind) = "file") then KFile else KDirectory;
     fr_size_bytes := row.2.(w_size_bytes);
     fr_modified_at := row.2.(w_modified_at_unix) * nanos_per_second;
     fr_content_hash := row.2.(w_content_hash);
     fr_generation := row.2.(w_generation);
     fr_device_id := row.2.(w_device_id);
     fr_sync_state := if bool_decide (row.2.(w_sync_state) = "local_available")
                      then LocalAvailable else UnsynchronizedLocalMissing |}.

Definition skipped_record (row : string * SkippedRow) : SkippedFileRecord :=
  {| sr_path := {| rel_str := row.1 |}; sr_reason := FolderLimit;
     sr_size_bytes := row.2.(k_size_bytes);
     sr_queued_at := row.2.(k_queued_at_unix) * nanos_per_second |}.

Definition op_record (r : OpRow) : SyncOperationRecord :=
  {| op_id := r.(o_id); op_path := {| rel_str := r.(o_path) |};
     op_kind := match kind_parse r.(o_kind) with Ok k => k | Err _ => KModeBlocked end;
     op_status := match status_parse r.(o_status) with Ok s => s | Err _ => SDone end;
     op_reason := r.(o_reason);
     op_local_size_bytes := r.(o_local_size_bytes);
     op_remote_size_bytes := r.(o_remote_size_bytes);
     op_local_content_hash := r.(o_local_content_hash);
     op_remote_content_hash := r.(o_remote_content_hash);
     op_remote_device_id := r.(o_remote_device_id); op_last_error := r.(o_last_error);
     op_retry_count := r.(o_retry_count);
     op_started_at := (λ s, s * nanos_per_second) <$> r.(o_started_at_unix);
     op_finished_at := (λ s, s * nanos_per_second) <$> r.(o_finished_at_unix);
     op_created_at := r.(o_created_at_unix) * nanos_per_second;
     op_updated_at := r.(o_updated_at_unix) * nanos_per_second |}.

(** The record with the path a row's text parses to. *)
Definition file_at (f : FileRecord) (path : RelativePath) : FileRecord :=
  {| fr_path := path; fr_kind := f.(fr_kind); fr_size_bytes := f.(fr_size_bytes);
     fr_modified_at := f.(fr_modified_at); fr_content_hash := f.(fr_content_hash);
     fr_generation := f.(fr_generation); fr_device_id := f.(fr_device_id); fr_sync_state := f.(fr_sync_state) |}.
Definition skipped_at (f : SkippedFileRecord) (path : RelativePath) : SkippedFileRecord :=
  {| sr_path := path; sr_reason := f.(sr_reason); sr_size_bytes := f.(sr_size_bytes); sr_queued_at := f.(sr_queued_at) |}.
Definition operation_at (o : SyncOperationRecord) (path : RelativePath) : SyncOperationRecord :=
  {| op_id := o.(op_id); op_path := path; op_kind := o.(op_kind); op_status := o.(op_status); op_reason := o.(op_reason);
     op_local_size_bytes := o.(op_local_size_bytes); op_remote_size_bytes := o.(op_remote_size_bytes);
     op_local_content_hash := o.(op_local_content_hash); op_remote_content_hash := o.(op_remote_content_hash);
     op_remote_device_id := o.(op_remote_device_id); op_last_error := o.(op_last_error);
     op_retry_count := o.(op_retry_count); op_started_at := o.(op_started_at); op_finished_at := o.(op_finished_at);
     op_created_at := o.(op_created_at); op_updated_at := o.(op_updated_at) |}.

(** ** Rows decode *)

Section decode.
Context `{TL : !TimeLib} `{SL : !SqlxLib} {P : string → Prop}.

Lemma unix_decodes s : unix_in_range s = true →
  map_err StateDatabase (from_unix_timestamp s) = Ok (s * nanos_per_second).
Proof using Type*. intros H. unfold from_unix_timestamp. by rewrite H. Qed.

Lemma size_decodes {E} (e : E) z : is_size z → ok_or e (u64_try_from_i64 z) = Ok z.
Proof using Type. intros [? ?]. unfold u64_try_from_i64. by rewrite (proj2 (Z.leb_le 0 z)). Qed.

Lemma optional_size_decodes o : size_column o → optional_u64 o = Ok o.
Proof using Type.
  destruct o as [z|]; [|done]. intros H. unfold optional_u64, traverse_option.
  by rewrite size_decodes by auto.
Qed.

Lemma optional_time_decodes o : time_column o →
  optional_unix_timestamp o = Ok ((λ s, s * nanos_per_second) <$> o).
Proof using Type*.
  destruct o as [s|]; [|done]. intros H. unfold optional_unix_timestamp, traverse_option,
    state_unix_timestamp. by rewrite unix_decodes by auto.
Qed.

(** A row is read when its path parses, and then in full. *)
Lemma file_row_reads p r : file_row_ok_at (P := P) p r →
  row_to_file_record (p, r) = file_at (file_record (p, r)) <$> relative_path_parse p.
Proof using Type*.
  intros [_ [k Hk] Hs Hm Hg Ht]. unfold row_to_file_record, file_kind_parse. rewrite Hk.
  destruct (relative_path_parse p) as [q|e]; [|by destruct k].
  rewrite !size_decodes, unix_decodes by done. unfold file_record; simpl. rewrite Hk.
  destruct k, Ht as [Ht|Ht]; rewrite Ht; vm_compute bool_decide; reflexivity.
Qed.

Lemma skipped_row_reads p r : skipped_row_ok_at (P := P) p r →
  row_to_skipped_file_record (p, r) = skipped_at (skipped_record (p, r)) <$> relative_path_parse p.
Proof using Type*.
  intros [_ Hr Hs Hq]. unfold row_to_skipped_file_record. destruct (relative_path_parse p) as [q|e]; [|done].
  rewrite Hr, size_decodes, unix_decodes by done. reflexivity.
Qed.

Lemma op_row_reads n r : n ≤ i64_max → op_row_ok_at (P := P) n r →
  row_to_sync_operation r = operation_at (op_record r) <$> relative_path_parse r.(o_path).
Proof using Type*.
  intros Hn [_ (k & s & Hk & Hs & _) Hl Hr Hc Hst Hf Hcr Hu].
  unfold row_to_sync_operation, try_get_i64, state_unix_timestamp.
  rewrite (proj2 (Z.leb_le _ _)) by lia. simpl. destruct (relative_path_parse (o_path r)) as [q|e]; [|done].
  rewrite Hk, Hs, kind_parse_as_str, status_parse_as_str, !optional_size_decodes,
    !optional_time_decodes, !unix_decodes, size_decodes by (done || unfold is_size; lia).
  unfold op_record. simpl. by rewrite Hk, Hs, kind_parse_as_str, status_parse_as_str.
Qed.
End decode.

Section stable.
Context `{TL : !TimeLib} `{SL : !SqlxLib}.

Lemma file_row_decodes p r : file_row_ok p r → row_to_file_record (p, r) = Ok (file_record (p, r)).
Proof using Type*. intros Hr. rewrite (file_row_reads _ _ Hr). destruct Hr as [Hp _ _ _ _ _]. by rewrite Hp. Qed.

Lemma skipped_row_decodes p r :
  skipped_row_ok p r → row_to_skipped_file_record (p, r) = Ok (skipped_record (p, r)).
Proof using Type*. intros Hr. rewrite (skipped_row_reads _ _ Hr). destruct Hr as [Hp _ _ _]. by rewrite Hp. Qed.

Lemma op_row_decodes n r : n ≤ i64_max → op_row_ok n r → row_to_sync_operation r = Ok (op_record r).
Proof using Type*.
  intros Hn Hr. rewrite (op_row_reads n _ Hn Hr). destruct Hr as [Hp _ _ _ _ _ _ _ _]. by rewrite Hp.
Qed.
End stable.

(** ** Listings of a well-formed database *)

Section listings.
Context `{TL : !TimeLib} `{SL : !SqlxLib}.
Implicit Types (db : Database) (n : Z).

Lemma file_rows_elem db p r : (p, r) ∈ file_rows db ↔ db.(db_files) !! p = Some r.
Proof. unfold file_rows. by rewrite sort_by_elem, elem_of_map_to_list. Qed.

Lemma skipped_rows_elem db p r : (p, r) ∈ skipped_rows db ↔ db.(db_skipped) !! p = Some r.
Proof. unfold skipped_rows. by rewrite sort_by_elem, elem_of_map_to_list. Qed.

Lemma wf_file_rows n db row : db_wf n db → row ∈ file_rows db → file_row_ok row.1 row.2.
Proof. destruct row as [p r]. intros Hwf ?%file_rows_elem. by apply (wf_files _ _ Hwf). Qed.

(** *** Whatever the paths are: a listing is the rows, each at what its path parses to *)

Lemma list_files_reads {P : string → Prop} n db : db_wf_at (P := P) n db →
  list_files db = (mapM (λ row, file_at (file_record row) <$> relative_path_parse row.1) (file_rows db), db).
Proof.
  intros Hwf. unfold list_files, lift, get_st, mbind, M_bind. f_equal. apply result_mapM_ext.
  intros [p r] Hrow%file_rows_elem. apply (file_row_reads (P := P)). by apply (wf_files _ _ Hwf).
Qed.

Lemma list_missing_reads {P : string → Prop} n db : db_wf_at (P := P) n db →
  list_missing_after_scan db
  = (mapM (λ row, file_at (file_record row) <$> relative_path_parse row.1)
       (filter (λ row, row.2.(w_sync_state) = "unsynchronized_local_missing") (file_rows db)), db).
Proof.
  intros Hwf. unfold list_missing_after_scan, lift, get_st, mbind, M_bind. f_equal. apply result_mapM_ext.
  intros [p r] [_ Hrow%file_rows_elem]%list_elem_of_filter. apply (file_row_reads (P := P)). by apply (wf_files _ _ Hwf).
Qed.

Lemma list_skipped_reads {P : string → Prop} n db : db_wf_at (P := P) n db →
  list_skipped_files db = (mapM (λ row, skipped_at (skipped_record row) <$> relative_path_parse row.1) (skipped_rows db), db).
Proof.
  intros Hwf. unfold list_skipped_files, lift, get_st, mbind, M_bind. f_equal. apply result_mapM_ext.
  intros [p r] Hrow%skipped_rows_elem. apply (skipped_row_reads (P := P)). by apply (wf_skipped _ _ Hwf).
Qed.

Lemma list_operations_reads {P : string → Prop} n db : n ≤ i64_max → db_wf_at (P := P) n db →
  list_sync_operations db
  = (mapM (λ r, operation_at (op_record r) <$> relative_path_parse r.(o_path)) (sort_by op_le db.(db_operations)), db).
Proof.
  intros Hn Hwf. unfold list_sync_operations, lift, get_st, mbind, M_bind. f_equal. apply result_mapM_ext.
  intros r Hr. rewrite sort_by_elem in Hr. apply (op_row_reads (P := P) n); [done|].
  pose proof (wf_operations _ _ Hwf) as Hall. by eapply Forall_forall in Hall.
Qed.

Lemma is_ok_fmap {E A B} (f : A → B) (r : result E A) : is_ok (f <$> r) = is_ok r.
Proof. by destruct r. Qed.

(** The conditions under which they succeed. *)
Lemma list_files_ok {P : string → Prop} n db : db_wf_at (P := P) n db →
  is_ok (list_files db).1 = true ↔ ∀ p, is_Some (db.(db_files) !! p) → is_ok (relative_path_parse p) = true.
Proof.
  intros Hwf. rewrite (list_files_reads (P := P) n) by done. cbn [fst]. rewrite result_mapM_is_ok. split.
  - intros H p [r Hr%file_rows_elem]. specialize (H _ Hr). by rewrite is_ok_fmap in H.
  - intros H [p r] Hr%file_rows_elem. rewrite is_ok_fmap. apply H. by exists r.
Qed.

Lemma list_skipped_ok {P : string → Prop} n db : db_wf_at (P := P) n db →
  is_ok (list_skipped_files db).1 = true ↔ ∀ p, is_Some (db.(db_skipped) !! p) → is_ok (relative_path_parse p) = true.
Proof.
  intros Hwf. rewrite (list_skipped_reads (P := P) n) by done. cbn [fst]. rewrite result_mapM_is_ok. split.
  - intros H p [r Hr%skipped_rows_elem]. specialize (H _ Hr). by rewrite is_ok_fmap in H.
  - intros H [p r] Hr%skipped_rows_elem. rewrite is_ok_fmap. apply H. by exists r.
Qed.

Lemma list_operations_ok {P : string → Prop} n db : n ≤ i64_max → db_wf_at (P := P) n db →
  is_ok (list_sync_operations db).1 = true
  ↔ ∀ r, r ∈ db.(db_operations) → is_ok (relative_path_parse r.(o_path)) = true.
Proof.
  intros Hn Hwf. rewrite (list_operations_reads (P := P) n) by done. cbn [fst]. rewrite result_mapM_is_ok. split.
  - intros H r Hr. rewrite <-(sort_by_elem op_le) in Hr. specialize (H _ Hr). by rewrite is_ok_fmap in H.
  - intros H r Hr. rewrite sort_by_elem in Hr. rewrite is_ok_fmap. by apply H.
Qed.

(** The counts of the folder read both tables. *)
Lemma folder_status_reads {P : string → Prop} n db : db_wf_at (P := P) n db →
  folder_status db = (files ← (list_files db).1; status_of files <$> (list_skipped_files db).1, db).
Proof.
  intros Hwf. unfold folder_status. rewrite M_bind_eq. pose proof (list_files_reads (P := P) n db Hwf) as Hf.
  destruct (list_files db) as [[files|e] db1]; injection Hf as _ ->; [|done]. cbn [fst mbind result_bind].
  rewrite M_bind_eq. pose proof (list_skipped_reads (P := P) n db Hwf) as Hs.
  by destruct (list_skipped_files db) as [[skipped|e] db1]; injection Hs as _ ->.
Qed.

Lemma folder_status_ok {P : string → Prop} n db : db_wf_at (P := P) n db →
  is_ok (folder_status db).1 = true
  ↔ (∀ p, is_Some (db.(db_files) !! p) → is_ok (relative_path_parse p) = true)
    ∧ (∀ p, is_Some (db.(db_skipped) !! p) → is_ok (relative_path_parse p) = true).
Proof.
  intros Hwf. rewrite (folder_status_reads (P := P) n) by done. cbn [fst].
  rewrite <-(list_files_ok (P := P) n), <-(list_skipped_ok (P := P) n) by done.
  destruct (list_files db).1; cbn [mbind result_bind is_ok]; [rewrite is_ok_fmap; naive_solver|].
  split; [done|by intros [? _]].
Qed.

(** With stable paths the tables are as the other components need them. *)
Lemma db_typed_stable n db : db_typed n db → (∀ p, stored_path db p → stable_path p) → db_wf n db.
Proof.
  intros [Hf Hs Ho Hid] Hp. constructor; [| | |done].
  - intros p r Hr. destruct (Hf p r Hr) as [_ ? ? ? ? ?]. constructor; try done. apply Hp. left. by exists r.
  - intros p r Hr. destruct (Hs p r Hr) as [_ ? ? ?]. constructor; try done. apply Hp. right. left. by exists r.
  - apply Forall_forall. intros r Hr. rewrite Forall_forall in Ho. destruct (Ho r Hr) as [_ ? ? ? ? ? ? ? ?].
    constructor; try done. apply Hp. right. right. by apply list_elem_of_fmap_2.
Qed.

(** *** With stable paths *)

Lemma list_files_wf n db : db_wf n db → list_files db = (Ok (file_record <$> file_rows db), db).
Proof.
  intros Hwf. unfold list_files, lift, get_st, mbind, M_bind.
  rewrite (result_mapM_fmap _ file_record); [done|].
  intros [p r] Hrow. apply file_row_decodes. by apply (wf_file_rows _ _ _ Hwf) in Hrow.
Qed.

Lemma list_missing_wf n db : db_wf n db →
  list_missing_after_scan db
  = (Ok (file_record <$> filter (λ row, row.2.(w_sync_state) = "unsynchronized_local_missing")
                            (file_rows db)), db).
Proof.
  intros Hwf. unfold list_missing_after_scan, lift, get_st, mbind, M_bind.
  rewrite (result_mapM_fmap _ file_record); [done|].
  intros [p r] [_ Hrow]%list_elem_of_filter. apply file_row_decodes.
  by apply (wf_file_rows _ _ _ Hwf) in Hrow.
Qed.

Lemma list_skipped_wf n db : db_wf n db →
  list_skipped_files db = (Ok (skipped_record <$> skipped_rows db), db).
Proof.
  intros Hwf. unfold list_skipped_files, lift, get_st, mbind, M_bind.
  rewrite (result_mapM_fmap _ skipped_record); [done|].
  intros [p r] Hrow%skipped_rows_elem. apply skipped_row_decodes. by apply (wf_skipped _ _ Hwf).
Qed.

Lemma decode_ops_wf n rows : n ≤ i64_max → Forall (op_row_ok n) rows →
  mapM row_to_sync_operation rows = Ok (op_record <$> rows).
Proof.
  intros Hn Hall. apply result_mapM_fmap. intros r Hr. apply (op_row_decodes n); [done|].
  by eapply Forall_forall in Hall.
Qed.

Lemma list_operations_wf n db : n ≤ i64_max → db_wf n db →
  list_sync_operations db = (Ok (op_record <$> sort_by op_le db.(db_operations)), db).
Proof.
  intros Hn Hwf. unfold list_sync_operations, lift, get_st, mbind, M_bind.
  rewrite (decode_ops_wf n); [done|done|]. rewrite sort_by_perm. apply (wf_operations _ _ Hwf).
Qed.

Lemma queue_status_eq db :
  queue_status db = (queue_of <$> (list_sync_operations db).1, db).
Proof.
  unfold queue_status. rewrite M_bind_eq.
  unfold list_sync_operations, lift, get_st, mbind, M_bind. by destruct (mapM _ _).
Qed.

Lemma queue_status_wf n db : n ≤ i64_max → db_wf n db →
  queue_status db = (Ok (queue_of (op_record <$> sort_by op_le db.(db_operations))), db).
Proof. intros Hn Hwf. by rewrite queue_status_eq, (list_operations_wf n). Qed.

Lemma folder_status_wf n db : db_wf n db →
  folder_status db
  = (Ok (status_of (file_record <$> file_rows db) (skipped_record <$> skipped_rows db)), db).
Proof.
  intros Hwf. unfold folder_status. rewrite M_bind_eq, (list_files_wf n) by done.
  by rewrite M_bind_eq, (list_skipped_wf n).
Qed.

Lemma get_sync_operation_wf n db r : n ≤ i64_max → db_wf n db → r ∈ db.(db_operations) →
  get_sync_operation r.(o_id) db = (Ok (op_record r), db).
Proof.
  intros Hn Hwf Hr. unfold get_sync_operation, get_st, lift, mbind, M_bind.
  assert (head (filter (λ x, o_id x = o_id r) (db_operations db)) = Some r) as ->.
  { pose proof (wf_ids _ _ Hwf) as Hid. clear Hwf.
    induction Hr as [r l|r x l Hr IH]; rewrite filter_cons; [by rewrite decide_True|].
    rewrite fmap_cons in Hid. apply NoDup_cons in Hid as [Hx Hid].
    rewrite decide_False; [by apply IH|]. intros Hxr. apply Hx. rewrite Hxr.
    by apply list_elem_of_fmap_2. }
  simpl. rewrite (op_row_decodes n); [done|done|].
  pose proof (wf_operations _ _ Hwf) as Hall. by eapply Forall_forall in Hall.
Qed.

End listings.

(** ** The operations as steps *)

Section steps.
Context `{TL : !TimeLib} `{SL : !SqlxLib} `{UL : !UuidLib} `{SJ : !SerdeJson (list BlockHash)}.

Section entries.
Context {P : string → Prop}.

Record valid_entry_at (e : FileEntry) : Prop := {
  ve_path : P (rel_str e.(fe_path));
  ve_size : 0 ≤ e.(fe_size_bytes);
  ve_modified : valid_time e.(fe_modified_at);
  ve_generation : 0 ≤ e.(fe_version).(fv_generation);
}.

Record valid_transfer_at (t : PendingTransfer) : Prop := {
  vt_path : P (rel_str t.(pt_path));
  vt_size : 0 ≤ t.(pt_size_bytes);
  vt_queued : valid_time t.(pt_queued_at);
}.

Record valid_plan_entry_at (e : SyncPlanEntry) : Prop := {
  vp_path : P e.(pe_path);
  vp_local : ∀ z, e.(pe_local_size_bytes) = Some z → 0 ≤ z;
  vp_remote : ∀ z, e.(pe_remote_size_bytes) = Some z → 0 ≤ z;
}.

End entries.

(** One call of a public method, with whatever it answers and whatever the paths are.  The
    values are those of the Rust types ([u64] sizes, times the time crate can hold), and the
    clock of SQLite is one it can hold. *)
Inductive db_step (db : Database) : Database → Prop :=
| step_upsert now e : valid_entry_at (P := any_path) e → db_step db (upsert_file now e db).2
| step_scan_started : db_step db (mark_scan_started db).2
| step_finalize now : db_step db (finalize_scan now db).2
| step_deleted_locally now p : unix_in_range now = true →
    db_step db (mark_file_deleted_locally now p db).2
| step_forget p : db_step db (forget_file p db).2
| step_skip now t : valid_transfer_at (P := any_path) t → db_step db (record_skipped_folder_limit now t db).2
| step_enqueue stamps plan :
    Forall (valid_plan_entry_at (P := any_path)) plan.(sp_entries) → (∀ i, unix_in_range (stamps i).2 = true) →
    db_step db (enqueue_sync_plan stamps plan db).2
| step_done now id : unix_in_range now = true → db_step db (mark_sync_operation_done now id db).2
| step_failed now id e : unix_in_range now = true →
    db_step db (mark_sync_operation_failed now id e db).2
| step_started now id : unix_in_range now = true →
    db_step db (mark_sync_operation_started now id db).2
| step_retry now remote : unix_in_range now = true →
    db_step db (retry_failed_sync_operations now remote db).2
| step_resolve now id res : unix_in_range now = true →
    db_step db (resolve_blocked_sync_operation now id res db).2.

(** Reached from a new database by [n] calls. *)
Inductive db_reachable : Z → Database → Prop :=
| reach_new : db_reachable 0 db_empty
| reach_step n db db' : db_reachable n db → db_step db db' → db_reachable (n + 1) db'.

(** *** Preservation, table by table *)

Section preserved.
Context {P : string → Prop}.

Implicit Types (db : Database) (n : Z).

Lemma op_row_ok_mono n m r : n ≤ m → op_row_ok_at (P := P) n r → op_row_ok_at (P := P) m r.
Proof. intros ? []; constructor; (done || lia). Qed.

Lemma db_wf_mono n m db : n ≤ m → db_wf_at (P := P) n db → db_wf_at (P := P) m db.
Proof.
  intros ? []; constructor; try done. eapply Forall_impl; [done|]. intros; by eapply op_row_ok_mono.
Qed.

Lemma wf_with_files n db f :
  (map_Forall (file_row_ok_at (P := P)) db.(db_files) → map_Forall (file_row_ok_at (P := P)) (f db.(db_files))) →
  db_wf_at (P := P) n db → db_wf_at (P := P) n (with_files f db).
Proof. intros Hf []; constructor; simpl; auto. Qed.

Lemma wf_with_skipped n db f :
  (map_Forall (skipped_row_ok_at (P := P)) db.(db_skipped) → map_Forall (skipped_row_ok_at (P := P)) (f db.(db_skipped))) →
  db_wf_at (P := P) n db → db_wf_at (P := P) n (with_skipped f db).
Proof. intros Hf []; constructor; simpl; auto. Qed.

Lemma i64_size {E} (e : E) z v :
  0 ≤ z → ok_or e (i64_try_from_u64 z) = Ok v → v = z ∧ is_size v.
Proof. intros ? [-> ?]%ok_or_Ok%i64_try_from_u64_Some. done. Qed.

Lemma optional_i64_size o v :
  (∀ z, o = Some z → 0 ≤ z) → optional_i64 o = Ok v → size_column v.
Proof.
  intros Ho [[-> ->]|(x & y & -> & Hy & ->)]%traverse_option_Ok; [by intros ?|].
  apply i64_size in Hy as [? ?]; [|auto]. by intros ? [= <-].
Qed.

Lemma entry_row_Ok now e row : 0 ≤ e.(fe_size_bytes) → 0 ≤ e.(fe_version).(fv_generation) →
  entry_row now e = Ok row →
  ∃ bh, to_json e.(fe_block_hashes) = Ok bh ∧ is_size e.(fe_size_bytes)
  ∧ is_size e.(fe_version).(fv_generation)
  ∧ row = {| w_kind := kind_column e.(fe_kind);
             w_size_bytes := e.(fe_size_bytes);
             w_modified_at_unix := unix_timestamp e.(fe_modified_at);
             w_content_hash := content_hash_as_hex <$> e.(fe_content_hash);
             w_block_hashes_json := of_bytes bh;
             w_generation := e.(fe_version).(fv_generation);
             w_device_id := device_id_to_string e.(fe_version).(fv_device_id);
             w_scan_missing := false; w_sync_state := "local_available";
             w_updated_at_unix := now |}.
Proof.
  intros Hs Hg. unfold entry_row.
  intros (bh & Hbh%map_err_Ok & (size & [-> ?]%i64_size & (gen & [-> ?]%i64_size & [= <-])%result_bind_Ok)
    %result_bind_Ok)%result_bind_Ok; [|done..]. by exists bh.
Qed.

Lemma entry_row_ok now e row : valid_entry_at (P := P) e → entry_row now e = Ok row →
  file_row_ok_at (P := P) (rel_str e.(fe_path)) row.
Proof.
  intros [Hp Hs Hm Hg] (bh & _ & ? & ? & ->)%entry_row_Ok; [|done..]. constructor; simpl; eauto.
Qed.

Lemma upsert_eq now e db :
  upsert_file now e db = match entry_row now e with
                         | Ok row => (Ok tt, with_files (<[rel_str e.(fe_path) := row]>) db)
                         | Err x => (Err x, db)
                         end.
Proof. unfold upsert_file. rewrite M_bind_eq. unfold lift. by destruct (entry_row now e). Qed.

Lemma upsert_preserves n now e : valid_entry_at (P := P) e → preserves (db_wf_at (P := P) n) (upsert_file now e).
Proof.
  intros He db Hwf. rewrite upsert_eq. destruct (entry_row now e) as [row|] eqn:Hrow; [|done].
  apply wf_with_files; [|done]. intros Hall. apply map_Forall_insert_2; [|done].
  by apply (entry_row_ok now).
Qed.

Lemma scan_started_preserves n : preserves (db_wf_at (P := P) n) mark_scan_started.
Proof.
  apply preserves_modify; intros db. apply wf_with_files. intros Hall.
  apply map_Forall_fmap. eapply map_Forall_impl; [done|]. intros p r []. simpl. case_bool_decide; done.
Qed.

Lemma set_missing_ok p r modified updated :
  unix_in_range modified = true → file_row_ok_at (P := P) p r → file_row_ok_at (P := P) p (set_missing modified updated r).
Proof. intros ? []; constructor; simpl; auto. Qed.

Lemma finalize_preserves n now : preserves (db_wf_at (P := P) n) (finalize_scan now).
Proof.
  apply preserves_modify; intros db. apply wf_with_files. intros Hall.
  apply map_Forall_fmap. eapply map_Forall_impl; [done|]. intros p r Hr. simpl.
  destruct (w_scan_missing r); [|done]. apply set_missing_ok; [by destruct Hr|done].
Qed.

Lemma deleted_locally_preserves n now p :
  unix_in_range now = true → preserves (db_wf_at (P := P) n) (mark_file_deleted_locally now p).
Proof.
  intros Hnow. apply preserves_modify; intros db. apply wf_with_files. intros Hall q r.
  destruct (decide (q = rel_str p)) as [->|Hne].
  - rewrite lookup_alter_eq. intros (r0 & Hr0 & ->)%fmap_Some. apply set_missing_ok; auto.
  - rewrite lookup_alter_ne by done. apply Hall.
Qed.

Lemma forget_preserves n p : preserves (db_wf_at (P := P) n) (forget_file p).
Proof. apply preserves_modify; intros db. apply wf_with_files. apply map_Forall_delete. Qed.

Lemma skip_preserves n now t : valid_transfer_at (P := P) t → preserves (db_wf_at (P := P) n) (record_skipped_folder_limit now t).
Proof.
  intros [Hp Hs Hq]. apply preserves_bind_lift; intros size [_ Hsz]%i64_size; [|done].
  apply preserves_modify; intros db. apply wf_with_skipped. intros Hall.
  apply map_Forall_insert_2; [|done]. by constructor.
Qed.

(** *** The queue *)

Lemma wf_with_operations n m db f :
  Forall (op_row_ok_at (P := P) m) (f db.(db_operations)) → NoDup (o_id <$> f db.(db_operations)) →
  db_wf_at (P := P) n db → db_wf_at (P := P) m (with_operations f db).
Proof. intros ? ? []; by constructor. Qed.

Lemma list_operations_read db : (list_sync_operations db).2 = db.
Proof. done. Qed.

Lemma queue_status_read db : (queue_status db).2 = db.
Proof. by rewrite queue_status_eq. Qed.

Lemma get_operation_read db id : (get_sync_operation id db).2 = db.
Proof.
  unfold get_sync_operation, get_st, lift, mbind, M_bind. by destruct (ok_or _ _).
Qed.

Lemma delete_open_elem remote rows r : r ∈ delete_open remote rows → r ∈ rows.
Proof. by intros [_ ?]%list_elem_of_filter. Qed.

Lemma delete_open_sublist remote rows : delete_open remote rows `sublist_of` rows.
Proof. apply sublist_filter. Qed.

Lemma delete_open_wf n remote db : db_wf_at (P := P) n db → db_wf_at (P := P) n (with_operations (delete_open remote) db).
Proof.
  intros Hwf. apply (wf_with_operations n n); [| |done].
  - apply Forall_forall. intros r Hr%delete_open_elem.
    pose proof (wf_operations _ _ Hwf) as Hall. by eapply Forall_forall in Hall.
  - eapply sublist_NoDup; [apply (wf_ids _ _ Hwf)|].
    apply fmap_sublist, delete_open_sublist.
Qed.

Lemma insert_operation_preserves n r : op_row_ok_at (P := P) n r → preserves (db_wf_at (P := P) n) (insert_operation r).
Proof.
  intros Hr db Hwf. unfold insert_operation, get_st. rewrite M_bind_eq.
  case_bool_decide as Hid; [done|]. apply (wf_with_operations n n); [| |done].
  - apply Forall_app; split; [apply (wf_operations _ _ Hwf)|by constructor].
  - rewrite fmap_app. apply NoDup_app; split_and!; [apply (wf_ids _ _ Hwf)| |apply NoDup_singleton].
    intros i Hi ->%list_elem_of_singleton. done.
Qed.

Lemma enqueue_entry_preserves n remote stamp e :
  0 ≤ n → valid_plan_entry_at (P := P) e → unix_in_range stamp.2 = true →
  preserves (db_wf_at (P := P) n) (enqueue_entry remote stamp e).
Proof.
  intros Hn [Hp Hl Hr] Hstamp. unfold enqueue_entry.
  destruct (operation_for_action _) as [[k s]|] eqn:Eop; [|apply preserves_ret].
  apply preserves_bind_lift; intros l Hlc%optional_i64_size; [|done].
  apply preserves_bind_lift; intros r Hrc%optional_i64_size; [|done].
  apply insert_operation_preserves. constructor; simpl; try done.
  exists k, s. split_and!; try done. by destruct (pe_action e); simplify_eq/=.
Qed.

Lemma in_transaction_preserves {A} (Q : Database → Prop) (m : DB A) :
  preserves Q m → preserves Q (in_transaction m).
Proof.
  intros Hm db Hdb. unfold in_transaction. specialize (Hm db Hdb). by destruct (m db) as [[a|e] db'].
Qed.

Lemma enqueue_preserves n stamps plan :
  0 ≤ n → Forall (valid_plan_entry_at (P := P)) plan.(sp_entries) → (∀ i, unix_in_range (stamps i).2 = true) →
  preserves (db_wf_at (P := P) n) (enqueue_sync_plan stamps plan).
Proof.
  intros Hn Hall Hst. unfold enqueue_sync_plan. apply preserves_bind.
  - apply in_transaction_preserves, preserves_bind.
    + apply preserves_modify; intros db. apply delete_open_wf.
    + intros []. apply preserves_forM. intros [i e] (j & y & [= -> ->] & Hy)%elem_of_lookup_imap_1.
      apply enqueue_entry_preserves; [done| |done].
      eapply Forall_forall; [done|]. by eapply list_elem_of_lookup_2.
  - intros []. apply preserves_read, queue_status_read.
Qed.

Lemma update_operations_wf n m p f db :
  n ≤ m → db_wf_at (P := P) n db →
  (∀ r, r ∈ db.(db_operations) → p r = true → op_row_ok_at (P := P) n r → op_row_ok_at (P := P) m (f r) ∧ o_id (f r) = o_id r) →
  db_wf_at (P := P) m (update_operations p f db).2.
Proof.
  intros Hnm Hwf Hf. apply (wf_with_operations n m); [| |done].
  - apply Forall_fmap, Forall_forall. intros r Hr. simpl.
    pose proof (wf_operations _ _ Hwf) as Hall. eapply Forall_forall in Hall; [|done].
    destruct (p r) eqn:Hp; [by apply Hf|by eapply op_row_ok_mono].
  - rewrite <-list_fmap_compose. replace ((o_id ∘ _) <$> db_operations db) with (o_id <$> db_operations db).
    { apply (wf_ids _ _ Hwf). }
    apply list_fmap_ext. intros i r Hr%list_elem_of_lookup_2. simpl. destruct (p r) eqn:Hp; [|done].
    symmetry. pose proof (wf_operations _ _ Hwf) as Hall. eapply Forall_forall in Hall; [|done].
    by apply Hf.
Qed.

Lemma set_progress_ok n m kind status reason err retry started finished updated r :
  op_row_ok_at (P := P) n r → 0 ≤ retry ≤ m →
  (∃ k s, kind = kind_as_str k ∧ status = status_as_str s ∧ status_kind_ok s k) →
  time_column started → time_column finished → unix_in_range updated = true →
  op_row_ok_at (P := P) m (set_progress kind status reason err retry started finished updated r).
Proof. intros [] ? ? ? ? ?; by constructor. Qed.

Lemma time_column_None : time_column None.
Proof. by intros ?. Qed.
Lemma time_column_Some s : unix_in_range s = true → time_column (Some s).
Proof. by intros ? ? [= <-]. Qed.
Hint Resolve time_column_None time_column_Some : syncer.

Lemma update_status_preserves n now id s err :
  s = SDone ∨ s = SFailed → unix_in_range now = true →
  preserves (db_wf_at (P := P) n) (update_sync_operation_status now id s err).
Proof.
  intros Hs Hnow db Hwf. apply (update_operations_wf n); [lia|done|]. intros r _ _ Hr.
  split; [|done]. pose proof Hr as [_ (k & s0 & Hk & _) _ _ Hrt Hst _ _ _].
  apply (set_progress_ok n); auto with syncer. exists k, s. by destruct Hs as [-> | ->].
Qed.

Lemma started_preserves n now id :
  unix_in_range now = true → preserves (db_wf_at (P := P) n) (mark_sync_operation_started now id).
Proof.
  intros Hnow db Hwf. apply (update_operations_wf n); [lia|done|]. intros r _ _ Hr.
  split; [|done]. pose proof Hr as [_ Hks _ _ Hrt _ _ _ _]. apply (set_progress_ok n); auto with syncer.
Qed.

Lemma transfer_kind_column k : is_transfer_kind (kind_as_str k) = transfer_kind k.
Proof. by destruct k; vm_compute. Qed.

Lemma retry_preserves n now remote db :
  unix_in_range now = true → db_wf_at (P := P) n db →
  db_wf_at (P := P) (n + 1) (retry_failed_sync_operations now remote db).2.
Proof.
  intros Hnow Hwf. unfold retry_failed_sync_operations, get_st. rewrite M_bind_eq.
  match goal with |- db_wf_at (P := P) _ (mbind _ ?m db).2 => assert (db_wf_at (P := P) (n + 1) (m db).2) as Hm end.
  { apply (update_operations_wf n); [lia|done|]. intros r _ Hp Hr. split; [|done].
    pose proof Hr as [_ (k & s & Hk & _) _ _ Hrt _ _ _ _].
    apply (set_progress_ok n); auto with syncer; [lia|]. exists k, SPending.
    unfold retried_rows in Hp. rewrite Hk, transfer_kind_column in Hp.
    apply andb_true_iff in Hp as [[_ Hp]%andb_true_iff _]. done. }
  simpl in *. unfold mbind, M_bind; simpl. rewrite queue_status_eq. by destruct (_ <$> _).
Qed.

Lemma resolution_target_transfer k res k' : resolution_target k res = Ok k' → transfer_kind k' = true.
Proof. destruct k, res; simpl; by intros [= <-]. Qed.

Lemma resolve_preserves n now id res :
  unix_in_range now = true → preserves (db_wf_at (P := P) n) (resolve_blocked_sync_operation now id res).
Proof.
  intros Hnow. unfold resolve_blocked_sync_operation.
  apply preserves_bind; [apply preserves_read; intros; apply get_operation_read|]. intros op.
  destruct (negb _); [apply preserves_throw|].
  apply preserves_bind_lift; intros k' Hk%resolution_target_transfer.
  apply preserves_bind; [|intros []; apply preserves_bind;
    [apply preserves_read; intros; apply get_operation_read|intros ?]].
  - intros db Hwf. apply (update_operations_wf n); [lia|done|]. intros r _ _ Hr. split; [|done].
    pose proof Hr as [_ _ _ _ Hrt _ _ _ _]. apply (set_progress_ok n); auto with syncer.
    by exists k', SPending.
  - apply preserves_bind; [apply preserves_read, queue_status_read|intros; apply preserves_ret].
Qed.

End preserved.

Lemma db_step_wf n db db' : 0 ≤ n → db_wf_at (P := any_path) n db → db_step db db' → db_wf_at (P := any_path) (n + 1) db'.
Proof.
  intros Hn Hwf Hstep. destruct Hstep;
    try match goal with
        | |- context [retry_failed_sync_operations] => fail 1
        | |- _ => apply (db_wf_mono n); [lia|]
        end.
  - by apply upsert_preserves.
  - by apply scan_started_preserves.
  - by apply finalize_preserves.
  - by apply deleted_locally_preserves.
  - by apply forget_preserves.
  - by apply skip_preserves.
  - by apply enqueue_preserves.
  - apply update_status_preserves; auto.
  - apply update_status_preserves; auto.
  - by apply started_preserves.
  - by apply retry_preserves.
  - by apply resolve_preserves.
Qed.

Lemma db_empty_wf {P : string → Prop} : db_wf_at (P := P) 0 db_empty.
Proof. constructor; simpl; try apply map_Forall_empty; constructor. Qed.

Lemma db_reachable_wf n db : db_reachable n db → 0 ≤ n ∧ db_wf_at (P := any_path) n db.
Proof.
  induction 1 as [|n db db' Hr [Hn Hwf] Hstep]; [split; [lia|apply db_empty_wf]|].
  split; [lia|by eapply db_step_wf].
Qed.

End steps.

Abbreviation valid_entry := (valid_entry_at (P := stable_path)).
Abbreviation valid_transfer := (valid_transfer_at (P := stable_path)).
Abbreviation valid_plan_entry := (valid_plan_entry_at (P := stable_path)).
