(* ===== verification/StateDbSpec.v ===== *)
(** * The state database: its properties *)

From S2P Require Import Prelude RustStd External Error Manifest Limits Model Records Planning StateDb StateDbFacts.
From stdpp Require Import options.
Local Open Scope Z_scope.

(** ** Specifications *)

Section spec.
Context `{TL : !TimeLib} `{SL : !SqlxLib} `{UL : !UuidLib} `{SJ : !SerdeJson (list BlockHash)}.

(** The record an upserted entry is read back as: times lose their fraction of a second. *)
Definition stored_record (e : FileEntry) : FileRecord :=
  {| fr_path := e.(fe_path); fr_kind := e.(fe_kind); fr_size_bytes := e.(fe_size_bytes);
     fr_modified_at := unix_timestamp e.(fe_modified_at) * nanos_per_second;
     fr_content_hash := content_hash_as_hex <$> e.(fe_content_hash);
     fr_generation := e.(fe_version).(fv_generation);
     fr_device_id := device_id_to_string e.(fe_version).(fv_device_id);
     fr_sync_state := LocalAvailable |}.

(** The row a plan entry asks for, if any. *)
Definition planned_row (remote : string) (stamps : nat → OperationId * Z)
    (ie : nat * SyncPlanEntry) : option OpRow :=
  match operation_for_action ie.2.(pe_action) with
  | None => None
  | Some (kind, status) =>
      Some (operation_row remote (stamps ie.1) ie.2 kind status
              ie.2.(pe_local_size_bytes) ie.2.(pe_remote_size_bytes))
  end.
Definition planned_rows (stamps : nat → OperationId * Z) (plan : SyncPlan) : list OpRow :=
  omap (planned_row plan.(sp_remote_device_id) stamps) (imap pair plan.(sp_entries)).

Definition size_fits (o : option Z) : bool :=
  match o with Some z => z <=? i64_max | None => true end.
Definition row_fits (r : OpRow) : bool :=
  size_fits r.(o_local_size_bytes) && size_fits r.(o_remote_size_bytes).

(** ** Lemmas *)

Lemma sorted_by_fst {A} (l : list (string * A)) :
  sorted_by path_le l → sorted_by str_le l.*1.
Proof.
  induction 1 as [|[p r] l Hs IH Hall]; simpl; constructor; [done|].
  apply Forall_fmap. eapply Forall_impl; [exact Hall|]. done.
Qed.

Lemma file_rows_sorted db : sorted_by str_le (file_rows db).*1 ∧ NoDup (file_rows db).*1.
Proof.
  split.
  - apply sorted_by_fst, sort_by_sorted; intros ?; intros *; unfold path_le;
      [apply str_le_total|apply str_le_trans].
  - unfold file_rows. rewrite sort_by_perm. apply NoDup_fst_map_to_list.
Qed.

Lemma stored_record_eq now e row : valid_entry e → entry_row now e = Ok row →
  file_record (rel_str e.(fe_path), row) = stored_record e.
Proof.
  intros [Hp Hs Hm Hg] (bh & _ & ? & ? & ->)%entry_row_Ok; [|done..].
  unfold file_record, stored_record; simpl. destruct (fe_path e), (fe_kind e); reflexivity.
Qed.

Lemma optional_i64_fits o : optional_i64 o = if size_fits o then Ok o else Err FileSizeOverflow.
Proof.
  unfold optional_i64, traverse_option, i64_try_from_u64. destruct o as [z|]; [|done]. simpl.
  by destruct (z <=? i64_max).
Qed.

Lemma enqueue_entry_eq remote stamps i e db :
  enqueue_entry remote (stamps i) e db =
  match planned_row remote stamps (i, e) with
  | None => (Ok tt, db)
  | Some r =>
      if row_fits r then
        if bool_decide (r.(o_id) ∈ o_id <$> db.(db_operations))
        then (Err (core_error_from_sqlx sqlx_unique_message), db)
        else (Ok tt, with_operations (λ rows, rows ++ [r]) db)
      else (Err FileSizeOverflow, db)
  end.
Proof.
  unfold enqueue_entry, planned_row; simpl.
  destruct (operation_for_action _) as [[k s]|]; [|done].
  unfold row_fits; simpl. rewrite !optional_i64_fits. rewrite M_bind_eq. unfold lift at 1.
  destruct (size_fits (pe_local_size_bytes e)); [|done]. simpl. rewrite M_bind_eq. unfold lift.
  destruct (size_fits (pe_remote_size_bytes e)); [|done].
  unfold insert_operation, get_st, throw, modify. rewrite M_bind_eq. cbn beta iota. simpl.
  by destruct (bool_decide _).
Qed.

(** What is kept is what is not open for the peer. *)
Lemma delete_open_spec remote rows :
  filter (λ r, ¬ (r.(o_remote_device_id) = remote
                  ∧ (r.(o_status) = "pending" ∨ r.(o_status) = "blocked"))) rows
  = delete_open remote rows.
Proof.
  unfold delete_open. apply list_filter_iff. intros r. unfold is_open.
  rewrite negb_true_iff, <-not_true_iff_false, andb_true_iff, orb_true_iff, !bool_decide_eq_true. done.
Qed.

(** The loop inserts every planned row, or fails. *)
Lemma enqueue_loop remote stamps (l : list (nat * SyncPlanEntry)) db :
  NoDup (o_id <$> db.(db_operations)) →
  let rows := omap (planned_row remote stamps) l in
  let m := forM_ (λ ie : nat * SyncPlanEntry, enqueue_entry remote (stamps ie.1) ie.2) l db in
  if forallb row_fits rows && bool_decide (NoDup (o_id <$> db.(db_operations) ++ rows))
  then m = (Ok tt, with_operations (λ old, old ++ rows) db)
  else ∃ e db', m = (Err e, db').
Proof.
  revert db; induction l as [|[i e] l IH]; intros db Hnd; cbn zeta.
  { simpl. rewrite app_nil_r, bool_decide_eq_true_2 by exact Hnd. destruct db; simpl.
    unfold with_operations; simpl. by rewrite app_nil_r. }
  rewrite omap_cons_eq. cbn [forM_]. rewrite M_bind_eq. cbn [fst snd]. rewrite enqueue_entry_eq.
  destruct (planned_row remote stamps (i, e)) as [r|] eqn:Er; [|by apply IH].
  cbn [forallb]. destruct (row_fits r) eqn:Hfit; [|cbn; by eauto]. cbn [andb].
  set (rows := omap _ l) in *.
  destruct (decide (o_id r ∈ o_id <$> db_operations db)) as [Hin|Hin];
    [rewrite (bool_decide_eq_true_2 _ Hin)|rewrite (bool_decide_eq_false_2 _ Hin)].
  { rewrite bool_decide_eq_false_2; [rewrite andb_false_r; eauto|].
    rewrite fmap_app. intros (_ & Hdisj & _)%NoDup_app. apply (Hdisj _ Hin). left. }
  specialize (IH (with_operations (λ rows, rows ++ [r]) db)). cbn in IH.
  rewrite <-app_assoc in IH. cbn [app] in IH.
  assert (NoDup (o_id <$> db_operations db ++ [r])) as Hnd'.
  { rewrite fmap_app. apply NoDup_app; split_and!; [done| |apply NoDup_singleton].
    by intros x Hx ->%list_elem_of_singleton. }
  specialize (IH Hnd'). fold rows in IH. destruct (_ && _); [|done].
  etransitivity; [exact IH|]. unfold with_operations; simpl. by rewrite <-app_assoc.
Qed.

(** *** Counting *)

Definition status_count (q : QueueStatus) (s : SyncOperationStatus) : Z :=
  match s with
  | SPending => q.(qs_pending)
  | SBlocked => q.(qs_blocked)
  | SDone => q.(qs_done)
  | SFailed => q.(qs_failed)
  end.
Definition kind_count (q : QueueStatus) (k : SyncOperationKind) : Z :=
  match k with
  | KUploadToRemote => q.(qs_upload_to_remote)
  | KDownloadFromRemote => q.(qs_download_from_remote)
  | KResolveConflict => q.(qs_resolve_conflict)
  | KRepairLocalMissing => q.(qs_repair_local_missing)
  | KRepairRemoteMissing => q.(qs_repair_remote_missing)
  | KModeBlocked => q.(qs_mode_blocked)
  end.
Definition state_count (s : FolderStatus) (st : FileSyncState) : Z :=
  match st with
  | LocalAvailable => s.(fs_local_available)
  | UnsynchronizedLocalMissing => s.(fs_unsynchronized_local_missing)
  | PendingUpload => s.(fs_pending_upload)
  | PendingDownload => s.(fs_pending_download)
  | SkippedFolderLimit => s.(fs_skipped_folder_limit)
  end.

Lemma queue_of_status ops s :
  status_count (queue_of ops) s = Z.min (Z.of_nat (countb (is_status s) ops)) u64_max.
Proof.
  unfold queue_of. rewrite (foldl_proj (λ q, status_count q s) _
    (λ acc o, bump (is_status s o) acc)) by (intros; by destruct s).
  rewrite foldl_bump by (unfold u64_max; destruct s; simpl; lia). by destruct s.
Qed.

Lemma queue_of_kind ops k :
  kind_count (queue_of ops) k = Z.min (Z.of_nat (countb (is_kind k) ops)) u64_max.
Proof.
  unfold queue_of. rewrite (foldl_proj (λ q, kind_count q k) _
    (λ acc o, bump (is_kind k o) acc)) by (intros; by destruct k).
  rewrite foldl_bump by (unfold u64_max; destruct k; simpl; lia). by destruct k.
Qed.

Lemma queue_of_total ops : (queue_of ops).(qs_total) = Z.of_nat (length ops).
Proof.
  unfold queue_of. rewrite (foldl_proj qs_total _ (λ acc _, acc)) by done. apply foldl_const.
Qed.

Lemma status_partition ops :
  length ops = (countb (is_status SPending) ops + countb (is_status SBlocked) ops
                + countb (is_status SDone) ops + countb (is_status SFailed) ops)%nat.
Proof.
  induction ops as [|o ops IH]; [done|]. rewrite !countb_cons. simpl. unfold is_status in *.
  destruct (op_status o); repeat (case_bool_decide; try congruence); cbn iota in *; lia.
Qed.

Lemma status_of_state files skipped st :
  0 ≤ Z.of_nat (length skipped) ≤ u64_max →
  state_count (status_of files skipped) st
  = Z.min ((if bool_decide (st = SkippedFolderLimit) then Z.of_nat (length skipped) else 0)
           + Z.of_nat (countb (is_state st) files)) u64_max.
Proof.
  intros Hs. unfold status_of. rewrite (foldl_proj (λ q, state_count q st) _
    (λ acc o, bump (is_state st o) acc)) by (intros; by destruct st).
  rewrite foldl_bump by (unfold u64_max in *; destruct st; simpl; lia). by destruct st.
Qed.

Lemma status_of_indexed files skipped :
  (status_of files skipped).(fs_indexed_files) = Z.of_nat (length files)
  ∧ (status_of files skipped).(fs_indexed_bytes) = sum_sizes files.
Proof.
  unfold status_of. rewrite (foldl_proj fs_indexed_files _ (λ acc _, acc)) by done.
  rewrite (foldl_proj fs_indexed_bytes _ (λ acc _, acc)) by done.
  by rewrite !foldl_const.
Qed.

(** The exact sum of the sizes. *)
Definition exact_bytes (files : list FileRecord) : Z := foldr (λ f acc, f.(fr_size_bytes) + acc) 0 files.

Lemma sum_sizes_mod files : sum_sizes files = exact_bytes files mod (u64_max + 1).
Proof.
  assert (∀ z, foldl (λ acc f, u64_wrapping_add acc f.(fr_size_bytes)) z files mod (u64_max + 1)
          = (z + exact_bytes files) mod (u64_max + 1)
          ∧ (z mod (u64_max + 1) = z →
             foldl (λ acc f, u64_wrapping_add acc f.(fr_size_bytes)) z files mod (u64_max + 1)
             = foldl (λ acc f, u64_wrapping_add acc f.(fr_size_bytes)) z files)) as H.
  { induction files as [|f files IH]; intros z; cbn [foldl foldr exact_bytes].
    { by rewrite Z.add_0_r. }
    destruct (IH (u64_wrapping_add z (fr_size_bytes f))) as [IH1 IH2]. split.
    - rewrite IH1. unfold u64_wrapping_add, exact_bytes. simpl.
      rewrite Z.add_mod_idemp_l by (unfold u64_max; lia). f_equal. lia.
    - intros _. apply IH2. unfold u64_wrapping_add. apply Z.mod_mod. unfold u64_max; lia. }
  unfold sum_sizes. destruct (H 0) as [H1 H2]. rewrite <-H2 by done. by rewrite H1.
Qed.

(** *** The order of the queue *)

Lemma op_le_total : total_by op_le.
Proof.
  intros x y. unfold op_le. destruct (str_le_total (o_path x) (o_path y)) as [E|E]; rewrite E;
  destruct (Z.ltb_spec (o_created_at_unix x) (o_created_at_unix y)),
    (Z.ltb_spec (o_created_at_unix y) (o_created_at_unix x)),
    (Z.eqb_spec (o_created_at_unix x) (o_created_at_unix y)),
    (Z.eqb_spec (o_created_at_unix y) (o_created_at_unix x)); simpl; auto; lia.
Qed.

Lemma op_le_spec x y : op_le x y = true ↔
  o_created_at_unix x < o_created_at_unix y
  ∨ (o_created_at_unix x = o_created_at_unix y ∧ str_le (o_path x) (o_path y) = true).
Proof. unfold op_le. rewrite orb_true_iff, andb_true_iff, Z.ltb_lt, Z.eqb_eq. done. Qed.

Lemma op_le_trans : trans_by op_le.
Proof.
  intros x y z. rewrite !op_le_spec. intros [?|[? H1]] [?|[? H2]]; [left; lia..|].
  right. split; [congruence|]. by eapply str_le_trans.
Qed.

Lemma op_record_columns n r : op_row_ok n r →
  r.(o_kind) = kind_as_str (op_kind (op_record r))
  ∧ r.(o_status) = status_as_str (op_status (op_record r)).
Proof.
  intros [_ (k & s & Hk & Hs & _) _ _ _ _ _ _ _]. unfold op_record; simpl.
  by rewrite Hk, Hs, kind_parse_as_str, status_parse_as_str.
Qed.

(** *** The effect of a resolution and of a retry on one row *)

(** What a user can choose: for a blocked operation of a kind and a choice, the transfer it
    becomes and the reason written. *)
Definition choices : list (string * BlockedOperationResolution * string * string) :=
  [("resolve_conflict", RDownloadFromRemote, "download_from_remote", "user selected remote version");
   ("repair_local_missing", RDownloadFromRemote, "download_from_remote", "user selected remote version");
   ("resolve_conflict", RUploadToRemote, "upload_to_remote", "user selected local version");
   ("repair_remote_missing", RUploadToRemote, "upload_to_remote", "user selected local version")].

(** The row afterwards: pending, of the new kind, with no trace of a run. *)
Definition resolved_row (now : Z) (kind reason : string) (r : OpRow) : OpRow :=
  {| o_id := r.(o_id); o_path := r.(o_path); o_kind := kind; o_status := "pending"; o_reason := reason;
     o_local_size_bytes := r.(o_local_size_bytes); o_remote_size_bytes := r.(o_remote_size_bytes);
     o_local_content_hash := r.(o_local_content_hash); o_remote_content_hash := r.(o_remote_content_hash);
     o_remote_device_id := r.(o_remote_device_id); o_last_error := None; o_retry_count := r.(o_retry_count);
     o_started_at_unix := None; o_finished_at_unix := None; o_created_at_unix := r.(o_created_at_unix);
     o_updated_at_unix := now |}.
Definition retried_row (now : Z) (r : OpRow) : OpRow :=
  set_progress r.(o_kind) "pending" r.(o_reason) None (r.(o_retry_count) + 1) None None now r.

Lemma retried_rows_spec remote r : retried_rows remote r = true ↔
  r.(o_status) = "failed" ∧ (r.(o_kind) = "upload_to_remote" ∨ r.(o_kind) = "download_from_remote")
  ∧ ∀ d, remote = Some d → r.(o_remote_device_id) = d.
Proof.
  unfold retried_rows, is_transfer_kind.
  rewrite !andb_true_iff, orb_true_iff, !bool_decide_eq_true.
  destruct remote as [d|]; [rewrite bool_decide_eq_true|]; naive_solver.
Qed.

Lemma get_missing_operation db id :
  id ∉ o_id <$> db.(db_operations) →
  get_sync_operation id db = (Err (StateDatabase "sync operation not found"), db).
Proof.
  intros Hid. unfold get_sync_operation, get_st, lift, mbind, M_bind.
  replace (filter _ _) with (@nil OpRow); [done|]. symmetry.
  destruct (filter _ _) as [|r l] eqn:E; [done|]. exfalso. apply Hid.
  assert (r ∈ r :: l) as Hr by left. rewrite <-E in Hr.
  apply list_elem_of_filter in Hr as [<- Hr]. by apply list_elem_of_fmap_2.
Qed.

(** The code's choice of direction is the table's. *)
Lemma resolution_target_choice kind res k : resolution_target kind res = Ok k →
  ∃ reason, (kind_as_str kind, res, kind_as_str k, reason) ∈ choices ∧ resolution_reason res = reason.
Proof.
  intros Hk. exists (resolution_reason res). split; [|done]. revert Hk.
  destruct kind, res; intros [= <-]; unfold choices; repeat (apply list_elem_of_here || apply list_elem_of_further).
Qed.

Lemma resolution_target_refused kind res e : resolution_target kind res = Err e →
  (∀ target reason, (kind_as_str kind, res, target, reason) ∉ choices)
  ∧ e = StateDatabase ("resolution " +:+ resolution_debug res +:+ " is not valid for " +:+ kind_debug kind).
Proof.
  intros Hk. split; [|revert Hk; by destruct kind, res; intros [= <-]].
  intros target reason Hin. unfold choices in Hin. rewrite !elem_of_cons in Hin.
  destruct Hin as [E|[E|[E|[E|E%elem_of_nil]]]]; [..|done]; inversion E; subst; by destruct kind.
Qed.

Lemma op_status_blocked n r : op_row_ok n r → op_status (op_record r) = SBlocked ↔ r.(o_status) = "blocked".
Proof.
  intros [_ ->]%op_record_columns. split; [by intros ->|]. by destruct (op_status (op_record r)).
Qed.

Lemma resolve_commits n db now r res k :
  n ≤ i64_max → db_wf n db → unix_in_range now = true → r ∈ db.(db_operations) →
  op_status (op_record r) = SBlocked → resolution_target (op_kind (op_record r)) res = Ok k →
  let row := resolved_row now (kind_as_str k) (resolution_reason res) in
  let db' := with_operations (fmap (λ x, if bool_decide (x.(o_id) = r.(o_id)) then row x else x)) db in
  db_wf n db' ∧
  resolve_blocked_sync_operation now r.(o_id) res db
  = (Ok {| ro_operation := op_record (row r);
           ro_queue := queue_of (op_record <$> sort_by op_le db'.(db_operations)) |}, db').
Proof.
  intros Hn Hwf Hnow Hr Hst Hk row db'.
  assert (db_wf n db') as Hwf'.
  { apply (update_operations_wf n n (has_id r.(o_id)) row db); [lia|done|].
    intros x _ _ Hx. split; [|done]. pose proof Hx as [_ _ _ _ Hrt _ _ _ _].
    apply (set_progress_ok n n (kind_as_str k) "pending" (resolution_reason res) None x.(o_retry_count) None None now);
      auto using time_column_None.
    exists k, SPending. apply resolution_target_transfer in Hk. done. }
  split; [done|]. unfold resolve_blocked_sync_operation.
  rewrite M_bind_eq, (get_sync_operation_wf n) by done.
  rewrite Hst, bool_decide_eq_true_2 by done. cbn [negb].
  rewrite M_bind_eq, Hk. unfold lift. rewrite M_bind_eq.
  change (update_operations _ _ db) with ((Ok tt : result CoreError unit), db'). cbn iota.
  rewrite M_bind_eq. change (o_id r) with (o_id (row r)).
  rewrite (get_sync_operation_wf n db' (row r)); [|done|done|].
  - by rewrite M_bind_eq, (queue_status_wf n).
  - unfold db'; simpl. apply list_elem_of_fmap. exists r. split; [|done].
    by rewrite bool_decide_eq_true_2.
Qed.

(** *** What the calls do to [skipped_files] *)

Definition skipped_kept (db0 db : Database) : Prop := db.(db_skipped) = db0.(db_skipped).

Lemma skipped_kept_modify db0 f :
  (∀ db, (f db).(db_skipped) = db.(db_skipped)) → preserves (skipped_kept db0) (modify f : DB unit).
Proof. intros Hf. apply preserves_modify. unfold skipped_kept. intros db Hd. by rewrite Hf. Qed.

Lemma enqueue_keeps_skipped db0 stamps plan :
  preserves (skipped_kept db0) (enqueue_sync_plan stamps plan).
Proof.
  apply preserves_bind; [|intros []; apply preserves_read, queue_status_read].
  apply in_transaction_preserves, preserves_bind; [by apply skipped_kept_modify|]. intros [].
  apply preserves_forM. intros [i e] _. unfold enqueue_entry.
  destruct (operation_for_action _) as [[k s]|]; [|apply preserves_ret].
  apply preserves_bind_lift; intros l _. apply preserves_bind_lift; intros r _.
  unfold insert_operation. apply preserves_bind; [apply preserves_get|]. intros d.
  destruct (bool_decide _); [apply preserves_throw|by apply skipped_kept_modify].
Qed.

Lemma retry_keeps_skipped db0 now remote :
  preserves (skipped_kept db0) (retry_failed_sync_operations now remote).
Proof.
  apply preserves_bind; [apply preserves_get|intros d].
  apply preserves_bind; [by apply skipped_kept_modify|intros []].
  apply preserves_bind; [apply preserves_read, queue_status_read|intros; apply preserves_ret].
Qed.

Lemma resolve_keeps_skipped db0 now id res :
  preserves (skipped_kept db0) (resolve_blocked_sync_operation now id res).
Proof.
  apply preserves_bind; [apply preserves_read; intros; apply get_operation_read|intros op].
  destruct (negb _); [apply preserves_throw|].
  apply preserves_bind; [apply preserves_lift|intros k].
  apply preserves_bind; [by apply skipped_kept_modify|intros []].
  apply preserves_bind; [apply preserves_read; intros; apply get_operation_read|intros ?].
  apply preserves_bind; [apply preserves_read, queue_status_read|intros; apply preserves_ret].
Qed.

Lemma db_step_skipped db db' : db_step db db' →
  db'.(db_skipped) = db.(db_skipped) ∨ ∃ p r, db'.(db_skipped) = <[p := r]> db.(db_skipped).
Proof.
  destruct 1 as [now e _| | | | |now t _|stamps plan _ _| | | |now remote _|now id res _];
    try (by left).
  - rewrite upsert_eq. left. by destruct (entry_row now e).
  - unfold record_skipped_folder_limit. rewrite M_bind_eq. unfold lift.
    destruct (ok_or _ _); [right; by eexists _, _|by left].
  - left. by apply (enqueue_keeps_skipped db).
  - left. by apply (retry_keeps_skipped db).
  - left. by apply (resolve_keeps_skipped db).
Qed.

End spec.

(** ** Properties *)

Section properties.
Context `{TL : !TimeLib} `{SL : !SqlxLib} `{UL : !UuidLib} `{SJ : !SerdeJson (list BlockHash)}.

(** C13. However the database was used (any sequence of calls, with any paths and the clock
    in the range of the time crate), a listing can fail for one reason only: it succeeds
    exactly when every path it lists parses, the folder's counts when those of both its tables
    do and the queue's when the queue's do.  Then it is the rows in their order, each at what
    its path parses to, and with paths that parse to themselves at the path stored.  No
    listing changes the database; identifiers are unique, what is pending is a transfer
    and what is blocked is not. *)
Theorem listings_total n db :
  db_reachable n db → n ≤ i64_max →
  let parses p := is_ok (relative_path_parse p) = true in
  let files_parse := ∀ p, is_Some (db.(db_files) !! p) → parses p in
  let skipped_parse := ∀ p, is_Some (db.(db_skipped) !! p) → parses p in
  let queue_parses := ∀ r, r ∈ db.(db_operations) → parses r.(o_path) in
  (is_ok (list_files db).1 = true ↔ files_parse)
  ∧ (is_ok (list_skipped_files db).1 = true ↔ skipped_parse)
  ∧ (is_ok (list_sync_operations db).1 = true ↔ queue_parses)
  ∧ (is_ok (folder_status db).1 = true ↔ files_parse ∧ skipped_parse)
  ∧ (is_ok (queue_status db).1 = true ↔ queue_parses)
  ∧ list_files db = (mapM (λ row, file_at (file_record row) <$> relative_path_parse row.1) (file_rows db), db)
  ∧ list_missing_after_scan db
    = (mapM (λ row, file_at (file_record row) <$> relative_path_parse row.1)
         (filter (λ row, row.2.(w_sync_state) = "unsynchronized_local_missing") (file_rows db)), db)
  ∧ list_skipped_files db
    = (mapM (λ row, skipped_at (skipped_record row) <$> relative_path_parse row.1) (skipped_rows db), db)
  ∧ list_sync_operations db
    = (mapM (λ r, operation_at (op_record r) <$> relative_path_parse r.(o_path)) (sort_by op_le db.(db_operations)), db)
  ∧ (folder_status db).2 = db ∧ (queue_status db).2 = db
  ∧ NoDup (o_id <$> db.(db_operations))
  ∧ (∀ o, o ∈ op_record <$> db.(db_operations) → status_kind_ok o.(op_status) o.(op_kind))
  ∧ ((∀ p, stored_path db p → stable_path p) →
     list_files db = (Ok (file_record <$> file_rows db), db)
     ∧ list_skipped_files db = (Ok (skipped_record <$> skipped_rows db), db)
     ∧ list_sync_operations db = (Ok (op_record <$> sort_by op_le db.(db_operations)), db)).
Proof.
  intros [Hn0 Hwf]%db_reachable_wf Hn parses files_parse skipped_parse queue_parses.
  split_and!.
  - by apply (list_files_ok (P := any_path) n).
  - by apply (list_skipped_ok (P := any_path) n).
  - by apply (list_operations_ok (P := any_path) n).
  - by apply (folder_status_ok (P := any_path) n).
  - rewrite queue_status_eq. cbn [fst]. rewrite is_ok_fmap. by apply (list_operations_ok (P := any_path) n).
  - by apply (list_files_reads (P := any_path) n).
  - by apply (list_missing_reads (P := any_path) n).
  - by apply (list_skipped_reads (P := any_path) n).
  - by apply (list_operations_reads (P := any_path) n).
  - by rewrite (folder_status_reads (P := any_path) n).
  - apply queue_status_read.
  - apply (wf_ids _ _ Hwf).
  - intros o (r & -> & Hr)%list_elem_of_fmap.
    pose proof (wf_operations _ _ Hwf) as Hall. eapply Forall_forall in Hall; [|done].
    destruct Hall as [_ (k & s & Hk & Hs & Hok) _ _ _ _ _ _ _]. unfold op_record; simpl.
    by rewrite Hk, Hs, kind_parse_as_str, status_parse_as_str.
  - intros Hwf'%(db_typed_stable n); [|done].
    split_and!; [by apply (list_files_wf n)|by apply (list_skipped_wf n)|by apply (list_operations_wf n)].
Qed.

(** Round trip: after an upsert the listing holds the entry, marked available
    and with its time in whole seconds, in place of what it held for that path, and
    every other file unchanged, in the byte order of the paths. *)
Theorem upsert_listed n db now e :
  db_wf n db → valid_entry e → is_ok (entry_row now e) = true →
  ∃ db' old new, upsert_file now e db = (Ok tt, db')
  ∧ list_files db = (Ok old, db) ∧ list_files db' = (Ok new, db')
  ∧ sorted_by str_le ((λ f, rel_str f.(fr_path)) <$> new)
  ∧ NoDup ((λ f, rel_str f.(fr_path)) <$> new)
  ∧ ∀ f, f ∈ new ↔ f = stored_record e ∨ (f ∈ old ∧ f.(fr_path) ≠ e.(fe_path)).
Proof.
  intros Hwf He. pose proof (upsert_preserves n now e He db Hwf) as Hwf'.
  rewrite upsert_eq in Hwf' |- *. destruct (entry_row now e) as [row|] eqn:Hrow; [|done]. intros _.
  simpl in Hwf'. set (db' := with_files _ db) in *.
  exists db', (file_record <$> file_rows db), (file_record <$> file_rows db').
  split_and!; [done|by apply (list_files_wf n)|by apply (list_files_wf n)| | |].
  1,2: rewrite <-list_fmap_compose; apply file_rows_sorted.
  intros f. rewrite <-(stored_record_eq now e row) by done. rewrite !list_elem_of_fmap. split.
  - intros ([p r] & -> & Hr%file_rows_elem). simpl in Hr. destruct (decide (p = rel_str (fe_path e))) as [->|Hne].
    + rewrite lookup_insert_eq in Hr. injection Hr as ->. by left.
    + rewrite lookup_insert_ne in Hr by done. right. split.
      * exists (p, r). split; [done|]. by apply file_rows_elem.
      * simpl. intros Heq. apply Hne. by rewrite <-Heq.
  - intros [->|[([p r] & -> & Hr%file_rows_elem) Hne]].
    + exists (rel_str (fe_path e), row). split; [done|]. apply file_rows_elem. apply lookup_insert_eq.
    + exists (p, r). split; [done|]. apply file_rows_elem. simpl.
      rewrite lookup_insert_ne; [done|]. intros Heq. apply Hne. simpl. destruct (fe_path e); simpl in *. by f_equal.
Qed.

(** C12. Queuing a plan replaces exactly what is open for its peer: the pending and
    blocked operations of that peer go, one operation per entry that needs one comes
    (in the order of the plan), and finished operations and other peers' stay; when a
    size does not fit or an id is taken nothing is changed at all. *)
Theorem enqueue_replaces_atomically db stamps plan :
  NoDup (o_id <$> db.(db_operations)) →
  let kept := filter (λ r, ¬ (r.(o_remote_device_id) = plan.(sp_remote_device_id)
                              ∧ (r.(o_status) = "pending" ∨ r.(o_status) = "blocked")))
                db.(db_operations) in
  let rows := planned_rows stamps plan in
  if forallb row_fits rows && bool_decide (NoDup (o_id <$> kept ++ rows))
  then enqueue_sync_plan stamps plan db = queue_status (with_operations (λ _, kept ++ rows) db)
  else ∃ e, enqueue_sync_plan stamps plan db = (Err e, db).
Proof.
  intros Hnd kept rows.
  assert (kept = delete_open plan.(sp_remote_device_id) db.(db_operations)) as Hkept
    by apply delete_open_spec.
  rewrite Hkept. unfold enqueue_sync_plan. rewrite M_bind_eq. unfold in_transaction.
  rewrite M_bind_eq. unfold modify at 1 2. cbn iota.
  set (db0 := with_operations (delete_open (sp_remote_device_id plan)) db).
  assert (NoDup (o_id <$> db0.(db_operations))) as Hnd0.
  { eapply sublist_NoDup; [exact Hnd|]. apply fmap_sublist, delete_open_sublist. }
  pose proof (enqueue_loop (sp_remote_device_id plan) stamps (imap pair plan.(sp_entries)) db0 Hnd0)
    as Hloop. cbn zeta in Hloop. unfold rows, planned_rows.
  change (db_operations db0) with (delete_open (sp_remote_device_id plan) (db_operations db)) in Hloop.
  destruct (_ && _); [by rewrite Hloop|]. destruct Hloop as (e & db' & ->). by exists e.
Qed.

(** The queue's counters are the numbers of its operations, by status and by
    kind, and the four statuses add up to the total; the folder's are the numbers of
    its files by state, and its bytes are the sum of the sizes modulo 2^64. *)
Theorem aggregates_count db q s ops files skipped :
  (queue_status db).1 = Ok q → (list_sync_operations db).1 = Ok ops →
  (folder_status db).1 = Ok s → (list_files db).1 = Ok files → (list_skipped_files db).1 = Ok skipped →
  Z.of_nat (length ops) ≤ u64_max → Z.of_nat (length skipped) + Z.of_nat (length files) ≤ u64_max →
  (∀ st, status_count q st = Z.of_nat (countb (is_status st) ops))
  ∧ (∀ k, kind_count q k = Z.of_nat (countb (is_kind k) ops))
  ∧ q.(qs_total) = Z.of_nat (length ops)
  ∧ q.(qs_pending) + q.(qs_blocked) + q.(qs_done) + q.(qs_failed) = q.(qs_total)
  ∧ s.(fs_indexed_files) = Z.of_nat (length files)
  ∧ s.(fs_indexed_bytes) = exact_bytes files mod (u64_max + 1)
  ∧ ∀ st, state_count s st
      = (if bool_decide (st = SkippedFolderLimit) then Z.of_nat (length skipped) else 0)
        + Z.of_nat (countb (is_state st) files).
Proof.
  intros Hq Hops Hs Hf Hsk Hlen1 Hlen2. rewrite queue_status_eq, Hops in Hq. injection Hq as <-.
  assert (s = status_of files skipped) as ->.
  { unfold folder_status in Hs. rewrite M_bind_eq in Hs.
    assert (list_files db = (Ok files, db)) as Hf' by (by rewrite <-Hf).
    assert (list_skipped_files db = (Ok skipped, db)) as Hsk' by (by rewrite <-Hsk).
    rewrite Hf', M_bind_eq, Hsk' in Hs. by injection Hs as <-. }
  assert (∀ st, status_count (queue_of ops) st = Z.of_nat (countb (is_status st) ops)) as Hst.
  { intros st. rewrite queue_of_status. pose proof (countb_le (is_status st) ops). lia. }
  split_and!; try apply status_of_indexed.
  - done.
  - intros k. rewrite queue_of_kind. pose proof (countb_le (is_kind k) ops). lia.
  - apply queue_of_total.
  - rewrite queue_of_total, (status_partition ops).
    pose proof (Hst SPending); pose proof (Hst SBlocked); pose proof (Hst SDone);
      pose proof (Hst SFailed). simpl in *. lia.
  - rewrite <-sum_sizes_mod. apply status_of_indexed.
  - intros st. rewrite status_of_state by lia. pose proof (countb_le (is_state st) files).
    case_bool_decide; lia.
Qed.

(** C27. Resolving an operation: an unknown id, an operation that is not blocked and
    a choice that does not fit its kind are refused with the database unchanged;
    otherwise that operation alone becomes a pending transfer: a download where the remote
    version was chosen for a conflict or a file missing here, an upload where the local
    version was chosen for a conflict or a file missing there, with its path, sizes, hashes
    and retries kept, and it is returned with the new counts. *)
Theorem resolve_blocked_spec n db now id res :
  n ≤ i64_max → db_wf n db → unix_in_range now = true →
  match resolve_blocked_sync_operation now id res db with
  | (Err e, db') => db' = db ∧
      (((id ∉ (o_id <$> db.(db_operations))) ∧ e = StateDatabase "sync operation not found")
       ∨ (∃ r, r ∈ db.(db_operations) ∧ r.(o_id) = id ∧
           ((r.(o_status) ≠ "blocked"
             ∧ e = StateDatabase "only blocked operations can be resolved")
            ∨ (r.(o_status) = "blocked"
               ∧ (∀ kind reason, (r.(o_kind), res, kind, reason) ∉ choices)
               ∧ e = StateDatabase ("resolution " +:+ resolution_debug res +:+ " is not valid for "
                                    +:+ kind_debug (op_kind (op_record r)))))))
  | (Ok s, db') => ∃ r kind reason, r ∈ db.(db_operations) ∧ r.(o_id) = id
      ∧ r.(o_status) = "blocked" ∧ (r.(o_kind), res, kind, reason) ∈ choices
      ∧ db' = with_operations (fmap (λ x, if bool_decide (x.(o_id) = id) then resolved_row now kind reason x else x)) db
      ∧ s.(ro_operation) = op_record (resolved_row now kind reason r)
      ∧ db_wf n db' ∧ (queue_status db').1 = Ok s.(ro_queue)
  end.
Proof.
  intros Hn Hwf Hnow. destruct (decide (id ∈ o_id <$> db.(db_operations))) as [Hid|Hid].
  - apply list_elem_of_fmap in Hid as (r & -> & Hr).
    pose proof (wf_operations _ _ Hwf) as Hall. rewrite Forall_forall in Hall. pose proof (Hall r Hr) as Hok.
    destruct (op_record_columns n r Hok) as [Hkind _]. pose proof (op_status_blocked n r Hok) as Hblocked.
    destruct (decide (op_status (op_record r) = SBlocked)) as [Hst|Hst].
    + destruct (resolution_target (op_kind (op_record r)) res) as [k|e] eqn:Hk.
      * destruct (resolve_commits n db now r res k) as [Hwf' ->]; [done..|].
        destruct (resolution_target_choice _ _ _ Hk) as (reason & Hc & E). rewrite <-Hkind in Hc. rewrite E in *.
        exists r, (kind_as_str k), reason. split_and!; try done; [by apply Hblocked|].
        by rewrite (queue_status_wf n).
      * unfold resolve_blocked_sync_operation. rewrite M_bind_eq, (get_sync_operation_wf n) by done.
        rewrite Hst, bool_decide_eq_true_2 by done. cbn [negb]. rewrite M_bind_eq, Hk.
        split; [done|]. right. exists r. split_and!; [done|done|]. right. split; [by apply Hblocked|].
        rewrite Hkind. by apply resolution_target_refused.
    + unfold resolve_blocked_sync_operation. rewrite M_bind_eq, (get_sync_operation_wf n) by done.
      rewrite bool_decide_eq_false_2 by done. split; [done|]. right. exists r. split_and!; [done|done|].
      left. split; [|done]. by rewrite <-Hblocked.
  - unfold resolve_blocked_sync_operation. rewrite M_bind_eq, get_missing_operation by done.
    split; [done|]. by left.
Qed.

(** Retrying returns exactly the failed transfers (of the given peer, or of all)
    to pending, each with one more retry and its error cleared, leaves every other
    operation as it is, reports their number, and leaves none of them failed. *)
Theorem retry_failed_spec n db now remote :
  n < i64_max → db_wf n db → unix_in_range now = true →
  (∀ r, retried_rows remote r = true ↔
     r.(o_status) = "failed" ∧ (r.(o_kind) = "upload_to_remote" ∨ r.(o_kind) = "download_from_remote")
     ∧ ∀ d, remote = Some d → r.(o_remote_device_id) = d) ∧
  ∃ s db', retry_failed_sync_operations now remote db = (Ok s, db')
  ∧ db' = with_operations (fmap (λ r, if retried_rows remote r then retried_row now r else r)) db
  ∧ s.(rf_retried) = Z.of_nat (countb (retried_rows remote) db.(db_operations))
  ∧ (queue_status db').1 = Ok s.(rf_queue)
  ∧ countb (retried_rows remote) db'.(db_operations) = 0%nat
  ∧ (remote = None → countb (is_status SFailed) (op_record <$> db'.(db_operations))
       = countb (λ o, is_status SFailed o && negb (transfer_kind o.(op_kind)))
           (op_record <$> db.(db_operations))).
Proof.
  intros Hn Hwf Hnow. split; [apply retried_rows_spec|].
  pose proof (retry_preserves n now remote db Hnow Hwf) as Hwf'.
  set (db' := with_operations (fmap (λ r, if retried_rows remote r then retried_row now r else r)) db).
  assert (retry_failed_sync_operations now remote db
          = (Ok {| rf_retried := Z.of_nat (countb (retried_rows remote) db.(db_operations));
                   rf_queue := queue_of (op_record <$> sort_by op_le db'.(db_operations)) |}, db')) as Heq.
  { unfold retry_failed_sync_operations in *. unfold get_st in *. rewrite M_bind_eq in Hwf' |- *.
    rewrite M_bind_eq in Hwf' |- *.
    change (update_operations _ _ db) with ((Ok tt : result CoreError unit), db') in Hwf' |- *.
    cbn iota in Hwf' |- *. rewrite M_bind_eq in Hwf' |- *.
    assert (db_wf (n + 1) db') as Hwf1.
    { rewrite queue_status_eq in Hwf'. by destruct (_ <$> _). }
    rewrite (queue_status_wf (n + 1)); [done|lia|done]. }
  rewrite Heq in Hwf' |- *. simpl in Hwf'. eexists _, db'. split_and!; [done|done|done| | |].
  - rewrite (queue_status_wf (n + 1)); [done|lia|done].
  - unfold db'; simpl. rewrite countb_fmap.
    rewrite (countb_ext _ (λ _, false)); [apply countb_false|].
    intros r _. destruct (retried_rows remote r) eqn:E; [|done]. done.
  - intros ->. unfold db'; simpl. rewrite <-list_fmap_compose, !countb_fmap. apply countb_ext.
    intros r Hr. pose proof (wf_operations _ _ Hwf) as Hall. eapply Forall_forall in Hall; [|done].
    destruct Hall as [_ (k & s & Hk & Hs & _) _ _ _ _ _ _ _].
    assert (retried_rows None r = bool_decide (s = SFailed) && transfer_kind k) as E.
    { unfold retried_rows. rewrite Hk, Hs, transfer_kind_column, andb_true_r. by destruct s, k. }
    simpl. rewrite E. unfold is_status, op_record.
    destruct s, k; simpl; rewrite Hs; rewrite ?Hk; by vm_compute.
Qed.

(** The pending transfers of a peer and direction come in queue order: the
    listing is the first [limit] of all its pending operations of that kind, sorted
    by creation time and path; a limit beyond [i64::MAX] is refused. *)
Theorem list_pending_spec n db remote kind limit :
  n ≤ i64_max → db_wf n db → 0 ≤ limit →
  if limit <=? i64_max then
    ∃ all, list_pending_operations remote kind limit db
           = (Ok (op_record <$> take (Z.to_nat limit) all), db)
    ∧ sorted_by op_le all ∧ NoDup (o_id <$> all)
    ∧ (∀ r, r ∈ all ↔ r ∈ db.(db_operations) ∧ r.(o_remote_device_id) = remote
                      ∧ op_kind (op_record r) = kind ∧ op_status (op_record r) = SPending)
  else list_pending_operations remote kind limit db = (Err FileSizeOverflow, db).
Proof.
  intros Hn Hwf Hl. unfold list_pending_operations, i64_try_from_u64.
  destruct (limit <=? i64_max); [|done]. unfold lift, get_st. rewrite M_bind_eq. simpl.
  rewrite M_bind_eq.
  set (sel := filter _ _). exists (sort_by op_le sel).
  assert (Forall (op_row_ok n) (sort_by op_le sel)) as Hok.
  { rewrite sort_by_perm. apply Forall_forall. intros r [_ Hr]%list_elem_of_filter.
    pose proof (wf_operations _ _ Hwf) as Hall. by eapply Forall_forall in Hall. }
  split_and!.
  - f_equal. apply (decode_ops_wf n); [done|]. by apply Forall_take.
  - apply sort_by_sorted; [apply op_le_total|apply op_le_trans].
  - rewrite sort_by_perm. eapply sublist_NoDup; [apply (wf_ids _ _ Hwf)|].
    apply fmap_sublist, sublist_filter.
  - intros r. rewrite sort_by_elem. unfold sel. rewrite list_elem_of_filter.
    assert (r ∈ db_operations db → o_kind r = kind_as_str (op_kind (op_record r))
            ∧ o_status r = status_as_str (op_status (op_record r))) as Hcol.
    { intros Hr. pose proof (wf_operations _ _ Hwf) as Hall.
      eapply Forall_forall in Hall; [|done]. by eapply op_record_columns. }
    split.
    + intros [(Hrem & Hk & Hs) Hr]. destruct (Hcol Hr) as [Hk' Hs']. split_and!; [done|done| |].
      * apply kind_as_str_inj. exact (eq_trans (eq_sym Hk') Hk).
      * apply status_as_str_inj. exact (eq_trans (eq_sym Hs') Hs).
    + intros (Hr & Hrem & Hk & Hs). destruct (Hcol Hr) as [Hk' Hs'].
      split; [|done]. split_and!; [done| |].
      * exact (eq_trans Hk' (f_equal kind_as_str Hk)).
      * exact (eq_trans Hs' (f_equal status_as_str Hs)).
Qed.


(** A file recorded under a path that does not parse to a path again (parsing is
    not idempotent) makes every listing, status and export of the folder fail, until
    exactly that path is forgotten. *)
Theorem unstable_path_breaks_folder db now e row f d t :
  entry_row now e = Ok row → is_ok (relative_path_parse (rel_str e.(fe_path))) = false →
  let db' := (upsert_file now e db).2 in
  (upsert_file now e db).1 = Ok tt
  ∧ is_ok (list_files db').1 = false ∧ is_ok (folder_status db').1 = false
  ∧ is_ok (export_manifest t f d db').1 = false.
Proof.
  intros Hrow Hbad db'. unfold db'. rewrite upsert_eq, Hrow. cbn [fst snd].
  set (db1 := with_files _ db).
  assert (is_ok (list_files db1).1 = false) as Hl.
  { apply (result_mapM_err _ _ (rel_str (fe_path e), row)).
    - apply file_rows_elem. apply lookup_insert_eq.
    - unfold row_to_file_record. destruct (file_kind_parse (w_kind row)); [|done].
      simpl. by destruct (relative_path_parse _). }
  split_and!; [done|done| |]; unfold folder_status, export_manifest; rewrite M_bind_eq;
    unfold list_files, lift, get_st, mbind, M_bind in *; by destruct (mapM _ _).
Qed.

(** No call ever takes a file off the list of files skipped by the size limit:
    the folder keeps counting a skipped file after it was downloaded or forgotten. *)
Theorem skipped_never_cleared db db' path :
  db_step db db' → is_Some (db.(db_skipped) !! path) → is_Some (db'.(db_skipped) !! path).
Proof.
  intros Hstep. apply db_step_skipped in Hstep as [->|(p & r & ->)]; [done|].
  intros [r' Hr]. destruct (decide (p = path)) as [->|]; [by rewrite lookup_insert_eq|].
  rewrite lookup_insert_ne by done. by exists r'.
Qed.

End properties.

(** ** Witnesses *)

Module Witness.
Import Sample.

Definition w_entry : FileEntry := sample_entry "h" 3.
Definition w_plan_entry (path : string) (a : SyncAction) : SyncPlanEntry :=
  entry path a (Some 3) None (Some "h") None "because".
Definition w_plan (es : list SyncPlanEntry) : SyncPlan :=
  {| sp_local_device_id := "me"; sp_remote_device_id := "peer"; sp_entries := es;
     sp_summary := summary_default |}.
Definition w_stamps (i : nat) : OperationId * Z := (N.of_nat i, 100).
Definition w_entries : list SyncPlanEntry :=
  [w_plan_entry "a.txt" UploadToRemote; w_plan_entry "b.txt" InSync;
   w_plan_entry "c.txt" Conflict; w_plan_entry "d.txt" DownloadFromRemote].

Definition w_db1 : Database := (upsert_file 100 w_entry db_empty).2.
Definition w_db2 : Database := (enqueue_sync_plan w_stamps (w_plan w_entries) w_db1).2.
Definition w_db : Database := (mark_sync_operation_failed 100 "3" "refused" w_db2).2.

Lemma w_entry_valid : valid_entry_at (P := any_path) w_entry.
Proof. constructor; [exact I|..]; vm_compute; (reflexivity || discriminate). Qed.

Lemma w_plan_valid : Forall (valid_plan_entry_at (P := any_path)) (w_plan w_entries).(sp_entries).
Proof. repeat constructor; intros z [= <-]; lia. Qed.

Lemma w_stamps_valid i : unix_in_range (w_stamps i).2 = true.
Proof. reflexivity. Qed.

Lemma w_reachable : db_reachable 3 w_db.
Proof.
  change 3 with (0 + 1 + 1 + 1).
  assert (db_reachable (0 + 1) w_db1) as H1
    by exact (reach_step _ _ _ reach_new (step_upsert db_empty 100 w_entry w_entry_valid)).
  assert (db_reachable (0 + 1 + 1) w_db2) as H2
    by exact (reach_step _ _ _ H1 (step_enqueue w_db1 w_stamps (w_plan w_entries)
                                     w_plan_valid w_stamps_valid)).
  exact (reach_step _ _ _ H2 (step_failed w_db2 100 "3" "refused" (w_stamps_valid 0))).
Qed.

Lemma w_wf : db_wf 3 w_db.
Proof.
  apply db_typed_stable; [apply (db_reachable_wf 3 w_db w_reachable)|].
  set (b := λ p, match relative_path_parse p with Ok q => bool_decide (rel_str q = p) | Err _ => false end).
  assert (∀ p, b p = true → stable_path p) as Hb.
  { intros p. unfold b, stable_path. destruct (relative_path_parse p) as [[q]|]; [|done].
    intros E%bool_decide_eq_true. cbn in E. by subst q. }
  assert (map_Forall (λ p _, b p = true) w_db.(db_files) ∧ map_Forall (λ p _, b p = true) w_db.(db_skipped)
    ∧ Forall (λ p, b p = true) (o_path <$> w_db.(db_operations))) as (H1 & H2 & H3)
    by (apply (bool_decide_eq_true_1 _); vm_compute; reflexivity).
  intros p [[r Hr]|[[r Hr]|Hr]]; apply Hb; [by apply (H1 p r)|by apply (H2 p r)|].
  rewrite Forall_forall in H3. by apply H3.
Qed.

Definition unwrap {A} (d : A) (r : CoreResult A) : A := match r with Ok a => a | Err _ => d end.

(** A database that lists what was recorded, and one with a path that does not parse. *)
Definition w_unlisted : FileEntry :=
  {| fe_path := {| rel_str := "../x" |}; fe_kind := KFile; fe_size_bytes := 1;
     fe_modified_at := 0; fe_content_hash := None; fe_block_hashes := [];
     fe_version := {| fv_generation := 1; fv_device_id := 1%N |} |}.
Definition w_db' : Database := (upsert_file 100 w_unlisted w_db).2.

Lemma w_reachable' : db_reachable 4 w_db'.
Proof.
  change 4 with (3 + 1). apply (reach_step _ w_db); [exact w_reachable|]. apply step_upsert.
  constructor; [exact I|..]; vm_compute; (reflexivity || discriminate).
Qed.

Lemma listings_total_witness :
  is_ok (list_files w_db).1 = true ∧ is_ok (queue_status w_db).1 = true
  ∧ is_ok (list_files w_db').1 = false ∧ is_ok (queue_status w_db').1 = true.
Proof.
  destruct (listings_total 3 w_db w_reachable ltac:(vm_compute; discriminate))
    as (H1 & _ & _ & _ & H5 & _).
  destruct (listings_total 4 w_db' w_reachable' ltac:(vm_compute; discriminate))
    as (H1' & _ & _ & _ & H5' & _).
  assert (∀ r, r ∈ w_db.(db_operations) → is_ok (relative_path_parse r.(o_path)) = true) as Hq.
  { intros r Hr. pose proof (wf_operations _ _ w_wf) as Hall. rewrite Forall_forall in Hall.
    destruct (Hall r Hr) as [Hp _ _ _ _ _ _ _ _]. by rewrite Hp. }
  split_and!.
  - apply H1. intros p [r Hr]. destruct (wf_files _ _ w_wf p r Hr) as [Hp _ _ _ _ _]. by rewrite Hp.
  - by apply H5.
  - destruct (is_ok (list_files w_db').1) eqn:E; [|reflexivity]. exfalso.
    assert (is_ok (relative_path_parse "../x") = true) as Hx; [|vm_compute in Hx; discriminate].
    apply (proj1 H1' eq_refl). eexists. vm_compute. reflexivity.
  - apply H5'. exact Hq.
Defined.

Lemma upsert_listed_witness :
  ∃ db' new, upsert_file 200 (sample_entry "h2" 5) w_db = (Ok tt, db')
  ∧ list_files db' = (Ok new, db') ∧ stored_record (sample_entry "h2" 5) ∈ new.
Proof.
  destruct (upsert_listed 3 w_db 200 (sample_entry "h2" 5) w_wf
      ltac:(constructor; vm_compute; (reflexivity || discriminate)) ltac:(vm_compute; reflexivity))
    as (db' & old & new & H1 & _ & H3 & _ & _ & H4).
  exists db', new. split; [exact H1|]. split; [exact H3|]. apply H4. left. reflexivity.
Defined.

Definition w_stamps2 (i : nat) : OperationId * Z := (N.of_nat (10 + i), 200).
Definition w_kept : list OpRow :=
  filter (λ r, ¬ (r.(o_remote_device_id) = "peer"
                  ∧ (r.(o_status) = "pending" ∨ r.(o_status) = "blocked"))) w_db.(db_operations).

Lemma enqueue_replaces_atomically_witness :
  enqueue_sync_plan w_stamps2 (w_plan w_entries) w_db
  = queue_status (with_operations (λ _, w_kept ++ planned_rows w_stamps2 (w_plan w_entries)) w_db)
  ∧ length w_kept = 1%nat.
Proof.
  split; [|vm_compute; reflexivity].
  pose proof (enqueue_replaces_atomically w_db w_stamps2 (w_plan w_entries) (wf_ids _ _ w_wf)) as H.
  cbv zeta in H. change (sp_remote_device_id (w_plan w_entries)) with "peer" in H. fold w_kept in H.
  assert (forallb row_fits (planned_rows w_stamps2 (w_plan w_entries))
          && bool_decide (NoDup (o_id <$> w_kept ++ planned_rows w_stamps2 (w_plan w_entries)))
          = true) as E by (vm_compute; reflexivity).
  rewrite E in H. exact H.
Defined.

Definition w_queue : QueueStatus := unwrap (queue_of []) (queue_status w_db).1.
Definition w_ops : list SyncOperationRecord := unwrap [] (list_sync_operations w_db).1.
Definition w_status : FolderStatus := unwrap (status_of [] []) (folder_status w_db).1.
Definition w_files : list FileRecord := unwrap [] (list_files w_db).1.

Lemma w_results :
  (queue_status w_db).1 = Ok w_queue ∧ (list_sync_operations w_db).1 = Ok w_ops
  ∧ (folder_status w_db).1 = Ok w_status ∧ (list_files w_db).1 = Ok w_files
  ∧ (list_skipped_files w_db).1 = Ok [] ∧ length w_ops = 3%nat ∧ length w_files = 1%nat.
Proof. vm_compute. repeat split. Qed.

Lemma aggregates_count_witness :
  w_queue.(qs_total) = 3 ∧ w_status.(fs_indexed_files) = 1
  ∧ w_queue.(qs_failed) = Z.of_nat (countb (is_status SFailed) w_ops).
Proof.
  destruct w_results as (H1 & H2 & H3 & H4 & H5 & H6 & H7).
  assert (Z.of_nat (length w_ops) ≤ u64_max) as L1 by (rewrite H6; discriminate).
  assert (Z.of_nat (length (@nil SkippedFileRecord)) + Z.of_nat (length w_files) ≤ u64_max) as L2
    by (rewrite H7; discriminate).
  destruct (aggregates_count w_db w_queue w_status w_ops w_files [] H1 H2 H3 H4 H5 L1 L2)
    as (E1 & _ & E2 & _ & E3 & _).
  split; [rewrite E2, H6; reflexivity|]. split; [rewrite E3, H7; reflexivity|]. exact (E1 SFailed).
Defined.

Lemma resolve_blocked_spec_witness :
  match resolve_blocked_sync_operation 300 "2" RUploadToRemote w_db with
  | (Ok s, db') => (queue_status db').1 = Ok s.(ro_queue)
      ∧ ∃ r, r ∈ w_db.(db_operations) ∧ r.(o_kind) = "resolve_conflict"
        ∧ s.(ro_operation) = op_record (resolved_row 300 "upload_to_remote" "user selected local version" r)
  | _ => False
  end.
Proof.
  assert (3 ≤ i64_max) as Hn by (vm_compute; discriminate).
  pose proof (resolve_blocked_spec 3 w_db 300 "2" RUploadToRemote Hn w_wf
                ltac:(vm_compute; reflexivity)) as H.
  destruct (resolve_blocked_sync_operation 300 "2" RUploadToRemote w_db) as [[s|e] db'] eqn:E.
  - destruct H as (r & kind & reason & Hr & Hid & _ & Hc & _ & Hs & _ & H). split; [exact H|]. exists r.
    assert (r.(o_kind) = "resolve_conflict") as Hk.
    { apply (bool_decide_eq_true_1 (o_kind r = "resolve_conflict")).
      assert (Forall (λ r, o_id r = "2" → bool_decide (o_kind r = "resolve_conflict") = true) w_db.(db_operations)) as Hall
        by (vm_compute; repeat constructor; discriminate).
      rewrite Forall_forall in Hall. exact (Hall r Hr Hid). }
    split; [exact Hr|]. split; [exact Hk|]. rewrite Hk in Hc. unfold choices in Hc. rewrite !elem_of_cons in Hc.
    destruct Hc as [Ec|[Ec|[Ec|[Ec|Ec%elem_of_nil]]]]; [discriminate Ec..| | |destruct Ec].
    + injection Ec as -> ->. exact Hs.
    + discriminate Ec.
  - vm_compute in E. discriminate E.
Defined.

Lemma retry_failed_spec_witness :
  ∃ s db', retry_failed_sync_operations 300 (Some "peer") w_db = (Ok s, db') ∧ s.(rf_retried) = 1.
Proof.
  destruct (retry_failed_spec 3 w_db 300 (Some "peer") ltac:(vm_compute; reflexivity) w_wf
    ltac:(vm_compute; reflexivity)) as (_ & s & db' & H1 & _ & H2 & _).
  exists s, db'. split; [exact H1|]. rewrite H2. vm_compute. reflexivity.
Defined.

Lemma list_pending_spec_witness :
  ∃ all, list_pending_operations "peer" KUploadToRemote 1 w_db
         = (Ok (op_record <$> take 1 all), w_db) ∧ sorted_by op_le all.
Proof.
  destruct (list_pending_spec 3 w_db "peer" KUploadToRemote 1 ltac:(vm_compute; discriminate) w_wf
    ltac:(lia)) as (all & H1 & H2 & _).
  exists all. split; [exact H1|exact H2].
Defined.

Definition w_bad_plan : SyncPlan := w_plan [w_plan_entry "../x" UploadToRemote].


(** The path of the entry is the result of a parse. *)
Definition w_unstable : FileEntry :=
  {| fe_path := {| rel_str := " .syncer/x" |}; fe_kind := KFile; fe_size_bytes := 1;
     fe_modified_at := 0; fe_content_hash := None; fe_block_hashes := [];
     fe_version := {| fv_generation := 1; fv_device_id := 1%N |} |}.

Definition w_unstable_row : FileRow :=
  {| w_kind := "file"; w_size_bytes := 1; w_modified_at_unix := 0; w_content_hash := None;
     w_block_hashes_json := "[]"; w_generation := 1; w_device_id := "1";
     w_scan_missing := false; w_sync_state := "local_available"; w_updated_at_unix := 100 |}.

Lemma w_unstable_written : entry_row 100 w_unstable = Ok w_unstable_row.
Proof. vm_compute. reflexivity. Qed.

Lemma unstable_path_breaks_folder_witness :
  relative_path_parse "./ .syncer/x" = Ok w_unstable.(fe_path)
  ∧ is_ok (list_files (upsert_file 100 w_unstable db_empty).2).1 = false.
Proof.
  split; [vm_compute; reflexivity|].
  assert (is_ok (relative_path_parse (rel_str w_unstable.(fe_path))) = false) as Hbad
    by (vm_compute; reflexivity).
  exact (proj1 (proj2 (unstable_path_breaks_folder db_empty 100 w_unstable w_unstable_row
                         1%N 1%N 0 w_unstable_written Hbad))).
Defined.

Definition w_transfer : PendingTransfer := transfer_at 1 "big.bin" 50 0.

Lemma skipped_never_cleared_witness :
  is_Some ((forget_file w_transfer.(pt_path)
              (record_skipped_folder_limit 100 w_transfer db_empty).2).2.(db_skipped) !! "big.bin").
Proof.
  apply (skipped_never_cleared (record_skipped_folder_limit 100 w_transfer db_empty).2).
  - apply step_forget.
  - eexists. vm_compute. reflexivity.
Defined.

End Witness.
