(* ===== verification/Migrations.v ===== *)
(** * [crates/syncer-core/src/state_db.rs]: [migrate] and [ensure_column]

    The schema is the columns of each table, in order; the rows are in
    StateDb.v.  SQLite compares column names without case, the program with. *)

From S2P Require Import Prelude RustStd External Error.
From stdpp Require Import options pretty.

Definition SCHEMA_VERSION : Z := 5.

(** A column: its name and its declaration, without the [CHECK] clauses. *)
Abbreviation Column := (string * string)%type.

Record Schema := {
  sc_tables : gmap string (list Column);
  sc_metadata : gmap string string;
  sc_pragmas : gmap string string;
}.

Definition with_tables (f : gmap string (list Column) → gmap string (list Column)) (s : Schema)
    : Schema :=
  {| sc_tables := f s.(sc_tables); sc_metadata := s.(sc_metadata); sc_pragmas := s.(sc_pragmas) |}.

Abbreviation DDL := (M Schema CoreError).

(** ** Statements of SQLite *)

Definition lower (a : ascii) : ascii :=
  if RustStd.between 65 90 (byte_val a) then Ascii.ascii_of_N (byte_val a + 32)%N else a.
(** Column names are equal for SQLite when they agree up to the case of ASCII letters. *)
Definition fold_name (s : string) : string := of_bytes (lower <$> bytes s).

Definition table_exists (s : Schema) (table : string) : bool := bool_decide (is_Some (s.(sc_tables) !! table)).

(** [CREATE TABLE IF NOT EXISTS]. *)
Definition create_table_if_not_exists (table : string) (columns : list Column) : DDL unit :=
  s ← get_st;
  if table_exists s table then mret tt else modify (with_tables <[table := columns]>).

(** [PRAGMA table_info]: no rows for a table that does not exist. *)
Definition table_info (table : string) : DDL (list Column) :=
  s ← get_st; mret (default [] (s.(sc_tables) !! table)).

(** [ALTER TABLE ... ADD COLUMN]: refused for an unknown table and a duplicate name. *)
Definition add_column `{!SqlxLib} (table : string) (column : Column) : DDL unit :=
  s ← get_st;
  match s.(sc_tables) !! table with
  | None => throw (core_error_from_sqlx sqlx_no_table_message)
  | Some columns =>
      if bool_decide (fold_name column.1 ∈ fold_name <$> columns.*1)
      then throw (core_error_from_sqlx sqlx_duplicate_column_message)
      else modify (with_tables <[table := columns ++ [column]]>)
  end.

Definition pragma (name value : string) : DDL unit := modify (λ s,
  {| sc_tables := s.(sc_tables); sc_metadata := s.(sc_metadata);
     sc_pragmas := <[name := value]> s.(sc_pragmas) |}).

(** ** [ensure_column] and the tables *)

Definition ensure_column `{!SqlxLib} (table column definition : string) : DDL unit :=
  rows ← table_info table;
  let exists_ := existsb (λ row : Column, bool_decide (row.1 = column)) rows in
  if negb exists_ then add_column table (column, definition) else mret tt.

Definition create_metadata_table : DDL unit :=
  create_table_if_not_exists "metadata"
    [("key", "TEXT PRIMARY KEY NOT NULL"); ("value", "TEXT NOT NULL")].

Definition files_columns : list Column :=
  [("path", "TEXT PRIMARY KEY NOT NULL"); ("kind", "TEXT NOT NULL");
   ("size_bytes", "INTEGER NOT NULL"); ("modified_at_unix", "INTEGER NOT NULL");
   ("content_hash", "TEXT"); ("block_hashes_json", "TEXT NOT NULL");
   ("generation", "INTEGER NOT NULL"); ("device_id", "TEXT NOT NULL");
   ("scan_missing", "INTEGER NOT NULL DEFAULT 0");
   ("sync_state", "TEXT NOT NULL DEFAULT 'local_available'");
   ("updated_at_unix", "INTEGER NOT NULL DEFAULT (unixepoch())")].
Definition create_files_table : DDL unit := create_table_if_not_exists "files" files_columns.

Definition skipped_columns : list Column :=
  [("path", "TEXT PRIMARY KEY NOT NULL"); ("reason", "TEXT NOT NULL");
   ("size_bytes", "INTEGER NOT NULL"); ("queued_at_unix", "INTEGER NOT NULL");
   ("updated_at_unix", "INTEGER NOT NULL DEFAULT (unixepoch())")].
Definition create_skipped_files_table : DDL unit :=
  create_table_if_not_exists "skipped_files" skipped_columns.

Definition operations_columns : list Column :=
  [("id", "TEXT PRIMARY KEY NOT NULL"); ("path", "TEXT NOT NULL"); ("kind", "TEXT NOT NULL");
   ("status", "TEXT NOT NULL"); ("reason", "TEXT NOT NULL"); ("local_size_bytes", "INTEGER");
   ("remote_size_bytes", "INTEGER"); ("local_content_hash", "TEXT");
   ("remote_content_hash", "TEXT"); ("remote_device_id", "TEXT NOT NULL");
   ("last_error", "TEXT"); ("retry_count", "INTEGER NOT NULL DEFAULT 0");
   ("started_at_unix", "INTEGER"); ("finished_at_unix", "INTEGER");
   ("created_at_unix", "INTEGER NOT NULL DEFAULT (unixepoch())");
   ("updated_at_unix", "INTEGER NOT NULL DEFAULT (unixepoch())")].
Definition create_sync_operations_table : DDL unit :=
  create_table_if_not_exists "sync_operations" operations_columns.

(** The [ensure_column] calls of [migrate], in order. *)
Definition ensured : list (string * Column) :=
  [("files", ("sync_state", "TEXT NOT NULL DEFAULT 'local_available'"));
   ("sync_operations", ("local_content_hash", "TEXT"));
   ("sync_operations", ("remote_content_hash", "TEXT"));
   ("sync_operations", ("last_error", "TEXT"));
   ("sync_operations", ("retry_count", "INTEGER NOT NULL DEFAULT 0"));
   ("sync_operations", ("started_at_unix", "INTEGER"));
   ("sync_operations", ("finished_at_unix", "INTEGER"))].

Definition set_schema_version : DDL unit := modify (λ s,
  {| sc_tables := s.(sc_tables);
     sc_metadata := <["schema_version" := pretty (SCHEMA_VERSION : Z)]> s.(sc_metadata);
     sc_pragmas := s.(sc_pragmas) |}).

Definition migrate `{!SqlxLib} : DDL unit :=
  _ ← pragma "journal_mode" "WAL";
  _ ← pragma "synchronous" "NORMAL";
  _ ← create_metadata_table;
  _ ← create_files_table;
  _ ← create_skipped_files_table;
  _ ← create_sync_operations_table;
  _ ← forM_ (λ tc : string * Column, ensure_column tc.1 tc.2.1 tc.2.2) ensured;
  set_schema_version.

(** ** Specification *)

(** Every table has its names in lower case, as every version of the program makes them. *)
Definition lower_case (s : Schema) : Prop :=
  map_Forall (λ _ columns, Forall (λ c : Column, fold_name c.1 = c.1) columns) s.(sc_tables).

(** The columns the queries of state_db.rs name (its INSERT, UPDATE, SELECT and DELETE
    statements), table by table. *)
Definition named_columns : list (string * list string) :=
  [("metadata", ["key"; "value"]);
   ("files", ["path"; "kind"; "size_bytes"; "modified_at_unix"; "content_hash"; "block_hashes_json";
              "generation"; "device_id"; "scan_missing"; "sync_state"; "updated_at_unix"]);
   ("skipped_files", ["path"; "reason"; "size_bytes"; "queued_at_unix"; "updated_at_unix"]);
   ("sync_operations", ["id"; "path"; "kind"; "status"; "reason"; "local_size_bytes"; "remote_size_bytes";
              "local_content_hash"; "remote_content_hash"; "remote_device_id"; "last_error"; "retry_count";
              "started_at_unix"; "finished_at_unix"; "created_at_unix"; "updated_at_unix"])].

(** Those that came after the first version: a database an older version made can lack any
    of them. *)
Definition later_columns : list (string * string) :=
  [("files", "sync_state");
   ("sync_operations", "local_content_hash"); ("sync_operations", "remote_content_hash");
   ("sync_operations", "last_error"); ("sync_operations", "retry_count");
   ("sync_operations", "started_at_unix"); ("sync_operations", "finished_at_unix")].

(** A schema an older version left: a table of the program that exists has every
    column the queries name but, possibly, the later ones. *)
Definition older_schema (s : Schema) : Prop :=
  ∀ table names existing, (table, names) ∈ named_columns →
    s.(sc_tables) !! table = Some existing →
    ∀ name, name ∈ names → name ∈ existing.*1 ∨ (table, name) ∈ later_columns.

(** Every column a query names is there. *)
Definition usable (s : Schema) : Prop :=
  ∀ table names, (table, names) ∈ named_columns →
    ∃ existing, s.(sc_tables) !! table = Some existing ∧ names ⊆ existing.*1.

(** Tables only gain columns, at the end. *)
Definition extends (s s' : Schema) : Prop :=
  ∀ table columns, s.(sc_tables) !! table = Some columns →
    ∃ added, s'.(sc_tables) !! table = Some (columns ++ added).

Definition has_column (s : Schema) (table name : string) : Prop :=
  ∃ columns, s.(sc_tables) !! table = Some columns ∧ name ∈ columns.*1.

(** ** Lemmas *)

Lemma extends_refl s : extends s s.
Proof. intros t cols Ht. exists []. by rewrite app_nil_r. Qed.

Lemma extends_trans s1 s2 s3 : extends s1 s2 → extends s2 s3 → extends s1 s3.
Proof.
  intros H12 H23 t cols Ht. destruct (H12 t cols Ht) as [a Ha].
  destruct (H23 t _ Ha) as [b Hb]. exists (a ++ b). by rewrite app_assoc.
Qed.

Lemma extends_has_column s s' t n : extends s s' → has_column s t n → has_column s' t n.
Proof.
  intros He (cols & Ht & Hn). destruct (He t cols Ht) as [a Ha]. eexists; split; [done|].
  rewrite fmap_app. apply elem_of_app. by left.
Qed.

Lemma fold_names_id (columns : list Column) :
  Forall (λ c : Column, fold_name c.1 = c.1) columns → fold_name <$> columns.*1 = columns.*1.
Proof. induction 1 as [|c l Hc _ IH]; [done|]. rewrite !fmap_cons. by rewrite Hc, IH. Qed.

Section facts.
Context `{SL : !SqlxLib}.

Lemma existsb_name columns (name : string) :
  existsb (λ row : Column, bool_decide (row.1 = name)) columns = true ↔ name ∈ columns.*1.
Proof.
  rewrite existsb_exists, list_elem_of_fmap. split.
  - intros (c & Hc%list_elem_of_In & Hn%bool_decide_eq_true). by exists c.
  - intros (c & -> & Hc). exists c. split; [by apply list_elem_of_In|by apply bool_decide_eq_true].
Qed.

(** The state after one [ensure_column] that succeeds. *)
Definition ensured_schema (table : string) (columns : list Column) (c : Column) (s : Schema) : Schema :=
  if bool_decide (c.1 ∈ columns.*1) then s else with_tables <[table := columns ++ [c]]> s.

Lemma ensure_column_eq s table columns c :
  lower_case s → fold_name c.1 = c.1 → s.(sc_tables) !! table = Some columns →
  ensure_column table c.1 c.2 s = (Ok tt, ensured_schema table columns c s).
Proof.
  intros Hl Hc Ht. unfold ensure_column, table_info, get_st, mbind, M_bind, mret, M_ret.
  cbn beta iota. rewrite Ht. simpl. unfold ensured_schema.
  destruct (existsb _ columns) eqn:E; simpl.
  - apply existsb_name in E. by rewrite bool_decide_eq_true_2.
  - assert (c.1 ∉ columns.*1) as Hn by (rewrite <-existsb_name; congruence).
    rewrite (bool_decide_eq_false_2 _ Hn). unfold add_column, get_st, mbind, M_bind. cbn beta iota. rewrite Ht.
    rewrite fold_names_id by (by apply (Hl table)). simpl. rewrite Hc.
    rewrite (bool_decide_eq_false_2 _ Hn). by destruct c.
Qed.

Lemma ensured_schema_spec s table columns c :
  lower_case s → fold_name c.1 = c.1 → s.(sc_tables) !! table = Some columns →
  let s' := ensured_schema table columns c s in
  lower_case s' ∧ extends s s' ∧ has_column s' table c.1
  ∧ s'.(sc_metadata) = s.(sc_metadata) ∧ s'.(sc_pragmas) = s.(sc_pragmas).
Proof.
  intros Hl Hc Ht. unfold ensured_schema. case_bool_decide as Hin; cbn zeta.
  - split_and!; [done|apply extends_refl|by exists columns|done|done].
  - split_and!; [| | |done|done].
    + apply map_Forall_insert_2; [|done]. apply Forall_app. split; [by apply (Hl table)|by constructor].
    + intros t cols Ht'. simpl. destruct (decide (t = table)) as [->|].
      * rewrite lookup_insert_eq. simplify_eq. by eexists.
      * rewrite lookup_insert_ne by done. exists []. by rewrite app_nil_r.
    + exists (columns ++ [c]). simpl. rewrite lookup_insert_eq. split; [done|].
      rewrite fmap_app. apply elem_of_app. right. by left.
Qed.

Lemma ensure_loop (l : list (string * Column)) s :
  lower_case s → Forall (λ tc : string * Column, fold_name tc.2.1 = tc.2.1) l →
  Forall (λ tc : string * Column, is_Some (s.(sc_tables) !! tc.1)) l →
  ∃ s', forM_ (λ tc : string * Column, ensure_column tc.1 tc.2.1 tc.2.2) l s = (Ok tt, s')
  ∧ lower_case s' ∧ extends s s' ∧ s'.(sc_metadata) = s.(sc_metadata)
  ∧ s'.(sc_pragmas) = s.(sc_pragmas)
  ∧ (∀ t, t ∉ l.*1 → s'.(sc_tables) !! t = s.(sc_tables) !! t)
  ∧ Forall (λ tc : string * Column, has_column s' tc.1 tc.2.1) l.
Proof.
  revert s; induction l as [|[t c] l IH]; intros s Hl Hf Ht.
  { exists s. split_and!; try done. apply extends_refl. }
  apply Forall_cons in Hf as [Hc Hf]. apply Forall_cons in Ht as [[cols Ht] Hts].
  simpl in Hc, Ht. cbn [forM_]. rewrite M_bind_eq. cbn [fst snd]. rewrite (ensure_column_eq _ _ cols) by done.
  destruct (ensured_schema_spec s t cols c Hl Hc Ht) as (Hl' & He & Hh & Hm & Hp).
  destruct (IH (ensured_schema t cols c s)) as (s' & Hrun & Hl2 & He2 & Hm2 & Hp2 & Hk & Hall); [done|done| |].
  { eapply Forall_impl; [exact Hts|]. intros tc [cs Hcs]. destruct (He _ _ Hcs) as [a Ha]. by eexists. }
  exists s'. split_and!; [done|done|by eapply extends_trans|congruence|congruence| |].
  { intros t' Ht'. rewrite fmap_cons, not_elem_of_cons in Ht'. simpl in Ht'.
    destruct Ht' as [Hne Ht'].
    rewrite Hk by done. unfold ensured_schema. case_bool_decide; [done|].
    simpl. apply lookup_insert_ne. congruence. }
  constructor; [by eapply extends_has_column|done].
Qed.

(** *** The four tables *)

(** The tables [migrate] creates. *)
Definition current_tables : list (string * list Column) :=
  [("metadata", [("key", "TEXT PRIMARY KEY NOT NULL"); ("value", "TEXT NOT NULL")]);
   ("files", files_columns); ("skipped_files", skipped_columns);
   ("sync_operations", operations_columns)].

Definition created (s : Schema) (tc : string * list Column) : Schema :=
  if table_exists s tc.1 then s else with_tables <[tc.1 := tc.2]> s.

Lemma create_table_eq table columns s :
  create_table_if_not_exists table columns s = (Ok tt, created s (table, columns)).
Proof.
  unfold create_table_if_not_exists, created, get_st, mbind, M_bind. simpl.
  by destruct (table_exists s table).
Qed.

Lemma created_lookup s tc t :
  (created s tc).(sc_tables) !! t
  = if decide (t = tc.1) then Some (default tc.2 (s.(sc_tables) !! t)) else s.(sc_tables) !! t.
Proof.
  unfold created, table_exists. case_bool_decide as E.
  - destruct (decide _) as [->|]; [|done]. by destruct E as [cols ->].
  - simpl. destruct (decide _) as [->|]; [|by rewrite lookup_insert_ne].
    rewrite lookup_insert_eq. apply eq_None_not_Some in E. by rewrite E.
Qed.

Lemma created_all_lookup (l : list (string * list Column)) s t :
  NoDup l.*1 →
  (foldl created s l).(sc_tables) !! t
  = match list_find (λ tc : string * list Column, tc.1 = t) l with
    | Some (_, tc) => Some (default tc.2 (s.(sc_tables) !! t))
    | None => s.(sc_tables) !! t
    end.
Proof.
  revert s; induction l as [|tc l IH]; intros s Hnd; [done|].
  rewrite fmap_cons in Hnd. apply NoDup_cons in Hnd as [Hn Hnd]. cbn [foldl].
  rewrite IH by done. cbn [list_find]. rewrite created_lookup.
  destruct (decide (tc.1 = t)) as [<-|Hne].
  - rewrite decide_True by done.
    destruct (list_find _ l) as [[i tc']|] eqn:E; [|done]. exfalso. apply Hn.
    apply list_find_Some in E as (Hi & <- & _). apply list_elem_of_fmap_2.
    by eapply list_elem_of_lookup_2.
  - rewrite decide_False by congruence. by destruct (list_find _ l) as [[i tc']|].
Qed.

Lemma created_keeps s l :
  (foldl created s l).(sc_metadata) = s.(sc_metadata)
  ∧ (foldl created s l).(sc_pragmas) = s.(sc_pragmas).
Proof.
  revert s; induction l as [|tc l IH]; intros s; [done|]. cbn [foldl].
  destruct (IH (created s tc)) as [-> ->]. unfold created. by destruct (table_exists s tc.1).
Qed.

(** The state [migrate] reaches before the columns are ensured. *)
Definition set_pragmas (s : Schema) : Schema :=
  {| sc_tables := s.(sc_tables); sc_metadata := s.(sc_metadata);
     sc_pragmas := <["synchronous" := "NORMAL"]> (<["journal_mode" := "WAL"]> s.(sc_pragmas)) |}.
Definition base (s : Schema) : Schema := foldl created (set_pragmas s) current_tables.

Lemma migrate_eq s : migrate s
  = (_ ← forM_ (λ tc : string * Column, ensure_column tc.1 tc.2.1 tc.2.2) ensured;
     set_schema_version) (base s).
Proof.
  unfold migrate, pragma, create_metadata_table, create_files_table, create_skipped_files_table,
    create_sync_operations_table, modify. do 2 rewrite M_bind_eq. cbn beta iota.
  by do 4 (rewrite M_bind_eq, create_table_eq; cbn iota).
Qed.

Lemma base_lookup s t :
  (base s).(sc_tables) !! t
  = match list_find (λ tc : string * list Column, tc.1 = t) current_tables with
    | Some (_, tc) => Some (default tc.2 (s.(sc_tables) !! t))
    | None => s.(sc_tables) !! t
    end.
Proof.
  unfold base. rewrite created_all_lookup; [done|].
  refine (bool_decide_eq_true_1 _ _). vm_compute. reflexivity.
Qed.

Lemma base_current s t columns : (t, columns) ∈ current_tables →
  (base s).(sc_tables) !! t = Some (default columns (s.(sc_tables) !! t)).
Proof.
  intros Hin. rewrite base_lookup. revert t columns Hin.
  assert (Forall (λ tc : string * list Column, ∀ x : option (list Column),
    match list_find (λ tc' : string * list Column, tc'.1 = tc.1) current_tables with
    | Some (_, tc') => Some (default tc'.2 x) | None => x end = Some (default tc.2 x))
    current_tables) as Hall by (vm_compute; repeat constructor).
  intros t columns Hin. rewrite Forall_forall in Hall. exact (Hall (t, columns) Hin _).
Qed.

Lemma base_extends s : extends s (base s).
Proof.
  intros t cols Ht. exists []. rewrite app_nil_r, base_lookup, Ht.
  by destruct (list_find _ _) as [[i tc]|].
Qed.

Lemma current_lower : Forall (λ tc : string * list Column,
  Forall (λ c : Column, fold_name c.1 = c.1) tc.2) current_tables.
Proof. vm_compute. repeat constructor. Qed.

Lemma base_lower s : lower_case s → lower_case (base s).
Proof.
  intros Hl t cols. rewrite base_lookup.
  destruct (list_find _ _) as [[i tc]|] eqn:E; [|by apply Hl].
  destruct (s.(sc_tables) !! t) as [ex|] eqn:Ht; intros [= <-]; [by apply (Hl t)|].
  apply list_find_Some in E as (Hi & _). simpl.
  pose proof current_lower as Hall. rewrite Forall_lookup in Hall. by apply (Hall i).
Qed.

(** *** What is complete stays as it is *)

Lemma ensure_loop_noop (l : list (string * Column)) s :
  lower_case s → Forall (λ tc : string * Column, fold_name tc.2.1 = tc.2.1) l →
  Forall (λ tc : string * Column, has_column s tc.1 tc.2.1) l →
  forM_ (λ tc : string * Column, ensure_column tc.1 tc.2.1 tc.2.2) l s = (Ok tt, s).
Proof.
  intros Hl. induction l as [|[t c] l IH]; intros Hf Hh; [done|].
  apply Forall_cons in Hf as [Hc Hf]. apply Forall_cons in Hh as [(cols & Ht & Hn) Hh].
  cbn [forM_]. rewrite M_bind_eq. cbn [fst snd]. rewrite (ensure_column_eq _ _ cols) by done.
  unfold ensured_schema. rewrite bool_decide_eq_true_2 by done. by apply IH.
Qed.

Lemma created_noop s l :
  Forall (λ tc : string * list Column, is_Some (s.(sc_tables) !! tc.1)) l → foldl created s l = s.
Proof.
  induction 1 as [|tc l Ht _ IH]; [done|]. cbn [foldl]. unfold created at 2, table_exists.
  by rewrite bool_decide_eq_true_2.
Qed.

Lemma ensured_lower : Forall (λ tc : string * Column, fold_name tc.2.1 = tc.2.1) ensured.
Proof. vm_compute. repeat constructor. Qed.

Lemma ensured_current : Forall (λ tc : string * Column, ∃ columns, (tc.1, columns) ∈ current_tables) ensured.
Proof.
  unfold ensured. repeat constructor; simpl; eexists; unfold current_tables;
    repeat (apply list_elem_of_here || apply list_elem_of_further).
Qed.

(** Each later column has its [ensure_column]. *)
Lemma later_column_ensured t n : (t, n) ∈ later_columns → ∃ d, (t, (n, d)) ∈ ensured.
Proof.
  assert (Forall (λ tn : string * string, Exists (λ tc : string * Column, tc.1 = tn.1 ∧ tc.2.1 = tn.2) ensured) later_columns)
    as Hall by (apply (bool_decide_eq_true_1 _); vm_compute; reflexivity).
  rewrite Forall_forall in Hall. intros [[t' [n' d]] (Hin & E1 & E2)]%Hall%Exists_exists.
  cbn in E1, E2. subst t' n'. by exists d.
Qed.

(** The tables as they are created have the columns the queries name. *)
Lemma named_current t names : (t, names) ∈ named_columns → ∃ columns, (t, columns) ∈ current_tables ∧ names ⊆ columns.*1.
Proof.
  assert (Forall (λ tn : string * list string, Exists (λ tc : string * list Column, tc.1 = tn.1
      ∧ Forall (λ n, n ∈ tc.2.*1) tn.2) current_tables) named_columns)
    as Hall by (apply (bool_decide_eq_true_1 _); vm_compute; reflexivity).
  rewrite Forall_forall in Hall. intros [[t' columns] (Hin & E1 & E2)]%Hall%Exists_exists.
  cbn in E1, E2. subst t'. exists columns. split; [done|]. intros n Hn. rewrite Forall_forall in E2. by apply E2.
Qed.

Definition set_version (s : Schema) : Schema :=
  {| sc_tables := s.(sc_tables);
     sc_metadata := <["schema_version" := "5"]> s.(sc_metadata); sc_pragmas := s.(sc_pragmas) |}.

Lemma migrate_runs s : lower_case s →
  ∃ s1, migrate s = (Ok tt, set_version s1) ∧ lower_case s1 ∧ extends (base s) s1
  ∧ s1.(sc_pragmas) = (set_pragmas s).(sc_pragmas)
  ∧ (∀ t, t ∉ ensured.*1 → s1.(sc_tables) !! t = (base s).(sc_tables) !! t)
  ∧ Forall (λ tc : string * Column, has_column s1 tc.1 tc.2.1) ensured.
Proof.
  intros Hl. rewrite migrate_eq. rewrite M_bind_eq.
  destruct (ensure_loop ensured (base s)) as (s1 & Hrun & Hl1 & He & _ & Hp & Hk & Hall).
  - by apply base_lower.
  - apply ensured_lower.
  - eapply Forall_impl; [apply ensured_current|]. intros tc [cols Hin].
    rewrite (base_current s _ cols Hin). by eexists.
  - exists s1. rewrite Hrun. split_and!; try done. rewrite Hp. apply created_keeps.
Qed.

Lemma migrate_noop s : lower_case s → set_pragmas s = s → set_version s = s →
  Forall (λ tc : string * list Column, is_Some (s.(sc_tables) !! tc.1)) current_tables →
  Forall (λ tc : string * Column, has_column s tc.1 tc.2.1) ensured →
  migrate s = (Ok tt, s).
Proof.
  intros Hl Hp Hv Ht Hc. rewrite migrate_eq. unfold base. rewrite Hp, created_noop by done.
  rewrite M_bind_eq, ensure_loop_noop by (done || apply ensured_lower).
  change (set_schema_version s) with ((Ok tt : result CoreError unit), set_version s). by rewrite Hv.
Qed.

End facts.

(** ** Properties *)

(** C29. Opening the database of any older version upgrades it: migration succeeds,
    every table keeps its columns in place and gains the missing ones at the end, so
    that every column the program names exists, tables of others are left alone, the
    schema version is recorded, and migrating again changes nothing. *)
Theorem migrate_upgrades `{SL : !SqlxLib} (s : Schema) :
  lower_case s → older_schema s →
  ∃ s', migrate s = (Ok tt, s') ∧ usable s' ∧ extends s s' ∧ lower_case s'
  ∧ s'.(sc_metadata) !! "schema_version" = Some "5"
  ∧ (∀ table, table ∉ named_columns.*1 → s'.(sc_tables) !! table = s.(sc_tables) !! table)
  ∧ migrate s' = (Ok tt, s').
Proof.
  intros Hl Hold. destruct (migrate_runs s Hl) as (s1 & Hrun & Hl1 & He & Hp & Hk & Hall).
  assert (∀ t columns, (t, columns) ∈ current_tables → is_Some (sc_tables s1 !! t)) as Hex.
  { intros t cols Hin. destruct (He t _ (base_current s t cols Hin)) as [a Ha]. by eexists. }
  exists (set_version s1). split_and!; try done.
  - intros t names Hnames. destruct (named_current _ _ Hnames) as (cols & Hin & Hsub).
    destruct (He t _ (base_current s t cols Hin)) as [a Ha].
    exists (default cols (sc_tables s !! t) ++ a). split; [done|]. intros n Hn.
    rewrite fmap_app. apply elem_of_app.
    destruct (sc_tables s !! t) as [ex|] eqn:Ht; simpl in *; [|by left; apply Hsub].
    destruct (Hold t names ex Hnames Ht n Hn) as [?|[d Hd]%later_column_ensured]; [by left|].
    rewrite Forall_forall in Hall. destruct (Hall _ Hd) as (cs & Hcs & Hn'). simpl in *.
    rewrite Ha in Hcs. injection Hcs as <-. by rewrite fmap_app, elem_of_app in Hn'.
  - eapply extends_trans; [apply base_extends|exact He].
  - apply lookup_insert_eq.
  - intros t Ht. change (named_columns.*1) with (current_tables.*1) in Ht. simpl. rewrite Hk.
    + rewrite base_lookup. destruct (list_find _ _) as [[i tc]|] eqn:E; [|done].
      exfalso. apply Ht. apply list_find_Some in E as (Hi & <- & _).
      apply list_elem_of_fmap_2. by eapply list_elem_of_lookup_2.
    + intros ([t' c] & -> & Hin)%list_elem_of_fmap. apply Ht.
      pose proof ensured_current as Hec. rewrite Forall_forall in Hec.
      destruct (Hec _ Hin) as [cols Hcols]. by apply (list_elem_of_fmap_2 fst) in Hcols.
  - apply migrate_noop; [done| | | |done].
    + unfold set_pragmas, set_version; simpl. f_equal. rewrite Hp. simpl.
      rewrite (insert_insert_ne _ "journal_mode") by done. by rewrite !insert_insert_eq.
    + unfold set_version; simpl. by rewrite insert_insert_eq.
    + apply Forall_forall. intros [t cols] Hin. by eapply Hex.
Qed.

(** An old database: no state column, no progress columns, another table. *)
Definition old_schema : Schema :=
  {| sc_tables := <["files" := filter (λ c : Column, c.1 ≠ "sync_state") files_columns]>
       (<["sync_operations" := take 7 operations_columns ++ drop 14 operations_columns
                               ++ [("remote_device_id", "TEXT NOT NULL")]]>
       (<["other" := [("x", "TEXT")]]> ∅));
     sc_metadata := ∅; sc_pragmas := ∅ |}.

Lemma migrate_upgrades_witness :
  ∃ s', migrate (H := Sample.sqlx_lib) old_schema = (Ok tt, s')
  ∧ s'.(sc_tables) !! "files" = Some (filter (λ c : Column, c.1 ≠ "sync_state") files_columns
      ++ [("sync_state", "TEXT NOT NULL DEFAULT 'local_available'")])
  ∧ s'.(sc_tables) !! "sync_operations" = Some (take 7 operations_columns ++ drop 14 operations_columns
      ++ [("remote_device_id", "TEXT NOT NULL"); ("local_content_hash", "TEXT"); ("remote_content_hash", "TEXT");
          ("last_error", "TEXT"); ("retry_count", "INTEGER NOT NULL DEFAULT 0"); ("started_at_unix", "INTEGER");
          ("finished_at_unix", "INTEGER")])
  ∧ migrate (H := Sample.sqlx_lib) s' = (Ok tt, s').
Proof.
  assert (lower_case old_schema) as Hl by (apply (bool_decide_eq_true_1 _); vm_compute; reflexivity).
  assert (older_schema old_schema) as Hold.
  { intros t names ex Hin Ht.
    assert (forallb (λ tn : string * list string,
      match old_schema.(sc_tables) !! tn.1 with
      | Some ex => bool_decide (Forall (λ n, n ∈ ex.*1 ∨ (tn.1, n) ∈ later_columns) tn.2)
      | None => true
      end) named_columns = true) as Hall by (vm_compute; reflexivity).
    rewrite forallb_forall in Hall. apply list_elem_of_In in Hin. specialize (Hall _ Hin).
    cbn [fst snd] in Hall. rewrite Ht in Hall. apply bool_decide_eq_true_1 in Hall.
    apply Forall_forall. exact Hall. }
  destruct (migrate_upgrades (SL := Sample.sqlx_lib) old_schema Hl Hold)
    as (s' & Hrun & _ & _ & _ & _ & _ & Hagain).
  exists s'. split_and!; [exact Hrun| | |exact Hagain];
    vm_compute in Hrun; injection Hrun as <-; vm_compute; reflexivity.
Defined.
