(* ===== verification/FileSys.v ===== *)
(** * The file system the program works on

    A tree keyed by the lexical components of a path: no symbolic link is
    followed (one is an entry of its own kind) and [..] is not resolved.  The
    calls of [tokio::fs] are written out over it; a device failure is not
    modelled.  The order of a directory listing is a parameter. *)

From S2P Require Import Prelude RustStd External Error.
From stdpp Require Import options.

#[export] Instance Component_countable : Countable Component.
Proof.
  refine (inj_countable' (λ c, match c with
                               | RootDir => inl (inl tt) | CurDir => inl (inr tt)
                               | ParentDir => inr (inl tt) | Normal n => inr (inr n) end)
            (λ x, match x with
                  | inl (inl tt) => RootDir | inl (inr tt) => CurDir
                  | inr (inl tt) => ParentDir | inr (inr n) => Normal n end) _).
  by intros [].
Defined.

(** [modified] is the modification time in nanoseconds since the epoch, where the
    system has one. *)
Inductive Entry :=
| EFile (content : list ascii) (modified : option Z)
| EDir
| EOther.

#[export] Instance Entry_eq_dec : EqDecision Entry.
Proof. solve_decision. Defined.

Abbreviation Key := (list Component).
Abbreviation FS := (@gmap (list Component) (@list_eq_dec Component Component_eq_dec)
  (@list_countable Component Component_eq_dec Component_countable) Entry).

(** The texts of the [std::io::Error]s the model can meet, and the lossy rendering of
    a path that is not UTF-8. *)
Class IoLib := {
  io_not_found : string;
  io_not_a_directory : string;
  io_is_a_directory : string;
  io_already_exists : string;
  path_display : string → string;
}.

(** [read_dir] lists the entries of a directory in an order of its own. *)
Class ReadDir := { readdir_order : Key → list string → list string }.
Class ReadDirLaws `{!ReadDir} : Prop := {
  readdir_perm k l : readdir_order k l ≡ₚ l;
}.

Section ops.
Context `{!IoLib}.

Definition child_name (d k : Key) : option string :=
  match reverse k with
  | Normal n :: r => if bool_decide (reverse r = d) then Some n else None
  | _ => None
  end.
Definition children (fs : FS) (d : Key) : list string := omap (child_name d) (map_to_list fs).*1.

Definition read_dir `{!ReadDir} (fs : FS) (path : string) : result string (list string) :=
  match fs !! components path with
  | Some EDir => Ok (readdir_order (components path) (children fs (components path)))
  | Some _ => Err io_not_a_directory
  | None => Err io_not_found
  end.

Definition fs_read (fs : FS) (path : string) : result string (list ascii) :=
  match fs !! components path with
  | Some (EFile content _) => Ok content
  | Some EDir => Err io_is_a_directory
  | Some EOther | None => Err io_not_found
  end.

(** The directory a path lies in is there. *)
Definition has_parent (fs : FS) (k : Key) : bool :=
  match reverse k with
  | Normal _ :: [] => true
  | Normal _ :: r => bool_decide (fs !! reverse r = Some EDir)
  | _ => false
  end.

(** [fs::write]: creates the file or replaces its content. *)
Definition fs_write (now : Z) (path : string) (content : list ascii) : M FS string unit :=
  fs ← get_st;
  let k := components path in
  match fs !! k with
  | Some EDir => throw io_is_a_directory
  | Some EOther => throw io_not_found
  | _ => if has_parent fs k then modify <[k := EFile content (Some now)]> else throw io_not_found
  end.

(** [OpenOptions::new().write(true).create_new(true).open(path)]. *)
Definition create_new_file (now : Z) (path : string) : M FS string unit :=
  fs ← get_st;
  let k := components path in
  match fs !! k with
  | Some _ => throw io_already_exists
  | None => if has_parent fs k then modify <[k := EFile [] (Some now)]> else throw io_not_found
  end.

(** [fs::rename] of a file over a file or nothing. *)
Definition fs_rename (from to : string) : M FS string unit :=
  fs ← get_st;
  let kf := components from in let kt := components to in
  match fs !! kf, fs !! kt with
  | Some (EFile c m), (None | Some (EFile _ _)) =>
      if has_parent fs kt then modify (λ fs, <[kt := EFile c m]> (delete kf fs)) else throw io_not_found
  | Some (EFile _ _), Some EDir => throw io_is_a_directory
  | _, _ => throw io_not_found
  end.

(** [fs::create_dir_all]: each missing directory on the way. *)
Fixpoint create_dirs (d : Key) (rest : Key) : M FS string unit :=
  match rest with
  | [] => mret tt
  | c :: rest =>
      fs ← get_st;
      let d := d ++ [c] in
      match fs !! d with
      | Some EDir => create_dirs d rest
      | Some _ => throw io_not_a_directory
      | None => _ ← modify <[d := EDir]>; create_dirs d rest
      end
  end.
Definition create_dir_all (path : string) : M FS string unit := create_dirs [] (components path).

(** [fs::remove_file]. *)
Definition remove_file (path : string) : M FS string unit :=
  fs ← get_st;
  match fs !! components path with
  | Some (EFile _ _) | Some EOther => modify (delete (components path))
  | Some EDir => throw io_is_a_directory
  | None => throw io_not_found
  end.

(** [Path::try_exists]: an error when the way to the path is blocked. *)
Definition try_exists (fs : FS) (path : string) : result string bool :=
  let k := components path in
  match fs !! k with
  | Some _ => Ok true
  | None =>
      if existsb (λ d, match fs !! d with Some EDir | None => false | _ => true end)
           ((λ n, take n k) <$> seq 1 (length k - 1))
      then Err io_not_a_directory
      else Ok false
  end.

End ops.

(** ** Path arithmetic *)

(** [Utf8Path::strip_prefix], with the rest written with single separators. *)
Definition path_strip_prefix (path prefix : string) : option string :=
  let cs := components path in let ps := components prefix in
  if bool_decide (take (length ps) cs = ps)
  then Some (join_with slash (component_as_str <$> drop (length ps) cs))
  else None.

Definition under (root : string) (names : list string) : string := foldl path_push root names.
Definition key (root : string) (names : list string) : Key := components root ++ (Normal <$> names).

(** Names of directory entries are names. *)
Definition fs_wf (fs : FS) : Prop := ∀ d n, is_Some (fs !! (d ++ [Normal n])) → valid_name n.

(** ** Lemmas *)

Lemma child_name_Some d k n : child_name d k = Some n ↔ k = d ++ [Normal n].
Proof.
  unfold child_name. split.
  - destruct (reverse k) as [|[]] eqn:E; try done. case_bool_decide as Hd; [|done].
    intros [= ->]. rewrite <-(reverse_involutive k), E, reverse_cons. by rewrite Hd.
  - intros ->. rewrite reverse_app. simpl. by rewrite reverse_involutive, bool_decide_eq_true_2.
Qed.

Lemma children_elem fs d n : n ∈ children fs d ↔ is_Some (fs !! (d ++ [Normal n])).
Proof.
  unfold children. rewrite list_elem_of_omap. split.
  - intros (k & Hk & ->%child_name_Some). apply list_elem_of_fmap in Hk as ([k e] & Hd & Hk).
    simpl in Hd. subst k. apply elem_of_map_to_list in Hk. by exists e.
  - intros [e He]. exists (d ++ [Normal n]). split; [|by apply child_name_Some].
    apply list_elem_of_fmap. exists (d ++ [Normal n], e). split; [done|]. by apply elem_of_map_to_list.
Qed.

Lemma omap_NoDup {A B} (f : A → option B) (l : list A) :
  (∀ x y b, f x = Some b → f y = Some b → x = y) → NoDup l → NoDup (omap f l).
Proof.
  intros Hinj. induction 1 as [|x l Hx _ IH]; [constructor|]. rewrite omap_cons_eq.
  destruct (f x) as [b|] eqn:Hb; [|done]. constructor; [|done].
  intros (y & Hy & Hyb)%list_elem_of_omap. apply Hx. by rewrite (Hinj x y b).
Qed.

Lemma children_NoDup fs d : NoDup (children fs d).
Proof.
  apply omap_NoDup; [|apply NoDup_fst_map_to_list].
  intros k k' n ->%child_name_Some ->%child_name_Some. done.
Qed.

Lemma components_push1 root n :
  valid_name n → components (path_push root n) = components root ++ [Normal n].
Proof.
  intros Hn. pose proof (components_push root [n]) as H. unfold join_with in H. simpl in H.
  rewrite of_bytes_bytes in H. apply H; [done|by constructor].
Qed.

Lemma components_under root names :
  Forall valid_name names → components (under root names) = key root names.
Proof.
  unfold under, key. induction names as [|n names IH] using rev_ind; intros Hv; [by rewrite app_nil_r|].
  apply Forall_app in Hv as [Hv Hn]. apply (proj1 (Forall_singleton _ _)) in Hn.
  rewrite foldl_app, fmap_app, app_assoc. cbn [foldl]. by rewrite components_push1, IH by done.
Qed.

Lemma under_snoc root names n : under root (names ++ [n]) = path_push (under root names) n.
Proof. unfold under. by rewrite foldl_app. Qed.

Lemma key_snoc root names n : key root (names ++ [n]) = key root names ++ [Normal n].
Proof. unfold key. by rewrite fmap_app, app_assoc. Qed.

#[export] Instance key_inj root : Inj (=) (=) (key root).
Proof.
  assert (Inj (=) (=) Normal) as Hinj by (intros ? ? ?; congruence).
  intros a b. unfold key. intros H%app_inv_head. by apply (inj (fmap Normal)) in H.
Qed.

Lemma strip_under root names :
  Forall valid_name names →
  path_strip_prefix (under root names) root = Some (join_with slash names).
Proof.
  intros Hv. unfold path_strip_prefix. rewrite components_under by done. unfold key.
  rewrite take_app_length, bool_decide_eq_true_2, drop_app_length by done.
  rewrite <-list_fmap_compose. f_equal. f_equal. apply list_fmap_id.
Qed.

#[export] Instance valid_name_dec n : Decision (valid_name n).
Proof. unfold valid_name. apply _. Defined.

(** The names of a key below the root. *)
Definition key_names (root : string) (k : Key) : list string :=
  omap (λ c, match c with Normal n => Some n | _ => None end) (drop (length (components root)) k).

Lemma key_names_key root names : key_names root (key root names) = names.
Proof.
  unfold key_names, key. rewrite drop_app_length.
  induction names as [|n names IH]; [done|]. by rewrite fmap_cons, omap_cons_eq, IH.
Qed.

(** [fs_wf], decided over the entries. *)
Lemma fs_wf_check fs :
  forallb (λ k : Key, match last k with Some (Normal n) => bool_decide (valid_name n) | _ => true end)
    (map_to_list fs).*1 = true → fs_wf fs.
Proof.
  rewrite forallb_forall. intros Hall d n [e He].
  specialize (Hall (d ++ [Normal n])). rewrite last_snoc in Hall.
  apply (bool_decide_eq_true_1 (valid_name n)), Hall, list_elem_of_In.
  apply list_elem_of_fmap. exists (d ++ [Normal n], e). split; [done|]. by apply elem_of_map_to_list.
Qed.

(** ** What a call leaves alone *)

Definition kept (k : Key) (e : Entry) (fs : FS) : Prop := fs !! k = Some e.

Section kept.
Context `{IL : !IoLib}.

Lemma create_dirs_kept k e rest d : preserves (kept k e) (create_dirs d rest).
Proof.
  revert d; induction rest as [|c rest IH]; intros d; [apply preserves_ret|].
  cbn [create_dirs]. intros fs Hk. unfold get_st. rewrite M_bind_eq. cbv zeta.
  destruct (fs !! (d ++ [c])) as [[]|] eqn:E; [done|by apply IH|done|].
  rewrite M_bind_eq. unfold modify. apply IH. unfold kept. rewrite lookup_insert_ne; [done|].
  intros Heq. unfold kept in Hk. congruence.
Qed.

Lemma create_dir_all_kept k e path : preserves (kept k e) (create_dir_all path).
Proof. apply create_dirs_kept. Qed.

Lemma fs_write_kept k e now path content : components path ≠ k →
  preserves (kept k e) (fs_write now path content).
Proof.
  intros Hne fs Hk. unfold fs_write, get_st. rewrite M_bind_eq. cbv zeta.
  assert (kept k e (<[components path := EFile content (Some now)]> fs)) as Hi
    by (unfold kept; by rewrite lookup_insert_ne).
  by destruct (fs !! components path) as [[]|]; try destruct (has_parent _ _).
Qed.

Lemma fs_rename_kept k e from to : components from ≠ k → components to ≠ k →
  preserves (kept k e) (fs_rename from to).
Proof.
  intros Hf Ht fs Hk. unfold fs_rename, get_st. rewrite M_bind_eq. cbv zeta.
  assert (∀ x, kept k e (<[components to := x]> (delete (components from) fs))) as Hi
    by (intros x; unfold kept; by rewrite lookup_insert_ne, lookup_delete_ne).
  destruct (fs !! components from) as [[c m| |]|]; [|done..].
  destruct (fs !! components to) as [[c' m'| |]|]; try done; (destruct (has_parent _ _); [apply Hi|done]).
Qed.

Lemma remove_file_kept k e path : components path ≠ k → preserves (kept k e) (remove_file path).
Proof.
  intros Hp fs Hk. unfold remove_file, get_st. rewrite M_bind_eq.
  assert (kept k e (delete (components path) fs)) as Hi by (unfold kept; by rewrite lookup_delete_ne).
  by destruct (fs !! components path) as [[]|].
Qed.
End kept.

#[export] Hint Resolve create_dir_all_kept fs_write_kept fs_rename_kept remove_file_kept : syncer.

(** ** Sample instances *)

Module SampleFs.
#[export] Instance io_lib : IoLib :=
  {| io_not_found := "not found"; io_not_a_directory := "not a directory";
     io_is_a_directory := "is a directory"; io_already_exists := "file exists"; path_display := λ s, s |}.
#[export] Instance read_dir_lib : ReadDir := {| readdir_order := λ _ l, l |}.
#[export] Instance read_dir_laws : ReadDirLaws.
Proof. constructor. done. Qed.
End SampleFs.
