(* ===== verification/FolderStore.v ===== *)
(** * [crates/syncer-core/src/folder_store.rs]: [.syncer/folder.json] *)

From S2P Require Import Prelude RustStd External Error Manifest Limits Model FileSys.
From stdpp Require Import options.
Local Open Scope Z_scope.

Definition CURRENT_FOLDER_SCHEMA_VERSION : Z := 1.
Definition SYNCER_DIR_NAME : string := ".syncer".
Definition FOLDER_CONFIG_FILE_NAME : string := "folder.json".
Definition STATE_DB_FILE_NAME : string := "state.db".

Record FolderDocument := { fd_schema_version : Z; fd_folder : FolderConfig }.

#[export] Instance FolderDocument_eq_dec : EqDecision FolderDocument.
Proof. solve_decision. Defined.

Definition folder_document_new (folder : FolderConfig) : FolderDocument :=
  {| fd_schema_version := CURRENT_FOLDER_SCHEMA_VERSION; fd_folder := folder |}.

Definition document_validate (d : FolderDocument) : CoreResult unit :=
  if negb (d.(fd_schema_version) =? CURRENT_FOLDER_SCHEMA_VERSION)
  then Err (UnsupportedFolderSchema d.(fd_schema_version))
  else Ok tt.

Record FolderStore := { fst_root : string }.

Definition folder_store_new (root : string) : FolderStore := {| fst_root := root |}.
Definition folder_store_from_std_path `{!IoLib} (root : string) : CoreResult FolderStore :=
  if utf8_valid root then Ok (folder_store_new root)
  else Err (Filesystem (path_display root) "path is not valid UTF-8").

Definition syncer_dir (s : FolderStore) : string := path_push s.(fst_root) SYNCER_DIR_NAME.
Definition folder_json_path (s : FolderStore) : string :=
  path_push (syncer_dir s) FOLDER_CONFIG_FILE_NAME.
Definition state_db_path (s : FolderStore) : string := path_push (syncer_dir s) STATE_DB_FILE_NAME.
Definition temporary_path (s : FolderStore) : string := path_push (syncer_dir s) "folder.json.tmp".

(** [map_err] with the path of the call. *)
Definition io {S A} (path : string) (m : M S string A) : M S CoreError A := λ s,
  match m s with
  | (Ok a, s') => (Ok a, s')
  | (Err message, s') => (Err (Filesystem path message), s')
  end.

(** The calls [write] makes, on a disk or on a disk watched on the way. *)
Class FileCalls (S : Type) := {
  call_create_dir_all : string → M S string unit;
  call_write : Z → string → list ascii → M S string unit;
  call_rename : string → string → M S string unit;
}.
#[export] Instance disk_calls `{!IoLib} : FileCalls FS :=
  {| call_create_dir_all := create_dir_all; call_write := fs_write; call_rename := fs_rename |}.

Section store.
Context `{!IoLib, !SerdeJson FolderDocument}.

Definition folder_store_read (s : FolderStore) : M FS CoreError FolderDocument :=
  fs ← get_st;
  let path := folder_json_path s in
  bytes ← lift (map_err (Filesystem path) (fs_read fs path));
  document ← lift (map_err core_error_from_json (from_json bytes));
  _ ← lift (document_validate document);
  mret document.

Definition folder_store_write {S} `{!FileCalls S} (now : Z) (s : FolderStore) (document : FolderDocument)
    : M S CoreError unit :=
  _ ← lift (document_validate document);
  _ ← io (syncer_dir s) (call_create_dir_all (syncer_dir s));
  bytes ← lift (map_err core_error_from_json (to_json document));
  _ ← io (temporary_path s) (call_write now (temporary_path s) bytes);
  io (folder_json_path s) (call_rename (temporary_path s) (folder_json_path s)).

(** [id] is the new [FolderId]. *)
Definition folder_store_initialize (now : Z) (id : FolderId) (s : FolderStore) (display_name : string)
    (mode : FolderMode) (size_limit : FolderSizeLimit) (peers : list FolderPeer)
    : M FS CoreError FolderDocument :=
  let document := folder_document_new
    {| fc_id := id; fc_display_name := display_name; fc_root := NativePath s.(fst_root);
       fc_mode := mode; fc_interval_seconds := 900; fc_size_limit := size_limit;
       fc_retention := retention_policy_default; fc_peers := peers |} in
  _ ← folder_store_write now s document;
  mret document.

End store.

(** ** Specification *)

Definition dir_key (s : FolderStore) : Key := components s.(fst_root) ++ [Normal SYNCER_DIR_NAME].
Definition target_key (s : FolderStore) : Key := dir_key s ++ [Normal FOLDER_CONFIG_FILE_NAME].
Definition temp_key (s : FolderStore) : Key := dir_key s ++ [Normal "folder.json.tmp"].

Definition file_or_none (e : option Entry) : Prop := e = None ∨ ∃ c m, e = Some (EFile c m).
Definition dir_or_none (e : option Entry) : Prop := e = None ∨ e = Some EDir.

(** The metadata directory is there or can be made, and the two files are files or
    not there yet. *)
Record writable (s : FolderStore) (fs : FS) : Prop := {
  wr_dirs : ∀ a b, dir_key s = a ++ b → a ≠ [] → dir_or_none (fs !! a);
  wr_target : file_or_none (fs !! target_key s);
  wr_temp : file_or_none (fs !! temp_key s);
}.

(** The keys at and above [d ++ rest], below [d]. *)
Definition on_way (d rest k : Key) : Prop := ∃ a b, a ≠ [] ∧ rest = a ++ b ∧ k = d ++ a.

(** *** A process that dies on the way

    A watched disk keeps, beside its state, every state a process that dies before the last
    call has returned can leave behind: each call adds those it passes through.  The disk
    itself survives: what the calls made is not lost with the process. *)
Record Watched := { wa_fs : FS; wa_left : FS → Prop }.

Definition watch (fs : FS) : Watched := {| wa_fs := fs; wa_left := eq fs |}.

(** [during fs] are the states inside the call, from [fs]. *)
Definition watched_call (during : FS → FS → Prop) (m : M FS string unit) : M Watched string unit := λ w,
  let (r, fs') := m w.(wa_fs) in
  (r, {| wa_fs := fs'; wa_left := λ x, w.(wa_left) x ∨ during w.(wa_fs) x ∨ x = fs' |}).

(** Some of the directories are made. *)
Definition during_create (path : string) (fs x : FS) : Prop :=
  ∀ k, x !! k = fs !! k ∨ (on_way [] (components path) k ∧ fs !! k = None ∧ x !! k = Some EDir).
(** The file is opened, emptied or written in part: it can hold anything. *)
Definition during_write (path : string) (fs x : FS) : Prop :=
  fs !! components path ≠ Some EDir ∧ ∃ torn m, x = <[components path := EFile torn m]> fs.
(** A rename happens or not. *)
Definition during_rename (fs x : FS) : Prop := x = fs.

#[export] Instance watched_calls `{!IoLib} : FileCalls Watched := {|
  call_create_dir_all path := watched_call (during_create path) (create_dir_all path);
  call_write now path content := watched_call (during_write path) (fs_write now path content);
  call_rename from to := watched_call during_rename (fs_rename from to);
|}.

(** ** Lemmas *)


Lemma store_keys s :
  components (syncer_dir s) = dir_key s ∧ components (folder_json_path s) = target_key s
  ∧ components (temporary_path s) = temp_key s.
Proof.
  assert (∀ n, bool_decide (valid_name n) = true → valid_name n) as Hv
    by (intros n; apply bool_decide_eq_true_1).
  unfold folder_json_path, temporary_path, syncer_dir, target_key, temp_key, dir_key.
  rewrite !components_push1 by (apply Hv; vm_compute; reflexivity). done.
Qed.

Section facts.
Context `{IL : !IoLib, SJ : !SerdeJson FolderDocument}.

Lemma on_way_cons d c rest k : on_way d (c :: rest) k ↔ k = d ++ [c] ∨ on_way (d ++ [c]) rest k.
Proof.
  split.
  - intros (a & b & Ha & Hab & ->). destruct a as [|c' a]; [done|]. injection Hab as <- ->.
    destruct (decide (a = [])) as [->|]; [by left|]. right. exists a, b. by rewrite <-app_assoc.
  - intros [->|(a & b & Ha & -> & ->)]; [by exists [c], rest|].
    exists (c :: a), b. by rewrite <-app_assoc.
Qed.

Lemma create_dirs_ok (rest d : Key) (fs : FS) :
  (∀ k, on_way d rest k → dir_or_none (fs !! k)) →
  ∃ fs', create_dirs d rest fs = (Ok tt, fs')
  ∧ (∀ k, on_way d rest k → fs' !! k = Some EDir)
  ∧ (∀ k, ¬ on_way d rest k → fs' !! k = fs !! k).
Proof.
  revert d fs; induction rest as [|c rest IH]; intros d fs Hok.
  { exists fs. split_and!; [done| |done]. intros k (a & b & Ha & Hab & _).
    symmetry in Hab. by apply app_nil in Hab as [-> _]. }
  cbn [create_dirs]. unfold get_st. rewrite M_bind_eq.
  set (fs1 := <[d ++ [c] := EDir]> fs).
  assert (∃ fs', create_dirs (d ++ [c]) rest fs1 = (Ok tt, fs')
    ∧ (∀ k, on_way (d ++ [c]) rest k → fs' !! k = Some EDir)
    ∧ (∀ k, ¬ on_way (d ++ [c]) rest k → fs' !! k = fs1 !! k)) as (fs' & Hrun & H1 & H2).
  { apply IH. intros k Hk. destruct (decide (k = d ++ [c])) as [->|Hne].
    - right. apply lookup_insert_eq.
    - unfold fs1. rewrite lookup_insert_ne by done. apply Hok, on_way_cons. by right. }
  assert (fs !! (d ++ [c]) = Some EDir → fs1 = fs) as Hid by (by apply insert_id).
  assert (dir_or_none (fs !! (d ++ [c]))) as Hd by (apply Hok, on_way_cons; by left).
  exists fs'. split_and!.
  - destruct Hd as [Hd|Hd]; rewrite Hd.
    + exact Hrun.
    + by rewrite (Hid Hd) in Hrun.
  - intros k Hk. apply on_way_cons in Hk as [->|?]; [|by apply H1].
    rewrite H2; [apply lookup_insert_eq|]. intros (a & b & Ha & _ & E).
    apply (f_equal length) in E. rewrite !length_app in E. destruct a; [done|simpl in E; lia].
  - intros k Hk. rewrite on_way_cons in Hk. rewrite H2 by tauto. apply lookup_insert_ne. naive_solver.
Qed.

(** A key strictly inside the metadata directory is not made. *)
Lemma not_on_way s n : ¬ on_way [] (dir_key s) (dir_key s ++ [Normal n]).
Proof.
  intros (a & b & _ & E & Ha). simpl in Ha. rewrite <-Ha in E. apply (f_equal length) in E.
  rewrite !length_app in E. simpl in E. lia.
Qed.

Lemma on_way_prefix s k : on_way [] (dir_key s) k ↔ ∃ b, k ≠ [] ∧ dir_key s = k ++ b.
Proof.
  split; [intros (a & b & Ha & E & ->); by exists b|intros (b & Hk & E); by exists k, b].
Qed.

Lemma has_parent_in fs s n : fs !! dir_key s = Some EDir → has_parent fs (dir_key s ++ [Normal n]) = true.
Proof.
  intros Hd. unfold has_parent. rewrite reverse_app. simpl.
  destruct (reverse (dir_key s)) as [|c r] eqn:E.
  - done.
  - rewrite <-E, reverse_involutive, Hd. by apply bool_decide_eq_true_2.
Qed.

(** Reading depends on the target alone. *)
Definition read_entry (s : FolderStore) (e : option Entry) : CoreResult FolderDocument :=
  bytes ← map_err (Filesystem (folder_json_path s))
            (match e with
             | Some (EFile content _) => Ok content
             | Some EDir => Err io_is_a_directory
             | Some EOther | None => Err io_not_found
             end);
  document ← map_err core_error_from_json (from_json bytes);
  _ ← document_validate document;
  Ok document.

Lemma read_eq s fs : folder_store_read s fs = (read_entry s (fs !! target_key s), fs).
Proof.
  unfold folder_store_read, read_entry, fs_read, get_st, lift, mbind, M_bind, result_bind.
  destruct (store_keys s) as (_ & -> & _).
  destruct (fs !! target_key s) as [[c m| |]|]; [|done..]. simpl.
  destruct (from_json c) as [doc|]; [|done]. simpl. by destruct (document_validate doc).
Qed.

Lemma temp_ne_target s : temp_key s ≠ target_key s.
Proof. unfold temp_key, target_key. intros E%app_inj_tail. by destruct E. Qed.

Lemma io_Ok {S A} (path : string) (m : M S string A) fs a fs' : m fs = (Ok a, fs') → io path m fs = (Ok a, fs').
Proof. intros H. unfold io. by rewrite H. Qed.

Lemma fs_write_ok now (path : string) c fs : file_or_none (fs !! components path) →
  has_parent fs (components path) = true →
  fs_write now path c fs = (Ok tt, <[components path := EFile c (Some now)]> fs).
Proof.
  intros Hf Hp. unfold fs_write, get_st, mbind, M_bind. rewrite Hp.
  by destruct Hf as [->|(c' & m & ->)].
Qed.

Lemma fs_rename_ok (from to : string) c m fs : fs !! components from = Some (EFile c m) →
  file_or_none (fs !! components to) → has_parent fs (components to) = true →
  fs_rename from to fs = (Ok tt, <[components to := EFile c m]> (delete (components from) fs)).
Proof.
  intros Hf Ht Hp. unfold fs_rename, get_st, mbind, M_bind. rewrite Hp, Hf.
  by destruct Ht as [->|(c' & m' & ->)].
Qed.

(** A watched call does what the call does. *)
Lemma watched_Ok during m w fs' : m w.(wa_fs) = (Ok tt, fs') →
  watched_call during m w = (Ok tt, {| wa_fs := fs'; wa_left := λ x, w.(wa_left) x ∨ during w.(wa_fs) x ∨ x = fs' |}).
Proof. intros H. unfold watched_call. by rewrite H. Qed.

(** What [write] does when nothing is in its way, on any disk on which its calls do. *)
Lemma write_steps {S} `{!FileCalls S} now s document bs s0 s1 s2 s3 :
  document_validate document = Ok tt → to_json document = Ok bs →
  call_create_dir_all (syncer_dir s) s0 = (Ok tt, s1) →
  call_write now (temporary_path s) bs s1 = (Ok tt, s2) →
  call_rename (temporary_path s) (folder_json_path s) s2 = (Ok tt, s3) →
  folder_store_write now s document s0 = (Ok tt, s3).
Proof.
  intros Hval Hj H1 H2 H3. unfold folder_store_write.
  rewrite M_bind_eq, Hval. unfold lift at 1. rewrite M_bind_eq, (io_Ok _ _ _ _ _ H1).
  rewrite M_bind_eq, Hj. unfold lift. cbn [map_err]. rewrite M_bind_eq, (io_Ok _ _ _ _ _ H2). by apply io_Ok.
Qed.

(** The calls of [write] succeed when nothing is in their way. *)
Lemma write_calls now s bs fs : writable s fs →
  ∃ fs1, (∀ k, on_way [] (dir_key s) k → fs1 !! k = Some EDir)
  ∧ (∀ k, ¬ on_way [] (dir_key s) k → fs1 !! k = fs !! k)
  ∧ let fs2 := <[temp_key s := EFile bs (Some now)]> fs1 in
    create_dir_all (syncer_dir s) fs = (Ok tt, fs1)
  ∧ fs_write now (temporary_path s) bs fs1 = (Ok tt, fs2)
  ∧ fs_rename (temporary_path s) (folder_json_path s) fs2
    = (Ok tt, <[target_key s := EFile bs (Some now)]> (delete (temp_key s) fs2)).
Proof.
  intros [Hd Ht Hm]. destruct (store_keys s) as (Kd & Kt & Km).
  destruct (create_dirs_ok (dir_key s) [] fs) as (fs1 & Hrun & H1 & H2).
  { intros k (a & b & Ha & E & ->). by eapply Hd. }
  assert (fs1 !! dir_key s = Some EDir) as Hdir.
  { apply H1. apply on_way_prefix. exists []. split; [|by rewrite app_nil_r]. unfold dir_key. intros E. by apply app_nil in E as [_ E]. }
  exists fs1. split; [done|]. split; [done|]. cbv zeta. split_and!; [unfold create_dir_all; by rewrite Kd| |].
  - rewrite fs_write_ok; rewrite Km; [done| |by apply has_parent_in]. unfold temp_key. rewrite H2 by apply not_on_way. exact Hm.
  - rewrite (fs_rename_ok _ _ bs (Some now)); rewrite ?Km, ?Kt; [done|apply lookup_insert_eq| |].
    + rewrite lookup_insert_ne by apply temp_ne_target. unfold target_key. rewrite H2 by apply not_on_way. exact Ht.
    + apply has_parent_in. rewrite lookup_insert_ne; [done|]. unfold temp_key. intros E.
      apply (f_equal length) in E. rewrite length_app in E. simpl in E. lia.
Qed.

(** Inside the first two calls the document is as it was. *)
Lemma during_create_target s fs x : during_create (syncer_dir s) fs x → x !! target_key s = fs !! target_key s.
Proof.
  destruct (store_keys s) as (Kd & _). intros H. destruct (H (target_key s)) as [?|(Hw & _)]; [done|].
  rewrite Kd in Hw. by apply not_on_way in Hw.
Qed.

Lemma during_write_target s fs x : during_write (temporary_path s) fs x → x !! target_key s = fs !! target_key s.
Proof.
  destruct (store_keys s) as (_ & _ & Km). intros (_ & torn & m & ->). rewrite Km.
  apply lookup_insert_ne, temp_ne_target.
Qed.

End facts.

(** C19. Writing the folder document is atomic and is read back: the write succeeds
    when nothing is in its way, reading then gives the document, the temporary file
    is gone and no other file has changed; and whatever the process leaves when it
    dies inside or between the calls that [write] makes (a file being written then holds
    anything), reading gives what it gave before the write or the new document. *)
Theorem write_atomic `{IL : !IoLib, SJ : !SerdeJson FolderDocument, SLw : !SerdeLaws FolderDocument}
    now s document fs bs :
  writable s fs → document_validate document = Ok tt → to_json document = Ok bs →
  ∃ fs' left, folder_store_write now s document fs = (Ok tt, fs')
  ∧ folder_store_write now s document (watch fs) = (Ok tt, {| wa_fs := fs'; wa_left := left |})
  ∧ (∀ crash, left crash →
       (folder_store_read s crash).1 = (folder_store_read s fs).1
       ∨ (folder_store_read s crash).1 = Ok document)
  ∧ (folder_store_read s fs').1 = Ok document
  ∧ fs' !! temp_key s = None
  ∧ ∀ k, k ≠ target_key s → k ≠ temp_key s → ¬ (∃ b, k ≠ [] ∧ dir_key s = k ++ b) →
      fs' !! k = fs !! k.
Proof.
  intros Hw Hval Hj. destruct (write_calls now s bs fs Hw) as (fs1 & H1 & H2 & Hc & Hwr & Hr).
  set (fs2 := <[temp_key s := EFile bs (Some now)]> fs1) in *.
  set (fs3 := <[target_key s := EFile bs (Some now)]> (delete (temp_key s) fs2)) in *.
  assert ((folder_store_read s fs3).1 = Ok document) as Hread.
  { rewrite read_eq. unfold fs3. rewrite lookup_insert_eq. unfold read_entry. simpl.
    rewrite (from_to_json document bs Hj). simpl. by rewrite Hval. }
  assert (fs1 !! target_key s = fs !! target_key s) as Ht1 by apply H2, not_on_way.
  exists fs3. eexists. split_and!; [by eapply write_steps| | |exact Hread| |].
  - eapply write_steps; [done|exact Hj|by apply watched_Ok|by apply watched_Ok|by apply watched_Ok].
  - cbn [wa_fs wa_left watch]. intros x Hx. rewrite !read_eq. cbn [fst].
    destruct Hx as [[[<-|[Hx| ->]]|[Hx| ->]]|[-> | ->]]; [by left|left|by left; rewrite Ht1|left|left|left|right].
    + by rewrite (during_create_target _ _ _ Hx).
    + by rewrite (during_write_target _ _ _ Hx), Ht1.
    + by unfold fs2; rewrite lookup_insert_ne, Ht1 by apply temp_ne_target.
    + by unfold fs2; rewrite lookup_insert_ne, Ht1 by apply temp_ne_target.
    + by rewrite read_eq in Hread.
  - unfold fs3. rewrite lookup_insert_ne by (apply not_eq_sym, temp_ne_target). apply lookup_delete_eq.
  - intros k Ht Hm Hd. unfold fs3, fs2. rewrite lookup_insert_ne, lookup_delete_ne, lookup_insert_ne by congruence.
    apply H2. by rewrite on_way_prefix.
Qed.

(** ** Witness *)

Module Witness.
Import SampleFs.

Definition w_document : FolderDocument := folder_document_new
  {| fc_id := 1%N; fc_display_name := "Docs"; fc_root := NativePath "/data";
     fc_mode := Bidirectional; fc_interval_seconds := 900;
     fc_size_limit := folder_size_limit_default; fc_retention := retention_policy_default;
     fc_peers := [] |}.

(** A serialiser that knows one document. *)
#[export] Instance w_json : SerdeJson FolderDocument :=
  {| to_json := λ d, if bool_decide (d = w_document) then Ok (bytes "{}") else Err "unsupported";
     from_json := λ bs, if bool_decide (bs = bytes "{}") then Ok w_document else Err "syntax" |}.
#[export] Instance w_json_laws : SerdeLaws FolderDocument.
Proof.
  constructor. intros d bs. simpl. case_bool_decide as Hd; [|done]. intros [= <-].
  by rewrite bool_decide_eq_true_2, Hd.
Qed.

Definition w_store : FolderStore := folder_store_new "/data".
Definition w_fs : FS := <[[RootDir; Normal "data"] := EDir]> ∅.

Lemma w_writable : writable w_store w_fs.
Proof.
  constructor; [|left; vm_compute; reflexivity..].
  intros a b E Ha. change (dir_key w_store) with [RootDir; Normal "data"; Normal ".syncer"] in E.
  destruct a as [|c1 a]; [done|]. injection E as <- E.
  destruct a as [|c2 a]; [left; vm_compute; reflexivity|]. injection E as <- E.
  destruct a as [|c3 a]; [right; vm_compute; reflexivity|]. injection E as <- E.
  symmetry in E. apply app_nil in E as [-> _]. left. vm_compute. reflexivity.
Qed.

Lemma w_json_ok : to_json w_document = Ok (bytes "{}").
Proof. vm_compute. reflexivity. Qed.

(** What a process leaves that dies while it writes the first document: half of the
    temporary file. *)
Definition w_left : FS → Prop := wa_left (folder_store_write 7 w_store w_document (watch w_fs)).2.
Definition w_torn : FS :=
  <[temp_key w_store := EFile (bytes "{") None]> (<[dir_key w_store := EDir]> (<[[RootDir] := EDir]> w_fs)).

Lemma write_atomic_witness :
  (∃ fs', folder_store_write 7 w_store w_document w_fs = (Ok tt, fs')
     ∧ (folder_store_read w_store fs').1 = Ok w_document)
  ∧ w_left w_fs ∧ w_left w_torn
  ∧ ∀ crash, w_left crash →
      (folder_store_read w_store crash).1 = Err (Filesystem "/data/.syncer/folder.json" io_not_found)
      ∨ (folder_store_read w_store crash).1 = Ok w_document.
Proof.
  destruct (write_atomic 7 w_store w_document w_fs (bytes "{}") w_writable eq_refl w_json_ok)
    as (fs' & left & H1 & H2 & H3 & H4 & _).
  assert (w_left = left) as E by (unfold w_left; by rewrite H2).
  split_and!; [by exists fs'| | |by rewrite E].
  - by do 3 left.
  - left. right. left. split; [vm_compute; discriminate|].
    exists (bytes "{"), None. vm_compute. reflexivity.
Defined.

End Witness.
