(* ===== verification/Scanner.v ===== *)
(** * [crates/syncer-core/src/scanner.rs]: scanning a folder into the database

    The file system does not change during a scan.  [now path] and
    [now_utc path] are the clocks when the entry of that path is recorded. *)

From S2P Require Import Prelude RustStd External Error Manifest Limits Model Records Planning StateDb FileSys FolderStore.
From stdpp Require Import options.
Local Open Scope Z_scope.

Record ScanSummary := {
  ss_files_seen : Z;
  ss_directories_seen : Z;
  ss_bytes_seen : Z;
  ss_unsupported_entries : Z;
  ss_local_missing : Z;
}.
Definition scan_summary_default : ScanSummary :=
  {| ss_files_seen := 0; ss_directories_seen := 0; ss_bytes_seen := 0;
     ss_unsupported_entries := 0; ss_local_missing := 0 |}.

Record LinuxFolderScanner := { ls_root : string; ls_device_id : DeviceId }.

Definition scanner_new (root : string) (device_id : DeviceId) : LinuxFolderScanner :=
  {| ls_root := root; ls_device_id := device_id |}.

Definition not_utf8 `{!IoLib} (path : string) : CoreError :=
  Filesystem (path_display path) "path is not valid UTF-8".

Definition scanner_from_std_path `{!IoLib} (root : string) (device_id : DeviceId)
    : CoreResult LinuxFolderScanner :=
  if utf8_valid root then Ok (scanner_new root device_id) else Err (not_utf8 root).

Definition raw_relative_path (scanner : LinuxFolderScanner) (path : string) : CoreResult string :=
  ok_or (Filesystem path "prefix not found") (path_strip_prefix path scanner.(ls_root)).

(** The modification time in whole seconds; the clock when there is none, when it is
    before the epoch, and when it is out of range. *)
Definition file_modified_at `{!TimeLib} (modified : option Z) (now_utc : OffsetDateTime)
    : OffsetDateTime :=
  default now_utc
    (modified ≫= λ t,
     (if 0 <=? t then Some (t / nanos_per_second) else None) ≫= λ duration,
     i64_try_from_u64 duration ≫= λ seconds,
     result_ok (from_unix_timestamp seconds)).

Section scan.
Context `{!TimeLib, !SqlxLib, !UuidLib, !SerdeJson (list BlockHash), !Blake3Lib, !IoLib, !ReadDir}.
Context (now : string → Z) (now_utc : string → OffsetDateTime).
Context (fs : FS) (scanner : LinuxFolderScanner).

Definition scanned_entry (relative : RelativePath) (content : list ascii) (modified : option Z)
    : FileEntry :=
  {| fe_path := relative; fe_kind := KFile;
     fe_size_bytes := Z.of_nat (length content);
     fe_modified_at := file_modified_at modified (now_utc (rel_str relative));
     fe_content_hash := Some (content_hash_from_bytes content);
     fe_block_hashes := [];
     fe_version := {| fv_generation := 1; fv_device_id := scanner.(ls_device_id) |} |}.

(** One entry of a directory listing: [(summary, stack)] are the loop's variables,
    with the top of the stack first. *)
Definition scan_entry (directory : string) (st : ScanSummary * list string) (name : string)
    : DB (ScanSummary * list string) :=
  let '(summary, stack) := st in
  let path := path_push directory name in
  if negb (utf8_valid path) then throw (not_utf8 path)
  else
    relative_raw ← lift (raw_relative_path scanner path);
    if first_component_is SYNCER_DIR_NAME relative_raw then mret (summary, stack)
    else
      relative ← lift (relative_path_parse relative_raw);
      match fs !! components path with
      | None => throw (Filesystem path io_not_found)
      | Some EDir =>
          mret ({| ss_files_seen := summary.(ss_files_seen);
                   ss_directories_seen := u64_saturating_add summary.(ss_directories_seen) 1;
                   ss_bytes_seen := summary.(ss_bytes_seen);
                   ss_unsupported_entries := summary.(ss_unsupported_entries);
                   ss_local_missing := summary.(ss_local_missing) |}, path :: stack)
      | Some EOther =>
          mret ({| ss_files_seen := summary.(ss_files_seen);
                   ss_directories_seen := summary.(ss_directories_seen);
                   ss_bytes_seen := summary.(ss_bytes_seen);
                   ss_unsupported_entries := u64_saturating_add summary.(ss_unsupported_entries) 1;
                   ss_local_missing := summary.(ss_local_missing) |}, stack)
      | Some (EFile content modified) =>
          _ ← upsert_file (now (rel_str relative)) (scanned_entry relative content modified);
          mret ({| ss_files_seen := u64_saturating_add summary.(ss_files_seen) 1;
                   ss_directories_seen := summary.(ss_directories_seen);
                   ss_bytes_seen :=
                     u64_saturating_add summary.(ss_bytes_seen) (Z.of_nat (length content));
                   ss_unsupported_entries := summary.(ss_unsupported_entries);
                   ss_local_missing := summary.(ss_local_missing) |}, stack)
      end.

(** One iteration of the outer loop: the directory on top of the stack. *)
Definition scan_directory (directory : string) (summary : ScanSummary) (stack : list string)
    : DB (ScanSummary * list string) :=
  names ← lift (map_err (Filesystem directory) (read_dir fs directory));
  foldM (scan_entry directory) (summary, stack) names.

(** The outer loop; [None] when the fuel is used up. *)
Fixpoint scan_loop (fuel : nat) (summary : ScanSummary) (stack : list string) (db : Database)
    : option (CoreResult ScanSummary * Database) :=
  match stack with
  | [] => Some (Ok summary, db)
  | directory :: stack =>
      match fuel with
      | O => None
      | S fuel =>
          match scan_directory directory summary stack db with
          | (Ok (summary, stack), db) => scan_loop fuel summary stack db
          | (Err e, db) => Some (Err e, db)
          end
      end
  end.

Definition finish_scan (end_now : Z) (summary : ScanSummary) : DB ScanSummary :=
  _ ← finalize_scan end_now;
  missing ← list_missing_after_scan;
  mret {| ss_files_seen := summary.(ss_files_seen);
          ss_directories_seen := summary.(ss_directories_seen);
          ss_bytes_seen := summary.(ss_bytes_seen);
          ss_unsupported_entries := summary.(ss_unsupported_entries);
          ss_local_missing := Z.of_nat (length missing) |}.

Definition scan_into (fuel : nat) (end_now : Z) (db : Database)
    : option (CoreResult ScanSummary * Database) :=
  match mark_scan_started db with
  | (Ok _, db) =>
      match scan_loop fuel scan_summary_default [scanner.(ls_root)] db with
      | Some (Ok summary, db) => Some (finish_scan end_now summary db)
      | r => r
      end
  | (Err e, db) => Some (Err e, db)
  end.

(** The scan, with fuel for every directory there can be; it does not run out. *)
Definition scan (end_now : Z) : DB ScanSummary := λ db,
  default (Err (Filesystem scanner.(ls_root) ""), db) (scan_into (S (size fs)) end_now db).

End scan.
