(* ===== verification/ScannerSpec.v ===== *)
(** * The scanner: it terminates, and records exactly the files of the folder *)

From S2P Require Import Prelude RustStd External Error Manifest Limits Model Records Planning StateDb StateDbFacts StateDbSpec FileSys FolderStore Scanner.
From stdpp Require Import options.
Local Open Scope Z_scope.

Section spec.
Context `{TL : !TimeLib, SL : !SqlxLib, UL : !UuidLib, SJ : !SerdeJson (list BlockHash),
          BL : !Blake3Lib, IL : !IoLib, RD : !ReadDir}.
Context (now : string → Z) (now_utc : string → OffsetDateTime).
Context (fs : FS) (scanner : LinuxFolderScanner).

Definition node (names : list string) : option Entry := fs !! key scanner.(ls_root) names.
Definition hidden (names : list string) : bool := bool_decide (head names = Some SYNCER_DIR_NAME).

(** The directories a scan walks: the root and every directory below one, the
    metadata directory apart. *)
Inductive walked : list string → Prop :=
| walked_root : walked []
| walked_sub names n : walked names → node (names ++ [n]) = Some EDir →
    hidden (names ++ [n]) = false → walked (names ++ [n]).

(** The files a scan sees. *)
Definition seen_file (names : list string) (content : list ascii) (modified : option Z) : Prop :=
  ∃ d n, names = d ++ [n] ∧ walked d ∧ hidden names = false
         ∧ node names = Some (EFile content modified).

(** The folder can be scanned: the root is there, every entry in it has a name the
    program accepts, and the sizes fit. *)
Record scannable : Prop := {
  sb_wf : fs_wf fs;
  sb_root : node [] = Some EDir;
  sb_utf8 : ∀ d n, walked d → is_Some (node (d ++ [n])) →
    utf8_valid (under scanner.(ls_root) (d ++ [n])) = true;
  sb_trim : ∀ d n, walked d → is_Some (node (d ++ [n])) → hidden (d ++ [n]) = false →
    trim (join_with slash (d ++ [n])) = join_with slash (d ++ [n]);
  sb_size : ∀ names c m, seen_file names c m → Z.of_nat (length c) ≤ i64_max;
}.

(** The row the scan writes for a file. *)
Definition scan_row (names : list string) (content : list ascii) (modified : option Z)
    : CoreResult FileRow :=
  let p := join_with slash names in
  entry_row (now p) (scanned_entry now_utc scanner {| rel_str := p |} content modified).

Definition recorded (db : Database) (names : list string) : Prop :=
  ∃ c m row, seen_file names c m ∧ scan_row names c m = Ok row
             ∧ db.(db_files) !! join_with slash names = Some row.

(** ** Lemmas: names and paths *)

Lemma walked_prefix names a b : walked names → names = a ++ b → a ≠ [] → node a = Some EDir.
Proof.
  intros Hw. revert a b. induction Hw as [|names n Hw IH Hn _]; intros a b Hab Ha.
  { symmetry in Hab. by apply app_nil in Hab as [-> _]. }
  destruct b as [|x b' _] using rev_ind; [rewrite app_nil_r in Hab; by subst|].
  rewrite app_assoc in Hab. apply app_inj_tail in Hab as [Hab ->]. by eapply IH.
Qed.

Lemma walked_valid names : fs_wf fs → walked names → Forall valid_name names.
Proof.
  intros Hwf. induction 1 as [|names n Hw IH Hn _]; [constructor|].
  apply Forall_app; split; [done|]. constructor; [|done]. apply (Hwf (key (ls_root scanner) names)).
  unfold node in Hn. rewrite key_snoc in Hn. by rewrite Hn.
Qed.

Lemma node_valid d n : fs_wf fs → walked d → is_Some (node (d ++ [n])) → Forall valid_name (d ++ [n]).
Proof.
  intros Hwf Hw Hn. apply Forall_app; split; [by apply walked_valid|]. constructor; [|done].
  apply (Hwf (key (ls_root scanner) d)). unfold node in Hn. by rewrite key_snoc in Hn.
Qed.

Lemma hidden_prefix a b : a ≠ [] → hidden (a ++ b) = hidden a.
Proof. by destruct a. Qed.

(** A seen file is not inside anything but directories. *)
Lemma seen_prefix names c m a b : seen_file names c m → names = a ++ b → a ≠ [] → b ≠ [] →
  node a = Some EDir.
Proof.
  intros (d & n & -> & Hw & _) Hab Ha Hb.
  destruct b as [|x b' _] using rev_ind; [done|]. rewrite app_assoc in Hab.
  apply app_inj_tail in Hab as [Hab ->]. by eapply walked_prefix.
Qed.

Lemma entry_parses d n : scannable → walked d → is_Some (node (d ++ [n])) →
  hidden (d ++ [n]) = false →
  relative_path_parse (join_with slash (d ++ [n])) = Ok {| rel_str := join_with slash (d ++ [n]) |}.
Proof.
  intros Hsb Hw Hn Hh. pose proof (node_valid d n (sb_wf Hsb) Hw Hn) as Hv.
  apply (canonical_stable (d ++ [n]) {| rel_str := _ |}); [|by apply (sb_trim Hsb)].
  split_and!; [by destruct d|done| |done]. unfold hidden in Hh. by apply bool_decide_eq_false in Hh.
Qed.

(** ** The loop invariant *)

(** The work that is left: directories on the stack, entries [rem] of directory [d]. *)
Definition pending (stack : list (list string)) (d : list string) (rem : list string)
    (names : list string) : Prop :=
  (∃ s b, s ∈ stack ∧ b ≠ [] ∧ names = s ++ b) ∨ (∃ n b, n ∈ rem ∧ names = (d ++ [n]) ++ b).

(** Relative to the database [db0] the loop started from: rows are as they were or
    as the scan writes them, and every file is recorded or still ahead. *)
Record loop_inv (db0 : Database) (pend : list string → Prop) (db : Database) : Prop := {
  li_rows : ∀ p, db.(db_files) !! p = db0.(db_files) !! p
              ∨ ∃ names, p = join_with slash names ∧ recorded db names;
  li_all : ∀ names c m, seen_file names c m → recorded db names ∨ pend names;
  li_skipped : db.(db_skipped) = db0.(db_skipped);
  li_operations : db.(db_operations) = db0.(db_operations);
}.

Lemma loop_inv_mono db0 (P Q : list string → Prop) db :
  (∀ names c m, seen_file names c m → P names → Q names) → loop_inv db0 P db → loop_inv db0 Q db.
Proof. intros HPQ []; constructor; try done. intros names c m Hs. destruct (li_all0 _ _ _ Hs); eauto. Qed.

Lemma seen_valid names c m : fs_wf fs → seen_file names c m → Forall valid_name names.
Proof.
  intros Hwf (d & n & -> & Hw & _ & Hn). apply node_valid; [done|done|]. by rewrite Hn.
Qed.

Lemma recorded_insert db names' names c m row : fs_wf fs →
  seen_file names c m → scan_row names c m = Ok row →
  recorded db names' ∨ names' = names →
  recorded (with_files <[join_with slash names := row]> db) names'.
Proof.
  intros Hwf Hs Hr [(c' & m' & row' & Hs' & Hr' & Hl)| ->].
  - destruct (decide (join_with slash names' = join_with slash names)) as [E|E].
    + assert (names' = names) as ->.
      { rewrite <-(path_names_join names'), <-(path_names_join names), E by (by eapply seen_valid).
        done. }
      exists c, m, row. simpl. by rewrite lookup_insert_eq.
    + exists c', m', row'. simpl. by rewrite lookup_insert_ne by done.
  - exists c, m, row. simpl. by rewrite lookup_insert_eq.
Qed.

(** Recording the file at hand. *)
Lemma loop_inv_record db0 (P Q : list string → Prop) db names c m row : fs_wf fs →
  seen_file names c m → scan_row names c m = Ok row →
  (∀ names' c' m', seen_file names' c' m' → P names' → Q names' ∨ names' = names) →
  loop_inv db0 P db → loop_inv db0 Q (with_files <[join_with slash names := row]> db).
Proof.
  intros Hwf Hs Hr HPQ [Hrows Hall Hsk Hop]. constructor; simpl; [| |done|done].
  - intros p. destruct (decide (p = join_with slash names)) as [->|Hne].
    + right. exists names. split; [done|]. apply (recorded_insert db names names c m row); auto.
    + rewrite lookup_insert_ne by done. destruct (Hrows p) as [?|(names' & -> & Hrec)]; [by left|].
      right. exists names'. split; [done|]. apply (recorded_insert db names' names c m row); auto.
  - intros names' c' m' Hs'. destruct (Hall names' c' m' Hs') as [Hrec|[HQ| ->]%(HPQ names' c' m' Hs')].
    + left. apply (recorded_insert db names' names c m row); auto.
    + by right.
    + left. apply (recorded_insert db names names c m row); auto.
Qed.

Definition is_subdir (d : list string) (n : string) : bool :=
  bool_decide (node (d ++ [n]) = Some EDir) && negb (hidden (d ++ [n])).

(** What is seen below an entry tells what the entry is. *)
Lemma pending_entry stack d n rem names c m : seen_file names c m →
  pending stack d (n :: rem) names →
  pending (if is_subdir d n then (d ++ [n]) :: stack else stack) d rem names
  ∨ (names = d ++ [n] ∧ hidden names = false ∧ node names = Some (EFile c m)).
Proof.
  intros Hs [(s & b & Hin & Hb & ->)|(n' & b & Hin & ->)].
  { left. left. exists s, b. split_and!; try done. destruct (is_subdir d n); [by right|done]. }
  apply elem_of_cons in Hin as [-> |Hin]; [|left; right; by exists n', b].
  pose proof Hs as (_ & _ & _ & _ & Hh & Hnode).
  destruct (decide (b = [])) as [->|Hb]; [right; rewrite app_nil_r in *; by split_and!|].
  assert (d ++ [n] ≠ []) as Hne by (by destruct d).
  left. left. exists (d ++ [n]), b. split; [|done].
  unfold is_subdir. rewrite bool_decide_eq_true_2 by (by eapply seen_prefix).
  rewrite hidden_prefix in Hh by done. rewrite Hh. by left.
Qed.

Lemma first_component_hidden d n : Forall valid_name (d ++ [n]) →
  first_component_is SYNCER_DIR_NAME (join_with slash (d ++ [n])) = hidden (d ++ [n]).
Proof. intros Hv. unfold hidden. by apply first_component_join. Qed.

Lemma scan_row_ok names c m bh : scannable → to_json (@nil BlockHash) = Ok bh →
  seen_file names c m → ∃ row, scan_row names c m = Ok row.
Proof.
  intros Hsb Hj Hs. pose proof (sb_size Hsb names c m Hs) as Hsz.
  unfold scan_row, entry_row, scanned_entry; simpl. rewrite Hj. simpl.
  unfold i64_try_from_u64. rewrite (proj2 (Z.leb_le _ _)) by done. by eexists.
Qed.

Lemma scan_entry_step bh db0 db d n rem stack summary :
  scannable → to_json (@nil BlockHash) = Ok bh →
  walked d → is_Some (node (d ++ [n])) →
  loop_inv db0 (pending stack d (n :: rem)) db →
  let stack' := if is_subdir d n then (d ++ [n]) :: stack else stack in
  ∃ summary' db',
    scan_entry now now_utc fs scanner (under scanner.(ls_root) d)
      (summary, under scanner.(ls_root) <$> stack) n db
    = (Ok (summary', under scanner.(ls_root) <$> stack'), db')
    ∧ loop_inv db0 (pending stack' d rem) db'.
Proof.
  intros Hsb Hj Hw Hn Hinv stack'. unfold scan_entry. rewrite <-under_snoc.
  pose proof (node_valid d n (sb_wf Hsb) Hw Hn) as Hv.
  rewrite (sb_utf8 Hsb d n Hw Hn). cbn [negb]. rewrite M_bind_eq.
  unfold raw_relative_path. rewrite strip_under by done. cbn [ok_or lift].
  unfold lift at 1. rewrite first_component_hidden by done.
  assert (∀ names c m, seen_file names c m → pending stack d (n :: rem) names →
    pending stack' d rem names
    ∨ (names = d ++ [n] ∧ hidden names = false ∧ node names = Some (EFile c m))) as Hp
    by (intros; by eapply pending_entry).
  assert ((∀ c m, node (d ++ [n]) ≠ Some (EFile c m)) ∨ hidden (d ++ [n]) = true →
          loop_inv db0 (pending stack' d rem) db) as Hsame.
  { intros Hnf. eapply loop_inv_mono; [|exact Hinv]. intros names c m Hs HP.
    destruct (Hp names c m Hs HP) as [?|(-> & Hh & Hf)]; [done|].
    destruct Hnf as [Hnf|Hnf]; [by destruct (Hnf c m)|congruence]. }
  destruct (hidden (d ++ [n])) eqn:Hh.
  { exists summary, db. unfold stack', is_subdir. rewrite Hh, andb_false_r. split; [done|].
    revert Hsame. unfold stack', is_subdir. rewrite Hh, andb_false_r. auto. }
  rewrite M_bind_eq, entry_parses by done.
  rewrite components_under by done. fold (node (d ++ [n])).
  unfold stack', is_subdir in *. rewrite Hh in *. cbn [negb] in *. rewrite andb_true_r in *.
  destruct Hn as [[c m| |] Hn]; rewrite Hn in *.
  - rewrite bool_decide_eq_false_2 in * by done.
    assert (seen_file (d ++ [n]) c m) as Hs by (by exists d, n).
    destruct (scan_row_ok (d ++ [n]) c m bh Hsb Hj Hs) as [row Hrow].
    rewrite M_bind_eq, upsert_eq. cbn [rel_str].
    change (entry_row _ _) with (scan_row (d ++ [n]) c m). rewrite Hrow.
    eexists _, _. split; [done|].
    eapply loop_inv_record; [by apply sb_wf|done|done| |exact Hinv].
    intros names' c' m' Hs' HP. destruct (Hp names' c' m' Hs' HP) as [?|(-> & _)]; auto.
  - rewrite bool_decide_eq_true_2 in * by done. eexists _, _. split; [done|].
    apply Hsame. left. by intros.
  - rewrite bool_decide_eq_false_2 in * by done. eexists _, _. split; [done|].
    apply Hsame. left. by intros.
Qed.

(** ** The loops *)

Definition push_subdirs (d : list string) (rem : list string) (stack : list (list string))
    : list (list string) :=
  foldl (λ st n, if is_subdir d n then (d ++ [n]) :: st else st) stack rem.

Lemma scan_names_spec bh db0 d rem : scannable → to_json (@nil BlockHash) = Ok bh → walked d →
  (∀ n, n ∈ rem → is_Some (node (d ++ [n]))) →
  ∀ stack summary db, loop_inv db0 (pending stack d rem) db →
  ∃ summary' db',
    foldM (scan_entry now now_utc fs scanner (under scanner.(ls_root) d))
      (summary, under scanner.(ls_root) <$> stack) rem db
    = (Ok (summary', under scanner.(ls_root) <$> push_subdirs d rem stack), db')
    ∧ loop_inv db0 (pending (push_subdirs d rem stack) d []) db'.
Proof.
  intros Hsb Hj Hw. induction rem as [|n rem IH]; intros Hex stack summary db Hinv.
  { by exists summary, db. }
  destruct (scan_entry_step bh db0 db d n rem stack summary) as (summary1 & db1 & Hrun & Hinv1);
    [done..|by apply Hex; left|done|].
  destruct (IH (λ m Hm, Hex m (list_elem_of_further _ _ _ Hm)) _ summary1 db1 Hinv1)
    as (summary2 & db2 & Hrun2 & Hinv2).
  exists summary2, db2. split; [|exact Hinv2]. cbn [foldM]. by rewrite M_bind_eq, Hrun.
Qed.

(** The stack holds directories not visited yet, below visited ones. *)
Record visit_inv (visited stack : list (list string)) : Prop := {
  vi_nodup : NoDup (stack ++ visited);
  vi_walked : ∀ s, s ∈ stack ++ visited → walked s;
  vi_parent : ∀ d n, d ++ [n] ∈ stack ++ visited → d ∈ visited;
}.

Lemma walked_dir d : scannable → walked d → node d = Some EDir.
Proof.
  intros Hsb Hw. destruct (decide (d = [])) as [->|Hd]; [apply (sb_root Hsb)|].
  eapply (walked_prefix d d []); [done|by rewrite app_nil_r|done].
Qed.

Lemma visited_bound l : scannable → NoDup l → (∀ s, s ∈ l → walked s) → (length l ≤ size fs)%nat.
Proof.
  intros Hsb Hnd Hw.
  assert (NoDup (key scanner.(ls_root) <$> l)) as Hnd' by (apply NoDup_fmap_2; [apply _|done]).
  rewrite <-(length_fmap (key scanner.(ls_root)) l), <-(size_list_to_set (C := gset Key)), <-size_dom by done.
  apply subseteq_size. intros k (s & -> & Hs)%elem_of_list_to_set%list_elem_of_fmap.
  apply elem_of_dom. pose proof (walked_dir s Hsb (Hw s Hs)) as Hn. unfold node in Hn. by rewrite Hn.
Qed.

Lemma push_subdirs_elem d rem stack s : s ∈ push_subdirs d rem stack ↔
  s ∈ stack ∨ ∃ n, n ∈ rem ∧ s = d ++ [n] ∧ is_subdir d n = true.
Proof.
  unfold push_subdirs. revert stack; induction rem as [|n rem IH]; intros stack; cbn [foldl].
  { split; [by left|]. intros [?|(n & Hn & _)]; [done|]. by apply not_elem_of_nil in Hn. }
  rewrite IH. split.
  - intros [Hs|(m & Hm & Hs)]; [|right; exists m; by split; [right|]].
    destruct (is_subdir d n) eqn:E; [|by left]. apply elem_of_cons in Hs as [->|Hs]; [|by left].
    right. exists n. by split; [left|].
  - intros [Hs|(m & [->|Hm]%elem_of_cons & Hs & E)].
    + left. destruct (is_subdir d n); [by right|done].
    + left. rewrite E, Hs. by left.
    + right. by exists m.
Qed.

Lemma push_subdirs_NoDup d rem stack : NoDup rem → NoDup stack →
  (∀ n, n ∈ rem → d ++ [n] ∉ stack) → NoDup (push_subdirs d rem stack).
Proof.
  unfold push_subdirs. revert stack; induction rem as [|n rem IH]; intros stack Hr Hs Hd; [done|].
  apply NoDup_cons in Hr as [Hn Hr]. cbn [foldl].
  assert (∀ m, m ∈ rem → d ++ [m] ∉ stack) as Hd' by (intros m Hm; apply Hd; by right).
  destruct (is_subdir d n); [|by apply IH].
  apply IH; [done|apply NoDup_cons; split; [apply Hd; left|done]|].
  intros m Hm [E|?]%elem_of_cons; [|by eapply Hd'].
  apply app_inj_tail in E as [_ ->]. done.
Qed.

Lemma visit_step visited d stack rem :
  visit_inv visited (d :: stack) → NoDup rem → visit_inv (d :: visited) (push_subdirs d rem stack).
Proof.
  intros [Hnd Hw Hp] Hrem. cbn [app] in Hnd. apply NoDup_cons in Hnd as [Hd Hnd].
  assert (∀ n, d ++ [n] ∉ d :: stack ++ visited) as Hfresh.
  { intros n Hin. apply Hd. apply elem_of_app. right. by eapply Hp. }
  apply NoDup_app in Hnd as (Hs & Hsv & Hv). constructor.
  - apply NoDup_app. split_and!.
    + apply push_subdirs_NoDup; [done..|]. intros n _ Hin. apply (Hfresh n). right.
      apply elem_of_app. by left.
    + intros s [Hs'|(n & _ & E & _)]%push_subdirs_elem Hin; apply elem_of_cons in Hin as [E'|Hv'].
      * apply Hd, elem_of_app. left. by rewrite <-E'.
      * by eapply Hsv.
      * rewrite E' in E. apply (f_equal length) in E. rewrite length_app in E. simpl in E. lia.
      * apply (Hfresh n). right. apply elem_of_app. right. by rewrite <-E.
    + apply NoDup_cons; split; [|done]. intros Hin. apply Hd, elem_of_app. by right.
  - intros s [[Hs'|(n & _ & -> & Hsub)]%push_subdirs_elem|[->|Hv']%elem_of_cons]%elem_of_app.
    + apply Hw. right. apply elem_of_app. by left.
    + unfold is_subdir in Hsub. apply andb_true_iff in Hsub as [Hsub%bool_decide_eq_true Hh%negb_true_iff].
      apply walked_sub; [|done|done]. apply Hw. by left.
    + apply Hw. by left.
    + apply Hw. right. apply elem_of_app. by right.
  - intros e n [[Hs'|(m & _ & E & _)]%push_subdirs_elem|[E|Hv']%elem_of_cons]%elem_of_app.
    + right. eapply Hp. right. apply elem_of_app. by left.
    + apply app_inj_tail in E as [-> ->]. by left.
    + right. apply (Hp e n). rewrite E. by left.
    + right. eapply Hp. right. apply elem_of_app. by right.
Qed.

Lemma pending_enter s stack names c m rem : seen_file names c m →
  (∀ n, is_Some (node (s ++ [n])) → n ∈ rem) →
  pending (s :: stack) [] [] names → pending stack s rem names.
Proof.
  intros Hs Hrem [(s' & b & Hin & Hb & ->)|(n & b & Hin & _)]; [|by apply not_elem_of_nil in Hin].
  apply elem_of_cons in Hin as [->|Hin]; [|left; by exists s', b].
  right. destruct b as [|n b]; [done|]. exists n, b. rewrite <-app_assoc. split; [|done].
  apply Hrem. destruct (decide (b = [])) as [->|Hb'].
  - destruct Hs as (_ & _ & _ & _ & _ & Hn). by rewrite Hn.
  - rewrite (seen_prefix (s ++ n :: b) c m (s ++ [n]) b Hs); [done| |by destruct s|done].
    by rewrite <-app_assoc.
Qed.

Lemma scan_loop_spec `{!ReadDirLaws} bh db0 : scannable → to_json (@nil BlockHash) = Ok bh →
  ∀ fuel visited stack summary db,
  visit_inv visited stack → (size fs ≤ fuel + length visited)%nat →
  loop_inv db0 (pending stack [] []) db →
  ∃ summary' db',
    scan_loop now now_utc fs scanner fuel summary (under scanner.(ls_root) <$> stack) db
    = Some (Ok summary', db') ∧ loop_inv db0 (λ _, False) db'.
Proof.
  intros Hsb Hj. induction fuel as [|fuel IH]; intros visited stack summary db Hv Hfuel Hinv;
    (destruct stack as [|s stack];
     [exists summary, db; split; [done|]; eapply loop_inv_mono; [|exact Hinv];
      intros names c m _ [(s & b & Hin & _)|(n & b & Hin & _)]; by apply not_elem_of_nil in Hin|]).
  - pose proof (visited_bound (s :: visited) Hsb) as Hb. exfalso.
    destruct Hv as [Hnd Hw _]. cbn [app] in Hnd. apply NoDup_cons in Hnd as [Hs Hnd].
    apply NoDup_app in Hnd as (_ & _ & Hnd). simpl in Hb, Hfuel.
    assert (S (length visited) ≤ size fs)%nat; [|lia]. apply Hb.
    + apply NoDup_cons; split; [|done]. intros ?. apply Hs, elem_of_app. by right.
    + intros x [->|Hx]%elem_of_cons; apply Hw; [by left|right; apply elem_of_app; by right].
  - assert (walked s) as Hws by (apply (vi_walked _ _ Hv); by left).
    set (rem := readdir_order (key (ls_root scanner) s) (children fs (key (ls_root scanner) s))).
    assert (∀ n, n ∈ rem ↔ is_Some (node (s ++ [n]))) as Hrem.
    { intros n. unfold rem, node. by rewrite readdir_perm, children_elem, key_snoc. }
    destruct (scan_names_spec bh db0 s rem Hsb Hj Hws (λ n, proj1 (Hrem n)) stack summary db)
      as (summary1 & db1 & Hrun & Hinv1).
    { eapply loop_inv_mono; [|exact Hinv]. intros names c m Hs. eapply pending_enter; [done|].
      intros n. apply Hrem. }
    destruct (IH (s :: visited) (push_subdirs s rem stack) summary1 db1) as (summary2 & db2 & Hrun2 & Hinv2).
    + apply visit_step; [done|]. unfold rem. rewrite readdir_perm. apply children_NoDup.
    + simpl in *. lia.
    + eapply loop_inv_mono; [|exact Hinv1]. intros names c m _ [?|(n & b & Hin & _)]; [by left|].
      by apply not_elem_of_nil in Hin.
    + exists summary2, db2. split; [|exact Hinv2]. rewrite fmap_cons. cbn [scan_loop].
      unfold scan_directory, read_dir. rewrite components_under by (by apply walked_valid; [apply (sb_wf Hsb)|]).
      pose proof (walked_dir s Hsb Hws) as Hdir. unfold node in Hdir. rewrite Hdir.
      cbn [map_err]. rewrite M_bind_eq. unfold lift. fold rem. by rewrite Hrun.
Qed.

(** ** Every scan ends *)

(** A step that goes on leaves the stack the specification says. *)
Lemma scan_entry_stack db d n stack summary summary' stack' db' :
  fs_wf fs → walked d → is_Some (node (d ++ [n])) →
  scan_entry now now_utc fs scanner (under scanner.(ls_root) d)
    (summary, under scanner.(ls_root) <$> stack) n db = (Ok (summary', stack'), db') →
  stack' = under scanner.(ls_root) <$> (if is_subdir d n then (d ++ [n]) :: stack else stack).
Proof.
  intros Hwf Hw Hn. unfold scan_entry. rewrite <-under_snoc.
  pose proof (node_valid d n Hwf Hw Hn) as Hv.
  destruct (utf8_valid _); [|done]. cbn [negb]. rewrite M_bind_eq.
  unfold raw_relative_path. rewrite strip_under by done. cbn [ok_or lift].
  unfold lift at 1. rewrite first_component_hidden by done. unfold is_subdir.
  destruct (hidden (d ++ [n])); [rewrite andb_false_r; by intros [= _ <- _]|]. rewrite andb_true_r.
  rewrite M_bind_eq. destruct (relative_path_parse _) as [relative|e]; [|done]. cbn [lift].
  rewrite components_under by done. fold (node (d ++ [n])).
  destruct (node (d ++ [n])) as [[c m| |]|]; [| | |done].
  - rewrite bool_decide_eq_false_2 by done. rewrite M_bind_eq.
    destruct (upsert_file _ _ _) as [[[]|e] db1]; [|done]. by intros [= _ <- _].
  - rewrite bool_decide_eq_true_2 by done. by intros [= _ <- _].
  - rewrite bool_decide_eq_false_2 by done. by intros [= _ <- _].
Qed.

Lemma scan_names_stack d rem : fs_wf fs → walked d → (∀ n, n ∈ rem → is_Some (node (d ++ [n]))) →
  ∀ stack summary db summary' stack' db',
  foldM (scan_entry now now_utc fs scanner (under scanner.(ls_root) d))
    (summary, under scanner.(ls_root) <$> stack) rem db = (Ok (summary', stack'), db') →
  stack' = under scanner.(ls_root) <$> push_subdirs d rem stack.
Proof.
  intros Hwf Hw. induction rem as [|n rem IH]; intros Hex stack summary db summary' stack' db'.
  { by intros [= _ <- _]. }
  cbn [foldM]. rewrite M_bind_eq.
  destruct (scan_entry _ _ _ _ _ _ _ _) as [[[summary1 stack1]|e] db1] eqn:E; [|done].
  apply scan_entry_stack in E as ->; [|done|done|by apply Hex; left].
  apply IH. intros m Hm. apply Hex. by right.
Qed.

Lemma scan_loop_ends `{!ReadDirLaws} : fs_wf fs →
  ∀ fuel visited stack summary db,
  visit_inv visited stack → Forall (λ d, node d = Some EDir) visited →
  (size fs < fuel + length visited)%nat →
  is_Some (scan_loop now now_utc fs scanner fuel summary (under scanner.(ls_root) <$> stack) db).
Proof.
  intros Hwf. induction fuel as [|fuel IH]; intros visited stack summary db Hv Hdirs Hfuel.
  - exfalso. destruct Hv as [Hnd _ _]. apply NoDup_app in Hnd as (_ & _ & Hnd).
    assert (NoDup (key scanner.(ls_root) <$> visited)) as Hnd' by (apply NoDup_fmap_2; [apply _|done]).
    assert (length visited ≤ size fs)%nat; [|lia].
    rewrite <-(length_fmap (key scanner.(ls_root)) visited),
      <-(size_list_to_set (C := gset Key)), <-size_dom by done.
    apply subseteq_size. intros k (s & -> & Hs)%elem_of_list_to_set%list_elem_of_fmap.
    apply elem_of_dom. eapply Forall_forall in Hdirs; [|done]. unfold node in Hdirs. by rewrite Hdirs.
  - destruct stack as [|s stack]; [by eexists|]. rewrite fmap_cons. cbn [scan_loop].
    assert (walked s) as Hws by (apply (vi_walked _ _ Hv); by left).
    unfold scan_directory, read_dir. rewrite components_under by (by apply walked_valid).
    fold (node s). destruct (node s) as [[c m| |]|] eqn:Hs; [by eexists| |by eexists..].
    cbn [map_err]. rewrite bind_lift_Ok.
    set (rem := readdir_order (key (ls_root scanner) s) (children fs (key (ls_root scanner) s))).
    assert (∀ n, n ∈ rem → is_Some (node (s ++ [n]))) as Hrem.
    { intros n. unfold rem, node. by rewrite readdir_perm, children_elem, key_snoc. }
    destruct (foldM _ _ rem db) as [[[summary1 stack1]|e] db1] eqn:E; [|by eexists].
    apply (scan_names_stack s rem Hwf Hws Hrem stack) in E as ->.
    apply (IH (s :: visited)).
    + apply visit_step; [done|]. unfold rem. rewrite readdir_perm. apply children_NoDup.
    + by constructor.
    + cbn [length]. lia.
Qed.

(** C39. The scan ends on every file system: the directories it walks are visited once
    each, so the fuel of one more than the number of entries is never used up, whatever
    is in the folder and whatever the calls answer. *)
Theorem scan_ends `{!ReadDirLaws} end_now db : fs_wf fs →
  is_Some (scan_into now now_utc fs scanner (S (size fs)) end_now db).
Proof.
  intros Hwf. unfold scan_into. destruct (mark_scan_started db) as [[[]|e] db0]; [|by eexists].
  destruct (scan_loop_ends Hwf (S (size fs)) [] [[]] scan_summary_default db0) as [[[s|e] db1] Hrun].
  - constructor.
    + apply NoDup_singleton.
    + intros d ->%list_elem_of_singleton. constructor.
    + intros d x Hin%list_elem_of_singleton. by destruct d.
  - constructor.
  - simpl. lia.
  - change [ls_root scanner] with (under (ls_root scanner) <$> [[]]). rewrite Hrun. by eexists.
  - change [ls_root scanner] with (under (ls_root scanner) <$> [[]]). rewrite Hrun. by eexists.
Qed.

(** ** The whole scan *)

Lemma seen_entry_valid names c m : scannable → (∀ p, valid_time (now_utc p)) → seen_file names c m →
  valid_entry (scanned_entry now_utc scanner {| rel_str := join_with slash names |} c m).
Proof.
  intros Hsb Hnow (d & n & -> & Hw & Hh & Hn). constructor; simpl; [|lia| |lia].
  - apply (entry_parses d n); [done|done|by rewrite Hn|done].
  - unfold file_modified_at. destruct m as [t|]; [|apply Hnow]. simpl.
    destruct (0 <=? t); [|apply Hnow]. simpl. destruct (i64_try_from_u64 _) as [secs|]; [|apply Hnow].
    simpl. destruct (from_unix_timestamp secs) as [ts|e] eqn:E; [|apply Hnow].
    by eapply from_unix_timestamp_valid.
Qed.

Lemma loop_inv_wf n db0 P db : scannable → (∀ p, valid_time (now_utc p)) →
  db_wf n db0 → loop_inv db0 P db → db_wf n db.
Proof.
  intros Hsb Hnow [Hf Hs Ho Hid] [Hrows _ Hsk Hop]. constructor; [|by rewrite Hsk|by rewrite Hop..].
  intros p r Hr. destruct (Hrows p) as [E|(names & -> & c & m & row & Hsf & Hrow & Hl)].
  - apply Hf. by rewrite <-E.
  - rewrite Hr in Hl. injection Hl as ->. 
    exact (entry_row_ok (now (join_with slash names)) (scanned_entry now_utc scanner
      {| rel_str := join_with slash names |} c m) row (seen_entry_valid names c m Hsb Hnow Hsf) Hrow).
Qed.

Lemma scan_row_found names c m row : scan_row names c m = Ok row →
  row.(w_scan_missing) = false ∧ row.(w_sync_state) = "local_available"
  ∧ row.(w_size_bytes) = Z.of_nat (length c) ∧ row.(w_content_hash) = Some (blake3_hex c).
Proof.
  unfold scan_row. intros (bh & _ & _ & _ & ->)%entry_row_Ok; [done|simpl; lia..].
Qed.

Lemma scan_row_kind names c m row : scan_row names c m = Ok row → row.(w_kind) = "file".
Proof. unfold scan_row. intros (bh & _ & _ & _ & ->)%entry_row_Ok; [done|simpl; lia..]. Qed.

(** What happens to the row of a file the scan does not find. *)
Definition missing_row (end_now : Z) (r : FileRow) : FileRow :=
  set_missing r.(w_modified_at_unix) end_now (set_scan_missing r).

Lemma marked_row db n p r : db_wf n db → (mark_scan_started db).2.(db_files) !! p = Some r →
  ∃ r0, db.(db_files) !! p = Some r0 ∧ r = set_scan_missing r0.
Proof.
  intros Hwf. simpl. rewrite lookup_fmap. intros (r0 & Hr0 & ->)%fmap_Some. exists r0. split; [done|].
  destruct (wf_files _ _ Hwf p r0 Hr0) as [_ _ _ _ _ [E|E]]; by rewrite E.
Qed.

(** A path no file of the folder has keeps its row through the loop. *)
Lemma unseen_row db0 db p : loop_inv db0 (λ _, False) db →
  (∀ names c m, seen_file names c m → p ≠ join_with slash names) →
  db.(db_files) !! p = db0.(db_files) !! p.
Proof.
  intros Hinv Hp. destruct (li_rows _ _ _ Hinv p) as [E|(names & -> & c & m & row & Hs & _)]; [done|].
  by destruct (Hp names c m Hs).
Qed.

End spec.

(** What a completed scan leaves. *)
Record scan_outcome `{TL : !TimeLib, UL : !UuidLib, SJ : !SerdeJson (list BlockHash), BL : !Blake3Lib}
    (now : string → Z) (now_utc : string → OffsetDateTime) (fs : FS) (scanner : LinuxFolderScanner)
    (end_now n : Z) (db : Database) (s : ScanSummary) (db' : Database) : Prop := {
  so_unskipped : db'.(db_skipped) = db.(db_skipped);
  so_queue : db'.(db_operations) = db.(db_operations);
  so_seen : ∀ names c m, seen_file fs scanner names c m →
    ∃ row, db'.(db_files) !! join_with slash names = Some row
    ∧ scan_row now now_utc scanner names c m = Ok row
    ∧ row.(w_sync_state) = "local_available" ∧ row.(w_size_bytes) = Z.of_nat (length c)
    ∧ row.(w_content_hash) = Some (blake3_hex c);
  so_missing : ∀ p, (∀ names c m, seen_file fs scanner names c m → p ≠ join_with slash names) →
    db'.(db_files) !! p = missing_row end_now <$> db.(db_files) !! p;
  so_wf : db_wf n db';
  so_count : Z.of_nat (countb (λ row, bool_decide (row.2.(w_sync_state) = "unsynchronized_local_missing"))
               (file_rows db')) = s.(ss_local_missing);
}.

Lemma scan_run
    `{TL : !TimeLib, SL : !SqlxLib, UL : !UuidLib, SJ : !SerdeJson (list BlockHash),
      BL : !Blake3Lib, IL : !IoLib, RD : !ReadDir, RL : !ReadDirLaws}
    now now_utc fs scanner fuel end_now n db bh :
  scannable fs scanner → to_json (@nil BlockHash) = Ok bh → (∀ p, valid_time (now_utc p)) →
  db_wf n db → (size fs ≤ fuel)%nat →
  ∃ s db', scan_into now now_utc fs scanner fuel end_now db = Some (Ok s, db')
  ∧ scan_outcome now now_utc fs scanner end_now n db s db'.
Proof.
  intros Hsb Hj Hnow Hwf Hfuel. set (db0 := (mark_scan_started db).2).
  assert (db_wf n db0) as Hwf0 by (by apply scan_started_preserves).
  destruct (scan_loop_spec now now_utc fs scanner bh db0 Hsb Hj fuel [] [[]] scan_summary_default db0)
    as (s1 & db1 & Hrun & Hinv).
  { constructor.
    - apply NoDup_singleton.
    - intros s ->%list_elem_of_singleton. constructor.
    - intros d x Hin%list_elem_of_singleton. by destruct d. }
  { simpl. lia. }
  { constructor; [by left| |done|done]. intros names c m Hs. right. left. exists [], names.
    split; [by left|]. split; [|done]. destruct Hs as (d & x & -> & _). by destruct d. }
  assert (db_wf n db1) as Hwf1 by (by eapply loop_inv_wf).
  set (db2 := (finalize_scan end_now db1).2).
  assert (db_wf n db2) as Hwf2 by (by apply finalize_preserves).
  eexists _, db2. split.
  { unfold scan_into. change (mark_scan_started db) with ((Ok tt : result CoreError unit), db0).
    cbn iota. change [ls_root scanner] with (under (ls_root scanner) <$> [[]]). rewrite Hrun.
    unfold finish_scan. rewrite M_bind_eq.
    change (finalize_scan end_now db1) with ((Ok tt : result CoreError unit), db2). cbn iota.
    by rewrite M_bind_eq, (list_missing_wf n). }
  assert (∀ p, db2.(db_files) !! p = (λ r, if r.(w_scan_missing)
            then set_missing r.(w_modified_at_unix) end_now r else r) <$> db1.(db_files) !! p) as Hfin
    by (intros p; apply lookup_fmap).
  destruct Hinv as [Hrows Hall Hsk Hop] eqn:Hi. clear Hi. constructor; [done|done| | |done|].
  - intros names c m Hs. destruct (Hall names c m Hs) as [(c' & m' & row & Hs' & Hrow & Hl)|[]].
    assert (c' = c ∧ m' = m) as [-> ->].
    { destruct Hs as (_ & _ & _ & _ & _ & H1). destruct Hs' as (_ & _ & _ & _ & _ & H2). naive_solver. }
    destruct (scan_row_found _ _ _ _ _ _ _ Hrow) as (Hfound & Hst & Hsz & Hh).
    exists row. rewrite Hfin, Hl. simpl. by rewrite Hfound.
  - intros p Hp. rewrite Hfin, (unseen_row now now_utc fs scanner db0 db1 p Hinv Hp).
    destruct (db_files db0 !! p) as [r|] eqn:Hr.
    + destruct (marked_row db n p r Hwf Hr) as (r0 & -> & ->). done.
    + unfold db0 in Hr. simpl in Hr. rewrite lookup_fmap, fmap_None in Hr. by rewrite Hr.
  - simpl. rewrite length_fmap. unfold countb. f_equal. f_equal. apply list_filter_iff. intros row.
    by rewrite bool_decide_eq_true.
Qed.

(** ** Properties *)

(** C14. A scan ends (with fuel for each entry of the file system) and leaves the
    database holding exactly the folder: every file outside the metadata directory
    is recorded as available with the size, hash and time found, every other row
    is marked as missing on this device, the queue and the skipped files are left
    alone, and the number of missing files reported is the number so marked. *)
Theorem scan_records_folder
    `{TL : !TimeLib, SL : !SqlxLib, UL : !UuidLib, SJ : !SerdeJson (list BlockHash),
      BL : !Blake3Lib, IL : !IoLib, RD : !ReadDir, RL : !ReadDirLaws}
    now now_utc fs scanner fuel end_now n db bh :
  scannable fs scanner → to_json (@nil BlockHash) = Ok bh → (∀ p, valid_time (now_utc p)) →
  db_wf n db → (size fs ≤ fuel)%nat →
  ∃ s db', scan_into now now_utc fs scanner fuel end_now db = Some (Ok s, db')
  ∧ db'.(db_skipped) = db.(db_skipped) ∧ db'.(db_operations) = db.(db_operations)
  ∧ (∀ names c m, seen_file fs scanner names c m →
       ∃ row, db'.(db_files) !! join_with slash names = Some row
       ∧ scan_row now now_utc scanner names c m = Ok row
       ∧ row.(w_sync_state) = "local_available" ∧ row.(w_size_bytes) = Z.of_nat (length c)
       ∧ row.(w_content_hash) = Some (blake3_hex c))
  ∧ (∀ p, (∀ names c m, seen_file fs scanner names c m → p ≠ join_with slash names) →
       db'.(db_files) !! p = missing_row end_now <$> db.(db_files) !! p)
  ∧ db_wf n db'
  ∧ Z.of_nat (countb (λ row, bool_decide (row.2.(w_sync_state) = "unsynchronized_local_missing"))
                (file_rows db')) = s.(ss_local_missing).
Proof.
  intros Hsb Hj Hnow Hwf Hfuel.
  destruct (scan_run now now_utc fs scanner fuel end_now n db bh Hsb Hj Hnow Hwf Hfuel)
    as (s & db' & Hrun & [H1 H2 H3 H4 H5 H6]).
  exists s, db'. by split_and!.
Qed.

(** One entry directly in the folder whose name the program does not accept (a
    blank name, for one) makes every scan fail: no file is marked missing and the
    scan never completes. *)
Theorem bad_name_aborts_scan
    `{TL : !TimeLib, SL : !SqlxLib, UL : !UuidLib, SJ : !SerdeJson (list BlockHash),
      BL : !Blake3Lib, IL : !IoLib, RD : !ReadDir, RL : !ReadDirLaws}
    now now_utc fs scanner fuel end_now db name :
  node fs scanner [] = Some EDir → valid_name name → name ≠ SYNCER_DIR_NAME →
  is_Some (node fs scanner [name]) → is_ok (relative_path_parse name) = false →
  ∃ e db', scan_into now now_utc fs scanner (S fuel) end_now db = Some (Err e, db')
  ∧ db' = (scan_directory now now_utc fs scanner scanner.(ls_root) scan_summary_default []
             (mark_scan_started db).2).2.
Proof.
  intros Hroot Hname Hvis Hnode Hbad. set (db0 := (mark_scan_started db).2).
  assert (is_ok (scan_directory now now_utc fs scanner (ls_root scanner) scan_summary_default [] db0).1
          = false) as Herr.
  { unfold scan_directory, read_dir. unfold node, key in Hroot. rewrite app_nil_r in Hroot.
    rewrite Hroot. cbn [map_err]. rewrite M_bind_eq. unfold lift at 1.
    apply (foldM_err _ name).
    - rewrite readdir_perm, children_elem. exact Hnode.
    - intros [summary stack] d. unfold scan_entry.
      change (path_push (ls_root scanner) name) with (under (ls_root scanner) [name]).
      destruct (utf8_valid _); [|done]. cbn [negb]. rewrite M_bind_eq. unfold raw_relative_path.
      rewrite strip_under by (by constructor). cbn [ok_or]. unfold lift at 1.
      assert (join_with slash [name] = name) as Hj
        by (unfold join_with; simpl; apply of_bytes_bytes).
      assert (Forall valid_name ([] ++ [name])) as Hv by (by constructor).
      pose proof (first_component_hidden [] name Hv) as Hh. cbn [app] in Hh. rewrite Hh.
      unfold hidden. rewrite bool_decide_eq_false_2 by (simpl; congruence).
      simpl. rewrite Hj, M_bind_eq. unfold lift. by destruct (relative_path_parse name). }
  unfold scan_into. change (mark_scan_started db) with ((Ok tt : result CoreError unit), db0).
  cbn [scan_loop].
  destruct (scan_directory _ _ _ _ _ _ _ _) as [[[s st]|e] db1]; [done|]. by exists e, db1.
Qed.

(** ** Witnesses *)

Module Witness.
Import Sample SampleFs.

Definition w_k (names : list string) : Key := RootDir :: (Normal <$> names).
Definition w_fs : FS := list_to_map
  [(w_k ["data"], EDir); (w_k ["data"; "a.txt"], EFile (bytes "hello") (Some 5000000000));
   (w_k ["data"; ".syncer"], EDir); (w_k ["data"; ".syncer"; "state.db"], EFile (bytes "x") None);
   (w_k ["data"; "sub"], EDir); (w_k ["data"; "sub"; "b.txt"], EFile (bytes "") None)].
Definition w_scanner : LinuxFolderScanner := scanner_new "/data" 1%N.

(** [scannable], decided over the entries. *)
Definition entry_check (root : string) (ke : Key * Entry) : bool :=
  let names := key_names root ke.1 in
  utf8_valid (under root names)
  && (hidden names || bool_decide (trim (join_with slash names) = join_with slash names))
  && match ke.2 with EFile c _ => Z.of_nat (length c) <=? i64_max | _ => true end.

Lemma scannable_check fs scanner : fs_wf fs → node fs scanner [] = Some EDir →
  forallb (entry_check scanner.(ls_root)) (map_to_list fs) = true → scannable fs scanner.
Proof.
  intros Hwf Hroot Hall. rewrite forallb_forall in Hall.
  assert (∀ names e, node fs scanner names = Some e →
    utf8_valid (under scanner.(ls_root) names) = true
    ∧ (hidden names = true ∨ trim (join_with slash names) = join_with slash names)
    ∧ match e with EFile c _ => Z.of_nat (length c) ≤ i64_max | _ => True end) as H.
  { intros names e He. specialize (Hall (key scanner.(ls_root) names, e)).
    unfold entry_check in Hall. cbn [fst snd] in Hall. rewrite key_names_key in Hall.
    specialize (Hall (proj1 (list_elem_of_In _ _) (proj2 (elem_of_map_to_list _ _ _) He))).
    apply andb_true_iff in Hall as [[H1 H2%orb_true_iff]%andb_true_iff H3].
    rewrite bool_decide_eq_true in H2. split_and!; [done|done|].
    destruct e; [by apply Z.leb_le|done|done]. }
  constructor; [done|done| | |].
  - intros d n _ [e He]. by apply (H _ e).
  - intros d n _ [e He] Hh. destruct (H _ e He) as (_ & [?|?] & _); [congruence|done].
  - intros names c m (_ & _ & _ & _ & _ & He). by apply (H _ _ He).
Qed.

Lemma w_scannable : scannable w_fs w_scanner.
Proof.
  apply scannable_check; [apply fs_wf_check| |]; vm_compute; reflexivity.
Qed.

Lemma w_a_seen : seen_file w_fs w_scanner ["a.txt"] (bytes "hello") (Some 5000000000).
Proof.
  exists [], "a.txt". split; [done|]. split; [constructor|]. split; vm_compute; reflexivity.
Qed.

Lemma w_epoch_valid (p : string) : valid_time ((λ _ : string, 0) p).
Proof. reflexivity. Qed.

Lemma w_json : to_json (@nil BlockHash) = Ok (bytes "[]").
Proof. reflexivity. Qed.

Lemma scan_records_folder_witness :
  ∃ s db', scan_into (λ _, 100) (λ _, 0) w_fs w_scanner 6 200 db_empty = Some (Ok s, db')
  ∧ is_Some (db'.(db_files) !! "a.txt").
Proof.
  assert (size w_fs ≤ 6)%nat as Hsize by (apply (bool_decide_eq_true_1 (_ ≤ _)%nat); vm_compute; reflexivity).
  destruct (scan_records_folder (λ _, 100) (λ _, 0) w_fs w_scanner 6 200 0 db_empty (bytes "[]")
    w_scannable w_json w_epoch_valid db_empty_wf Hsize)
    as (s & db' & Hrun & _ & _ & Hseen & _).
  destruct (Hseen _ _ _ w_a_seen) as (row & Hrow & _).
  exists s, db'. split; [exact Hrun|]. exists row. exact Hrow.
Defined.

Lemma scan_ends_witness :
  fs_wf w_fs ∧ is_Some (scan_into (λ _, 100) (λ _, 0) w_fs w_scanner (S (size w_fs)) 200 db_empty).
Proof.
  assert (fs_wf w_fs) as Hwf by (apply fs_wf_check; vm_compute; reflexivity).
  split; [exact Hwf|]. exact (scan_ends (λ _, 100) (λ _, 0) w_fs w_scanner 200 db_empty Hwf).
Defined.

Definition w_blank_fs : FS := <[w_k ["data"; " "] := EFile (bytes "x") None]> w_fs.

Lemma bad_name_aborts_scan_witness :
  ∃ e db', scan_into (λ _, 100) (λ _, 0) w_blank_fs w_scanner 7 200 db_empty = Some (Err e, db').
Proof.
  assert (valid_name " ") as Hv by (apply (bool_decide_eq_true_1 _); vm_compute; reflexivity).
  destruct (bad_name_aborts_scan (λ _, 100) (λ _, 0) w_blank_fs w_scanner 6 200 db_empty " ")
    as (e & db' & H & _).
  - vm_compute. reflexivity.
  - exact Hv.
  - discriminate.
  - eexists. vm_compute. reflexivity.
  - vm_compute. reflexivity.
  - exists e, db'. exact H.
Defined.

End Witness.
