(* ===== verification/PathCodec.v ===== *)
(** * [crates/syncer-agent/src/path_codec.rs]: relative paths in request lines *)

From S2P Require Import Prelude RustStd External Error Manifest.
From stdpp Require Import options.

Inductive PathDecodeError :=
| InvalidPercentEncoding
| InvalidUtf8
| PathCore (e : CoreError).

#[export] Instance PathDecodeError_eq_dec : EqDecision PathDecodeError.
Proof. solve_decision. Defined.

(** ** Encoding *)

(** The bytes that stand for themselves. *)
Definition unreserved (a : ascii) : bool :=
  let n := byte_val a in
  RustStd.between 65 90 n || RustStd.between 97 122 n || RustStd.between 48 57 n
  || (n =? 45)%N || (n =? 46)%N || (n =? 95)%N || (n =? 126)%N || (n =? 47)%N.

(** A digit of [{:02X}]. *)
Definition upper_hex (n : N) : ascii :=
  Ascii.ascii_of_N (if (n <? 10)%N then 48 + n else 55 + n)%N.

Definition percent : ascii := Ascii.ascii_of_N 37.

Definition encode_byte (a : ascii) : list ascii :=
  if unreserved a then [a]
  else [percent; upper_hex (byte_val a / 16); upper_hex (byte_val a mod 16)]%N.

Definition encode_relative_path (path : RelativePath) : string :=
  of_bytes (mjoin (encode_byte <$> bytes (rel_str path))).

(** ** Decoding *)

Definition hex_value (a : ascii) : option N :=
  let n := byte_val a in
  if RustStd.between 48 57 n then Some (n - 48)%N
  else if RustStd.between 97 102 n then Some (n - 97 + 10)%N
  else if RustStd.between 65 70 n then Some (n - 65 + 10)%N
  else None.

(** The loop over [index]: three bytes at a time after a percent sign. *)
Fixpoint decode_bytes (input : list ascii) : result PathDecodeError (list ascii) :=
  match input with
  | [] => Ok []
  | a :: rest =>
      if Ascii.eqb a percent then
        match rest with
        | high :: low :: rest =>
            b ← ok_or InvalidPercentEncoding
                  (hex_value high ≫= λ high, (λ low, Ascii.ascii_of_N (N.lor (N.shiftl high 4) low)) <$> hex_value low);
            bytes ← decode_bytes rest;
            Ok (b :: bytes)
        | _ => Err InvalidPercentEncoding
        end
      else bytes ← decode_bytes rest; Ok (a :: bytes)
  end.

Definition decode_relative_path (value : string) : result PathDecodeError RelativePath :=
  bs ← decode_bytes (bytes value);
  decoded ← ok_or InvalidUtf8 (from_utf8 bs);
  map_err PathCore (relative_path_parse decoded).

(** ** Lemmas *)

(** A byte that may appear in the request target of an HTTP request line. *)
Definition request_safe (a : ascii) : bool := unreserved a || Ascii.eqb a percent.

Definition byte_roundtrip (a : ascii) : bool :=
  forallb request_safe (encode_byte a) &&
  (if unreserved a then negb (Ascii.eqb a percent)
   else match hex_value (upper_hex (byte_val a / 16)), hex_value (upper_hex (byte_val a mod 16)) with
        | Some h, Some l => Ascii.eqb (Ascii.ascii_of_N (N.lor (N.shiftl h 4) l)) a
        | _, _ => false
        end).

Lemma byte_roundtrip_all a : byte_roundtrip a = true.
Proof. revert a. apply every_byte. vm_compute. reflexivity. Qed.

Lemma decode_encode_byte a rest :
  decode_bytes (encode_byte a ++ rest) = (bs ← decode_bytes rest; Ok (a :: bs)).
Proof.
  pose proof (byte_roundtrip_all a) as H. unfold byte_roundtrip in H.
  apply andb_true_iff in H as [_ H]. unfold encode_byte. destruct (unreserved a).
  - simpl. apply negb_true_iff in H. by rewrite H.
  - destruct (hex_value (upper_hex (byte_val a / 16))) as [h|] eqn:Eh; [|done].
    destruct (hex_value (upper_hex (byte_val a mod 16))) as [l|] eqn:El; [|done].
    apply ascii_eqb_true in H.
    change ([percent; upper_hex (byte_val a / 16); upper_hex (byte_val a mod 16)] ++ rest)
      with (percent :: upper_hex (byte_val a / 16) :: upper_hex (byte_val a mod 16) :: rest).
    cbn [decode_bytes]. replace (Ascii.eqb percent percent) with true by done.
    rewrite Eh, El. simpl. by rewrite H.
Qed.

Lemma decode_encode_bytes l : decode_bytes (mjoin (encode_byte <$> l)) = Ok l.
Proof.
  induction l as [|a l IH]; [done|].
  change (mjoin (encode_byte <$> a :: l)) with (encode_byte a ++ mjoin (encode_byte <$> l)).
  rewrite decode_encode_byte. by rewrite IH.
Qed.

Lemma decode_encode (path : RelativePath) : utf8_valid (rel_str path) = true →
  decode_relative_path (encode_relative_path path)
  = map_err PathCore (relative_path_parse (rel_str path)).
Proof.
  intros Hutf. unfold decode_relative_path, encode_relative_path. rewrite bytes_of_bytes, decode_encode_bytes.
  simpl. unfold from_utf8. unfold utf8_valid in Hutf.
  destruct (utf8_decode (bytes (rel_str path))); [|done]. simpl. by rewrite of_bytes_bytes.
Qed.

Lemma encode_safe (path : RelativePath) :
  Forall (λ a, request_safe a = true) (bytes (encode_relative_path path)).
Proof.
  unfold encode_relative_path. rewrite bytes_of_bytes.
  induction (bytes (rel_str path)) as [|a l IH]; [constructor|].
  change (mjoin (encode_byte <$> a :: l)) with (encode_byte a ++ mjoin (encode_byte <$> l)).
  apply Forall_app; split; [|exact IH].
  pose proof (byte_roundtrip_all a) as Hb. unfold byte_roundtrip in Hb.
  apply andb_true_iff in Hb as [Hb _]. rewrite forallb_forall in Hb.
  apply Forall_forall. intros x Hx. by apply Hb, list_elem_of_In.
Qed.

(** C23. Round trip: what the peer decodes from an encoded path is the result of
    parsing the path's own text, so a path that parses to itself arrives unchanged;
    and the encoding holds nothing but unreserved characters, slashes and percent
    escapes, so it cannot break a request line. *)
Theorem path_codec_roundtrip (path : RelativePath) :
  utf8_valid (rel_str path) = true →
  decode_relative_path (encode_relative_path path)
  = map_err PathCore (relative_path_parse (rel_str path))
  ∧ (relative_path_parse (rel_str path) = Ok path →
     decode_relative_path (encode_relative_path path) = Ok path)
  ∧ Forall (λ a, request_safe a = true) (bytes (encode_relative_path path)).
Proof.
  intros Hutf. split_and!; [by apply decode_encode| |apply encode_safe].
  intros Hp. by rewrite decode_encode, Hp.
Qed.

Lemma path_codec_roundtrip_witness :
  encode_relative_path {| rel_str := "my notes/50%.txt" |} = "my%20notes/50%25.txt"
  ∧ decode_relative_path (encode_relative_path {| rel_str := "my notes/50%.txt" |})
    = Ok {| rel_str := "my notes/50%.txt" |}.
Proof.
  split; [vm_compute; reflexivity|].
  exact (proj1 (proj2 (path_codec_roundtrip {| rel_str := "my notes/50%.txt" |}
           ltac:(vm_compute; reflexivity))) ltac:(vm_compute; reflexivity)).
Defined.
