(* ===== verification/RequestSigning.v ===== *)
(** * [crates/syncer-agent/src/request_signing.rs]: authenticated requests *)

From S2P Require Import Prelude RustStd External.
From stdpp Require Import options pretty.

Inductive SigningError :=
| SigningHex (message : string)
| InvalidSecret
| InvalidSignature.

Definition newline : ascii := Ascii.ascii_of_N 10.
Definition nl : string := String newline EmptyString.

Section signing.
Context `{!HexLib, !Sha256Lib, !HmacLib}.

Definition canonical_payload_with_body_hash_hex (method path device_id : string)
    (timestamp_unix : Z) (body_hash_hex : string) : string :=
  method +:+ nl +:+ path +:+ nl +:+ device_id +:+ nl +:+ pretty (timestamp_unix : Z) +:+ nl
  +:+ body_hash_hex.

Definition sign_request_with_body_hash_hex (method path device_id : string)
    (timestamp_unix : Z) (body_hash_hex shared_secret_hex : string) : result SigningError string :=
  secret ← map_err SigningHex (hex_decode shared_secret_hex);
  if negb (hmac_key_ok secret) then Err InvalidSecret
  else Ok (hex_encode (hmac secret (bytes
         (canonical_payload_with_body_hash_hex method path device_id timestamp_unix body_hash_hex)))).

Definition sign_request (method path device_id : string) (timestamp_unix : Z)
    (body : list ascii) (shared_secret_hex : string) : result SigningError string :=
  sign_request_with_body_hash_hex method path device_id timestamp_unix
    (hex_encode (sha256 body)) shared_secret_hex.

Definition verify_request_signature_with_body_hash_hex (signature_hex method path device_id : string)
    (timestamp_unix : Z) (body_hash_hex shared_secret_hex : string) : result SigningError unit :=
  secret ← map_err SigningHex (hex_decode shared_secret_hex);
  signature ← map_err SigningHex (hex_decode signature_hex);
  if negb (hmac_key_ok secret) then Err InvalidSecret
  else if bool_decide (hmac secret (bytes
            (canonical_payload_with_body_hash_hex method path device_id timestamp_unix body_hash_hex))
          = signature)
  then Ok tt else Err InvalidSignature.

Definition verify_request_signature (signature_hex method path device_id : string)
    (timestamp_unix : Z) (body : list ascii) (shared_secret_hex : string)
    : result SigningError unit :=
  verify_request_signature_with_body_hash_hex signature_hex method path device_id timestamp_unix
    (hex_encode (sha256 body)) shared_secret_hex.

(** ** Lemmas *)

(** A field of one line. *)
Definition one_line (s : string) : Prop := newline ∉ bytes s.

Lemma payload_bytes method path device_id t hash :
  bytes (canonical_payload_with_body_hash_hex method path device_id t hash)
  = bytes method ++ newline :: bytes path ++ newline :: bytes device_id ++ newline
    :: bytes (pretty (t : Z)) ++ newline :: bytes hash.
Proof. unfold canonical_payload_with_body_hash_hex. by rewrite !bytes_app. Qed.

(** The payload determines its fields. *)
Lemma payload_inj m p d t h m' p' d' t' h' :
  one_line m → one_line p → one_line d → one_line h →
  one_line m' → one_line p' → one_line d' → one_line h' →
  canonical_payload_with_body_hash_hex m p d t h = canonical_payload_with_body_hash_hex m' p' d' t' h' →
  m = m' ∧ p = p' ∧ d = d' ∧ t = t' ∧ h = h'.
Proof.
  intros Hm Hp Hd Hh Hm' Hp' Hd' Hh' E. apply (f_equal bytes) in E. rewrite !payload_bytes in E.
  apply app_sep_inj_l in E as [E1 E]; [|done..]. apply app_sep_inj_l in E as [E2 E]; [|done..].
  apply app_sep_inj_l in E as [E3 E]; [|done..]. apply app_sep_inj_r in E as [E4 E5]; [|done..].
  apply bytes_inj in E1, E2, E3, E4, E5. by apply (inj pretty) in E4.
Qed.

(** What is signed over a body hash is accepted. *)
Lemma signed_verifies `{!HexLaws} method path device_id t hash secret_hex signature :
  sign_request_with_body_hash_hex method path device_id t hash secret_hex = Ok signature →
  verify_request_signature_with_body_hash_hex signature method path device_id t hash secret_hex = Ok tt.
Proof.
  unfold sign_request_with_body_hash_hex, verify_request_signature_with_body_hash_hex.
  destruct (map_err SigningHex (hex_decode secret_hex)) as [secret|]; [|done]. simpl.
  destruct (hmac_key_ok secret); [|done]. simpl. intros [= <-].
  rewrite hex_decode_encode. simpl. by rewrite bool_decide_eq_true_2.
Qed.

End signing.

(** ** Properties *)

(** C21. Round trip: a request signed with a secret is accepted with the same secret,
    method, path, device, timestamp and body. *)
Theorem sign_verify `{!HexLib, !HexLaws, !Sha256Lib, !HmacLib}
    method path device_id t body secret_hex signature :
  sign_request method path device_id t body secret_hex = Ok signature →
  verify_request_signature signature method path device_id t body secret_hex = Ok tt.
Proof. apply signed_verifies. Qed.

(** C22. A signature binds the whole request: when one signature is accepted for two
    requests under one secret, they agree in method, path, device, timestamp and
    body hash (no field holding a newline), or the texts signed for these two requests
    are different and have the same HMAC under that secret. *)
Theorem signature_binds_request `{!HexLib, !Sha256Lib, !HmacLib}
    signature secret_hex m p d t h m' p' d' t' h' :
  one_line m → one_line p → one_line d → one_line h →
  one_line m' → one_line p' → one_line d' → one_line h' →
  verify_request_signature_with_body_hash_hex signature m p d t h secret_hex = Ok tt →
  verify_request_signature_with_body_hash_hex signature m' p' d' t' h' secret_hex = Ok tt →
  (m = m' ∧ p = p' ∧ d = d' ∧ t = t' ∧ h = h')
  ∨ ∃ secret, hex_decode secret_hex = Ok secret
    ∧ let text := bytes (canonical_payload_with_body_hash_hex m p d t h) in
      let text' := bytes (canonical_payload_with_body_hash_hex m' p' d' t' h') in
      text ≠ text' ∧ hmac secret text = hmac secret text'.
Proof.
  intros Hm Hp Hd Hh Hm' Hp' Hd' Hh'. unfold verify_request_signature_with_body_hash_hex.
  destruct (hex_decode secret_hex) as [secret|]; [|done]. simpl.
  destruct (hex_decode signature) as [sig|]; [|done]. simpl.
  destruct (hmac_key_ok secret); [|done]. simpl.
  case_bool_decide as E1; [|done]. case_bool_decide as E2; [|done]. intros _ _.
  set (x := bytes (canonical_payload_with_body_hash_hex m p d t h)) in *.
  set (y := bytes (canonical_payload_with_body_hash_hex m' p' d' t' h')) in *.
  destruct (decide (x = y)) as [E|E]; [left|right; exists secret; split_and!; [done|done|congruence]].
  apply bytes_inj in E. by eapply payload_inj.
Qed.

(** ** Witnesses *)

Module Witness.
Import Sample.

Definition w_secret : string := hex_encode (bytes "key").
Definition w_signature : string :=
  default "" (result_ok (sign_request "GET" "/v1/manifest" "7" 100 [] w_secret)).

Lemma w_signed : sign_request "GET" "/v1/manifest" "7" 100 [] w_secret = Ok w_signature.
Proof. vm_compute. reflexivity. Qed.

Lemma sign_verify_witness :
  verify_request_signature w_signature "GET" "/v1/manifest" "7" 100 [] w_secret = Ok tt
  ∧ verify_request_signature w_signature "PUT" "/v1/manifest" "7" 100 [] w_secret
    = Err InvalidSignature.
Proof.
  split; [exact (sign_verify _ _ _ _ _ _ _ w_signed)|vm_compute; reflexivity].
Defined.

(** An HMAC without collisions: the key and the text. *)
Definition w_hmac : HmacLib := {| hmac_key_ok := λ _, true; hmac := λ key text, key ++ text |}.
Definition w_bound : string :=
  default "" (result_ok (sign_request (H1 := w_hmac) "GET" "/v1/manifest" "7" 100 [] w_secret)).

(** The signature of the request is accepted for it and for no other path, time or body. *)
Lemma signature_binds_request_witness :
  verify_request_signature_with_body_hash_hex (H1 := w_hmac) w_bound "GET" "/v1/manifest" "7" 100 (hex_encode (sha256 []))
    w_secret = Ok tt
  ∧ ∀ path t hash, one_line path → one_line hash →
      verify_request_signature_with_body_hash_hex (H1 := w_hmac) w_bound "GET" path "7" t hash w_secret = Ok tt →
      path = "/v1/manifest" ∧ t = 100%Z ∧ hash = hex_encode (sha256 []).
Proof.
  assert (∀ s, negb (existsb (Ascii.eqb newline) (bytes s)) = true → one_line s) as Hl.
  { intros s Hs Hin. apply negb_true_iff in Hs. apply not_true_iff_false in Hs. apply Hs.
    apply existsb_exists. exists newline. split; [by apply list_elem_of_In|by apply ascii_eqb_true]. }
  assert (verify_request_signature_with_body_hash_hex (H1 := w_hmac) w_bound "GET" "/v1/manifest" "7" 100
    (hex_encode (sha256 [])) w_secret = Ok tt) as Hv by (vm_compute; reflexivity).
  assert (one_line (hex_encode (sha256 []))) as Hbody by (apply Hl; vm_compute; reflexivity).
  split; [exact Hv|]. intros path t hash Hp Hh Hother.
  destruct (signature_binds_request (H1 := w_hmac) w_bound w_secret "GET" path "7" t hash
    "GET" "/v1/manifest" "7" 100 (hex_encode (sha256 []))
    (Hl "GET" eq_refl) Hp (Hl "7" eq_refl) Hh
    (Hl "GET" eq_refl) (Hl "/v1/manifest" eq_refl) (Hl "7" eq_refl) Hbody Hother Hv)
    as [(_ & E1 & _ & E2 & E3)|(secret & _ & Hne & E)]; [by split_and!|].
  exfalso. apply Hne. exact (app_inv_head _ _ _ E).
Defined.

End Witness.
