(* ===== verification/PeerCrypto.v ===== *)
(** * [crates/syncer-agent/src/peer_crypto.rs]: encrypted file transfer

    Files are read and written in the model of FileSys.v; the source and the
    destination of a call are different files.  [reads content] are the buffers
    the successive [read] calls fill before the end of the file: the operating
    system may fill less than a whole buffer.  The cipher, the key derivation,
    the hash and hex are parameters. *)

From S2P Require Import Prelude RustStd External Error Manifest FileSys FolderStore RequestSigning.
From stdpp Require Import options pretty.
Local Open Scope Z_scope.

Definition CHUNK_SIZE : Z := 64 * 1024.
Definition TAG_SIZE : Z := 16.
Definition NONCE_PREFIX_BYTES : nat := 16.
Definition ENCRYPTION_ALGORITHM : string := "xchacha20poly1305-blake3-v1".

Record FileCipherContext := {
  cc_direction : string;
  cc_path : RelativePath;
  cc_content_hash : string;
  cc_plaintext_size : Z;
}.

Record CryptographicFile := {
  cf_size_bytes : Z;
  cf_content_hash : string;
  cf_nonce_hex : string;
}.

Inductive PeerCryptoError :=
| CryptoHex (message : string)
| CryptoIo (message : string)
| InvalidSharedSecret
| InvalidNonce
| Encrypt
| Decrypt
| InvalidCiphertext
| SizeOverflow
| UnexpectedPlaintextSize (expected actual : Z).

(** XChaCha20-Poly1305, detached: the ciphertext and the tag. *)
Class AeadLib := {
  aead_encrypt : list ascii → list ascii → list ascii → list ascii → option (list ascii * list ascii);
  aead_decrypt : list ascii → list ascii → list ascii → list ascii → list ascii → option (list ascii);
}.
Class AeadLaws `{!AeadLib} : Prop := {
  aead_encrypts key nonce aad pt : Z.of_nat (length pt) ≤ CHUNK_SIZE →
    is_Some (aead_encrypt key nonce aad pt);
  aead_sizes key nonce aad pt ct tag : aead_encrypt key nonce aad pt = Some (ct, tag) →
    length ct = length pt ∧ Z.of_nat (length tag) = TAG_SIZE;
  aead_roundtrip key nonce aad pt ct tag : aead_encrypt key nonce aad pt = Some (ct, tag) →
    aead_decrypt key nonce aad ct tag = Some pt;
}.

(** [blake3::derive_key]. *)
Class KdfLib := { blake3_derive_key : string → list ascii → list ascii }.

Class ReadLib := { reads : list ascii → list (list ascii) }.
(** The buffers hold the file. *)
Class ReadLaws `{!ReadLib} : Prop := { reads_whole c : mjoin (reads c) = c }.

(** ** Sizes, nonces and associated data *)

Definition chunk_count (plaintext_len : Z) : Z :=
  if plaintext_len =? 0 then 1 else (plaintext_len + CHUNK_SIZE - 1) / CHUNK_SIZE.

Definition encrypted_len (plaintext_len : Z) : Z :=
  u64_saturating_add plaintext_len (u64_saturating_mul (chunk_count plaintext_len) TAG_SIZE).

(** [u64::to_be_bytes]. *)
Definition be_bytes (v : Z) : list ascii :=
  (λ i, Ascii.ascii_of_N (Z.to_N (Z.land (Z.shiftr v (8 * i)) 255))) <$> [7; 6; 5; 4; 3; 2; 1; 0].

Definition chunk_nonce (prefix : list ascii) (chunk_index : Z) : list ascii :=
  prefix ++ be_bytes chunk_index.

Definition chunk_aad (context : FileCipherContext) (chunk_index : Z) : string :=
  context.(cc_direction) +:+ nl +:+ rel_str context.(cc_path) +:+ nl
  +:+ context.(cc_content_hash) +:+ nl +:+ pretty (context.(cc_plaintext_size) : Z) +:+ nl
  +:+ pretty (chunk_index : Z).

Section crypto.
Context `{!HexLib, !Blake3Lib, !AeadLib, !KdfLib, !ReadLib, !IoLib}.
Context (now : Z).

Definition derive_key (shared_secret_hex : string) : result PeerCryptoError (list ascii) :=
  secret ← map_err CryptoHex (hex_decode shared_secret_hex);
  if negb (Nat.eqb (length secret) 32) then Err InvalidSharedSecret
  else Ok (blake3_derive_key "syncer file transfer encryption v1" secret).

Definition decode_nonce_prefix (nonce_hex : string) : result PeerCryptoError (list ascii) :=
  bs ← map_err CryptoHex (hex_decode nonce_hex);
  if Nat.eqb (length bs) NONCE_PREFIX_BYTES then Ok bs else Err InvalidNonce.

Definition crypto_io {A} (m : M FS string A) : M FS PeerCryptoError A := λ fs,
  match m fs with
  | (Ok a, fs') => (Ok a, fs')
  | (Err message, fs') => (Err (CryptoIo message), fs')
  end.

Definition open_read (path : string) : M FS PeerCryptoError (list ascii) :=
  fs ← get_st; lift (map_err CryptoIo (fs_read fs path)).

(** [write_all] to a file that is open. *)
Definition append {E} (path : string) (bs : list ascii) : M FS E unit :=
  modify (alter (λ e, match e with
                      | EFile c _ => EFile (c ++ bs) (Some now)
                      | e => e
                      end) (components path)).

(** ** Encryption *)

Definition encrypt_chunk (key prefix : list ascii) (context : FileCipherContext)
    (destination : string) (chunk_index : Z) (chunk : list ascii) : M FS PeerCryptoError unit :=
  ct_tag ← lift (ok_or Encrypt (aead_encrypt key (chunk_nonce prefix chunk_index)
                                  (bytes (chunk_aad context chunk_index)) chunk));
  _ ← append destination ct_tag.1;
  append destination ct_tag.2.

(** The loop over the reads; [(processed, hashed)] at its end. *)
Fixpoint encrypt_loop (key prefix : list ascii) (context : FileCipherContext)
    (destination : string) (input : list (list ascii)) (processed : Z) (hashed : list ascii)
    (chunk_index : Z) : M FS PeerCryptoError (Z * list ascii) :=
  match input with
  | [] =>
      if negb (context.(cc_plaintext_size) =? 0) || negb (chunk_index =? 0)
      then mret (processed, hashed)
      else _ ← encrypt_chunk key prefix context destination chunk_index [];
           mret (processed, hashed)
  | chunk :: input =>
      _ ← encrypt_chunk key prefix context destination chunk_index chunk;
      encrypt_loop key prefix context destination input
        (u64_saturating_add processed (Z.of_nat (length chunk))) (hashed ++ chunk)
        (u64_saturating_add chunk_index 1)
  end.

(** [nonce_prefix] is the random prefix. *)
Definition encrypt_file_to_path (nonce_prefix : list ascii) (source destination : string)
    (shared_secret_hex : string) (context : FileCipherContext)
    : M FS PeerCryptoError CryptographicFile :=
  key ← lift (derive_key shared_secret_hex);
  content ← open_read source;
  _ ← crypto_io (fs_write now destination []);
  ph ← encrypt_loop key nonce_prefix context destination (reads content) 0 [] 0;
  if negb (ph.1 =? context.(cc_plaintext_size))
  then throw (UnexpectedPlaintextSize context.(cc_plaintext_size) ph.1)
  else mret {| cf_size_bytes := encrypted_len ph.1; cf_content_hash := blake3_hex ph.2;
               cf_nonce_hex := hex_encode nonce_prefix |}.

(** ** Decryption *)

(** [for chunk_index in 0..chunks]: what is left of the input, and what was hashed. *)
Fixpoint decrypt_loop (key prefix : list ascii) (context : FileCipherContext)
    (destination : string) (chunks : nat) (chunk_index remaining : Z) (input hashed : list ascii)
    : M FS PeerCryptoError (list ascii * list ascii) :=
  match chunks with
  | O => mret (input, hashed)
  | S chunks =>
      let plaintext_len := Z.min remaining CHUNK_SIZE in
      let encrypted_len := Z.to_nat (u64_saturating_add plaintext_len TAG_SIZE) in
      if (length input <? encrypted_len)%nat then throw (CryptoIo "failed to fill whole buffer")
      else
        let encrypted := take encrypted_len input in
        let tag_offset := (encrypted_len - Z.to_nat TAG_SIZE)%nat in
        plaintext ← lift (ok_or Decrypt
          (aead_decrypt key (chunk_nonce prefix chunk_index) (bytes (chunk_aad context chunk_index))
             (take tag_offset encrypted) (drop tag_offset encrypted)));
        _ ← append destination plaintext;
        decrypt_loop key prefix context destination chunks (chunk_index + 1)
          (u64_saturating_sub remaining plaintext_len) (drop encrypted_len input)
          (hashed ++ plaintext)
  end.

Definition decrypt_file_to_path (source destination : string) (shared_secret_hex nonce_hex : string)
    (context : FileCipherContext) : M FS PeerCryptoError CryptographicFile :=
  key ← lift (derive_key shared_secret_hex);
  nonce_prefix ← lift (decode_nonce_prefix nonce_hex);
  content ← open_read source;
  _ ← crypto_io (fs_write now destination []);
  ih ← decrypt_loop key nonce_prefix context destination
         (Z.to_nat (chunk_count context.(cc_plaintext_size))) 0 context.(cc_plaintext_size) content [];
  if negb (bool_decide (ih.1 = [])) then throw InvalidCiphertext
  else mret {| cf_size_bytes := context.(cc_plaintext_size); cf_content_hash := blake3_hex ih.2;
               cf_nonce_hex := nonce_hex |}.

End crypto.

(** ** Specification *)

Definition chunk_len (l : list ascii) : Z := Z.of_nat (length l).

(** The buffers of reads that always fill what is left, up to [CHUNK_SIZE]; the last
    one is the only short one. *)
Fixpoint full_chunks (remaining : Z) (chunks : list (list ascii)) : Prop :=
  match chunks with
  | [] => remaining = 0
  | chunk :: chunks =>
      chunk_len chunk = Z.min remaining CHUNK_SIZE ∧ full_chunks (remaining - chunk_len chunk) chunks
  end.

(** Reads that lose nothing, and stop only at the end of the file. *)
Definition full_reads (content : list ascii) (chunks : list (list ascii)) : Prop :=
  mjoin chunks = content ∧ full_chunks (chunk_len content) chunks ∧ Forall (λ c, c ≠ []) chunks.

Section facts.
Context `{HL : !HexLib, BL : !Blake3Lib, AL : !AeadLib, AW : !AeadLaws, KL : !KdfLib, RL : !ReadLib,
          IL : !IoLib}.
Context (now : Z) (key prefix : list ascii) (context : FileCipherContext).

(** The text of a file that holds [chunks] sealed from index [i] on. *)
Inductive sealed : Z → list (list ascii) → list ascii → Prop :=
| sealed_nil i : sealed i [] []
| sealed_cons i chunk chunks ct tag out :
    aead_encrypt key (chunk_nonce prefix i) (bytes (chunk_aad context i)) chunk = Some (ct, tag) →
    sealed (i + 1) chunks out → sealed i (chunk :: chunks) (ct ++ tag ++ out).

(** ** Lemmas *)

(** The destination is an open file with content [c]. *)
Definition holds (dest : string) (c : list ascii) (fs : FS) : Prop :=
  ∃ m, fs !! components dest = Some (EFile c m).

Lemma append_run {E} dest c bs fs : holds dest c fs →
  ∃ fs', append (E:=E) now dest bs fs = (Ok tt, fs') ∧ holds dest (c ++ bs) fs'
  ∧ ∀ k, k ≠ components dest → fs' !! k = fs !! k.
Proof.
  intros [m Hm]. eexists. split; [done|]. split.
  - exists (Some now). rewrite lookup_alter_eq, Hm. done.
  - intros k Hk. by apply lookup_alter_ne.
Qed.

Lemma encrypt_chunk_run dest c i chunk fs : holds dest c fs → chunk_len chunk ≤ CHUNK_SIZE →
  ∃ ct tag fs', aead_encrypt key (chunk_nonce prefix i) (bytes (chunk_aad context i)) chunk = Some (ct, tag)
  ∧ encrypt_chunk now key prefix context dest i chunk fs = (Ok tt, fs')
  ∧ holds dest (c ++ ct ++ tag) fs' ∧ ∀ k, k ≠ components dest → fs' !! k = fs !! k.
Proof using AW Type.
  intros Hc Hl. destruct (aead_encrypts key (chunk_nonce prefix i) (bytes (chunk_aad context i)) chunk Hl)
    as [[ct tag] Hct].
  destruct (append_run (E:=PeerCryptoError) dest c ct fs Hc) as (fs1 & Hrun1 & Hc1 & Hk1).
  destruct (append_run (E:=PeerCryptoError) dest (c ++ ct) tag fs1 Hc1) as (fs2 & Hrun2 & Hc2 & Hk2).
  exists ct, tag, fs2. split; [done|]. split.
  { unfold encrypt_chunk. rewrite M_bind_eq, Hct. unfold lift. cbn [ok_or fst snd].
    rewrite M_bind_eq, Hrun1. exact Hrun2. }
  rewrite app_assoc. split; [done|]. intros k Hk. by rewrite Hk2, Hk1.
Qed.

(** Sealing the chunks of one file, from its first chunk on. *)
Lemma encrypt_loop_run dest chunks : ∀ c processed hashed i fs,
  holds dest c fs → Forall (λ ch, chunk_len ch ≤ CHUNK_SIZE) chunks →
  0 ≤ i → 0 ≤ processed → i + Z.of_nat (length chunks) ≤ u64_max →
  processed + chunk_len (mjoin chunks) ≤ u64_max →
  chunks ≠ [] ∨ i ≠ 0 →
  ∃ out fs', encrypt_loop now key prefix context dest chunks processed hashed i fs
    = (Ok (processed + chunk_len (mjoin chunks), hashed ++ mjoin chunks), fs')
  ∧ sealed i chunks out ∧ holds dest (c ++ out) fs'
  ∧ ∀ k, k ≠ components dest → fs' !! k = fs !! k.
Proof using AW Type.
  induction chunks as [|ch chunks IH]; intros c processed hashed i fs Hc Hl Hi Hp Hib Hpb Hne.
  { exists [], fs. destruct Hne as [?|Hne]; [done|]. cbn [encrypt_loop].
    rewrite (proj2 (Z.eqb_neq i 0)), orb_true_r by done. change (mjoin []) with (@nil ascii).
    unfold chunk_len. simpl. rewrite !app_nil_r, Z.add_0_r. split_and!; [done|constructor|done|done]. }
  apply Forall_cons in Hl as [Hch Hl].
  change (mjoin (ch :: chunks)) with (ch ++ mjoin chunks) in *.
  unfold chunk_len in *. rewrite length_app in *. cbn [length] in Hib.
  destruct (encrypt_chunk_run dest c i ch fs Hc Hch) as (ct & tag & fs1 & Hct & Hrun & Hc1 & Hk1).
  destruct (IH (c ++ ct ++ tag) (processed + Z.of_nat (length ch)) (hashed ++ ch) (i + 1) fs1)
    as (out & fs2 & Hrun2 & Hs & Hc2 & Hk2); [done|done|lia|lia|lia|lia|right; lia|].
  exists (ct ++ tag ++ out), fs2. split_and!.
  - cbn [encrypt_loop]. rewrite M_bind_eq, Hrun. unfold u64_saturating_add.
    rewrite !Z.min_l by lia. rewrite Hrun2. rewrite <-app_assoc. f_equal. f_equal. f_equal. lia.
  - by econstructor.
  - by rewrite <-!app_assoc in *.
  - intros k Hk. by rewrite Hk2, Hk1.
Qed.

(** Opening what was sealed. *)
Lemma decrypt_loop_run dest i chunks out : sealed i chunks out →
  ∀ c remaining hashed fs,
  holds dest c fs → full_chunks remaining chunks → 0 ≤ remaining ≤ i64_max →
  ∃ fs', decrypt_loop now key prefix context dest (length chunks) i remaining out hashed fs
    = (Ok ([], hashed ++ mjoin chunks), fs')
  ∧ holds dest (c ++ mjoin chunks) fs' ∧ ∀ k, k ≠ components dest → fs' !! k = fs !! k.
Proof using AW Type.
  induction 1 as [i|i ch chunks ct tag out Hct _ IH]; intros c remaining hashed fs Hc Hf Hr.
  { exists fs. change (mjoin []) with (@nil ascii). simpl. rewrite !app_nil_r. by split_and!. }
  destruct Hf as [Hlen Hf]. pose proof (aead_sizes _ _ _ _ _ _ Hct) as [Hctl Htag].
  change (mjoin (ch :: chunks)) with (ch ++ mjoin chunks).
  assert (Z.to_nat (u64_saturating_add (Z.min remaining CHUNK_SIZE) TAG_SIZE)
          = (length ct + length tag)%nat) as Hel.
  { unfold u64_saturating_add, chunk_len, TAG_SIZE, CHUNK_SIZE, u64_max, i64_max in *. lia. }
  cbn [decrypt_loop length]. rewrite Hel.
  rewrite (proj2 (Nat.ltb_ge _ _)) by (rewrite !length_app; lia).
  assert (Z.to_nat TAG_SIZE = length tag) as Htl by lia. rewrite Htl.
  replace (length ct + length tag - length tag)%nat with (length ct) by lia.
  assert (take (length ct + length tag) (ct ++ tag ++ out) = ct ++ tag) as ->.
  { rewrite app_assoc. by rewrite <-length_app, take_app_length. }
  assert (drop (length ct + length tag) (ct ++ tag ++ out) = out) as ->.
  { rewrite app_assoc. by rewrite <-length_app, drop_app_length. }
  rewrite take_app_length, drop_app_length, (aead_roundtrip _ _ _ _ _ _ Hct).
  rewrite M_bind_eq. unfold lift. cbn [ok_or].
  destruct (append_run (E:=PeerCryptoError) dest c ch fs Hc) as (fs1 & Hrun1 & Hc1 & Hk1).
  rewrite M_bind_eq, Hrun1.
  replace (u64_saturating_sub remaining (Z.min remaining CHUNK_SIZE)) with (remaining - chunk_len ch)
    by (unfold u64_saturating_sub; lia).
  destruct (IH (c ++ ch) (remaining - chunk_len ch) (hashed ++ ch) fs1) as (fs2 & Hrun2 & Hc2 & Hk2);
    [done|done|unfold chunk_len, CHUNK_SIZE in *; lia|].
  exists fs2. rewrite !app_assoc. split_and!; [done|done|]. intros k Hk. by rewrite Hk2, Hk1.
Qed.

(** *** Counting chunks *)

Lemma full_chunks_count n chunks : Forall (λ c : list ascii, c ≠ []) chunks → full_chunks n chunks → 0 ≤ n →
  Z.of_nat (length chunks) = (n + CHUNK_SIZE - 1) / CHUNK_SIZE.
Proof using Type.
  revert n; induction chunks as [|ch chunks IH]; intros n Hne Hf Hn.
  { simpl in Hf. subst n. reflexivity. }
  apply Forall_cons in Hne as [Hch Hne]. destruct Hf as [Hl Hf].
  assert (0 < chunk_len ch) as Hpos by (unfold chunk_len; destruct ch; [done|simpl; lia]).
  cbn [length]. rewrite Nat2Z.inj_succ, (IH _ Hne Hf) by lia.
  destruct (Z.le_gt_cases n CHUNK_SIZE).
  - rewrite Hl, Z.min_l by lia. rewrite Z.sub_diag.
    assert (0 < n) by lia. unfold CHUNK_SIZE in *.
    rewrite Z.div_small by lia. apply (Z.div_unique _ _ (Z.succ 0) (n - 1)); lia.
  - rewrite Hl, Z.min_r by lia. unfold CHUNK_SIZE.
    replace (n + 64 * 1024 - 1) with (n - 64 * 1024 + 64 * 1024 - 1 + 1 * (64 * 1024)) by lia.
    rewrite Z.div_add by lia. lia.
Qed.

(** The chunks that are sealed: an empty file has one empty chunk. *)
Definition sealed_chunks (chunks : list (list ascii)) : list (list ascii) :=
  match chunks with [] => [[]] | _ => chunks end.

Lemma sealed_chunks_count content chunks : full_reads content chunks →
  mjoin (sealed_chunks chunks) = content ∧ full_chunks (chunk_len content) (sealed_chunks chunks)
  ∧ Forall (λ c, chunk_len c ≤ CHUNK_SIZE) (sealed_chunks chunks)
  ∧ Z.of_nat (length (sealed_chunks chunks)) = chunk_count (chunk_len content).
Proof using Type.
  intros (Hj & Hf & Hne). pose proof (full_chunks_count _ _ Hne Hf) as Hc.
  assert (∀ n cs, full_chunks n cs → Forall (λ c, chunk_len c ≤ CHUNK_SIZE) cs) as Hsmall.
  { intros n cs; revert n; induction cs as [|ch cs IH]; intros n; [constructor|].
    intros [Hl Hf']. constructor; [lia|by eapply IH]. }
  unfold chunk_count. destruct chunks as [|ch chunks].
  - simpl in Hf. change (mjoin []) with (@nil ascii) in Hj. subst content. split_and!; try done.
    by repeat constructor.
  - split_and!; [done|done|by eapply Hsmall|]. apply Forall_cons in Hne as [Hch _].
    destruct (Z.eqb_spec (chunk_len content) 0) as [E|E]; [|apply Hc; unfold chunk_len; lia].
    destruct Hf as [Hl _]. unfold chunk_len in *. destruct ch; [done|]. simpl in Hl. lia.
Qed.

Lemma sealed_length i chunks out : sealed i chunks out →
  chunk_len out = chunk_len (mjoin chunks) + TAG_SIZE * Z.of_nat (length chunks).
Proof using AW Type.
  induction 1 as [i|i ch chunks ct tag out Hct _ IH]; [done|].
  pose proof (aead_sizes _ _ _ _ _ _ Hct) as [Hctl Htag].
  change (mjoin (ch :: chunks)) with (ch ++ mjoin chunks).
  unfold chunk_len in *. rewrite !length_app. cbn [length]. lia.
Qed.

(** The whole loop of the encryption. *)
Lemma encrypt_reads_run dest content chunks fs :
  full_reads content chunks → chunk_len content = context.(cc_plaintext_size) →
  chunk_len content ≤ i64_max → holds dest [] fs →
  ∃ out fs', encrypt_loop now key prefix context dest chunks 0 [] 0 fs
    = (Ok (chunk_len content, content), fs')
  ∧ sealed 0 (sealed_chunks chunks) out ∧ holds dest out fs'
  ∧ ∀ k, k ≠ components dest → fs' !! k = fs !! k.
Proof using AW Type.
  intros Hr Hsize Hmax Hc. destruct (sealed_chunks_count content chunks Hr) as (Hj & Hf & Hsm & Hcount).
  destruct chunks as [|ch chunks].
  - destruct Hr as (Hr & _). change (mjoin []) with (@nil ascii) in Hr. subst content.
    destruct (encrypt_chunk_run dest [] 0 [] fs Hc) as (ct & tag & fs1 & Hct & Hrun & Hc1 & Hk1); [done|].
    exists (ct ++ tag ++ []), fs1. split_and!.
    + cbn [encrypt_loop]. rewrite <-Hsize.
      change (negb (chunk_len [] =? 0) || negb (0 =? 0)) with false. cbn iota. by rewrite M_bind_eq, Hrun.
    + econstructor; [done|constructor].
    + by rewrite app_nil_r.
    + done.
  - assert (Z.of_nat (length (ch :: chunks)) ≤ i64_max) as Hlen.
    { unfold sealed_chunks in Hcount. rewrite Hcount. unfold chunk_count.
      case_match; [done|]. unfold CHUNK_SIZE, i64_max, chunk_len in *.
      apply Z.div_le_upper_bound; lia. }
    destruct (encrypt_loop_run dest (ch :: chunks) [] 0 [] 0 fs) as (out & fs' & Hrun & Hs & Hc' & Hk);
      try done; [unfold u64_max, i64_max in *; lia| |by left|].
    { unfold sealed_chunks in Hj. rewrite Hj. unfold u64_max, i64_max in *. lia. }
    exists out, fs'. unfold sealed_chunks in Hj. rewrite Hj in Hrun. by split_and!.
Qed.

(** Opening takes exactly the bytes the sizes announce. *)
Lemma decrypt_loop_length dest chunks : ∀ i remaining input hashed fs rest h fs',
  0 ≤ remaining ≤ i64_max →
  decrypt_loop now key prefix context dest chunks i remaining input hashed fs = (Ok (rest, h), fs') →
  chunk_len input = chunk_len rest + Z.min remaining (CHUNK_SIZE * Z.of_nat chunks) + TAG_SIZE * Z.of_nat chunks.
Proof using Type.
  induction chunks as [|chunks IH]; intros i remaining input hashed fs rest h fs' Hr; cbn [decrypt_loop].
  { intros [= -> _ _]. rewrite Z.mul_0_r, Z.min_r by lia. lia. }
  set (el := Z.to_nat (u64_saturating_add (Z.min remaining CHUNK_SIZE) TAG_SIZE)).
  assert (Z.of_nat el = Z.min remaining CHUNK_SIZE + TAG_SIZE) as Hel.
  { unfold el, u64_saturating_add, TAG_SIZE, CHUNK_SIZE, u64_max, i64_max in *. lia. }
  destruct (Nat.ltb_spec (length input) el) as [|Hin]; [discriminate|].
  rewrite M_bind_eq. unfold lift. destruct (aead_decrypt _ _ _ _ _) as [plaintext|]; [|discriminate].
  cbn [ok_or]. rewrite M_bind_eq. unfold append at 1, modify at 1. intros Hrun.
  apply IH in Hrun; [|unfold u64_saturating_sub, CHUNK_SIZE, i64_max in *; lia].
  unfold chunk_len in *. rewrite length_drop in Hrun. unfold u64_saturating_sub, CHUNK_SIZE, TAG_SIZE in *. lia.
Qed.

End facts.

(** *** Decimal digits hold no newline *)

Lemma pretty_N_go_one_line x s : one_line s → one_line (pretty_N_go x s).
Proof.
  revert s. induction (N.lt_wf_0 x) as [x _ IH]; intros s Hs.
  destruct (decide (x = 0)%N) as [->|Hx]; [by rewrite pretty_N_go_0|].
  rewrite pretty_N_go_step by lia. apply IH; [apply N.div_lt; lia|].
  intros [E|Hin]%elem_of_cons; [|done]. unfold pretty_N_char in E. by repeat case_match.
Qed.

Lemma pretty_Z_one_line (z : Z) : one_line (pretty z).
Proof.
  assert (∀ n : N, one_line (pretty n)) as HN.
  { intros n. unfold pretty, pretty_N. case_decide.
    - intros [E|Hin]%elem_of_cons; [done|]. by apply not_elem_of_nil in Hin.
    - apply pretty_N_go_one_line. by apply not_elem_of_nil. }
  unfold pretty, pretty_Z. destruct z as [|p|p].
  - apply (HN 0%N).
  - apply (HN (Npos p)).
  - intros [E|Hin]%elem_of_cons; [done|]. by apply (HN (Npos p)).
Qed.

Lemma aad_bytes context i :
  bytes (chunk_aad context i)
  = bytes context.(cc_direction) ++ newline :: ((bytes (rel_str context.(cc_path)) ++ newline
    :: bytes context.(cc_content_hash)) ++ newline :: bytes (pretty (context.(cc_plaintext_size) : Z)))
    ++ newline :: bytes (pretty (i : Z)).
Proof. unfold chunk_aad. rewrite !bytes_app. simpl. by rewrite <-!app_assoc. Qed.

(** One byte of [be_bytes], as a digit in base 256. *)
Lemma be_byte_digit v w i : 0 ≤ v → 0 ≤ w → 0 ≤ i →
  Ascii.ascii_of_N (Z.to_N (Z.land (Z.shiftr v (8 * i)) 255))
  = Ascii.ascii_of_N (Z.to_N (Z.land (Z.shiftr w (8 * i)) 255)) →
  v / 2 ^ (8 * (i + 1)) = w / 2 ^ (8 * (i + 1)) → v / 2 ^ (8 * i) = w / 2 ^ (8 * i).
Proof.
  intros Hv Hw Hi E Hhigh. change 255 with (Z.ones 8) in E.
  rewrite !Z.land_ones, !Z.shiftr_div_pow2 in E by lia.
  pose proof (Z.mod_pos_bound (v / 2 ^ (8 * i)) (2 ^ 8)). pose proof (Z.mod_pos_bound (w / 2 ^ (8 * i)) (2 ^ 8)).
  apply (f_equal Ascii.N_of_ascii) in E. rewrite !Ascii.N_ascii_embedding in E by lia.
  apply Z2N.inj in E; [|lia..].
  replace (8 * (i + 1)) with (8 * i + 8) in Hhigh by lia.
  rewrite Z.pow_add_r, <-!Z.div_div in Hhigh by lia.
  rewrite (Z.div_mod (v / 2 ^ (8 * i)) (2 ^ 8)), (Z.div_mod (w / 2 ^ (8 * i)) (2 ^ 8)) by lia.
  by rewrite Hhigh, E.
Qed.

Lemma be_bytes_inj v w : is_u64 v → is_u64 w → be_bytes v = be_bytes w → v = w.
Proof.
  intros Hv Hw E. unfold is_u64, u64_max in *.
  assert (v / 2 ^ (8 * 8) = w / 2 ^ (8 * 8)) as H8 by (rewrite !Z.div_small by lia; done).
  pose proof (fmap_eq_elem _ _ _ E) as Hb. cbn beta in Hb.
  apply (be_byte_digit v w 7) in H8; [|lia|lia|lia|apply Hb; repeat (apply list_elem_of_here || apply list_elem_of_further)].
  apply (be_byte_digit v w 6) in H8; [|lia|lia|lia|apply Hb; repeat (apply list_elem_of_here || apply list_elem_of_further)].
  apply (be_byte_digit v w 5) in H8; [|lia|lia|lia|apply Hb; repeat (apply list_elem_of_here || apply list_elem_of_further)].
  apply (be_byte_digit v w 4) in H8; [|lia|lia|lia|apply Hb; repeat (apply list_elem_of_here || apply list_elem_of_further)].
  apply (be_byte_digit v w 3) in H8; [|lia|lia|lia|apply Hb; repeat (apply list_elem_of_here || apply list_elem_of_further)].
  apply (be_byte_digit v w 2) in H8; [|lia|lia|lia|apply Hb; repeat (apply list_elem_of_here || apply list_elem_of_further)].
  apply (be_byte_digit v w 1) in H8; [|lia|lia|lia|apply Hb; repeat (apply list_elem_of_here || apply list_elem_of_further)].
  apply (be_byte_digit v w 0) in H8; [|lia|lia|lia|apply Hb; repeat (apply list_elem_of_here || apply list_elem_of_further)].
  change (2 ^ (8 * 0)) with 1 in H8. by rewrite !Z.div_1_r in H8.
Qed.

Lemma decode_nonce_ok `{HL : !HexLib, HW : !HexLaws} prefix : length prefix = NONCE_PREFIX_BYTES →
  decode_nonce_prefix (hex_encode prefix) = Ok prefix.
Proof. intros H. unfold decode_nonce_prefix. rewrite hex_decode_encode. simpl. by rewrite H. Qed.

(** Changing a file leaves the directories where they are. *)
Lemma has_parent_kept fs fs' e k : (∀ k', k' ≠ e → fs' !! k' = fs !! k') →
  file_or_none (fs !! e) → has_parent fs k = true → has_parent fs' k = true.
Proof.
  intros Hk He. unfold has_parent. destruct (reverse k) as [|[] [|c r]]; try done.
  rewrite !bool_decide_eq_true. intros Hd. rewrite Hk; [done|]. intros E. rewrite E in Hd.
  destruct He as [He|(c' & m & He)]; congruence.
Qed.

Lemma encrypted_len_exact n : 0 ≤ n ≤ i64_max → encrypted_len n = n + TAG_SIZE * chunk_count n.
Proof.
  intros Hn. unfold encrypted_len, u64_saturating_add, u64_saturating_mul, chunk_count, TAG_SIZE, CHUNK_SIZE in *.
  unfold u64_max, i64_max in *. destruct (Z.eqb_spec n 0); [lia|].
  pose proof (Z.mul_div_le (n + 64 * 1024 - 1) (64 * 1024)).
  assert (0 ≤ (n + 64 * 1024 - 1) / (64 * 1024)) by (apply Z.div_pos; lia). lia.
Qed.

Section files.
Context `{HL : !HexLib, HW : !HexLaws, BL : !Blake3Lib, AL : !AeadLib, AW : !AeadLaws, KL : !KdfLib,
          RL : !ReadLib, IL : !IoLib}.

(** [out] is [content] encrypted by a holder of the secret, in full chunks. *)
Inductive ciphertext_of (secret_hex : string) (prefix : list ascii) (context : FileCipherContext)
    (content out : list ascii) : Prop :=
| ciphertext_intro key chunks :
    derive_key secret_hex = Ok key → length prefix = NONCE_PREFIX_BYTES →
    full_reads content chunks → sealed key prefix context 0 (sealed_chunks chunks) out →
    chunk_len content = context.(cc_plaintext_size) → chunk_len content ≤ i64_max →
    ciphertext_of secret_hex prefix context content out.

Lemma derive_key_ok secret_hex secret : hex_decode secret_hex = Ok secret → length secret = 32%nat →
  derive_key secret_hex = Ok (blake3_derive_key "syncer file transfer encryption v1" secret).
Proof using Type. intros H Hl. unfold derive_key. rewrite H. simpl. by rewrite Hl. Qed.

Lemma ciphertext_length secret_hex prefix context content out :
  ciphertext_of secret_hex prefix context content out → chunk_len out = encrypted_len (chunk_len content).
Proof using AW Type.
  intros [key chunks Hkey Hpre Hreads Hsealed Hsize Hmax].
  destruct (sealed_chunks_count content chunks Hreads) as (Hj & Hf & _ & Hcount).
  rewrite (sealed_length _ _ _ _ _ _ Hsealed), Hj, Hcount.
  symmetry. apply encrypted_len_exact. split; [unfold chunk_len; lia|done].
Qed.

Lemma encrypt_file_run now fs source encrypted secret_hex key prefix context content m :
  derive_key secret_hex = Ok key → length prefix = NONCE_PREFIX_BYTES →
  fs !! components source = Some (EFile content m) → full_reads content (reads content) →
  chunk_len content = context.(cc_plaintext_size) → chunk_len content ≤ i64_max →
  file_or_none (fs !! components encrypted) → has_parent fs (components encrypted) = true →
  ∃ out fs1, encrypt_file_to_path now prefix source encrypted secret_hex context fs
    = (Ok {| cf_size_bytes := encrypted_len (chunk_len content); cf_content_hash := blake3_hex content;
             cf_nonce_hex := hex_encode prefix |}, fs1)
  ∧ ciphertext_of secret_hex prefix context content out ∧ holds encrypted out fs1
  ∧ ∀ k, k ≠ components encrypted → fs1 !! k = fs !! k.
Proof using AW Type.
  intros Hkey Hpre Hsrc Hreads Hsize Hmax Hfe Hpe.
  set (fs0 := <[components encrypted := EFile [] (Some now)]> fs).
  destruct (encrypt_reads_run now key prefix context encrypted content (reads content) fs0 Hreads Hsize Hmax)
    as (out & fs1 & Hrun & Hsealed & Hout & Hk1).
  { exists (Some now). apply lookup_insert_eq. }
  exists out, fs1. split_and!; [|by econstructor|done|].
  - unfold encrypt_file_to_path. rewrite Hkey, bind_lift_Ok. rewrite M_bind_eq.
    unfold open_read, get_st, fs_read. rewrite M_bind_eq, Hsrc. cbn [map_err lift]. rewrite M_bind_eq.
    unfold crypto_io. rewrite fs_write_ok by done. fold fs0. rewrite M_bind_eq, Hrun. cbn [fst snd].
    rewrite Hsize, Z.eqb_refl. reflexivity.
  - intros k Hk. rewrite Hk1 by done. by apply lookup_insert_ne.
Qed.

Lemma decrypt_file_run now fs encrypted destination secret_hex prefix context content out m :
  ciphertext_of secret_hex prefix context content out →
  fs !! components encrypted = Some (EFile out m) →
  file_or_none (fs !! components destination) → has_parent fs (components destination) = true →
  ∃ fs', decrypt_file_to_path now encrypted destination secret_hex (hex_encode prefix) context fs
    = (Ok {| cf_size_bytes := chunk_len content; cf_content_hash := blake3_hex content;
             cf_nonce_hex := hex_encode prefix |}, fs')
  ∧ holds destination content fs' ∧ ∀ k, k ≠ components destination → fs' !! k = fs !! k.
Proof using AW HW Type.
  intros [key chunks Hkey Hpre Hreads Hsealed Hsize Hmax] Hsrc Hfd Hpd.
  destruct (sealed_chunks_count content chunks Hreads) as (Hj & Hf & _ & Hcount).
  set (fs1 := <[components destination := EFile [] (Some now)]> fs).
  destruct (decrypt_loop_run now key prefix context destination 0 (sealed_chunks chunks) out
    Hsealed [] (chunk_len content) [] fs1) as (fs2 & Hrun2 & Hdst & Hk2).
  { exists (Some now). apply lookup_insert_eq. }
  { done. } { unfold chunk_len in *. lia. }
  exists fs2. rewrite Hj in *. split_and!; [|done|].
  - unfold decrypt_file_to_path. rewrite Hkey, bind_lift_Ok, decode_nonce_ok, bind_lift_Ok by done.
    rewrite M_bind_eq. unfold open_read, get_st, fs_read. rewrite M_bind_eq, Hsrc. cbn [map_err lift].
    rewrite M_bind_eq. unfold crypto_io. rewrite fs_write_ok by done. fold fs1.
    rewrite M_bind_eq, <-Hsize, <-Hcount, Nat2Z.id, Hrun2. cbn [fst snd].
    rewrite bool_decide_eq_true_2 by done. cbn [negb]. reflexivity.
  - intros k Hk. rewrite Hk2 by done. by apply lookup_insert_ne.
Qed.

(** A file that is opened has the length of a file in full chunks. *)
Lemma decrypt_file_length now fs encrypted destination secret_hex nonce_hex context out m f fs' :
  fs !! components encrypted = Some (EFile out m) → 0 ≤ context.(cc_plaintext_size) ≤ i64_max →
  decrypt_file_to_path now encrypted destination secret_hex nonce_hex context fs = (Ok f, fs') →
  chunk_len out = encrypted_len context.(cc_plaintext_size).
Proof using Type.
  intros Hsrc Hsize. unfold decrypt_file_to_path.
  rewrite M_bind_eq. destruct (derive_key secret_hex) as [key|]; [|discriminate]. unfold lift at 1.
  rewrite M_bind_eq. destruct (decode_nonce_prefix nonce_hex) as [prefix|]; [|discriminate]. unfold lift at 1.
  rewrite M_bind_eq. unfold open_read, get_st, fs_read. rewrite M_bind_eq, Hsrc. cbn [map_err lift].
  rewrite M_bind_eq. destruct (crypto_io (fs_write now destination []) fs) as [[[]|] fs1]; [|discriminate].
  rewrite M_bind_eq. destruct (decrypt_loop _ _ _ _ _ _ _ _ _ _ fs1) as [[[rest h]|] fs2] eqn:Hloop; [|discriminate].
  cbn [fst snd]. case_bool_decide as E; [|discriminate]. intros _. subst rest.
  apply decrypt_loop_length in Hloop; [|done].
  rewrite encrypted_len_exact by done. unfold chunk_count in *. unfold chunk_len in *. simpl in Hloop.
  destruct (Z.eqb_spec (cc_plaintext_size context) 0) as [E0|E0].
  - rewrite E0 in *. unfold CHUNK_SIZE, TAG_SIZE in *. simpl in Hloop. lia.
  - set (n := cc_plaintext_size context) in *.
    assert (0 ≤ (n + CHUNK_SIZE - 1) / CHUNK_SIZE) by (apply Z.div_pos; unfold CHUNK_SIZE; lia).
    pose proof (Z.mul_succ_div_gt (n + CHUNK_SIZE - 1) CHUNK_SIZE).
    rewrite Z2Nat.id in Hloop by done. unfold CHUNK_SIZE, TAG_SIZE in *. lia.
Qed.

End files.

(** ** Properties *)

Section properties.
Context `{HL : !HexLib, HW : !HexLaws, BL : !Blake3Lib, AL : !AeadLib, AW : !AeadLaws, KL : !KdfLib,
          RL : !ReadLib, IL : !IoLib}.

(** C20. Round trip: a file encrypted for a peer and decrypted with the same secret,
    context and nonce is the file, the hashes both ends report are the hash of its
    content, the ciphertext has the announced length, and nothing but the two
    destinations changed -- provided every read fills its buffer. *)
Theorem encrypt_decrypt now fs source encrypted destination secret_hex secret prefix context content m :
  hex_decode secret_hex = Ok secret → length secret = 32%nat → length prefix = NONCE_PREFIX_BYTES →
  fs !! components source = Some (EFile content m) →
  full_reads content (reads content) →
  chunk_len content = context.(cc_plaintext_size) → chunk_len content ≤ i64_max →
  components encrypted ≠ components source → components destination ≠ components encrypted →
  file_or_none (fs !! components encrypted) → file_or_none (fs !! components destination) →
  has_parent fs (components encrypted) = true → has_parent fs (components destination) = true →
  ∃ f fs1 f' fs2,
    encrypt_file_to_path now prefix source encrypted secret_hex context fs = (Ok f, fs1)
  ∧ decrypt_file_to_path now encrypted destination secret_hex f.(cf_nonce_hex) context fs1 = (Ok f', fs2)
  ∧ holds destination content fs2
  ∧ f.(cf_content_hash) = blake3_hex content ∧ f'.(cf_content_hash) = blake3_hex content
  ∧ (∃ c, holds encrypted c fs1 ∧ chunk_len c = f.(cf_size_bytes))
  ∧ f.(cf_size_bytes) = encrypted_len (chunk_len content)
  ∧ ∀ k, k ≠ components encrypted → k ≠ components destination → fs2 !! k = fs !! k.
Proof using All.
  intros Hsec Hlen Hpre Hsrc Hreads Hsize Hmax Hne1 Hne2 Hfe Hfd Hpe Hpd.
  destruct (encrypt_file_run now fs source encrypted secret_hex _ prefix context content m
    (derive_key_ok _ _ Hsec Hlen)) as (out & fs1 & Hrun1 & Hct & [m1 Hout] & Hk1); [done..|].
  destruct (decrypt_file_run now fs1 encrypted destination secret_hex prefix context content out m1)
    as (fs2 & Hrun2 & Hdst & Hk2); [done|done|by rewrite Hk1| |].
  { by apply (has_parent_kept fs _ (components encrypted)). }
  eexists _, fs1, _, fs2. split; [exact Hrun1|]. split; [exact Hrun2|].
  cbn [cf_nonce_hex cf_content_hash cf_size_bytes]. split_and!; [done|done|done| |done|].
  - exists out. split; [by exists m1|]. by eapply ciphertext_length.
  - intros k He Hd. by rewrite Hk2, Hk1.
Qed.

(** A chunk is bound to its place: under one nonce prefix two chunk indices never
    give the same nonce, and the associated data of a chunk determines direction,
    path, content hash, size and index, whatever the path holds. *)
Theorem chunk_binding prefix context context' i j :
  is_u64 i → is_u64 j →
  (chunk_nonce prefix i = chunk_nonce prefix j → i = j)
  ∧ (one_line context.(cc_direction) → one_line context'.(cc_direction) →
     one_line context.(cc_content_hash) → one_line context'.(cc_content_hash) →
     chunk_aad context i = chunk_aad context' j → context = context' ∧ i = j).
Proof using Type.
  intros Hi Hj. split.
  - intros E%app_inv_head. by apply be_bytes_inj.
  - intros Hd Hd' Hh Hh' E. apply (f_equal bytes) in E. rewrite !aad_bytes in E.
    apply app_sep_inj_l in E as [E1 E]; [|done..].
    apply app_sep_inj_r in E as [E E5]; [|apply pretty_Z_one_line..].
    apply app_sep_inj_r in E as [E E4]; [|apply pretty_Z_one_line..].
    apply app_sep_inj_r in E as [E2 E3]; [|done..].
    apply bytes_inj in E1, E2, E3, E4, E5. apply (inj pretty) in E4, E5.
    split; [|done]. destruct context as [? [] ? ?], context' as [? [] ? ?]; simpl in *. congruence.
Qed.

(** C40. The transfer depends on reads that fill their buffer: when the operating system hands
    the file over in more pieces than there are chunks, the encryption still reports success,
    with the hash of the file and the length it would have in full chunks, but what it wrote has
    another length, and no receiver can open it, wherever the bytes end up. *)
Theorem short_reads_break_transfer now fs source encrypted secret_hex secret prefix context content m :
  hex_decode secret_hex = Ok secret → length secret = 32%nat → length prefix = NONCE_PREFIX_BYTES →
  fs !! components source = Some (EFile content m) →
  mjoin (reads content) = content → Forall (λ c, c ≠ [] ∧ chunk_len c ≤ CHUNK_SIZE) (reads content) →
  content ≠ [] → chunk_count (chunk_len content) < Z.of_nat (length (reads content)) →
  chunk_len content = context.(cc_plaintext_size) → chunk_len content ≤ i64_max →
  file_or_none (fs !! components encrypted) → has_parent fs (components encrypted) = true →
  ∃ f fs1 out, encrypt_file_to_path now prefix source encrypted secret_hex context fs = (Ok f, fs1)
  ∧ f.(cf_content_hash) = blake3_hex content ∧ f.(cf_size_bytes) = encrypted_len (chunk_len content)
  ∧ holds encrypted out fs1 ∧ f.(cf_size_bytes) < chunk_len out
  ∧ ∀ now' received destination nonce_hex secret_hex' fs', holds received out fs' →
      is_ok (decrypt_file_to_path now' received destination secret_hex' nonce_hex context fs').1 = false.
Proof using AW Type.
  intros Hsec Hlen Hpre Hsrc Hj Hall Hne Hcount Hsize Hmax Hfe Hpe. set (chunks := reads content) in *.
  assert (0 ≤ chunk_len content) as Hpos by (unfold chunk_len; lia).
  assert (Z.of_nat (length chunks) ≤ chunk_len content) as Hchunks.
  { rewrite <-Hj. clear -Hall. induction Hall as [|c l [Hc _] _ IH]; [done|].
    change (mjoin (c :: l)) with (c ++ mjoin l). unfold chunk_len in *. rewrite length_app. destruct c; [done|]. simpl in *. lia. }
  pose proof (derive_key_ok _ _ Hsec Hlen) as Hkey. set (key := blake3_derive_key _ secret) in Hkey.
  destruct (encrypt_loop_run now key prefix context encrypted chunks [] 0 [] 0
    (<[components encrypted := EFile [] (Some now)]> fs)) as (out & fs1 & Hrun & Hsealed & Hout & _).
  - exists (Some now). apply lookup_insert_eq.
  - eapply Forall_impl; [exact Hall|]. by intros c [_ ?].
  - done.
  - done.
  - unfold u64_max, i64_max in *. lia.
  - rewrite Hj. unfold u64_max, i64_max in *. lia.
  - left. intros E. apply Hne. by rewrite <-Hj, E.
  - pose proof (sealed_length _ _ _ _ _ _ Hsealed) as Hl. rewrite Hj in Hl, Hrun.
    assert (encrypted_len (chunk_len content) < chunk_len out) as Hlong
      by (rewrite encrypted_len_exact, Hl by done; unfold TAG_SIZE; lia).
    exists {| cf_size_bytes := encrypted_len (chunk_len content); cf_content_hash := blake3_hex content;
              cf_nonce_hex := hex_encode prefix |}, fs1, out.
    split_and!; [|done|done|exact Hout|exact Hlong|].
    + unfold encrypt_file_to_path. rewrite Hkey, bind_lift_Ok. rewrite M_bind_eq.
      unfold open_read, get_st, fs_read. rewrite M_bind_eq, Hsrc. cbn [map_err lift]. rewrite M_bind_eq.
      unfold crypto_io. rewrite fs_write_ok by done. rewrite M_bind_eq. fold chunks. rewrite Hrun. cbn [fst snd].
      rewrite Z.add_0_l, Hsize, Z.eqb_refl. done.
    + intros now' received destination nonce_hex secret_hex' fs' [m' Hin].
      destruct (decrypt_file_to_path _ _ _ _ _ _ fs') as [[f|e] fs2] eqn:Hdec; [|done]. exfalso.
      apply (decrypt_file_length _ _ _ _ _ _ _ _ _ _ _ Hin) in Hdec; rewrite <-Hsize in *; [lia|done].
Qed.

End properties.

(** ** Witnesses, and reads that do not fill their buffer *)

Module Witness.
Import Sample SampleFs.

(** A cipher that leaves the text readable, with a tag over the text and the data. *)
Definition w_check (nonce aad pt : list ascii) : list ascii :=
  take 16 (reverse pt ++ reverse nonce ++ replicate 16 newline).
#[export] Instance w_aead : AeadLib :=
  {| aead_encrypt := λ _ n a pt, Some (pt, w_check n a pt);
     aead_decrypt := λ _ n a ct tag, if bool_decide (tag = w_check n a ct) then Some ct else None |}.
#[export] Instance w_aead_laws : AeadLaws.
Proof.
  constructor.
  - intros. by eexists.
  - intros k n a pt ct tag [= <- <-]. split; [done|]. unfold w_check, TAG_SIZE.
    rewrite length_take, !length_app, length_replicate. lia.
  - intros k n a pt ct tag [= <- <-]. simpl. by rewrite bool_decide_eq_true_2.
Qed.
#[export] Instance w_kdf : KdfLib := {| blake3_derive_key := λ _ s, s |}.

(** One buffer for the small files of the witness. *)
Definition w_reads : ReadLib :=
  {| reads := λ c, match c with [] => [] | _ => [c] end |}.
Lemma w_reads_laws : @ReadLaws w_reads.
Proof. constructor. intros [|a c]; [done|]. simpl. by rewrite app_nil_r. Qed.
(** A system that fills one byte at a time. *)
Definition w_short_reads : ReadLib := {| reads := λ c, (λ a, [a]) <$> c |}.

Definition w_secret : string := hex_encode (replicate 32 newline).
Definition w_prefix : list ascii := replicate 16 newline.
Definition w_context : FileCipherContext :=
  {| cc_direction := "download"; cc_path := {| rel_str := "a.txt" |};
     cc_content_hash := "h"; cc_plaintext_size := 2 |}.
Definition w_fs : FS := <[[Normal "a.txt"] := EFile (bytes "ab") None]> ∅.

Lemma encrypt_decrypt_witness :
  ∃ f fs1 f' fs2,
    encrypt_file_to_path (H3 := w_reads) 9 w_prefix "a.txt" "a.enc" w_secret w_context w_fs = (Ok f, fs1)
  ∧ decrypt_file_to_path 9 "a.enc" "a.out" w_secret f.(cf_nonce_hex) w_context fs1 = (Ok f', fs2)
  ∧ holds "a.out" (bytes "ab") fs2.
Proof.
  destruct (encrypt_decrypt (RL := w_reads) 9 w_fs "a.txt" "a.enc" "a.out" w_secret (replicate 32 newline)
    w_prefix w_context (bytes "ab") None) as (f & fs1 & f' & fs2 & H1 & H2 & H3 & _).
  - apply hex_decode_encode.
  - reflexivity.
  - reflexivity.
  - vm_compute. reflexivity.
  - split; [reflexivity|]. split; [vm_compute; auto|]. repeat constructor. discriminate.
  - reflexivity.
  - vm_compute. discriminate.
  - vm_compute. discriminate.
  - vm_compute. discriminate.
  - left. vm_compute. reflexivity.
  - left. vm_compute. reflexivity.
  - reflexivity.
  - reflexivity.
  - exists f, fs1, f', fs2. split; [exact H1|]. split; [exact H2|exact H3].
Defined.

Lemma chunk_binding_witness : chunk_nonce w_prefix 1 ≠ chunk_nonce w_prefix 2.
Proof.
  assert (is_u64 1) as H1 by (vm_compute; split; discriminate).
  assert (is_u64 2) as H2 by (vm_compute; split; discriminate).
  intros E. pose proof (proj1 (chunk_binding w_prefix w_context w_context 1 2 H1 H2) E). discriminate.
Defined.

(** One byte at a time, two bytes are two chunks instead of one. *)
Lemma short_reads_break_transfer_witness :
  ∃ f fs1 out,
    encrypt_file_to_path (H3 := w_short_reads) 9 w_prefix "a.txt" "a.enc" w_secret w_context w_fs = (Ok f, fs1)
  ∧ f.(cf_size_bytes) < chunk_len out
  ∧ is_ok (decrypt_file_to_path 9 "a.enc" "a.out" w_secret f.(cf_nonce_hex) w_context fs1).1 = false.
Proof.
  destruct (short_reads_break_transfer (RL := w_short_reads) 9 w_fs "a.txt" "a.enc" w_secret (replicate 32 newline)
    w_prefix w_context (bytes "ab") None) as (f & fs1 & out & H1 & _ & _ & H2 & H3 & H4).
  - apply hex_decode_encode.
  - reflexivity.
  - reflexivity.
  - vm_compute. reflexivity.
  - reflexivity.
  - repeat constructor; discriminate.
  - discriminate.
  - vm_compute. reflexivity.
  - reflexivity.
  - vm_compute. discriminate.
  - left. vm_compute. reflexivity.
  - reflexivity.
  - exists f, fs1, out. split; [exact H1|]. split; [exact H3|]. exact (H4 _ _ _ _ _ _ H2).
Defined.

End Witness.
