(* ===== verification/PeerStore.v ===== *)
(** * [crates/syncer-agent/src/profile.rs] and [peer_store.rs]: who this device trusts

    Random values, new identifiers and the clock are arguments. *)

From S2P Require Import Prelude RustStd External Error Manifest Limits Model FileSys.
From stdpp Require Import options.
Local Open Scope Z_scope.

(** ** [profile.rs] *)

Record LocalDeviceProfile := {
  lp_device_id : DeviceId;
  lp_device_name : DeviceName;
  lp_created_at : OffsetDateTime;
  lp_local_api_token_hex : string;
  lp_identity_public_hex : string;
  lp_identity_secret_hex : string;
}.

Inductive ProfileReadError :=
| ProfileRead (path source : string)
| ProfileJson (message : string).

Definition hex_token `{!HexLib} (bs : list ascii) : string := hex_encode bs.
Definition public_identity_hex `{!HexLib, !Sha256Lib} (secret : list ascii) : string :=
  hex_encode (sha256 secret).

Definition profile_create `{!HexLib, !Sha256Lib} (identity_secret token : list ascii)
    (id : DeviceId) (now : OffsetDateTime) (name : string) : CoreResult LocalDeviceProfile :=
  device_name ← device_name_parse name;
  Ok {| lp_device_id := id; lp_device_name := device_name; lp_created_at := now;
        lp_local_api_token_hex := hex_token token;
        lp_identity_public_hex := public_identity_hex identity_secret;
        lp_identity_secret_hex := hex_token identity_secret |}.

Definition profile_read `{!IoLib, !SerdeJson LocalDeviceProfile} (path : string)
    : M FS ProfileReadError LocalDeviceProfile :=
  fs ← get_st;
  bytes ← lift (map_err (ProfileRead path) (fs_read fs path));
  lift (map_err ProfileJson (from_json bytes)).

(** ** [peer_store.rs]: errors and documents *)

Inductive PeerStoreError :=
| InvalidTtl
| ExpiredTicket
| UnsupportedSchema (version : Z)
| StoreInvalidSharedSecret
| StoreRead (path source : string)
| StoreCreateDirectory (path source : string)
| StoreWrite (path source : string)
| StoreJson (message : string)
| StoreHex (message : string).

Record PairingTicketDocument := {
  pd_schema_version : Z;
  pd_device_id : DeviceId;
  pd_device_name : string;
  pd_endpoint : string;
  pd_identity_public_hex : string;
  pd_shared_secret_hex : string;
  pd_expires_at : OffsetDateTime;
}.

Record TrustedPeer := {
  tp_device_id : DeviceId;
  tp_device_name : string;
  tp_endpoint : string;
  tp_identity_public_hex : string;
  tp_shared_secret_hex : string;
  tp_trusted_at : OffsetDateTime;
}.

Record PeerStoreDocument := { sd_schema_version : Z; sd_peers : list TrustedPeer }.

(** ** Paths of the store *)

Definition render (cs : list Component) : string :=
  match cs with
  | RootDir :: cs => "/" +:+ join_with slash (component_as_str <$> cs)
  | cs => join_with slash (component_as_str <$> cs)
  end.

(** [Utf8Path::parent]. *)
Definition path_parent (path : string) : option string :=
  match reverse (components path) with
  | [] | RootDir :: _ => None
  | _ :: r => Some (render (reverse r))
  end.

Definition dot : ascii := Ascii.ascii_of_N 46.
(** The name without its last extension; a leading dot starts no extension. *)
Definition file_stem (name : string) : string :=
  match reverse (split_on dot name) with
  | _ :: segment :: r =>
      let stem := join_with dot (reverse (segment :: r)) in
      if bool_decide (stem = "") then name else stem
  | _ => name
  end.

Example file_stem_examples :
  (file_stem "a.txt", file_stem "a.b.c", file_stem ".bashrc", file_stem "x", file_stem ".a.b")
  = ("a", "a.b", ".bashrc", "x", ".a").
Proof. vm_compute. reflexivity. Qed.

(** [Utf8Path::with_extension] of a path that ends in a name. *)
Definition with_extension (path extension : string) : string :=
  match reverse (components path) with
  | Normal name :: r => render (reverse r ++ [Normal (file_stem name +:+ "." +:+ extension)])
  | _ => path
  end.

Section store.
Context `{!HexLib, !IoLib, !SerdeJson PairingTicketDocument, !SerdeJson PeerStoreDocument}.

Definition ticket_create (profile : LocalDeviceProfile) (secret : list ascii) (now : OffsetDateTime)
    (endpoint : string) (ttl_seconds : Z) : result PeerStoreError PairingTicketDocument :=
  if ttl_seconds <=? 0 then Err InvalidTtl
  else Ok {| pd_schema_version := 1; pd_device_id := profile.(lp_device_id);
             pd_device_name := device_name_as_str profile.(lp_device_name);
             pd_endpoint := endpoint;
             pd_identity_public_hex := profile.(lp_identity_public_hex);
             pd_shared_secret_hex := hex_encode secret;
             pd_expires_at := now + ttl_seconds * nanos_per_second |}.

Definition ticket_validate (now : OffsetDateTime) (t : PairingTicketDocument)
    : result PeerStoreError unit :=
  if negb (t.(pd_schema_version) =? 1) then Err (UnsupportedSchema t.(pd_schema_version))
  else if t.(pd_expires_at) <=? now then Err ExpiredTicket
  else
    secret ← map_err StoreHex (hex_decode t.(pd_shared_secret_hex));
    if negb (Nat.eqb (length secret) 32) then Err StoreInvalidSharedSecret else Ok tt.

Definition ticket_read (now : OffsetDateTime) (path : string)
    : M FS PeerStoreError PairingTicketDocument :=
  fs ← get_st;
  bytes ← lift (map_err (StoreRead path) (fs_read fs path));
  ticket ← lift (map_err StoreJson (from_json bytes));
  _ ← lift (ticket_validate now ticket);
  mret ticket.

Definition read_or_default (path : string) : M FS PeerStoreError PeerStoreDocument :=
  fs ← get_st;
  if bool_decide (fs !! components path = None)
  then mret {| sd_schema_version := 1; sd_peers := [] |}
  else
    bytes ← lift (map_err (StoreRead path) (fs_read fs path));
    document ← lift (map_err StoreJson (from_json bytes));
    if negb (document.(sd_schema_version) =? 1)
    then throw (UnsupportedSchema document.(sd_schema_version))
    else mret document.

Definition store_io {A} (e : string → PeerStoreError) (m : M FS string A) : M FS PeerStoreError A := λ fs,
  match m fs with
  | (Ok a, fs') => (Ok a, fs')
  | (Err message, fs') => (Err (e message), fs')
  end.

Definition peer_store_write (now : Z) (document : PeerStoreDocument) (path : string)
    : M FS PeerStoreError unit :=
  _ ← match path_parent path with
      | Some parent => store_io (StoreCreateDirectory parent) (create_dir_all parent)
      | None => mret tt
      end;
  let temporary := with_extension path "json.tmp" in
  bytes ← lift (map_err StoreJson (to_json document));
  _ ← store_io (StoreWrite temporary) (fs_write now temporary bytes);
  store_io (StoreWrite path) (fs_rename temporary path).

(** ** Trusting a peer *)

Definition peer_of_ticket (now : OffsetDateTime) (t : PairingTicketDocument) : TrustedPeer :=
  {| tp_device_id := t.(pd_device_id); tp_device_name := t.(pd_device_name);
     tp_endpoint := t.(pd_endpoint); tp_identity_public_hex := t.(pd_identity_public_hex);
     tp_shared_secret_hex := t.(pd_shared_secret_hex); tp_trusted_at := now |}.

(** The first peer of the device is replaced, or the peer is added at the end. *)
Fixpoint replace_or_push (peer : TrustedPeer) (peers : list TrustedPeer) : list TrustedPeer :=
  match peers with
  | [] => [peer]
  | existing :: peers =>
      if bool_decide (existing.(tp_device_id) = peer.(tp_device_id)) then peer :: peers
      else existing :: replace_or_push peer peers
  end.

(** [now] when the ticket is validated, [later] when the peer is recorded. *)
Definition accept_ticket (now later : OffsetDateTime) (t : PairingTicketDocument)
    : M PeerStoreDocument PeerStoreError unit :=
  _ ← lift (ticket_validate now t);
  modify (λ d, {| sd_schema_version := d.(sd_schema_version);
                  sd_peers := replace_or_push (peer_of_ticket later t) d.(sd_peers) |}).

Definition trusted_peer (d : PeerStoreDocument) (device_id : DeviceId) : option TrustedPeer :=
  head (filter (λ p, p.(tp_device_id) = device_id) d.(sd_peers)).

End store.

(** ** Lemmas: paths *)

Definition segment_of (c : Component) : Prop := c = ParentDir ∨ ∃ n, c = Normal n ∧ valid_name n.
(** The components of a path: a root or a leading [.] first, if at all. *)
Definition shaped (cs : list Component) : Prop :=
  match cs with
  | RootDir :: cs | CurDir :: cs => Forall segment_of cs
  | cs => Forall segment_of cs
  end.

Lemma segments_shaped segs : (∀ seg, seg ∈ segs → slash ∉ bytes seg) →
  Forall segment_of (omap segment_component segs).
Proof.
  intros Hs. apply Forall_forall. intros c (seg & Hseg & Hc)%list_elem_of_omap.
  specialize (Hs seg Hseg). destruct c as [| | |n]; [| |by left|].
  - unfold segment_component in Hc. by repeat case_bool_decide.
  - unfold segment_component in Hc. by repeat case_bool_decide.
  - apply segment_component_valid in Hc as [Hn ->]; [|done]. right. by exists seg.
Qed.

Lemma components_shaped path : shaped (components path).
Proof.
  pose proof (split_on_no_sep slash path) as Hs. unfold components. cbv zeta.
  destruct (is_absolute path); [by apply segments_shaped|].
  assert (∀ cs, Forall segment_of cs → shaped cs) as Hsh.
  { intros [|c cs] Hcs; [done|]. pose proof Hcs as [[->|(? & -> & _)] _]%Forall_cons; exact Hcs. }
  destruct (split_on slash path) as [|seg rest]; [by constructor|]. case_bool_decide.
  - apply segments_shaped. intros; apply Hs; by right.
  - by apply Hsh, segments_shaped.
Qed.

Lemma shaped_prefix a b : shaped (a ++ b) → shaped a.
Proof.
  destruct a as [|[] a]; [by constructor|..]; simpl; rewrite ?Forall_cons, ?Forall_app; tauto.
Qed.

(** The text of a segment is read as the segment. *)
Lemma segment_text c : segment_of c →
  (slash ∉ bytes (component_as_str c)) ∧ segment_component (component_as_str c) = Some c
  ∧ component_as_str c ≠ "" ∧ component_as_str c ≠ ".".
Proof.
  intros [->|(n & -> & Hn)].
  - split_and!; [by apply (bool_decide_eq_true_1 _)|done..].
  - split_and!; [by destruct Hn as (_ & _ & _ & ?)|by apply segment_component_Normal|by destruct Hn as (?&?&?&?)..].
Qed.

Lemma segments_text cs : Forall segment_of cs →
  Forall (λ seg, slash ∉ bytes seg) (component_as_str <$> cs)
  ∧ omap segment_component (component_as_str <$> cs) = cs.
Proof.
  induction 1 as [|c cs Hc _ [IH1 IH2]]; [by split; [constructor|]|].
  destruct (segment_text c Hc) as (H1 & H2 & _). rewrite fmap_cons, omap_cons_eq, H2, IH2.
  split; [by constructor|done].
Qed.

Lemma split_segments cs : Forall segment_of cs → cs ≠ [] →
  split_on slash (join_with slash (component_as_str <$> cs)) = component_as_str <$> cs.
Proof. intros Hcs Hne. apply split_on_join; [by destruct cs|by apply segments_text]. Qed.

Lemma join_not_absolute c cs : component_as_str c ≠ "" → slash ∉ bytes (component_as_str c) →
  is_absolute (join_with slash (component_as_str <$> c :: cs)) = false.
Proof.
  intros Hne Hs. unfold join_with. rewrite is_absolute_bytes, bytes_of_bytes, !fmap_cons.
  destruct (bytes (component_as_str c)) as [|a b] eqn:E; [by apply bytes_nil in E|].
  rewrite join_bytes_cons_head. apply not_elem_of_cons in Hs as [Hs _].
  destruct (Ascii.eqb a slash) eqn:Ea; [|done]. by apply ascii_eqb_true in Ea.
Qed.

(** Components that are written out are read back. *)
Lemma components_render cs : shaped cs → components (render cs) = cs.
Proof.
  intros Hcs. destruct cs as [|c cs]; [done|].
  destruct (decide (c = RootDir)) as [->|Hroot].
  { cbn [render shaped] in *. unfold components.
    change (is_absolute ("/" +:+ join_with slash (component_as_str <$> cs))) with true. cbn iota. f_equal.
    change ("/" +:+ join_with slash (component_as_str <$> cs))
      with (String slash (join_with slash (component_as_str <$> cs))).
    destruct (decide (cs = [])) as [->|Hne]; [done|].
    unfold split_on. change (bytes (String slash ?s)) with (slash :: bytes s). cbn [split_bytes].
    rewrite Ascii.eqb_refl. fold (split_on slash (join_with slash (component_as_str <$> cs))).
    rewrite fmap_cons. fold (split_on slash (join_with slash (component_as_str <$> cs))).
    rewrite split_segments by done. rewrite omap_cons_eq. by apply segments_text. }
  assert (render (c :: cs) = join_with slash (component_as_str <$> c :: cs)) as -> by (by destruct c).
  destruct (decide (c = CurDir)) as [->|Hcur].
  { cbn [shaped] in Hcs. unfold components. rewrite join_not_absolute by first [done|by apply (bool_decide_eq_true_1 _)].
    rewrite split_on_join; [|done|].
    - rewrite fmap_cons. cbn [component_as_str]. rewrite bool_decide_eq_true_2 by done.
      f_equal. by apply segments_text.
    - rewrite fmap_cons. constructor; [by apply (bool_decide_eq_true_1 _)|by apply segments_text]. }
  assert (Forall segment_of (c :: cs)) as Hall by (by destruct c).
  pose proof Hall as [Hc _]%Forall_cons. destruct (segment_text c Hc) as (H1 & H2 & H3 & H4).
  unfold components. rewrite join_not_absolute, split_segments by done.
  rewrite fmap_cons, bool_decide_eq_false_2 by done. rewrite <-fmap_cons. by apply segments_text.
Qed.

Lemma path_parent_snoc path d n : components path = d ++ [Normal n] →
  ∃ parent, path_parent path = Some parent ∧ components parent = d.
Proof.
  intros E. unfold path_parent. rewrite E, reverse_snoc. eexists. split; [done|].
  rewrite reverse_involutive. apply components_render.
  pose proof (components_shaped path) as H. rewrite E in H. by eapply shaped_prefix.
Qed.

(** ** Lemmas: peers *)

Lemma replace_or_push_elem peer peers id :
  id ∈ tp_device_id <$> replace_or_push peer peers ↔ id = peer.(tp_device_id) ∨ id ∈ tp_device_id <$> peers.
Proof.
  induction peers as [|p peers IH]; simpl.
  - rewrite elem_of_cons. split; [by intros [?|?]; auto|intros [?|?]; auto].
  - case_bool_decide as E; rewrite !fmap_cons, !elem_of_cons; [rewrite E; tauto|rewrite IH; tauto].
Qed.

Lemma replace_or_push_NoDup peer peers : NoDup (tp_device_id <$> peers) →
  NoDup (tp_device_id <$> replace_or_push peer peers).
Proof.
  induction peers as [|p peers IH]; intros Hnd; simpl.
  - apply NoDup_singleton.
  - rewrite fmap_cons in Hnd. apply NoDup_cons in Hnd as [Hp Hnd].
    case_bool_decide as E; rewrite fmap_cons; apply NoDup_cons.
    + by rewrite <-E.
    + split; [|by apply IH]. rewrite replace_or_push_elem. intros [?|?]; congruence.
Qed.

Lemma replace_or_push_lookup peer peers id :
  head (filter (λ p, p.(tp_device_id) = id) (replace_or_push peer peers))
  = if bool_decide (id = peer.(tp_device_id)) then Some peer
    else head (filter (λ p, p.(tp_device_id) = id) peers).
Proof.
  induction peers as [|p peers IH]; cbn [replace_or_push].
  - rewrite filter_cons, filter_nil. case_bool_decide as E; case_decide; by try congruence.
  - destruct (decide (tp_device_id p = tp_device_id peer)) as [E|E];
      [rewrite (bool_decide_eq_true_2 _ E)|rewrite (bool_decide_eq_false_2 _ E)].
    + rewrite !filter_cons. case_bool_decide as E2; repeat case_decide; by try congruence.
    + rewrite !filter_cons. destruct (decide (tp_device_id p = id)) as [E2|E2]; [|exact IH].
      rewrite bool_decide_eq_false_2; [done|congruence].
Qed.

(** ** Properties *)

(** C24. Accepting a ticket trusts exactly its device: a ticket of another schema, an
    expired one and one without a 32-byte secret are refused and leave the store as
    it is; an accepted one sets the peer of its device, replaces that device's old
    record, leaves every other peer, and keeps the devices distinct. *)
Theorem accept_ticket_spec `{HL : !HexLib} now later t d :
  NoDup (tp_device_id <$> d.(sd_peers)) →
  match accept_ticket now later t d with
  | (Ok _, d') =>
      t.(pd_schema_version) = 1 ∧ now < t.(pd_expires_at)
      ∧ (∃ secret, hex_decode t.(pd_shared_secret_hex) = Ok secret ∧ length secret = 32%nat)
      ∧ NoDup (tp_device_id <$> d'.(sd_peers))
      ∧ ∀ id, trusted_peer d' id = if bool_decide (id = t.(pd_device_id))
                                   then Some (peer_of_ticket later t) else trusted_peer d id
  | (Err _, d') => d' = d ∧ is_ok (ticket_validate now t) = false
  end.
Proof.
  intros Hnd. unfold accept_ticket. rewrite M_bind_eq. unfold lift.
  destruct (ticket_validate now t) as [[]|e] eqn:Hv; [|done]. simpl.
  unfold ticket_validate in Hv. destruct (Z.eqb_spec (pd_schema_version t) 1) as [Es|]; [|done].
  destruct (Z.leb_spec (pd_expires_at t) now) as [|Et]; [done|]. simpl in Hv.
  destruct (hex_decode (pd_shared_secret_hex t)) as [secret|]; [|done]. simpl in Hv.
  destruct (Nat.eqb_spec (length secret) 32); [|done].
  split_and!; [done|done|by exists secret|by apply replace_or_push_NoDup|].
  intros id. apply replace_or_push_lookup.
Qed.

(** A ticket this device creates is accepted by a peer until it expires, and
    never from then on. *)
Theorem created_ticket_valid `{HL : !HexLib, HW : !HexLaws} profile secret now endpoint ttl t later :
  length secret = 32%nat → ticket_create profile secret now endpoint ttl = Ok t →
  ticket_validate later t
  = if now + ttl * nanos_per_second <=? later then Err ExpiredTicket else Ok tt.
Proof.
  intros Hs. unfold ticket_create. destruct (ttl <=? 0); [done|]. intros [= <-].
  unfold ticket_validate; simpl. destruct (_ <=? later); [done|].
  rewrite hex_decode_encode. simpl. by rewrite Hs.
Qed.

(** ** Witnesses *)

Module Witness.
Import Sample.

Definition w_profile : LocalDeviceProfile :=
  {| lp_device_id := 1%N; lp_device_name := {| device_name := "Laptop" |}; lp_created_at := 0;
     lp_local_api_token_hex := ""; lp_identity_public_hex := "p"; lp_identity_secret_hex := "s" |}.
Definition w_secret : list ascii := replicate 32 dot.
Definition w_ticket : PairingTicketDocument :=
  {| pd_schema_version := 1; pd_device_id := 1%N; pd_device_name := "Laptop";
     pd_endpoint := "http://laptop"; pd_identity_public_hex := "p";
     pd_shared_secret_hex := hex_encode w_secret; pd_expires_at := 60 * nanos_per_second |}.
Definition w_store : PeerStoreDocument :=
  {| sd_schema_version := 1;
     sd_peers := [peer_of_ticket 0 {| pd_schema_version := 1; pd_device_id := 2%N;
       pd_device_name := "Phone"; pd_endpoint := ""; pd_identity_public_hex := "";
       pd_shared_secret_hex := ""; pd_expires_at := 0 |}] |}.

Lemma accept_ticket_spec_witness :
  NoDup (tp_device_id <$> w_store.(sd_peers))
  ∧ trusted_peer (accept_ticket 0 1 w_ticket w_store).2 1%N = Some (peer_of_ticket 1 w_ticket).
Proof.
  assert (NoDup (tp_device_id <$> w_store.(sd_peers))) as Hnd by apply NoDup_singleton.
  split; [exact Hnd|]. pose proof (accept_ticket_spec 0 1 w_ticket w_store Hnd) as H.
  destruct (accept_ticket 0 1 w_ticket w_store) as [[[]|e] d'] eqn:E.
  - exact (proj2 (proj2 (proj2 (proj2 H))) 1%N).
  - vm_compute in E. discriminate E.
Defined.

Lemma created_ticket_valid_witness :
  ticket_create w_profile w_secret 0 "http://laptop" 60 = Ok w_ticket
  ∧ ticket_validate 1 w_ticket = Ok tt.
Proof.
  assert (ticket_create w_profile w_secret 0 "http://laptop" 60 = Ok w_ticket) as H by reflexivity.
  split; [exact H|].
  exact (created_ticket_valid w_profile w_secret 0 "http://laptop" 60 w_ticket 1 eq_refl H).
Defined.

End Witness.
