(* ===== verification/HttpText.v ===== *)
(** * The text of HTTP messages

    The functions of [str] that only the peer protocol uses, and the pure text
    functions of [crates/syncer-agent/src/peer_server.rs] and [peer_client.rs]. *)

From S2P Require Import Prelude RustStd.
From stdpp Require Import options pretty.
Local Open Scope Z_scope.

(** ** [str] *)

Definition cr : ascii := Ascii.ascii_of_N 13.
Definition lf : ascii := Ascii.ascii_of_N 10.
Definition space : ascii := Ascii.ascii_of_N 32.
Definition colon : ascii := Ascii.ascii_of_N 58.
Definition question : ascii := Ascii.ascii_of_N 63.
Definition crlf : string := of_bytes [cr; lf].

(** [str::lines]: a line ends in a newline, with a carriage return before it or not;
    the last one need not end in any. *)
Definition strip_cr (l : list ascii) : list ascii :=
  match reverse l with
  | a :: r => if Ascii.eqb a cr then reverse r else l
  | [] => l
  end.
Fixpoint lines_of (segs : list (list ascii)) : list (list ascii) :=
  match segs with
  | [] => []
  | seg :: segs' =>
      match segs' with
      | [] => match seg with [] => [] | _ => [seg] end
      | _ => strip_cr seg :: lines_of segs'
      end
  end.
Definition lines (s : string) : list string := of_bytes <$> lines_of (split_bytes lf (bytes s)).

(** [str::split_whitespace]; [word] is what was read of the current word. *)
Definition flush (word : list ascii) : list (list ascii) :=
  match word with [] => [] | _ => [word] end.
Fixpoint words_from (word : list ascii) (l : list ascii) : list (list ascii) :=
  match l with
  | [] => flush word
  | a :: l1 =>
      if ws1 a then flush word ++ words_from [] l1 else
      match l1 with
      | [] => words_from (word ++ [a]) l1
      | b :: l2 =>
          if ws2 a b then flush word ++ words_from [] l2 else
          match l2 with
          | [] => words_from (word ++ [a]) l1
          | c :: l3 =>
              if ws3 a b c then flush word ++ words_from [] l3 else words_from (word ++ [a]) l1
          end
      end
  end.
Definition split_whitespace (s : string) : list string := of_bytes <$> words_from [] (bytes s).

(** [str::split_once(char)]. *)
Fixpoint split_once_l (sep : ascii) (l : list ascii) : option (list ascii * list ascii) :=
  match l with
  | [] => None
  | a :: l => if Ascii.eqb a sep then Some ([], l)
              else (λ p, (a :: p.1, p.2)) <$> split_once_l sep l
  end.
Definition split_once (sep : ascii) (s : string) : option (string * string) :=
  (λ p, (of_bytes p.1, of_bytes p.2)) <$> split_once_l sep (bytes s).
(** [str::rsplit_once(char)]. *)
Definition rsplit_once (sep : ascii) (s : string) : option (string * string) :=
  (λ p, (of_bytes (reverse p.2), of_bytes (reverse p.1))) <$> split_once_l sep (reverse (bytes s)).

Definition ascii_lower (a : ascii) : ascii :=
  if RustStd.between 65 90 (byte_val a) then Ascii.ascii_of_N (byte_val a + 32)%N else a.
Definition to_ascii_lowercase (s : string) : string := of_bytes (ascii_lower <$> bytes s).

Definition parse_u64 (s : string) : option Z := parse_unsigned u64_max s.
Definition parse_u16 (s : string) : option Z := parse_unsigned 65535 s.

(** [str::parse::<i64>]: an optional sign, at least one digit, no overflow. *)
Definition parse_i64 (s : string) : option Z :=
  let digits (neg : bool) l :=
    match l with
    | [] => None
    | _ => match parse_digits 0 l with
           | Some v => let v := if neg then - v else v in
                       if (i64_min <=? v) && (v <=? i64_max) then Some v else None
           | None => None
           end
    end in
  match bytes s with
  | a :: l => if is_byte 43 a then digits false l
              else if is_byte 45 a then digits true l
              else digits false (a :: l)
  | [] => None
  end.

(** ** Messages *)

Definition header_separator : list ascii := [cr; lf; cr; lf].

(** [buffer.windows(4).position(...)]. *)
Fixpoint find_header_end (buffer : list ascii) : option nat :=
  match strip_prefix_l header_separator buffer with
  | Some _ => Some 0%nat
  | None => match buffer with
            | [] => None
            | _ :: buffer => S <$> find_header_end buffer
            end
  end.

(** A later line of the same name replaces an earlier one. *)
Definition add_header_line (headers : gmap string string) (line : string) : gmap string string :=
  match split_once colon line with
  | Some (key, value) => <[to_ascii_lowercase (trim key) := trim value]> headers
  | None => headers
  end.
Definition parse_header_lines (ls : list string) : gmap string string := foldl add_header_line ∅ ls.

(** [parse_headers] of the client: the text of a header without its first line. *)
Definition client_parse_headers (header : string) : gmap string string :=
  parse_header_lines (tail (lines header)).

Definition reason_phrase (status : Z) : string :=
  if status =? 200 then "OK"
  else if status =? 400 then "Bad Request"
  else if status =? 401 then "Unauthorized"
  else if status =? 404 then "Not Found"
  else if status =? 409 then "Conflict"
  else if status =? 413 then "Payload Too Large"
  else "Internal Server Error".

Definition header_line (nv : string * string) : string := nv.1 +:+ ": " +:+ nv.2 +:+ crlf.

Definition response_header (status : Z) (content_type : string) (content_length : Z)
    (extra_headers : list (string * string)) : string :=
  let header := "HTTP/1.1 " +:+ pretty (status : Z) +:+ " " +:+ reason_phrase status +:+ crlf
    +:+ "content-type: " +:+ content_type +:+ crlf
    +:+ "content-length: " +:+ pretty (content_length : Z) +:+ crlf in
  foldl (λ header nv, header +:+ header_line nv) header extra_headers
  +:+ "connection: close" +:+ crlf +:+ crlf.

Definition binary_response (status : Z) (content_type : string) (body : list ascii) : list ascii :=
  bytes (response_header status content_type (Z.of_nat (length body)) []) ++ body.

(** ** Lemmas: numbers *)

Lemma pretty_nonneg z : 0 ≤ z → pretty z = pretty (Z.to_N z).
Proof. by destruct z. Qed.

Lemma parse_u64_pretty z : is_u64 z → parse_u64 (pretty z) = Some z.
Proof.
  intros [H0 H1]. rewrite pretty_nonneg by done. unfold parse_u64.
  rewrite parse_unsigned_pretty by lia. by rewrite Z2N.id.
Qed.

Lemma parse_i64_pretty z : is_i64 z → parse_i64 (pretty z) = Some z.
Proof.
  intros [H0 H1].
  assert (∀ n : positive, ∃ a l, bytes (pretty (N.pos n)) = a :: l ∧ is_Some (digit_val a)
          ∧ parse_digits 0 (a :: l) = Some (Z.pos n)) as Hpos.
  { intros n. assert (pretty (N.pos n) = pretty_N_go (N.pos n) "") as ->
      by (unfold pretty, pretty_N; by rewrite decide_False).
    destruct (pretty_go_head (N.pos n) "") as (a & l & Hb & Hd); [by left|].
    exists a, l. split_and!; [done|done|]. rewrite <-Hb, parse_pretty_go. done. }
  destruct z as [|n|n]; [reflexivity|..]; destruct (Hpos n) as (a & l & Hb & Hd & Hp).
  - change (pretty (Z.pos n)) with (pretty (N.pos n)). unfold parse_i64. rewrite Hb.
    destruct (digit_not_sign a Hd) as [-> ->]. rewrite Hp. cbv beta iota zeta.
    rewrite !(proj2 (Z.leb_le _ _)) by lia. reflexivity.
  - change (bytes (pretty (Z.neg n))) with (Ascii.ascii_of_N 45 :: bytes (pretty (N.pos n))).
    unfold parse_i64. change (bytes (pretty (Z.neg n))) with (Ascii.ascii_of_N 45 :: bytes (pretty (N.pos n))).
    cbv beta iota zeta.
    change (is_byte 43 (Ascii.ascii_of_N 45)) with false. change (is_byte 45 (Ascii.ascii_of_N 45)) with true.
    cbv iota. rewrite Hb, Hp. change (- Z.pos n) with (Z.neg n).
    rewrite !(proj2 (Z.leb_le _ _)) by lia. reflexivity.
Qed.

(** ** Lemmas: lines *)

(** The characters of a header that is sent: printable ASCII. *)
Definition wire_char (a : ascii) : bool := RustStd.between 32 126 (byte_val a).
Definition token_char (a : ascii) : bool := RustStd.between 33 126 (byte_val a).
Definition plain (l : list ascii) : Prop := Forall (λ a, wire_char a = true) l.
Definition token (l : list ascii) : Prop := Forall (λ a, token_char a = true) l.

Lemma token_plain l : token l → plain l.
Proof.
  intros H. eapply Forall_impl; [exact H|]. intros a. unfold token_char, wire_char, RustStd.between.
  rewrite !andb_true_iff, !N.leb_le. lia.
Qed.

Lemma plain_not a l : wire_char a = false → plain l → a ∉ l.
Proof. intros Ha Hl Hin. eapply Forall_forall in Hl; [|done]. by rewrite Ha in Hl. Qed.

Lemma eqb_false (a b : ascii) : a ≠ b → Ascii.eqb a b = false.
Proof. intros H. destruct (Ascii.eqb a b) eqn:E; [|done]. by apply ascii_eqb_true in E. Qed.

Fixpoint join_crlf (ls : list (list ascii)) : list ascii :=
  match ls with
  | [] => []
  | l :: ls' => match ls' with [] => l | _ => l ++ cr :: lf :: join_crlf ls' end
  end.

Lemma join_crlf_cons l ls : ls ≠ [] → join_crlf (l :: ls) = l ++ cr :: lf :: join_crlf ls.
Proof. by destruct ls. Qed.

Lemma find_skip l rest : cr ∉ l →
  find_header_end (l ++ rest) = (λ n, length l + n)%nat <$> find_header_end rest.
Proof.
  induction l as [|a l IH]; intros Hl.
  { simpl. by destruct (find_header_end rest). }
  apply not_elem_of_cons in Hl as [Ha Hl]. cbn [app find_header_end].
  unfold header_separator. cbn [strip_prefix_l]. rewrite eqb_false by done.
  rewrite IH by done. by destruct (find_header_end rest).
Qed.

Lemma find_next_line x rest : x ≠ cr →
  find_header_end (cr :: lf :: x :: rest) = (λ n, S (S n)) <$> find_header_end (x :: rest).
Proof.
  intros Hx. assert (Ascii.eqb cr x = false) as E by (by apply eqb_false).
  remember (x :: rest) as l. cbn [find_header_end]. subst l.
  unfold header_separator. cbn [strip_prefix_l]. rewrite !Ascii.eqb_refl, E.
  change (Ascii.eqb cr lf) with false. cbn iota. by destruct (find_header_end (x :: rest)).
Qed.

Lemma find_separator body : find_header_end (header_separator ++ body) = Some 0%nat.
Proof. done. Qed.

(** The header ends at the first empty line. *)
Lemma find_join ls body : ls ≠ [] → Forall (λ l, l ≠ [] ∧ cr ∉ l) ls →
  find_header_end (join_crlf ls ++ header_separator ++ body) = Some (length (join_crlf ls)).
Proof.
  intros Hne Hall. induction Hall as [|l ls [Hl Hcr] Hall IH]; [done|].
  destruct (decide (ls = [])) as [->|Hls].
  { cbn [join_crlf]. rewrite find_skip, find_separator by done. simpl. f_equal. lia. }
  rewrite join_crlf_cons by done. rewrite <-app_assoc, find_skip by done.
  cbn [app]. assert (∃ x r, join_crlf ls = x :: r ∧ x ≠ cr) as (x & r & E & Hx).
  { destruct ls as [|l' ls]; [done|].
    apply Forall_cons in Hall as [[Hl' Hcr'] _]. destruct l' as [|x l']; [done|].
    apply not_elem_of_cons in Hcr' as [? _].
    destruct ls; [by exists x, l'|]. eexists x, _. split; [done|congruence]. }
  specialize (IH Hls). rewrite E in *. cbn [app] in IH |- *. rewrite find_next_line, IH by done.
  simpl. rewrite length_app. simpl. f_equal.
Qed.

Lemma strip_cr_snoc l : strip_cr (l ++ [cr]) = l.
Proof. unfold strip_cr. rewrite reverse_snoc, Ascii.eqb_refl. by rewrite reverse_involutive. Qed.

Lemma lines_of_cons seg segs : segs ≠ [] → lines_of (seg :: segs) = strip_cr seg :: lines_of segs.
Proof. by destruct segs. Qed.

(** Lines that are joined are found again. *)
Lemma lines_join ls : Forall (λ l, l ≠ [] ∧ lf ∉ l) ls →
  lines_of (split_bytes lf (join_crlf ls)) = ls.
Proof.
  induction 1 as [|l ls [Hl Hlf] _ IH]; [done|]. destruct (decide (ls = [])) as [->|Hls].
  { cbn [join_crlf]. rewrite split_bytes_single by done. by destruct l. }
  rewrite join_crlf_cons by done.
  replace (l ++ cr :: lf :: join_crlf ls) with ((l ++ [cr]) ++ lf :: join_crlf ls)
    by (by rewrite <-app_assoc).
  rewrite split_bytes_app.
  - rewrite lines_of_cons by apply split_bytes_ne. by rewrite strip_cr_snoc, IH.
  - apply not_elem_of_app. split; [done|]. by intros ?%list_elem_of_singleton.
Qed.

Lemma utf8_ascii l : Forall (λ a, (byte_val a <? 128)%N = true) l → is_Some (utf8_decode l).
Proof.
  induction 1 as [|a l Ha _ [cs IH]]; [by eexists|]. cbn [utf8_decode]. rewrite Ha, IH. by eexists.
Qed.

(** ** Lemmas: words and fields *)

Lemma token_no_ws a : token_char a = true →
  ws1 a = false ∧ (∀ b, ws2 a b = false) ∧ (∀ b c, ws3 a b c = false).
Proof.
  intros Ha. unfold token_char, RustStd.between in Ha.
  apply andb_true_iff in Ha as [H1%N.leb_le H2%N.leb_le].
  assert (∀ n, (127 <= n)%N → is_byte n a = false) as Hb by (intros n Hn; apply N.eqb_neq; lia).
  split_and!.
  - unfold ws1, RustStd.between. apply orb_false_iff. split; [|apply N.eqb_neq; lia].
    apply andb_false_iff. right. apply N.leb_gt. lia.
  - intros b. unfold ws2. by rewrite Hb.
  - intros b c. unfold ws3. by rewrite !Hb.
Qed.

Lemma words_token w a rest : token w → words_from a (w ++ rest) = words_from (a ++ w) rest.
Proof.
  intros Hw. revert a. induction Hw as [|x w Hx _ IH]; intros a; [by rewrite app_nil_r|].
  destruct (token_no_ws x Hx) as (H1 & H2 & H3). cbn [app].
  replace (a ++ x :: w) with ((a ++ [x]) ++ w) by (by rewrite <-app_assoc). rewrite <-IH.
  cbn [words_from]. rewrite H1. destruct (w ++ rest) as [|b [|c r]]; [done|by rewrite H2|].
  by rewrite H2, H3.
Qed.

Lemma words_space word rest : words_from word (space :: rest) = flush word ++ words_from [] rest.
Proof. by destruct rest. Qed.

Lemma split_once_found sep l rest : sep ∉ l → split_once_l sep (l ++ sep :: rest) = Some (l, rest).
Proof.
  induction l as [|a l IH]; intros Hl; [by cbn; rewrite Ascii.eqb_refl|].
  apply not_elem_of_cons in Hl as [Ha Hl]. cbn [app split_once_l]. rewrite eqb_false by done.
  by rewrite IH.
Qed.

Lemma trim_space_before s : trim_bytes (space :: s) = trim_bytes s.
Proof. unfold trim_bytes. by destruct s. Qed.

Lemma token_no_ws_head l : token l → no_ws_head l = true.
Proof.
  destruct 1 as [|a l Ha _]; [done|]. destruct (token_no_ws a Ha) as (H1 & H2 & H3).
  simpl. rewrite H1. destruct l as [|b [|c l]]; [done|by rewrite H2|by rewrite H2, H3].
Qed.

(** The last byte of the characters of two and three bytes [trim] removes. *)
Lemma token_no_ws_tail l : token l → no_ws_tail l = true.
Proof.
  destruct 1 as [|a l Ha _]; [done|]. pose proof (token_no_ws a Ha) as (H1 & _ & _).
  unfold token_char, RustStd.between in Ha. apply andb_true_iff in Ha as [L1%N.leb_le L2%N.leb_le].
  assert (∀ n, (127 <= n)%N → is_byte n a = false) as Hb by (intros n Hn; apply N.eqb_neq; lia).
  assert (∀ b, ws2 b a = false) as H2.
  { intros b. unfold ws2. rewrite !Hb by lia. by rewrite andb_false_r. }
  assert (∀ b c, ws3 c b a = false) as H3.
  { intros b c. unfold ws3. rewrite !Hb by lia. unfold RustStd.between.
    rewrite (proj2 (N.leb_gt 128 _)) by lia.
    rewrite !(proj2 (N.eqb_neq (byte_val a) _)) by lia. simpl. by rewrite !andb_false_r. }
  simpl. rewrite H1. destruct l as [|b [|c l]]; [done|by rewrite H2|by rewrite H2, H3].
Qed.
