(* ===== verification/PeerRequest.v ===== *)
(** * [crates/syncer-agent/src/peer_server.rs]: reading and authenticating a request

    A connection is what arrives on it, in order: segments of bytes, a silence
    longer than the time-out, a broken connection; at its end the peer has closed
    it.  How the bytes are cut into segments is up to the network.  The state of a
    handler is its connection, the file system and the database.  [usize] has 64
    bits. *)

From S2P Require Import Prelude RustStd External Error Manifest Model StateDb FileSys FolderStore RequestSigning PeerCrypto PeerStore HttpText.
From stdpp Require Import options pretty.
Local Open Scope Z_scope.

Definition MAX_HEADER_BYTES : Z := 16 * 1024.
Definition MAX_MEMORY_BODY_BYTES : Z := 1024 * 1024.

Inductive PeerServerError :=
| ServerIo (message : string)
| ServerFilesystem (path source : string)
| ServerCore (e : CoreError)
| ServerJson (message : string)
| InvalidRequest
| RequestTooLarge
| RequestTimeout
| NotFound
| TargetConflict
| HashMismatch
| FolderLimitExceeded (remaining requested : Z)
| Unauthorized
| ServerPeerStore (e : PeerStoreError)
| ServerSigning (e : SigningError)
| ServerPeerCrypto (e : PeerCryptoError).

Record PeerServerConfig := {
  cfg_bind : string;
  cfg_folder_path : string;
  cfg_peers_path : string;
  cfg_profile : LocalDeviceProfile;
}.

(** ** The connection *)

Inductive Arrival :=
| Segment (bs : list ascii)
| Silence
| Broken (message : string).
Abbreviation Stream := (list Arrival).

(** A read of at most [limit] bytes; no bytes are the end of the stream. *)
Definition read_bytes {E} (silence : E) (broken : string → E) (limit : nat) : M Stream E (list ascii) := λ s,
  match s with
  | [] => (Ok [], [])
  | Silence :: s => (Err silence, s)
  | Broken message :: s => (Err (broken message), s)
  | Segment bs :: s =>
      (Ok (take limit bs), match drop limit bs with [] => s | rest => Segment rest :: s end)
  end.

(** [timeout(REQUEST_TIMEOUT, stream.read(&mut buffer))] with a buffer of [limit]
    bytes. *)
Definition read_stream (limit : nat) : M Stream PeerServerError (list ascii) :=
  read_bytes RequestTimeout ServerIo limit.

(** A bound on the number of reads a loop over the stream can make. *)
Definition stream_size (s : Stream) : nat :=
  sum_list ((λ a, match a with Segment bs => S (length bs) | _ => 1%nat end) <$> s).

(** [sv_sent] are the bytes written to the connection. *)
Record Server := { sv_stream : Stream; sv_sent : list ascii; sv_fs : FS; sv_db : Database }.
Abbreviation SV := (M Server PeerServerError).

Definition with_stream (s : Stream) (v : Server) : Server :=
  {| sv_stream := s; sv_sent := v.(sv_sent); sv_fs := v.(sv_fs); sv_db := v.(sv_db) |}.
Definition with_fs (fs : FS) (v : Server) : Server :=
  {| sv_stream := v.(sv_stream); sv_sent := v.(sv_sent); sv_fs := fs; sv_db := v.(sv_db) |}.
Definition with_db (db : Database) (v : Server) : Server :=
  {| sv_stream := v.(sv_stream); sv_sent := v.(sv_sent); sv_fs := v.(sv_fs); sv_db := db |}.
Definition send (bs : list ascii) : SV unit := modify (λ v,
  {| sv_stream := v.(sv_stream); sv_sent := v.(sv_sent) ++ bs; sv_fs := v.(sv_fs);
     sv_db := v.(sv_db) |}).

Definition on_stream {A} (m : M Stream PeerServerError A) : SV A := zoom sv_stream with_stream id m.
Definition on_fs {E A} (f : E → PeerServerError) (m : M FS E A) : SV A := zoom sv_fs with_fs f m.
Definition on_db {A} (m : DB A) : SV A := zoom sv_db with_db ServerCore m.
(** [map_err] to [Filesystem] with the path of the call. *)
Definition fs_at {A} (path : string) (m : M FS string A) : SV A := on_fs (ServerFilesystem path) m.

(** ** Requests *)

Record FileBody := { fb_path : string; fb_size_bytes : Z; fb_sha256_hex : string }.
Inductive HttpBody :=
| Memory (bs : list ascii)
| File (body : FileBody).
Record HttpRequest := {
  hr_method : string;
  hr_path : string;
  hr_headers : gmap string string;
  hr_body_sha256_hex : string;
  hr_body : HttpBody;
}.

Definition memory_body (request : HttpRequest) : result PeerServerError (list ascii) :=
  match request.(hr_body) with Memory bs => Ok bs | File _ => Err InvalidRequest end.
Definition file_body (request : HttpRequest) : result PeerServerError FileBody :=
  match request.(hr_body) with Memory _ => Err InvalidRequest | File body => Ok body end.

Definition body_sha256_hex `{!HexLib, !Sha256Lib} (body : HttpBody) : string :=
  match body with Memory bs => hex_encode (sha256 bs) | File body => body.(fb_sha256_hex) end.

Definition required_header (request : HttpRequest) (name : string) : result PeerServerError string :=
  ok_or InvalidRequest (request.(hr_headers) !! name).
Definition required_u64_header (request : HttpRequest) (name : string) : result PeerServerError Z :=
  value ← required_header request name;
  ok_or InvalidRequest (parse_u64 value).

Definition parse_headers (header_bytes : list ascii) : result PeerServerError (gmap string string) :=
  text ← ok_or InvalidRequest (from_utf8 header_bytes);
  Ok (parse_header_lines (tail (lines text))).

Definition should_spool_body (method path : string) (content_length : Z) : bool :=
  bool_decide (method = "PUT") && starts_with path "/file/" && (0 <? content_length).

Definition requests_dir (folder_path : string) : string :=
  path_push (path_push (syncer_dir (folder_store_new folder_path)) "tmp") "requests".

Definition READ_BYTES : nat := Z.to_nat 4096.

(** The loop of [read_request]: the buffer up to the read that completed the header. *)
Fixpoint read_head (fuel : nat) (buffer : list ascii) : SV (list ascii) :=
  match fuel with
  | O => mret buffer
  | S fuel =>
      read ← on_stream (read_stream READ_BYTES);
      if bool_decide (read = []) then mret buffer
      else
        let buffer := buffer ++ read in
        if MAX_HEADER_BYTES <? Z.of_nat (length buffer) then throw RequestTooLarge
        else if bool_decide (is_Some (find_header_end buffer)) then mret buffer
        else read_head fuel buffer
  end.

Fixpoint read_memory_loop (fuel : nat) (content_length : Z) (body : list ascii) : SV (list ascii) :=
  if Z.of_nat (length body) <? content_length then
    match fuel with
    | O => throw InvalidRequest
    | S fuel =>
        let remaining := u64_saturating_sub content_length (Z.of_nat (length body)) in
        chunk ← on_stream (read_stream (Z.to_nat (Z.min remaining 4096)));
        if bool_decide (chunk = []) then throw InvalidRequest
        else read_memory_loop fuel content_length (body ++ chunk)
    end
  else mret body.

Definition read_memory_body (body_prefix : list ascii) (content_length : Z) : SV HttpBody :=
  if MAX_MEMORY_BODY_BYTES <? content_length then throw RequestTooLarge
  else if content_length <? Z.of_nat (length body_prefix) then throw InvalidRequest
  else
    s ← get_st;
    body ← read_memory_loop (S (stream_size s.(sv_stream))) content_length body_prefix;
    mret (Memory body).

Section request.
Context `{!HexLib, !Sha256Lib, !HmacLib, !UuidLib, !IoLib, !SerdeJson PeerStoreDocument}.

(** The loop of [read_file_body]; [hashed] is what the hasher was fed. *)
Fixpoint read_file_loop (fs_now : Z) (fuel : nat) (path : string) (content_length written : Z)
    (hashed : list ascii) : SV (list ascii) :=
  if written <? content_length then
    match fuel with
    | O => throw InvalidRequest
    | S fuel =>
        let remaining := u64_saturating_sub content_length written in
        chunk ← on_stream (read_stream (Z.to_nat (Z.min remaining (64 * 1024))));
        if bool_decide (chunk = []) then throw InvalidRequest
        else
          _ ← fs_at path (append fs_now path chunk);
          read_file_loop fs_now fuel path content_length
            (u64_saturating_add written (Z.of_nat (length chunk))) (hashed ++ chunk)
    end
  else mret hashed.

(** [body_id] is the new identifier in the name of the temporary file. *)
Definition read_file_body (fs_now : Z) (body_id : Uuid) (config : PeerServerConfig)
    (body_prefix : list ascii) (content_length : Z) : SV HttpBody :=
  if content_length <? Z.of_nat (length body_prefix) then throw InvalidRequest
  else
    let temporary_dir := requests_dir config.(cfg_folder_path) in
    _ ← fs_at temporary_dir (create_dir_all temporary_dir);
    let path := path_push temporary_dir (uuid_to_string body_id +:+ ".body") in
    _ ← fs_at path (fs_write fs_now path []);
    _ ← (if bool_decide (body_prefix = []) then mret tt
         else fs_at path (append fs_now path body_prefix));
    s ← get_st;
    hashed ← read_file_loop fs_now (S (stream_size s.(sv_stream))) path content_length
               (Z.of_nat (length body_prefix)) body_prefix;
    mret (File {| fb_path := path; fb_size_bytes := content_length;
                  fb_sha256_hex := hex_encode (sha256 hashed) |}).

Definition parse_request (fs_now : Z) (body_id : Uuid) (config : PeerServerConfig)
    (buffer : list ascii) : SV HttpRequest :=
  header_end ← lift (ok_or InvalidRequest (find_header_end buffer));
  let header_bytes := take header_end buffer in
  headers ← lift (parse_headers header_bytes);
  text ← lift (ok_or InvalidRequest (from_utf8 header_bytes));
  request_line ← lift (ok_or InvalidRequest (head (lines text)));
  let request_parts := split_whitespace request_line in
  method ← lift (ok_or InvalidRequest (head request_parts));
  target ← lift (ok_or InvalidRequest (head (tail request_parts)));
  path ← lift (ok_or InvalidRequest (head (split_on question target)));
  let content_length := default 0 (headers !! "content-length" ≫= parse_u64) in
  let body_prefix := drop (header_end + 4) buffer in
  body ← (if should_spool_body method path content_length
          then read_file_body fs_now body_id config body_prefix content_length
          else read_memory_body body_prefix content_length);
  mret {| hr_method := method; hr_path := path; hr_headers := headers;
          hr_body_sha256_hex := body_sha256_hex body; hr_body := body |}.

Definition read_request (fs_now : Z) (body_id : Uuid) (config : PeerServerConfig) : SV HttpRequest :=
  s ← get_st;
  buffer ← read_head (S (stream_size s.(sv_stream))) [];
  parse_request fs_now body_id config buffer.

(** ** Authentication *)

(** [i64::abs_diff]. *)
Definition abs_diff (a b : Z) : Z := Z.abs (a - b).

(** Returns the secret shared with the peer. *)
Definition verify_peer_request (now_utc : OffsetDateTime) (request : HttpRequest)
    (peers_path : string) : SV string :=
  device_id ← lift (ok_or Unauthorized (request.(hr_headers) !! "x-syncer-device-id"));
  timestamp ← lift (ok_or Unauthorized (request.(hr_headers) !! "x-syncer-timestamp"));
  timestamp ← lift (ok_or Unauthorized (parse_i64 timestamp));
  signature ← lift (ok_or Unauthorized (request.(hr_headers) !! "x-syncer-signature"));
  let now := unix_timestamp now_utc in
  if 300 <? abs_diff now timestamp then throw Unauthorized
  else
    device_id ← lift (ok_or Unauthorized (uuid_parse_str device_id));
    let device_id := device_id_from_uuid device_id in
    peers ← on_fs ServerPeerStore (read_or_default peers_path);
    peer ← lift (ok_or Unauthorized (trusted_peer peers device_id));
    _ ← lift (map_err ServerSigning (verify_request_signature_with_body_hash_hex signature
           request.(hr_method) request.(hr_path) (device_id_to_string device_id) timestamp
           request.(hr_body_sha256_hex) peer.(tp_shared_secret_hex)));
    mret peer.(tp_shared_secret_hex).

End request.
