(* ===== verification/PeerRequestSpec.v ===== *)
(** * Requests: what is read is what was sent, and who is let in *)

From S2P Require Import Prelude RustStd External Error Manifest Model StateDb FileSys FolderStore RequestSigning PeerCrypto PeerStore HttpText PeerRequest.
From stdpp Require Import options pretty.
Local Open Scope Z_scope.

(** ** Messages *)

Definition field_line (nv : string * string) : list ascii := bytes nv.1 ++ colon :: space :: bytes nv.2.

(** The lines of a message head. *)
Definition message_lines (method path : string) (headers : list (string * string))
    : list (list ascii) :=
  (bytes method ++ space :: bytes path ++ space :: bytes "HTTP/1.1")
  :: (field_line <$> headers).

Definition message_head (method path : string) (headers : list (string * string)) : list ascii :=
  join_crlf (message_lines method path headers) ++ header_separator.

(** A header field in the form the program sends: a lower-case name, and a value of
    printable ASCII with no space around it. *)
Record field_ok (nv : string * string) : Prop := {
  fl_name : token (bytes nv.1);
  fl_colon : colon ∉ bytes nv.1;
  fl_lower : to_ascii_lowercase nv.1 = nv.1;
  fl_value : plain (bytes nv.2);
  fl_trim : trim nv.2 = nv.2;
}.

Record message_ok (method path : string) (headers : list (string * string)) : Prop := {
  mo_method : token (bytes method) ∧ method ≠ "";
  mo_path : token (bytes path) ∧ path ≠ "" ∧ question ∉ bytes path;
  mo_fields : Forall field_ok headers;
  mo_names : NoDup headers.*1;
}.

(** ** Lemmas: the header text *)

Lemma strip_prefix_app p l c : (length p ≤ length l)%nat →
  strip_prefix_l p (l ++ c) = (λ r, r ++ c) <$> strip_prefix_l p l.
Proof.
  revert l; induction p as [|x p IH]; intros [|y l] Hl; simpl in *; try done; [lia|].
  destruct (Ascii.eqb x y); [apply IH; lia|done].
Qed.

Lemma strip_prefix_Some p l r : strip_prefix_l p l = Some r → l = p ++ r.
Proof.
  revert l; induction p as [|x p IH]; intros l; [by intros [= ->]|]. destruct l as [|y l]; [done|].
  simpl. destruct (Ascii.eqb x y) eqn:E; [|done]. apply ascii_eqb_true in E as ->.
  intros ->%IH. done.
Qed.

Lemma find_cons a b : find_header_end (a :: b)
  = match strip_prefix_l header_separator (a :: b) with
    | Some _ => Some 0%nat | None => S <$> find_header_end b end.
Proof. done. Qed.

Lemma find_bound b n : find_header_end b = Some n → (n + 4 ≤ length b)%nat.
Proof.
  revert n; induction b as [|a b IH]; intros n; [done|]. rewrite find_cons.
  destruct (strip_prefix_l _ _) as [r|] eqn:E.
  - intros [= <-]. apply strip_prefix_Some in E. rewrite E. rewrite length_app. simpl. lia.
  - destruct (find_header_end b) as [m|]; [|done]. intros [= <-]. specialize (IH m eq_refl). simpl. lia.
Qed.

(** Only the bytes up to the end of the separator matter. *)
Lemma find_app b c n : (n + 4 ≤ length b)%nat →
  find_header_end (b ++ c) = Some n ↔ find_header_end b = Some n.
Proof.
  revert n; induction b as [|a b IH]; intros n Hn; [simpl in Hn; lia|].
  change ((a :: b) ++ c) with (a :: (b ++ c)). rewrite !find_cons.
  change (a :: (b ++ c)) with ((a :: b) ++ c).
  rewrite strip_prefix_app by (change (length header_separator) with 4%nat; lia).
  destruct (strip_prefix_l _ (a :: b)); [done|]. cbn [fmap option_fmap option_map].
  destruct n as [|n].
  - destruct (find_header_end (b ++ c)), (find_header_end b); naive_solver.
  - simpl in Hn. specialize (IH n ltac:(lia)).
    destruct (find_header_end (b ++ c)) as [m|], (find_header_end b) as [k|]; naive_solver.
Qed.

(** A head: its lines are not empty and of printable ASCII. *)
Definition head_ok (ls : list (list ascii)) : Prop := ls ≠ [] ∧ Forall (λ l, l ≠ [] ∧ plain l) ls.

Lemma head_no ls a : head_ok ls → wire_char a = false → Forall (λ l, l ≠ [] ∧ a ∉ l) ls.
Proof.
  intros [_ H] Ha. eapply Forall_impl; [exact H|]. intros l [? ?]. split; [done|]. by apply plain_not.
Qed.

Lemma head_find ls body : head_ok ls →
  find_header_end ((join_crlf ls ++ header_separator) ++ body) = Some (length (join_crlf ls)).
Proof. intros Hok. rewrite <-app_assoc. apply find_join; [apply Hok|]. by apply head_no. Qed.

Lemma head_text ls : head_ok ls → from_utf8 (join_crlf ls) = Some (of_bytes (join_crlf ls)).
Proof.
  intros [_ Hl]. assert (is_Some (utf8_decode (join_crlf ls))) as [cs Hcs]; [|by unfold from_utf8; rewrite Hcs].
  apply utf8_ascii. induction Hl as [|l ls [_ Hl] Hls IH]; [constructor|].
  assert (Forall (λ a, (byte_val a <? 128)%N = true) l) as Ha.
  { eapply Forall_impl; [exact Hl|]. intros a. unfold wire_char, RustStd.between.
    rewrite andb_true_iff, !N.leb_le, N.ltb_lt. lia. }
  destruct ls as [|l' ls]; [done|]. rewrite join_crlf_cons by done.
  apply Forall_app. split; [done|]. by repeat constructor.
Qed.

Lemma head_lines ls : head_ok ls → lines (of_bytes (join_crlf ls)) = of_bytes <$> ls.
Proof. intros Hok. unfold lines. rewrite bytes_of_bytes, lines_join; [done|]. by apply head_no. Qed.

Lemma fields_ok headers : Forall field_ok headers →
  Forall (λ l, l ≠ [] ∧ plain l) (field_line <$> headers).
Proof.
  intros Hf. apply Forall_fmap. eapply Forall_impl; [exact Hf|]. intros nv []. split; [by intros [_ ?]%app_nil|].
  apply Forall_app. split; [by apply token_plain|]. by repeat constructor.
Qed.

Lemma message_lines_ok method path headers : message_ok method path headers →
  head_ok (message_lines method path headers).
Proof.
  intros [[Hm Hm0] (Hp & Hp0 & _) Hf _]. split; [done|]. constructor; [|by apply fields_ok].
  split; [by intros [_ ?]%app_nil|]. apply Forall_app. split; [by apply token_plain|].
  constructor; [done|]. apply Forall_app. split; [by apply token_plain|]. by repeat constructor.
Qed.

Lemma message_find method path headers body : message_ok method path headers →
  find_header_end (message_head method path headers ++ body)
  = Some (length (join_crlf (message_lines method path headers))).
Proof. intros Hok. by apply head_find, message_lines_ok. Qed.

(** The request line is read as its parts. *)
Lemma message_words method path : token (bytes method) → method ≠ "" → token (bytes path) → path ≠ "" →
  split_whitespace (of_bytes (bytes method ++ space :: bytes path ++ space :: bytes "HTTP/1.1"))
  = [method; path; "HTTP/1.1"].
Proof.
  intros Hm Hm0 Hp Hp0. unfold split_whitespace. rewrite bytes_of_bytes, words_token by done.
  rewrite words_space, words_token, words_space by done.
  assert (∀ s : string, s ≠ "" → flush (bytes s) = [bytes s]) as Hfl by (by intros []).
  cbn [app]. rewrite !Hfl by done. cbn [app fmap list_fmap]. by rewrite !of_bytes_bytes.
Qed.

Lemma add_field m nv : field_ok nv →
  add_header_line m (of_bytes (field_line nv)) = <[nv.1 := nv.2]> m.
Proof.
  intros [Hn Hc Hl Hv Ht]. unfold add_header_line, split_once, field_line. rewrite bytes_of_bytes.
  rewrite split_once_found by done. cbn [fmap option_fmap option_map fst snd].
  assert (trim (of_bytes (bytes nv.1)) = nv.1) as ->.
  { rewrite of_bytes_bytes. unfold trim, trim_bytes. rewrite trim_start_id, trim_end_id, rev_involutive.
    - apply of_bytes_bytes.
    - apply token_no_ws_tail. by apply Forall_rev.
    - by apply token_no_ws_head. }
  assert (trim (of_bytes (space :: bytes nv.2)) = nv.2) as ->.
  { unfold trim. rewrite bytes_of_bytes, trim_space_before. exact Ht. }
  by rewrite Hl.
Qed.

Lemma fold_inserts (headers : list (string * string)) (m : gmap string string) : NoDup headers.*1 →
  foldl (λ m nv, <[nv.1 := nv.2]> m) m headers = list_to_map headers ∪ m.
Proof.
  revert m; induction headers as [|[n v] headers IH]; intros m Hnd; [by rewrite list_to_map_nil, map_empty_union|].
  cbn [fmap list_fmap fst] in Hnd. apply NoDup_cons in Hnd as [Hn Hnd]. cbn [foldl]. rewrite IH by done.
  apply map_eq. intros k. simpl. destruct (decide (k = n)) as [->|Hk].
  - rewrite lookup_union_r by (by apply not_elem_of_list_to_map_1).
    rewrite lookup_insert_eq. symmetry. apply lookup_union_Some_l, lookup_insert_eq.
  - rewrite !lookup_union, !lookup_insert_ne by done. done.
Qed.

Lemma message_fields headers : Forall field_ok headers → NoDup headers.*1 →
  parse_header_lines (of_bytes <$> (field_line <$> headers))
  = list_to_map headers.
Proof.
  intros Hall Hnd. unfold parse_header_lines.
  assert (∀ m, foldl add_header_line m
      (of_bytes <$> (field_line <$> headers))
    = foldl (λ m nv, <[nv.1 := nv.2]> m) m headers) as ->.
  { clear Hnd. induction Hall as [|nv headers Hnv _ IH]; intros m; [done|].
    cbn [fmap list_fmap foldl]. by rewrite add_field, IH. }
  rewrite fold_inserts by done. by rewrite map_union_empty.
Qed.

(** ** Lemmas: reading the stream *)

(** Segments of at least a byte each, as they arrive. *)
Definition arrives (segs : list (list ascii)) : Stream := Segment <$> segs.
Definition filled (segs : list (list ascii)) : Prop := Forall (λ s, s ≠ []) segs.

Lemma stream_size_cons s segs :
  stream_size (arrives (s :: segs)) = S (length s + stream_size (arrives segs)).
Proof. done. Qed.

Lemma read_bytes_some {E} (silence : E) broken limit segs :
  (0 < limit)%nat → filled segs → segs ≠ [] →
  ∃ chunk segs', read_bytes silence broken limit (arrives segs) = (Ok chunk, arrives segs')
  ∧ chunk ≠ [] ∧ (length chunk ≤ limit)%nat ∧ mjoin segs = chunk ++ mjoin segs'
  ∧ filled segs' ∧ (stream_size (arrives segs') < stream_size (arrives segs))%nat.
Proof.
  intros Hl Hf Hne. destruct segs as [|s segs]; [done|]. apply Forall_cons in Hf as [Hs Hf].
  assert (take limit s ≠ []) as Ht by (destruct s, limit; [done|done|lia|done]).
  destruct (drop limit s) as [|a rest] eqn:Hd.
  - exists s, segs. assert (take limit s = s) as Htake.
    { rewrite <-(take_drop limit s) at 2. by rewrite Hd, app_nil_r. }
    split_and!; [|done| |done|done|].
    + cbn [arrives fmap list_fmap read_bytes]. by rewrite Hd, Htake.
    + apply (f_equal length) in Htake. rewrite length_take in Htake.
      rewrite <-Htake. apply Nat.le_min_l.
    + rewrite stream_size_cons. lia.
  - exists (take limit s), ((a :: rest) :: segs).
    split_and!; [|done| | | |].
    + cbn [arrives fmap list_fmap read_bytes]. by rewrite Hd.
    + rewrite length_take. lia.
    + change (mjoin (s :: segs)) with (s ++ mjoin segs).
      change (mjoin ((a :: rest) :: segs)) with ((a :: rest) ++ mjoin segs).
      by rewrite app_assoc, <-Hd, take_drop.
    + by constructor.
    + apply (f_equal length) in Hd. rewrite length_drop in Hd.
      assert (length (a :: rest) < length s)%nat by (destruct s; [done|cbn [length] in *; lia]).
      rewrite !stream_size_cons. lia.
Qed.

Lemma read_some limit segs v : (0 < limit)%nat → filled segs → segs ≠ [] →
  ∃ chunk segs', on_stream (read_stream limit) (with_stream (arrives segs) v)
    = (Ok chunk, with_stream (arrives segs') v)
  ∧ chunk ≠ [] ∧ (length chunk ≤ limit)%nat ∧ mjoin segs = chunk ++ mjoin segs'
  ∧ filled segs' ∧ (stream_size (arrives segs') < stream_size (arrives segs))%nat.
Proof.
  intros Hl Hf Hne. destruct (read_bytes_some RequestTimeout ServerIo limit segs Hl Hf Hne)
    as (chunk & segs' & Hrun & H).
  exists chunk, segs'. split; [|done]. unfold on_stream, zoom, read_stream.
  cbn [with_stream sv_stream]. by rewrite Hrun.
Qed.

Lemma with_stream_twice a b v : with_stream a (with_stream b v) = with_stream a v.
Proof. done. Qed.

Lemma read_head_run n fuel : ∀ buffer segs v,
  filled segs → (stream_size (arrives segs) < fuel)%nat →
  find_header_end (buffer ++ mjoin segs) = Some n → (length buffer < n + 4)%nat → Z.of_nat n ≤ 12284 →
  ∃ buffer' segs', read_head fuel buffer (with_stream (arrives segs) v)
    = (Ok buffer', with_stream (arrives segs') v)
  ∧ buffer ++ mjoin segs = buffer' ++ mjoin segs' ∧ (n + 4 ≤ length buffer')%nat ∧ filled segs'.
Proof.
  induction fuel as [|fuel IH]; intros buffer segs v Hf Hfuel Hfind Hb Hn; [lia|].
  pose proof (find_bound _ _ Hfind) as Hbound. rewrite length_app in Hbound.
  assert (segs ≠ []) as Hne by (intros ->; simpl in Hbound; lia).
  destruct (read_some READ_BYTES segs v) as (chunk & segs' & Hrun & Hc & Hlen & Hj & Hf' & Hsz);
    [unfold READ_BYTES; lia|done|done|].
  cbn [read_head]. rewrite M_bind_eq, Hrun. rewrite bool_decide_eq_false_2 by done.
  assert (Z.of_nat (length (buffer ++ chunk)) ≤ MAX_HEADER_BYTES) as Hmax.
  { rewrite length_app. unfold READ_BYTES, MAX_HEADER_BYTES in *. lia. }
  rewrite (proj2 (Z.ltb_ge _ _)) by done.
  rewrite Hj, app_assoc in *.
  destruct (decide (n + 4 ≤ length (buffer ++ chunk))%nat) as [Hd|Hd].
  - exists (buffer ++ chunk), segs'. rewrite bool_decide_eq_true_2 by (eexists; by apply (find_app _ _ _ Hd) in Hfind).
    by split_and!.
  - rewrite bool_decide_eq_false_2.
    + destruct (IH (buffer ++ chunk) segs' v) as (buffer' & segs2 & H); [done|lia|done|lia|done|].
      by exists buffer', segs2.
    + intros [m Hm]. pose proof (find_bound _ _ Hm) as Hbm.
      pose proof (proj2 (find_app _ (mjoin segs') _ Hbm) Hm) as Hm'. rewrite Hfind in Hm'.
      injection Hm' as ->. lia.
Qed.

Lemma filled_length segs : filled segs → segs ≠ [] → (0 < length (mjoin segs))%nat.
Proof.
  intros Hf Hne. destruct segs as [|s segs]; [done|]. apply Forall_cons in Hf as [Hs _].
  change (mjoin (s :: segs)) with (s ++ mjoin segs). rewrite length_app. destruct s; [done|]. simpl. lia.
Qed.

Lemma read_memory_run content_length fuel : ∀ body segs v,
  filled segs → (stream_size (arrives segs) < fuel)%nat →
  Z.of_nat (length (body ++ mjoin segs)) = content_length →
  read_memory_loop fuel content_length body (with_stream (arrives segs) v)
  = (Ok (body ++ mjoin segs), with_stream [] v).
Proof.
  induction fuel as [|fuel IH]; intros body segs v Hf Hfuel Hlen; [lia|].
  rewrite length_app in Hlen. cbn [read_memory_loop].
  destruct (decide (segs = [])) as [->|Hne].
  { change (mjoin []) with (@nil ascii) in *. simpl in Hlen.
    rewrite (proj2 (Z.ltb_ge _ _)) by lia. by rewrite app_nil_r. }
  pose proof (filled_length segs Hf Hne) as Hpos.
  rewrite (proj2 (Z.ltb_lt _ _)) by lia.
  destruct (read_some (Z.to_nat (Z.min (u64_saturating_sub content_length (Z.of_nat (length body))) 4096))
    segs v) as (chunk & segs' & Hrun & Hc & _ & Hj & Hf' & Hsz);
    [unfold u64_saturating_sub; lia|done|done|].
  rewrite M_bind_eq, Hrun, bool_decide_eq_false_2 by done.
  rewrite IH by first [done|lia|rewrite <-app_assoc, <-Hj, length_app; lia].
  by rewrite <-app_assoc, <-Hj.
Qed.

(** ** Lemmas: a whole request *)

(** The directories on the way to [dir] are there, and the rest is as it was. *)
Definition made (dir : Key) (except : Key → Prop) (fs fs' : FS) : Prop :=
  ∀ k, ¬ except k → (on_way [] dir k ∧ fs' !! k = Some EDir) ∨ (¬ on_way [] dir k ∧ fs' !! k = fs !! k).

Section request.
Context `{HL : !HexLib, SH : !Sha256Lib, HM : !HmacLib, UL : !UuidLib, IL : !IoLib,
          PJ : !SerdeJson PeerStoreDocument}.

Definition content_length_of (headers : list (string * string)) : Z :=
  default 0 ((list_to_map headers : gmap string string) !! "content-length" ≫= parse_u64).

(** The header is understood; what is left is the body. *)
Lemma parse_request_head fs_now body_id config method path headers prefix s :
  message_ok method path headers →
  parse_request fs_now body_id config (message_head method path headers ++ prefix) s
  = (body ← (if should_spool_body method path (content_length_of headers)
             then read_file_body fs_now body_id config prefix (content_length_of headers)
             else read_memory_body prefix (content_length_of headers));
     mret {| hr_method := method; hr_path := path; hr_headers := list_to_map headers;
             hr_body_sha256_hex := body_sha256_hex body; hr_body := body |}) s.
Proof.
  intros Hok. unfold parse_request. rewrite message_find by done. cbn [ok_or]. rewrite bind_lift_Ok.
  cbv zeta. set (text := join_crlf (message_lines method path headers)).
  assert (take (length text) (message_head method path headers ++ prefix) = text) as ->.
  { unfold message_head. by rewrite <-app_assoc, take_app_length. }
  assert (drop (length text + 4) (message_head method path headers ++ prefix) = prefix) as ->.
  { unfold message_head. change 4%nat with (length header_separator).
    by rewrite <-length_app, drop_app_length. }
  pose proof (head_text _ (message_lines_ok _ _ _ Hok)) as Hu.
  pose proof (head_lines _ (message_lines_ok _ _ _ Hok)) as Hlines. fold text in Hu, Hlines.
  destruct Hok as [[Hm Hm0] (Hp & Hp0 & Hq) Hf Hnd].
  assert (parse_headers text = Ok (list_to_map headers)) as ->.
  { unfold parse_headers. rewrite Hu. cbn [ok_or mbind result_bind]. rewrite Hlines.
    cbn [message_lines fmap list_fmap tail]. f_equal. by apply message_fields. }
  rewrite bind_lift_Ok, Hu. cbn [ok_or]. rewrite bind_lift_Ok, Hlines.
  cbn [message_lines fmap list_fmap head ok_or]. rewrite bind_lift_Ok. cbv zeta.
  rewrite (message_words method path) by done. cbn [head tail ok_or]. rewrite !bind_lift_Ok.
  assert (split_on question path = [path]) as ->.
  { unfold split_on. rewrite split_bytes_single by done. simpl. by rewrite of_bytes_bytes. }
  cbn [head ok_or]. by rewrite bind_lift_Ok.
Qed.

(** *** A body in memory *)

Lemma read_memory_body_run prefix content segs v :
  filled segs → prefix ++ mjoin segs = content → Z.of_nat (length content) ≤ MAX_MEMORY_BODY_BYTES →
  read_memory_body prefix (Z.of_nat (length content)) (with_stream (arrives segs) v)
  = (Ok (Memory content), with_stream [] v).
Proof.
  intros Hf Hc Hmax. unfold read_memory_body. rewrite (proj2 (Z.ltb_ge _ _)) by done.
  rewrite (proj2 (Z.ltb_ge _ _)) by (rewrite <-Hc, length_app; lia).
  unfold get_st. rewrite M_bind_eq. cbn [with_stream sv_stream]. subst content.
  rewrite M_bind_eq, read_memory_run by first [done|lia]. done.
Qed.

(** *** A body in a file *)

Definition body_name (body_id : Uuid) : string := uuid_to_string body_id +:+ ".body".
Definition body_path (folder : string) (body_id : Uuid) : string :=
  path_push (requests_dir folder) (body_name body_id).

Lemma read_file_run fs_now path content_length fuel : ∀ segs c written hashed v,
  filled segs → (stream_size (arrives segs) < fuel)%nat → 0 ≤ written →
  written + Z.of_nat (length (mjoin segs)) = content_length → content_length ≤ u64_max →
  holds path c v.(sv_fs) →
  ∃ fs', read_file_loop fs_now fuel path content_length written hashed (with_stream (arrives segs) v)
    = (Ok (hashed ++ mjoin segs), with_fs fs' (with_stream [] v))
  ∧ holds path (c ++ mjoin segs) fs' ∧ ∀ k, k ≠ components path → fs' !! k = v.(sv_fs) !! k.
Proof.
  induction fuel as [|fuel IH]; intros segs c written hashed v Hf Hfuel Hw Hlen Hmax Hc; [lia|].
  cbn [read_file_loop]. destruct (decide (segs = [])) as [->|Hne].
  { change (mjoin []) with (@nil ascii) in *. simpl in Hlen.
    rewrite (proj2 (Z.ltb_ge _ _)) by lia. exists (sv_fs v). rewrite !app_nil_r. done. }
  assert (0 < length (mjoin segs))%nat as Hpos by (by apply filled_length).
  rewrite (proj2 (Z.ltb_lt _ _)) by lia. cbv zeta.
  destruct (read_some (Z.to_nat (Z.min (u64_saturating_sub content_length written) (64 * 1024)))
    segs v) as (chunk & segs' & Hrun & Hch & _ & Hj & Hf' & Hsz);
    [unfold u64_saturating_sub; lia|done|done|].
  erewrite bind_Ok by exact Hrun. rewrite bool_decide_eq_false_2 by done.
  destruct (append_run (E:=string) fs_now path c chunk (sv_fs v) Hc) as (fs1 & Hrun1 & Hc1 & Hk1).
  assert (fs_at path (append fs_now path chunk) (with_stream (arrives segs') v)
          = (Ok tt, with_stream (arrives segs') (with_fs fs1 v))) as Hat.
  { unfold fs_at, on_fs, zoom. cbn [with_stream sv_fs]. by rewrite Hrun1. }
  erewrite bind_Ok by exact Hat. rewrite Hj, length_app in *.
  unfold u64_saturating_add. rewrite Z.min_l by lia.
  destruct (IH segs' (c ++ chunk) (written + Z.of_nat (length chunk)) (hashed ++ chunk) (with_fs fs1 v))
    as (fs2 & Hrun2 & Hc2 & Hk2); [done|lia|lia|lia|done|done|].
  exists fs2. rewrite Hrun2, !app_assoc. split_and!; [done|done|].
  intros k Hk. rewrite Hk2 by done. by apply Hk1.
Qed.

(** The directory of the spooled bodies is there or can be made, and no directory has
    the name of the file. *)
Record spool_ready (folder : string) (body_id : Uuid) (fs : FS) : Prop := {
  sp_dirs : ∀ k, on_way [] (components (requests_dir folder)) k → dir_or_none (fs !! k);
  sp_file : file_or_none (fs !! components (body_path folder body_id));
}.

(** [fs'] is [fs] with the directory [dir] made and [content] in the spooled file. *)
Definition spooled (folder : string) (body_id : Uuid) (content : list ascii) (fs fs' : FS) : Prop :=
  holds (body_path folder body_id) content fs'
  ∧ made (components (requests_dir folder)) (λ k, k = components (body_path folder body_id)) fs fs'.

Lemma uuid_name_valid `{!UuidLaws} (u : Uuid) (ext : string) : slash ∉ bytes ext →
  valid_name (uuid_to_string u +:+ "." +:+ ext).
Proof.
  intros Hext. destruct (uuid_text u) as [Hne Ht].
  assert (∀ a, uuid_char a = true → a ≠ slash ∧ a ≠ dot) as Hc.
  { intros a Ha. split; intros ->; vm_compute in Ha; done. }
  destruct (uuid_to_string u) as [|a s] eqn:E; [done|]. cbn [String.append].
  apply Forall_cons in Ht as [Ha Hs]. destruct (Hc a Ha) as [Hsl Hd].
  split_and!; [done|intros [= Ea _]; exact (Hd Ea)|intros [= Ea _]; exact (Hd Ea)|].
  change (bytes (String a (s +:+ "." +:+ ext))) with (a :: bytes (s +:+ "." +:+ ext)).
  rewrite !bytes_app. apply not_elem_of_cons. split; [congruence|].
  rewrite !not_elem_of_app. split_and!; [|by apply not_elem_of_cons; split; [|apply not_elem_of_nil]|done].
  intros Hin. eapply Forall_forall in Hs; [|exact Hin]. by destruct (Hc slash Hs).
Qed.

Lemma body_path_components `{!UuidLaws} folder body_id :
  components (body_path folder body_id) = components (requests_dir folder) ++ [Normal (body_name body_id)].
Proof. apply components_push1. apply (uuid_name_valid body_id "body"). by apply (bool_decide_eq_true_1 _). Qed.

Lemma has_parent_snoc fs d n : d = [] ∨ fs !! d = Some EDir → has_parent fs (d ++ [Normal n]) = true.
Proof.
  intros Hd. unfold has_parent. rewrite reverse_app. simpl. destruct (reverse d) as [|c r] eqn:E; [done|].
  rewrite <-E, reverse_involutive. destruct Hd as [-> | ->]; [done|]. by apply bool_decide_eq_true_2.
Qed.

Lemma on_way_dec (d k : Key) : on_way [] d k ∨ ¬ on_way [] d k.
Proof.
  destruct (decide (k ≠ [] ∧ k `prefix_of` d)) as [[Hk [b ->]]|H]; [left; by exists k, b|right].
  intros (a & b & Ha & -> & ->). apply H. split; [done|]. by exists b.
Qed.

Lemma on_fs_run {F A} (f : F → PeerServerError) (m : M FS F A) v a fs' :
  m v.(sv_fs) = (Ok a, fs') → on_fs f m v = (Ok a, with_fs fs' v).
Proof. intros H. unfold on_fs, zoom. by rewrite H. Qed.

Lemma on_db_run {A} (m : DB A) v a db' :
  m v.(sv_db) = (Ok a, db') → on_db m v = (Ok a, with_db db' v).
Proof. intros H. unfold on_db, zoom. by rewrite H. Qed.

Lemma fs_at_run {A} (path : string) (m : M FS string A) v a fs' :
  m v.(sv_fs) = (Ok a, fs') → fs_at path m v = (Ok a, with_fs fs' v).
Proof. intros H. unfold fs_at, on_fs, zoom. by rewrite H. Qed.

Lemma read_file_body_run `{!UuidLaws} fs_now body_id config prefix content segs v :
  filled segs → prefix ++ mjoin segs = content → Z.of_nat (length content) ≤ u64_max →
  spool_ready config.(cfg_folder_path) body_id v.(sv_fs) →
  ∃ fs', read_file_body fs_now body_id config prefix (Z.of_nat (length content))
      (with_stream (arrives segs) v)
    = (Ok (File {| fb_path := body_path config.(cfg_folder_path) body_id;
                   fb_size_bytes := Z.of_nat (length content);
                   fb_sha256_hex := hex_encode (sha256 content) |}), with_fs fs' (with_stream [] v))
  ∧ spooled config.(cfg_folder_path) body_id content v.(sv_fs) fs'.
Proof.
  intros Hf Hc Hmax [Hdirs Hfile]. set (folder := cfg_folder_path config) in *.
  set (dir := requests_dir folder) in *. set (path := body_path folder body_id) in *.
  assert (components path = components dir ++ [Normal (body_name body_id)]) as Hpath
    by apply body_path_components.
  destruct (create_dirs_ok (components dir) [] (sv_fs v) Hdirs) as (fs1 & Hrun1 & Hin1 & Hout1).
  assert (¬ on_way [] (components dir) (components path)) as Hnot.
  { rewrite Hpath. intros (a & b & _ & Hab & E). simpl in E. rewrite <-E in Hab.
    apply (f_equal length) in Hab. rewrite !length_app in Hab. simpl in Hab. lia. }
  assert (has_parent fs1 (components path) = true) as Hpar.
  { rewrite Hpath. apply has_parent_snoc. destruct (decide (components dir = [])); [by left|right].
    apply Hin1. exists (components dir), []. by rewrite app_nil_r. }
  rewrite <-(Hout1 _ Hnot) in Hfile.
  pose proof (fs_write_ok fs_now path [] fs1 Hfile Hpar) as Hrun2.
  set (fs2 := <[components path := EFile [] (Some fs_now)]> fs1) in *.
  assert (∃ fs3, (if bool_decide (prefix = []) then mret tt else fs_at path (append fs_now path prefix))
      (with_fs fs2 (with_stream (arrives segs) v)) = (Ok tt, with_fs fs3 (with_stream (arrives segs) v))
    ∧ holds path prefix fs3 ∧ ∀ k, k ≠ components path → fs3 !! k = fs2 !! k)
    as (fs3 & Hrun3 & Hh3 & Hk3).
  { assert (holds path [] fs2) as Hh2 by (eexists; apply lookup_insert_eq).
    case_bool_decide as Hp; [subst prefix; by exists fs2|].
    destruct (append_run (E:=string) fs_now path [] prefix fs2 Hh2) as (fs3 & Hrun3 & Hh3 & Hk3).
    exists fs3. split_and!; [|done|done]. by apply (fs_at_run path _ (with_fs fs2 (with_stream (arrives segs) v))). }
  destruct (read_file_run fs_now path (Z.of_nat (length content)) (S (stream_size (arrives segs)))
    segs prefix (Z.of_nat (length prefix)) prefix (with_fs fs3 v)) as (fs4 & Hrun4 & Hh4 & Hk4);
    [done|lia|lia|rewrite <-Hc, length_app; lia|done|done|].
  exists fs4. split.
  - unfold read_file_body. rewrite (proj2 (Z.ltb_ge _ _)) by (rewrite <-Hc, length_app; lia). cbv zeta.
    erewrite bind_Ok; [|exact (fs_at_run dir _ (with_stream (arrives segs) v) _ _ Hrun1)].
    erewrite bind_Ok; [|exact (fs_at_run path _ (with_fs fs1 (with_stream (arrives segs) v)) _ _ Hrun2)].
    erewrite bind_Ok; [|exact Hrun3]. unfold get_st. rewrite M_bind_eq.
    erewrite bind_Ok; [|exact Hrun4]. rewrite Hc. done.
  - split; [by rewrite Hc in Hh4|]. intros k Hk. rewrite Hk4, Hk3 by done.
    assert (fs2 !! k = fs1 !! k) as -> by (by apply lookup_insert_ne).
    destruct (on_way_dec (components dir) k) as [Hw|Hw]; [left|right]; (split; [done|]);
      [by apply Hin1|by apply Hout1].
Qed.

(** ** Authentication *)

(** What a request must carry to be let in, and the secret it is let in with. *)
Inductive authenticated (now_utc : OffsetDateTime) (fs : FS) (peers_path : string)
    (request : HttpRequest) : string → Prop :=
| authenticated_intro id_text time_text signature id t document peer fs' :
    request.(hr_headers) !! "x-syncer-device-id" = Some id_text →
    request.(hr_headers) !! "x-syncer-timestamp" = Some time_text →
    request.(hr_headers) !! "x-syncer-signature" = Some signature →
    uuid_parse_str id_text = Some id → parse_i64 time_text = Some t →
    Z.abs (unix_timestamp now_utc - t) ≤ 300 →
    read_or_default peers_path fs = (Ok document, fs') →
    trusted_peer document id = Some peer →
    verify_request_signature_with_body_hash_hex signature request.(hr_method) request.(hr_path)
      (uuid_to_string id) t request.(hr_body_sha256_hex) peer.(tp_shared_secret_hex) = Ok tt →
    authenticated now_utc fs peers_path request peer.(tp_shared_secret_hex).

Lemma read_or_default_reads path fs : (read_or_default path fs).2 = fs.
Proof.
  unfold read_or_default, get_st. rewrite M_bind_eq. case_bool_decide; [done|].
  rewrite M_bind_eq. unfold lift. destruct (map_err _ _); [|done]. rewrite M_bind_eq.
  destruct (map_err _ _); [|done]. by destruct (_ =? _).
Qed.

Lemma verify_reads now_utc request peers_path v :
  (verify_peer_request now_utc request peers_path v).2 = v.
Proof.
  unfold verify_peer_request.
  destruct (_ !! "x-syncer-device-id") as [id_text|]; [|done]. cbn [ok_or]. rewrite bind_lift_Ok.
  destruct (_ !! "x-syncer-timestamp") as [time_text|]; [|done]. cbn [ok_or]. rewrite bind_lift_Ok.
  destruct (parse_i64 time_text) as [t|]; [|done]. cbn [ok_or]. rewrite bind_lift_Ok.
  destruct (_ !! "x-syncer-signature") as [signature|]; [|done]. cbn [ok_or]. rewrite bind_lift_Ok.
  cbv zeta. destruct (300 <? _); [done|].
  destruct (uuid_parse_str id_text) as [id|]; [|done]. cbn [ok_or]. rewrite bind_lift_Ok. cbv zeta.
  rewrite M_bind_eq. unfold on_fs, zoom. pose proof (read_or_default_reads peers_path (sv_fs v)) as Hr.
  assert (with_fs (sv_fs v) v = v) as Hid by (by destruct v).
  destruct (read_or_default peers_path (sv_fs v)) as [[document|e] fs']; simpl in Hr; subst fs';
    [|done]. rewrite Hid, M_bind_eq. unfold lift at 1.
  destruct (trusted_peer document _) as [peer|]; [|done]. cbn [ok_or]. rewrite M_bind_eq. unfold lift.
  by destruct (map_err _ _).
Qed.

Lemma verify_Ok now_utc request peers_path v secret v' :
  verify_peer_request now_utc request peers_path v = (Ok secret, v')
  ↔ v' = v ∧ authenticated now_utc v.(sv_fs) peers_path request secret.
Proof.
  split.
  - intros Hrun. pose proof (verify_reads now_utc request peers_path v) as Hst. rewrite Hrun in Hst.
    simpl in Hst. subst v'. split; [done|]. revert Hrun. unfold verify_peer_request.
    destruct (_ !! "x-syncer-device-id") as [id_text|] eqn:H1; [|done]. cbn [ok_or]. rewrite bind_lift_Ok.
    destruct (_ !! "x-syncer-timestamp") as [time_text|] eqn:H2; [|done]. cbn [ok_or]. rewrite bind_lift_Ok.
    destruct (parse_i64 time_text) as [t|] eqn:H3; [|done]. cbn [ok_or]. rewrite bind_lift_Ok.
    destruct (_ !! "x-syncer-signature") as [signature|] eqn:H4; [|done]. cbn [ok_or]. rewrite bind_lift_Ok.
    cbv zeta. destruct (Z.ltb_spec 300 (abs_diff (unix_timestamp now_utc) t)) as [|H5]; [done|].
    destruct (uuid_parse_str id_text) as [id|] eqn:H6; [|done]. cbn [ok_or]. rewrite bind_lift_Ok. cbv zeta.
    rewrite M_bind_eq. unfold on_fs, zoom.
    destruct (read_or_default peers_path (sv_fs v)) as [[document|e] fs'] eqn:H7; [|done].
    rewrite M_bind_eq. unfold lift at 1.
    destruct (trusted_peer document _) as [peer|] eqn:H8; [|done]. cbn [ok_or]. rewrite M_bind_eq.
    unfold lift. destruct (verify_request_signature_with_body_hash_hex _ _ _ _ _ _ _) as [[]|e] eqn:H9; [|done].
    intros [= <- _]. by econstructor.
  - intros [-> Ha]. pose proof (verify_reads now_utc request peers_path v) as Hst.
    destruct Ha as [id_text time_text signature id t document peer fs' H1 H2 H4 H6 H3 H5 H7 H8 H9].
    revert Hst. unfold verify_peer_request. rewrite H1, H2, H4. cbn [ok_or]. rewrite !bind_lift_Ok, H3.
    cbn [ok_or]. rewrite !bind_lift_Ok. cbv zeta. rewrite (proj2 (Z.ltb_ge _ _)) by done.
    rewrite H6. cbn [ok_or]. rewrite bind_lift_Ok. cbv zeta. rewrite M_bind_eq. unfold on_fs, zoom.
    rewrite H7. unfold device_id_from_uuid. rewrite M_bind_eq, H8. unfold lift at 1 3. cbn [ok_or].
    rewrite M_bind_eq. unfold device_id_to_string. rewrite H9. simpl. by intros ->.
Qed.

(** The head and the first bytes of the body are read together. *)
Lemma request_head_read fs_now body_id config method path headers body segs v :
  message_ok method path headers →
  Z.of_nat (length (message_head method path headers)) ≤ 12288 →
  filled segs → mjoin segs = message_head method path headers ++ body →
  ∃ prefix segs', prefix ++ mjoin segs' = body ∧ filled segs' ∧ ∀ r v',
    (body ← (if should_spool_body method path (content_length_of headers)
             then read_file_body fs_now body_id config prefix (content_length_of headers)
             else read_memory_body prefix (content_length_of headers));
     mret {| hr_method := method; hr_path := path; hr_headers := list_to_map headers;
             hr_body_sha256_hex := body_sha256_hex body; hr_body := body |})
             (with_stream (arrives segs') v) = (r, v') →
    read_request fs_now body_id config (with_stream (arrives segs) v) = (r, v').
Proof using Type.
  intros Hok Hhead Hf Hsegs.
  set (n := length (join_crlf (message_lines method path headers))).
  assert (length (message_head method path headers) = n + 4)%nat as Hlen
    by (unfold message_head; by rewrite length_app).
  destruct (read_head_run n (S (stream_size (arrives segs))) [] segs v)
    as (buffer & segs' & Hrun & Hj & Hn & Hf').
  - done.
  - lia.
  - simpl. rewrite Hsegs. by apply message_find.
  - simpl. lia.
  - lia.
  - simpl in Hj. rewrite Hsegs in Hj.
    assert (∃ prefix, buffer = message_head method path headers ++ prefix ∧ prefix ++ mjoin segs' = body)
      as (prefix & -> & Hbody).
    { apply app_eq_inv in Hj as [(k & Hk & E)|(k & Hk & E)]; [|by exists k].
      assert (k = []) as ->.
      { apply (f_equal length) in Hk. rewrite length_app, Hlen in Hk. apply nil_length_inv. lia. }
      exists []. rewrite app_nil_r in *. by split. }
    exists prefix, segs'. split_and!; [done|done|]. intros r v' <-.
    unfold read_request, get_st. rewrite M_bind_eq. cbn [with_stream sv_stream].
    erewrite bind_Ok by exact Hrun. by rewrite parse_request_head.
Qed.

Lemma spooled_request_read `{UW : !UuidLaws} fs_now body_id config method path headers body segs v :
  message_ok method path headers →
  Z.of_nat (length (message_head method path headers)) ≤ 12288 →
  content_length_of headers = Z.of_nat (length body) →
  filled segs → mjoin segs = message_head method path headers ++ body →
  should_spool_body method path (content_length_of headers) = true → Z.of_nat (length body) ≤ u64_max →
  spool_ready config.(cfg_folder_path) body_id v.(sv_fs) →
  ∃ fs', read_request fs_now body_id config (with_stream (arrives segs) v)
    = (Ok {| hr_method := method; hr_path := path; hr_headers := list_to_map headers;
             hr_body_sha256_hex := hex_encode (sha256 body);
             hr_body := File {| fb_path := body_path config.(cfg_folder_path) body_id;
                                fb_size_bytes := Z.of_nat (length body);
                                fb_sha256_hex := hex_encode (sha256 body) |} |},
       with_fs fs' (with_stream [] v))
  ∧ spooled config.(cfg_folder_path) body_id body v.(sv_fs) fs'.
Proof using Type.
  intros Hok Hhead Hcl Hf Hsegs Hsp Hmax Hready.
  destruct (request_head_read fs_now body_id config method path headers body segs v)
    as (prefix & segs' & Hbody & Hf' & Hreq); [done..|].
  destruct (read_file_body_run fs_now body_id config prefix body segs' v)
    as (fs' & Hrun & Hs); [done|done|done|done|].
  exists fs'. split; [|done]. apply Hreq. rewrite Hsp, Hcl. erewrite bind_Ok by exact Hrun. done.
Qed.

End request.

(** ** Properties *)

(** C18. Whatever the segments the network cuts a request into, the server reads the
    request that was sent: method, path, header fields and body are the sender's, the
    hash is the hash of the body, nothing is left on the connection, a small body
    changes nothing else, and an uploaded one is in its temporary file and nowhere
    else. *)
Theorem request_reassembled `{HL : !HexLib, SH : !Sha256Lib, UL : !UuidLib, UW : !UuidLaws, IL : !IoLib}
    fs_now body_id config method path headers body segs v :
  message_ok method path headers →
  Z.of_nat (length (message_head method path headers)) ≤ 12288 →
  content_length_of headers = Z.of_nat (length body) →
  filled segs → mjoin segs = message_head method path headers ++ body →
  let spool := should_spool_body method path (content_length_of headers) in
  let request http_body :=
    {| hr_method := method; hr_path := path; hr_headers := list_to_map headers;
       hr_body_sha256_hex := hex_encode (sha256 body); hr_body := http_body |} in
  (spool = false → Z.of_nat (length body) ≤ MAX_MEMORY_BODY_BYTES →
   read_request fs_now body_id config (with_stream (arrives segs) v)
   = (Ok (request (Memory body)), with_stream [] v))
  ∧ (spool = true → Z.of_nat (length body) ≤ u64_max →
     spool_ready config.(cfg_folder_path) body_id v.(sv_fs) →
     ∃ fs', read_request fs_now body_id config (with_stream (arrives segs) v)
       = (Ok (request (File {| fb_path := body_path config.(cfg_folder_path) body_id;
                               fb_size_bytes := Z.of_nat (length body);
                               fb_sha256_hex := hex_encode (sha256 body) |})),
          with_fs fs' (with_stream [] v))
     ∧ spooled config.(cfg_folder_path) body_id body v.(sv_fs) fs').
Proof.
  intros Hok Hhead Hcl Hf Hsegs. cbv zeta. split; intros Hsp Hmax.
  - destruct (request_head_read fs_now body_id config method path headers body segs v)
      as (prefix & segs' & Hbody & Hf' & Hreq); [done..|].
    apply Hreq. rewrite Hsp, Hcl. erewrite bind_Ok by (by apply read_memory_body_run). done.
  - intros Hready. by apply spooled_request_read.
Qed.
