(* ===== verification/PeerServer.v ===== *)
(** * [crates/syncer-agent/src/peer_server.rs]: the handlers of the peer server

    One request from accept to response.  [StateDatabase::open] of a migrated
    database changes nothing (see Migrations.v) and is left out.  The clocks, the new
    identifiers and the random nonce of a request are the fields of [Inputs]; a write
    to the connection does not fail. *)

From S2P Require Import Prelude RustStd External Error Manifest Limits Model Records Planning StateDb FileSys FolderStore Scanner PathCodec RequestSigning PeerCrypto PeerStore HttpText PeerRequest.
From stdpp Require Import options pretty.
Local Open Scope Z_scope.

Record Inputs := {
  in_fs_now : Z;
  in_verify_now : OffsetDateTime;
  in_sent_at : OffsetDateTime;
  in_generated_at : OffsetDateTime;
  in_modified_at : OffsetDateTime;
  in_db_now : Z;
  in_scan_now : string → Z;
  in_scan_now_utc : string → OffsetDateTime;
  in_scan_end : Z;
  in_body_id : Uuid;
  in_plain_id : Uuid;
  in_response_id : Uuid;
  in_nonce_prefix : list ascii;
}.

Inductive PeerResponse :=
| ResponseBytes (bs : list ascii)
| ResponseFile (header path : string) (delete_after_send : bool).

Record SharedFile := { sf_path : string; sf_size_bytes : Z; sf_content_hash : string }.
Record UploadEncryption := { ue_shared_secret_hex : string; ue_nonce_hex : string }.

Record PresenceResponse := {
  pr_accepted : bool;
  pr_received_from : string;
  pr_local_presence : PeerPresence;
}.
Record HealthResponse := { he_ok : bool; he_device_id : string }.
Record ErrorResponse := { er_error : string }.
Record UploadFileResponse := {
  uf_accepted : bool;
  uf_path : RelativePath;
  uf_size_bytes : Z;
  uf_content_hash : string;
}.
Record DeleteFileResponse := {
  df_accepted : bool;
  df_path : RelativePath;
  df_size_bytes : Z;
  df_content_hash : string;
}.

Definition CARGO_PKG_VERSION : string := "0.1.0".

(** [PeerServerError::public_code]. *)
Definition public_code (e : PeerServerError) : string :=
  match e with
  | InvalidRequest | ServerJson _ => "invalid_request"
  | RequestTooLarge => "request_too_large"
  | RequestTimeout => "request_timeout"
  | NotFound => "not_found"
  | TargetConflict => "conflict"
  | HashMismatch => "hash_mismatch"
  | FolderLimitExceeded _ _ => "folder_limit_exceeded"
  | Unauthorized | ServerPeerStore _ | ServerSigning _ => "unauthorized"
  | ServerIo _ | ServerCore _ | ServerFilesystem _ _ | ServerPeerCrypto _ => "internal_error"
  end.

Definition error_status (e : PeerServerError) : Z :=
  match e with
  | Unauthorized | ServerPeerStore _ | ServerSigning _ => 401
  | NotFound => 404
  | TargetConflict => 409
  | RequestTooLarge => 413
  | RequestTimeout => 408
  | InvalidRequest | HashMismatch | FolderLimitExceeded _ _ | ServerJson _ => 400
  | ServerIo _ | ServerCore _ | ServerFilesystem _ _ | ServerPeerCrypto _ => 500
  end.

(** [m.unwrap_or_else(f)]. *)
Definition unwrap_or_else {A} (m : SV A) (f : PeerServerError → A) : SV A := λ v,
  match m v with
  | (Err e, v) => (Ok (f e), v)
  | r => r
  end.

Definition json_response {T} `{!SerdeJson T} (status : Z) (value : T) : result PeerServerError PeerResponse :=
  body ← map_err ServerJson (to_json value);
  Ok (ResponseBytes (binary_response status "application/json" body)).

Definition error_response `{!SerdeJson ErrorResponse} (e : PeerServerError) : PeerResponse :=
  match json_response (error_status e) {| er_error := public_code e |} with
  | Ok response => response
  | Err _ => ResponseBytes (bytes ("HTTP/1.1 500 Internal Server Error" +:+ crlf
               +:+ "content-length: 0" +:+ crlf +:+ "connection: close" +:+ crlf +:+ crlf))
  end.

Section server.
Context `{!TimeLib, !SqlxLib, !UuidLib, !SerdeJson (list BlockHash), !Blake3Lib, !IoLib, !ReadDir,
          !HexLib, !Sha256Lib, !HmacLib, !AeadLib, !KdfLib, !ReadLib,
          !SerdeJson FolderDocument, !SerdeJson PeerStoreDocument, !SerdeJson PeerPresence,
          !SerdeJson FolderManifest, !SerdeJson HealthResponse, !SerdeJson PresenceResponse,
          !SerdeJson ErrorResponse, !SerdeJson UploadFileResponse, !SerdeJson DeleteFileResponse}.

(** ** Files *)

Definition server_export_manifest (io : Inputs) (folder_path : string) (profile : LocalDeviceProfile)
    : SV FolderManifest :=
  let store := folder_store_new folder_path in
  folder ← on_fs ServerCore (folder_store_read store);
  let scanner := scanner_new folder_path profile.(lp_device_id) in
  s ← get_st;
  _ ← on_db (scan io.(in_scan_now) io.(in_scan_now_utc) s.(sv_fs) scanner io.(in_scan_end));
  on_db (export_manifest io.(in_generated_at) folder.(fd_folder).(fc_id) profile.(lp_device_id)).

(** The record of a file that is there to be read. *)
Definition find_available (manifest : FolderManifest) (relative_path : RelativePath)
    : result PeerServerError FileRecord :=
  file ← ok_or NotFound (head (filter (λ file, rel_eqb file.(fr_path) relative_path = true)
                                 manifest.(fm_files)));
  if negb (bool_decide (file.(fr_kind) = KFile))
     || negb (bool_decide (file.(fr_sync_state) = LocalAvailable))
  then Err NotFound
  else Ok file.

Definition shared_file (io : Inputs) (folder_path : string) (profile : LocalDeviceProfile)
    (relative_path : RelativePath) : SV SharedFile :=
  manifest ← server_export_manifest io folder_path profile;
  file ← lift (find_available manifest relative_path);
  content_hash ← lift (ok_or InvalidRequest file.(fr_content_hash));
  mret {| sf_path := path_push folder_path (rel_str relative_path);
          sf_size_bytes := file.(fr_size_bytes); sf_content_hash := content_hash |}.

Definition enforce_folder_limit (store : FolderStore) (incoming_size : Z) : SV unit :=
  folder ← on_fs ServerCore (folder_store_read store);
  status ← on_db folder_status;
  let remaining := remaining_bytes folder.(fd_folder).(fc_size_limit) status.(fs_indexed_bytes) in
  if remaining <? incoming_size then throw (FolderLimitExceeded remaining incoming_size)
  else mret tt.

Definition publish_uploaded_file (store : FolderStore) (relative_path : RelativePath)
    (temporary : string) : SV unit :=
  let target := path_push store.(fst_root) (rel_str relative_path) in
  _ ← match path_parent target with
      | Some parent => fs_at parent (create_dir_all parent)
      | None => mret tt
      end;
  fs_at target (fs_rename temporary target).

Definition uploaded_entry (io : Inputs) (profile : LocalDeviceProfile) (relative_path : RelativePath)
    (expected_size : Z) (content_hash : string) : FileEntry :=
  {| fe_path := relative_path; fe_kind := KFile; fe_size_bytes := expected_size;
     fe_modified_at := io.(in_modified_at); fe_content_hash := Some (content_hash_from_hex content_hash);
     fe_block_hashes := [];
     fe_version := {| fv_generation := 1; fv_device_id := profile.(lp_device_id) |} |}.

(** The first half of [write_uploaded_file]: the body is decrypted beside its file and
    everything is checked; the path of the plaintext and its hash. *)
Definition receive_upload (io : Inputs) (folder_path : string) (relative_path : RelativePath)
    (expected_size : Z) (expected_hash : string) (encryption : UploadEncryption) (body : FileBody)
    : SV (string * string) :=
  if negb (body.(fb_size_bytes) =? encrypted_len expected_size) then throw InvalidRequest
  else
    let store := folder_store_new folder_path in
    let plaintext_dir := requests_dir folder_path in
    _ ← fs_at plaintext_dir (create_dir_all plaintext_dir);
    let plaintext_path := path_push plaintext_dir (uuid_to_string io.(in_plain_id) +:+ ".plain") in
    decrypted ← on_fs ServerPeerCrypto (decrypt_file_to_path io.(in_fs_now) body.(fb_path) plaintext_path
      encryption.(ue_shared_secret_hex) encryption.(ue_nonce_hex)
      {| cc_direction := "upload"; cc_path := relative_path; cc_content_hash := expected_hash;
         cc_plaintext_size := expected_size |});
    let content_hash := decrypted.(cf_content_hash) in
    if negb (bool_decide (content_hash = expected_hash)) then throw HashMismatch
    else
      _ ← enforce_folder_limit store expected_size;
      let target := path_push folder_path (rel_str relative_path) in
      s ← get_st;
      exists_ ← lift (map_err (ServerFilesystem target) (try_exists s.(sv_fs) target));
      if exists_ : bool then throw TargetConflict else mret (plaintext_path, content_hash).

(** The second half: the plaintext is moved into place and recorded. *)
Definition commit_upload (io : Inputs) (folder_path : string) (profile : LocalDeviceProfile)
    (relative_path : RelativePath) (expected_size : Z) (expected_hash plaintext_path content_hash : string)
    : SV UploadFileResponse :=
  let store := folder_store_new folder_path in
  _ ← publish_uploaded_file store relative_path plaintext_path;
  _ ← on_fs ServerCore (folder_store_read store);
  _ ← on_db (upsert_file io.(in_db_now)
               (uploaded_entry io profile relative_path expected_size content_hash));
  mret {| uf_accepted := true; uf_path := relative_path; uf_size_bytes := expected_size;
          uf_content_hash := expected_hash |}.

Definition write_uploaded_file (io : Inputs) (folder_path : string) (profile : LocalDeviceProfile)
    (relative_path : RelativePath) (expected_size : Z) (expected_hash : string)
    (encryption : UploadEncryption) (body : FileBody) : SV UploadFileResponse :=
  received ← receive_upload io folder_path relative_path expected_size expected_hash encryption body;
  commit_upload io folder_path profile relative_path expected_size expected_hash received.1 received.2.

Definition delete_shared_file (io : Inputs) (folder_path : string) (profile : LocalDeviceProfile)
    (relative_path : RelativePath) (expected_size : Z) (expected_hash : string)
    : SV DeleteFileResponse :=
  manifest ← server_export_manifest io folder_path profile;
  file ← lift (find_available manifest relative_path);
  if negb (file.(fr_size_bytes) =? expected_size)
     || negb (bool_decide (file.(fr_content_hash) = Some expected_hash))
  then throw TargetConflict
  else
    let target := path_push folder_path (rel_str relative_path) in
    _ ← fs_at target (remove_file target);
    _ ← on_db (forget_file relative_path);
    mret {| df_accepted := true; df_path := relative_path; df_size_bytes := expected_size;
            df_content_hash := expected_hash |}.

(** ** Responses *)

Definition encrypted_file_response (io : Inputs) (status : Z) (file : SharedFile)
    (relative_path : RelativePath) (shared_secret_hex : string) : SV PeerResponse :=
  let encrypted_path := with_extension file.(sf_path)
    ("syncer-response-" +:+ uuid_to_string io.(in_response_id) +:+ ".enc") in
  encrypted ← on_fs ServerPeerCrypto (encrypt_file_to_path io.(in_fs_now) io.(in_nonce_prefix)
    file.(sf_path) encrypted_path shared_secret_hex
    {| cc_direction := "download"; cc_path := relative_path;
       cc_content_hash := file.(sf_content_hash); cc_plaintext_size := file.(sf_size_bytes) |});
  let header := response_header status "application/octet-stream" encrypted.(cf_size_bytes)
    [("x-syncer-encryption", ENCRYPTION_ALGORITHM);
     ("x-syncer-nonce", encrypted.(cf_nonce_hex));
     ("x-syncer-content-hash", file.(sf_content_hash));
     ("x-syncer-plaintext-size", pretty (file.(sf_size_bytes) : Z))] in
  mret (ResponseFile header encrypted_path true).

Definition write_response (response : PeerResponse) : SV unit :=
  match response with
  | ResponseBytes bs => send bs
  | ResponseFile header path delete_after_send =>
      _ ← send (bytes header);
      s ← get_st;
      content ← lift (map_err (ServerFilesystem path) (fs_read s.(sv_fs) path));
      _ ← send content;
      if delete_after_send
      then modify (λ v, with_fs (remove_file path v.(sv_fs)).2 v)
      else mret tt
  end.

(** ** Routing *)

Definition file_path_of (request : HttpRequest) : result PeerServerError RelativePath :=
  map_err (λ _, InvalidRequest)
    (decode_relative_path (trim_start_matches "/file/" request.(hr_path))).

Definition route_request (io : Inputs) (request : HttpRequest) (config : PeerServerConfig)
    : SV PeerResponse :=
  let verify := verify_peer_request io.(in_verify_now) request config.(cfg_peers_path) in
  let folder_path := config.(cfg_folder_path) in
  let profile := config.(cfg_profile) in
  let method := request.(hr_method) in
  let path := request.(hr_path) in
  if bool_decide (method = "GET" ∧ path = "/health") then
    lift (json_response 200 {| he_ok := true;
                               he_device_id := device_id_to_string profile.(lp_device_id) |})
  else if bool_decide (method = "POST" ∧ path = "/presence") then
    _ ← verify;
    body ← lift (memory_body request);
    presence ← lift (map_err ServerJson (from_json body));
    lift (json_response 200
      {| pr_accepted := true;
         pr_received_from := device_id_to_string presence.(pp_device_id);
         pr_local_presence := {| pp_device_id := profile.(lp_device_id);
                                 pp_sent_at := io.(in_sent_at);
                                 pp_agent_version := CARGO_PKG_VERSION |} |})
  else if bool_decide (method = "GET" ∧ path = "/manifest") then
    _ ← verify;
    manifest ← server_export_manifest io folder_path profile;
    lift (json_response 200 manifest)
  else if bool_decide (method = "GET") && starts_with path "/file/" then
    shared_secret ← verify;
    relative_path ← lift (file_path_of request);
    file ← shared_file io folder_path profile relative_path;
    encrypted_file_response io 200 file relative_path shared_secret
  else if bool_decide (method = "PUT") && starts_with path "/file/" then
    shared_secret ← verify;
    relative_path ← lift (file_path_of request);
    expected_size ← lift (required_u64_header request "x-syncer-file-size");
    expected_hash ← lift (required_header request "x-syncer-content-hash");
    encryption ← lift (required_header request "x-syncer-encryption");
    if negb (bool_decide (encryption = ENCRYPTION_ALGORITHM)) then throw InvalidRequest
    else
      nonce ← lift (required_header request "x-syncer-nonce");
      body ← lift (file_body request);
      response ← write_uploaded_file io folder_path profile relative_path expected_size expected_hash
        {| ue_shared_secret_hex := shared_secret; ue_nonce_hex := nonce |} body;
      lift (json_response 200 response)
  else if bool_decide (method = "DELETE") && starts_with path "/file/" then
    _ ← verify;
    relative_path ← lift (file_path_of request);
    expected_size ← lift (required_u64_header request "x-syncer-file-size");
    expected_hash ← lift (required_header request "x-syncer-content-hash");
    response ← delete_shared_file io folder_path profile relative_path expected_size expected_hash;
    lift (json_response 200 response)
  else lift (json_response 404 {| er_error := "not_found" |}).

Definition handle_stream (io : Inputs) (config : PeerServerConfig) : SV unit :=
  response ← unwrap_or_else
    (request ← read_request io.(in_fs_now) io.(in_body_id) config;
     route_request io request config) error_response;
  write_response response.

(** [run], once its listener is bound: the connections it accepts, one after another,
    whatever becomes of each; [None] while the next one is waited for. *)
Fixpoint accept_loop (config : PeerServerConfig) (accepted : list (result string (Inputs * Stream)))
    (fs : FS) (db : Database) : option PeerServerError * (FS * Database) :=
  match accepted with
  | [] => (None, (fs, db))
  | Err message :: _ => (Some (ServerIo message), (fs, db))
  | Ok (io, stream) :: accepted =>
      let v := (handle_stream io config {| sv_stream := stream; sv_sent := []; sv_fs := fs; sv_db := db |}).2 in
      accept_loop config accepted v.(sv_fs) v.(sv_db)
  end.

End server.
