(* ===== verification/PeerServerSpec.v ===== *)
(** * The peer server: what a request can change, and what it does *)

From S2P Require Import Prelude RustStd External Error Manifest Limits Model Records Planning StateDb StateDbFacts StateDbSpec FileSys FolderStore Scanner ScannerSpec PathCodec RequestSigning PeerCrypto PeerStore HttpText PeerRequest PeerRequestSpec PeerServer.
From stdpp Require Import options pretty.
Local Open Scope Z_scope.

(** ** What the steps of a handler leave alone *)

Definition keeps (k : Key) (e : Entry) (v : Server) : Prop := kept k e v.(sv_fs).

Section keeps.
Context `{TL : !TimeLib, SL : !SqlxLib, UL : !UuidLib, SJ : !SerdeJson (list BlockHash), BL : !Blake3Lib,
          IL : !IoLib, RD : !ReadDir, HL : !HexLib, SH : !Sha256Lib, HM : !HmacLib, AL : !AeadLib,
          KL : !KdfLib, RL : !ReadLib, FJ : !SerdeJson FolderDocument, PJ : !SerdeJson PeerStoreDocument,
          EJ : !SerdeJson PeerPresence, MJ : !SerdeJson FolderManifest, J1 : !SerdeJson HealthResponse,
          J2 : !SerdeJson PresenceResponse, J3 : !SerdeJson ErrorResponse,
          J4 : !SerdeJson UploadFileResponse, J5 : !SerdeJson DeleteFileResponse}.
Context (k : Key) (e : Entry).

Lemma on_stream_keeps {A} (m : M Stream PeerServerError A) : preserves (keeps k e) (on_stream m).
Proof. by apply preserves_zoom_rest. Qed.
Lemma on_db_keeps {A} (m : DB A) : preserves (keeps k e) (on_db m).
Proof. by apply preserves_zoom_rest. Qed.
Lemma on_fs_keeps {F A} (f : F → PeerServerError) (m : M FS F A) :
  preserves (kept k e) m → preserves (keeps k e) (on_fs f m).
Proof. intros Hm. by apply (preserves_zoom sv_fs with_fs f (kept k e)). Qed.
Lemma fs_at_keeps {A} path (m : M FS string A) :
  preserves (kept k e) m → preserves (keeps k e) (fs_at path m).
Proof. apply on_fs_keeps. Qed.
Lemma send_keeps bs : preserves (keeps k e) (send bs).
Proof. by apply preserves_modify. Qed.

Lemma append_kept {E} now path bs : components path ≠ k →
  preserves (kept k e) (append (E:=E) now path bs).
Proof. intros Hp. apply preserves_modify. intros fs Hk. unfold kept. by rewrite lookup_alter_ne. Qed.

Lemma folder_store_read_kept s : preserves (kept k e) (folder_store_read s).
Proof. apply preserves_read. intros fs. by rewrite read_eq. Qed.

Lemma open_read_kept path : preserves (kept k e) (open_read path).
Proof. apply preserves_read. intros fs. unfold open_read, get_st. rewrite M_bind_eq. done. Qed.

Lemma crypto_io_kept {A} (m : M FS string A) : preserves (kept k e) m → preserves (kept k e) (crypto_io m).
Proof. intros Hm fs Hk. unfold crypto_io. specialize (Hm fs Hk). by destruct (m fs) as [[]]. Qed.

Hint Resolve on_stream_keeps on_db_keeps on_fs_keeps fs_at_keeps send_keeps append_kept
  folder_store_read_kept open_read_kept crypto_io_kept : syncer.

Lemma encrypt_loop_kept now key prefix context dest input processed hashed i : components dest ≠ k →
  preserves (kept k e) (encrypt_loop now key prefix context dest input processed hashed i).
Proof.
  intros Hd. revert processed hashed i.
  assert (∀ i c, preserves (kept k e) (encrypt_chunk now key prefix context dest i c)) as Hc
    by (intros; unfold encrypt_chunk; keep_steps).
  induction input as [|c input IH]; intros processed hashed i; cbn [encrypt_loop]; keep_steps.
Qed.

Lemma encrypt_file_kept now prefix source dest secret context : components dest ≠ k →
  preserves (kept k e) (encrypt_file_to_path now prefix source dest secret context).
Proof.
  intros Hd. pose proof encrypt_loop_kept. unfold encrypt_file_to_path. keep_steps.
Qed.

Lemma decrypt_loop_kept now key prefix context dest chunks i remaining input hashed : components dest ≠ k →
  preserves (kept k e) (decrypt_loop now key prefix context dest chunks i remaining input hashed).
Proof.
  intros Hd. revert i remaining input hashed.
  induction chunks as [|chunks IH]; intros i remaining input hashed; cbn [decrypt_loop]; keep_steps.
Qed.

Lemma decrypt_file_kept now source dest secret nonce context : components dest ≠ k →
  preserves (kept k e) (decrypt_file_to_path now source dest secret nonce context).
Proof.
  intros Hd. pose proof decrypt_loop_kept. unfold decrypt_file_to_path. keep_steps.
Qed.

Lemma verify_Err_401 now request path v er :
  (verify_peer_request now request path v).1 = Err er →
  error_status er = 401 ∧ public_code er = "unauthorized".
Proof using Type.
  unfold verify_peer_request.
  destruct (_ !! "x-syncer-device-id"); [|by intros [= <-]]. cbn [ok_or]. rewrite bind_lift_Ok.
  destruct (_ !! "x-syncer-timestamp") as [time|]; [|by intros [= <-]]. cbn [ok_or]. rewrite bind_lift_Ok.
  destruct (parse_i64 time); [|by intros [= <-]]. cbn [ok_or]. rewrite bind_lift_Ok.
  destruct (_ !! "x-syncer-signature"); [|by intros [= <-]]. cbn [ok_or]. rewrite bind_lift_Ok.
  cbv zeta. destruct (300 <? _); [by intros [= <-]|].
  destruct (uuid_parse_str _); [|by intros [= <-]]. cbn [ok_or]. rewrite bind_lift_Ok. cbv zeta.
  rewrite M_bind_eq. unfold on_fs, zoom. destruct (read_or_default _ _) as [[document|e'] fs'];
    [|by intros [= <-]].
  destruct (trusted_peer _ _); [|by intros [= <-]]. cbn [ok_or]. rewrite bind_lift_Ok.
  destruct (verify_request_signature_with_body_hash_hex _ _ _ _ _ _ _); [done|by intros [= <-]].
Qed.

(** *** Reading the request *)

Lemma read_head_keeps fuel buffer : preserves (keeps k e) (read_head fuel buffer).
Proof. revert buffer; induction fuel as [|fuel IH]; intros buffer; cbn [read_head]; keep_steps. Qed.

Lemma read_memory_loop_keeps fuel n body : preserves (keeps k e) (read_memory_loop fuel n body).
Proof. revert body; induction fuel as [|fuel IH]; intros body; cbn [read_memory_loop]; keep_steps. Qed.

Lemma read_file_loop_keeps now fuel path n written hashed : components path ≠ k →
  preserves (keeps k e) (read_file_loop now fuel path n written hashed).
Proof.
  intros Hp. revert written hashed.
  induction fuel as [|fuel IH]; intros written hashed; cbn [read_file_loop]; keep_steps.
Qed.

Lemma read_request_keeps now body_id config :
  components (body_path config.(cfg_folder_path) body_id) ≠ k →
  preserves (keeps k e) (read_request now body_id config).
Proof.
  intros Hp. pose proof read_head_keeps. pose proof read_memory_loop_keeps. pose proof read_file_loop_keeps.
  unfold read_request, parse_request, read_file_body, read_memory_body. keep_steps.
Qed.

Lemma verify_keeps now request path : preserves (keeps k e) (verify_peer_request now request path).
Proof. apply preserves_read. apply verify_reads. Qed.

(** *** The handlers *)

Lemma export_manifest_keeps io folder profile : preserves (keeps k e) (server_export_manifest io folder profile).
Proof. unfold server_export_manifest. keep_steps. Qed.

Lemma limit_keeps store size : preserves (keeps k e) (enforce_folder_limit store size).
Proof. unfold enforce_folder_limit. keep_steps. Qed.

Definition plain_path (folder : string) (plain_id : Uuid) : string :=
  path_push (requests_dir folder) (uuid_to_string plain_id +:+ ".plain").

Lemma receive_keeps io folder p size hash enc body :
  components (plain_path folder io.(in_plain_id)) ≠ k →
  preserves (keeps k e) (receive_upload io folder p size hash enc body).
Proof.
  intros Hp. pose proof decrypt_file_kept. pose proof limit_keeps. unfold receive_upload. keep_steps.
Qed.

Lemma commit_keeps io folder profile p size hash plain content_hash :
  components plain ≠ k → components (path_push folder (rel_str p)) ≠ k →
  preserves (keeps k e) (commit_upload io folder profile p size hash plain content_hash).
Proof. intros Hp Ht. unfold commit_upload, publish_uploaded_file. keep_steps. Qed.

Lemma delete_keeps io folder profile p size hash :
  components (path_push folder (rel_str p)) ≠ k →
  preserves (keeps k e) (delete_shared_file io folder profile p size hash).
Proof. intros Ht. pose proof export_manifest_keeps. unfold delete_shared_file. keep_steps. Qed.

(** The temporary files of one request. *)
Definition response_path (io : Inputs) (folder : string) (p : RelativePath) : string :=
  with_extension (path_push folder (rel_str p))
    ("syncer-response-" +:+ uuid_to_string io.(in_response_id) +:+ ".enc").
Definition scratch (io : Inputs) (folder : string) : Prop :=
  k = components (body_path folder io.(in_body_id)) ∨ k = components (plain_path folder io.(in_plain_id))
  ∨ ∃ p, k = components (response_path io folder p).

Lemma receive_upload_Ok io folder p size hash enc body v r v' :
  receive_upload io folder p size hash enc body v = (Ok r, v') →
  r = (plain_path folder io.(in_plain_id), hash)
  ∧ v'.(sv_fs) !! components (path_push folder (rel_str p)) = None.
Proof.
  unfold receive_upload. destruct (negb _); [done|]. cbv zeta.
  rewrite M_bind_eq. destruct (fs_at _ _ v) as [[[]|] v1]; [|done].
  rewrite M_bind_eq. destruct (on_fs _ _ v1) as [[decrypted|] v2]; [|done].
  destruct (decide (cf_content_hash decrypted = hash)) as [->|]; [|by rewrite bool_decide_eq_false_2].
  rewrite bool_decide_eq_true_2 by done. cbn [negb].
  rewrite M_bind_eq. destruct (enforce_folder_limit _ _ v2) as [[[]|] v3]; [|done].
  unfold get_st. rewrite M_bind_eq. unfold try_exists.
  destruct (sv_fs v3 !! _) eqn:E; [done|]. destruct (existsb _ _); [done|].
  cbn [map_err]. rewrite bind_lift_Ok. by intros [= <- <-].
Qed.

Lemma upload_keeps io folder profile p size hash enc body :
  ¬ scratch io folder → preserves (keeps k e) (write_uploaded_file io folder profile p size hash enc body).
Proof.
  intros Hs v Hv. unfold write_uploaded_file. rewrite M_bind_eq.
  assert (components (plain_path folder io.(in_plain_id)) ≠ k) as Hp by (intros E; apply Hs; right; by left).
  pose proof (receive_keeps io folder p size hash enc body Hp v Hv) as Hv1.
  destruct (receive_upload _ _ _ _ _ _ _ v) as [[r|] v1] eqn:Hr; [|done].
  apply receive_upload_Ok in Hr as [-> Hnone]. apply commit_keeps; [done| |done].
  intros E. unfold keeps, kept in Hv1. simpl in Hv1. congruence.
Qed.

Lemma response_keeps io status file p secret :
  components (with_extension file.(sf_path)
    ("syncer-response-" +:+ uuid_to_string io.(in_response_id) +:+ ".enc")) ≠ k →
  preserves (keeps k e) (encrypted_file_response io status file p secret).
Proof.
  intros Hp. pose proof encrypt_file_kept. unfold encrypted_file_response. keep_steps.
Qed.

Lemma shared_file_path io folder profile p v f v' :
  shared_file io folder profile p v = (Ok f, v') → f.(sf_path) = path_push folder (rel_str p).
Proof.
  unfold shared_file. rewrite M_bind_eq. destruct (server_export_manifest _ _ _ v) as [[m|] v1]; [|done].
  destruct (find_available m p) as [file|]; [|done]. rewrite bind_lift_Ok.
  destruct (fr_content_hash file) as [hash|]; [|done]. cbn [ok_or]. rewrite bind_lift_Ok. by intros [= <- _].
Qed.

Lemma download_keeps io folder profile p secret :
  ¬ scratch io folder →
  preserves (keeps k e) (file ← shared_file io folder profile p; encrypted_file_response io 200 file p secret).
Proof.
  intros Hs v Hv. rewrite M_bind_eq.
  assert (preserves (keeps k e) (shared_file io folder profile p)) as Hsf.
  { pose proof export_manifest_keeps. unfold shared_file. keep_steps. }
  specialize (Hsf v Hv). destruct (shared_file _ _ _ _ v) as [[f|] v1] eqn:E; [|done].
  apply response_keeps; [|done]. apply shared_file_path in E as ->.
  intros Ek. apply Hs. right. right. by exists p.
Qed.

(** The request asks for the deletion of what is at [k], and comes from a trusted peer. *)
Definition deletes (io : Inputs) (config : PeerServerConfig) (v : Server) (request : HttpRequest) : Prop :=
  request.(hr_method) = "DELETE" ∧ ∃ secret p,
    authenticated io.(in_verify_now) v.(sv_fs) config.(cfg_peers_path) request secret
    ∧ file_path_of request = Ok p
    ∧ k = components (path_push config.(cfg_folder_path) (rel_str p)).

Lemma route_keeps io request config v :
  keeps k e v → ¬ scratch io config.(cfg_folder_path) →
  keeps k e (route_request io request config v).2 ∨ deletes io config v request.
Proof.
  intros Hv Hs. pose proof verify_keeps. pose proof export_manifest_keeps.
  unfold route_request. cbv zeta.
  case_bool_decide; [left; by apply preserves_lift|].
  case_bool_decide; [left; refine ((_ : preserves (keeps k e) _) v Hv); keep_steps|].
  case_bool_decide; [left; refine ((_ : preserves (keeps k e) _) v Hv); keep_steps|].
  destruct (_ && _).
  { left. refine ((_ : preserves (keeps k e) _) v Hv). apply preserves_bind; [done|].
    intros secret. apply preserves_bind_lift. intros p _. by apply download_keeps. }
  destruct (_ && _).
  { left. refine ((_ : preserves (keeps k e) _) v Hv). pose proof upload_keeps. keep_steps. }
  destruct (_ && _) eqn:Em; [|left; by apply preserves_lift].
  apply andb_true_iff in Em as [Em%bool_decide_eq_true _].
  rewrite M_bind_eq. destruct (verify_peer_request _ _ _ v) as [[secret|er] v1] eqn:E.
  2: { left. pose proof (verify_keeps (in_verify_now io) request (cfg_peers_path config) v Hv) as Hk. by rewrite E in Hk. }
  apply verify_Ok in E as [-> Ha].
  destruct (file_path_of request) as [p|er] eqn:Ep; [|by left]. rewrite bind_lift_Ok.
  destruct (decide (k = components (path_push config.(cfg_folder_path) (rel_str p)))) as [Ek|Ek].
  { right. split; [done|]. by exists secret, p. }
  left. refine ((_ : preserves (keeps k e) _) v Hv). pose proof delete_keeps. keep_steps.
Qed.

(** A file that is sent is the temporary file of the request. *)
Lemma route_response_path io request config v header path b v' :
  route_request io request config v = (Ok (ResponseFile header path b), v') →
  ∃ p, path = response_path io config.(cfg_folder_path) p.
Proof.
  assert (∀ T (JT : SerdeJson T) status (x : T) v1,
    lift (json_response status x) v1 ≠ (Ok (ResponseFile header path b), v')) as Hj.
  { intros T JT status x v1. unfold json_response, lift. by destruct (to_json x). }
  unfold route_request. cbv zeta.
  case_bool_decide; [by intros ?%Hj|].
  case_bool_decide.
  { rewrite M_bind_eq. destruct (verify_peer_request _ _ _ v) as [[secret|] v1]; [|done].
    destruct (memory_body request) as [body|]; [|done]. rewrite bind_lift_Ok.
    destruct (from_json body) as [presence|]; [|done]. cbn [map_err]. rewrite bind_lift_Ok. by intros ?%Hj. }
  case_bool_decide.
  { rewrite M_bind_eq. destruct (verify_peer_request _ _ _ v) as [[secret|] v1]; [|done].
    rewrite M_bind_eq. destruct (server_export_manifest _ _ _ v1) as [[m|] v2]; [|done]. by intros ?%Hj. }
  destruct (_ && _).
  { rewrite M_bind_eq. destruct (verify_peer_request _ _ _ v) as [[secret|] v1]; [|done].
    destruct (file_path_of request) as [p|]; [|done]. rewrite bind_lift_Ok.
    rewrite M_bind_eq. destruct (shared_file _ _ _ _ v1) as [[f|] v2] eqn:E; [|done].
    apply shared_file_path in E. unfold encrypted_file_response. rewrite M_bind_eq.
    destruct (on_fs _ _ v2) as [[en|] v3]; [|done]. intros [= _ <- _ _]. exists p.
    unfold response_path. by rewrite E. }
  destruct (_ && _).
  { rewrite M_bind_eq. destruct (verify_peer_request _ _ _ v) as [[secret|] v1]; [|done].
    destruct (file_path_of request) as [p|]; [|done]. rewrite bind_lift_Ok.
    destruct (required_u64_header _ _) as [size|]; [|done]. rewrite bind_lift_Ok.
    destruct (required_header _ "x-syncer-content-hash") as [hash|]; [|done]. rewrite bind_lift_Ok.
    destruct (required_header _ "x-syncer-encryption") as [enc|]; [|done]. rewrite bind_lift_Ok.
    destruct (negb _); [done|].
    destruct (required_header _ "x-syncer-nonce") as [nonce|]; [|done]. rewrite bind_lift_Ok.
    destruct (file_body request) as [body|]; [|done]. rewrite bind_lift_Ok.
    rewrite M_bind_eq. destruct (write_uploaded_file _ _ _ _ _ _ _ _ v1) as [[m|] v2]; [|done].
    by intros ?%Hj. }
  destruct (_ && _); [|by intros ?%Hj].
  rewrite M_bind_eq. destruct (verify_peer_request _ _ _ v) as [[secret|] v1]; [|done].
  destruct (file_path_of request) as [p|]; [|done]. rewrite bind_lift_Ok.
  destruct (required_u64_header _ _) as [size|]; [|done]. rewrite bind_lift_Ok.
  destruct (required_header _ "x-syncer-content-hash") as [hash|]; [|done]. rewrite bind_lift_Ok.
  rewrite M_bind_eq. destruct (delete_shared_file _ _ _ _ _ _ v1) as [[m|] v2]; [|done].
  by intros ?%Hj.
Qed.

Lemma write_response_keeps io folder response :
  ¬ scratch io folder →
  (∀ header path b, response = ResponseFile header path b → ∃ p, path = response_path io folder p) →
  preserves (keeps k e) (write_response response).
Proof.
  intros Hs Hpath. destruct response as [bs|header path b]; cbn [write_response]; [apply send_keeps|].
  destruct (Hpath header path b eq_refl) as [p ->].
  assert (components (response_path io folder p) ≠ k) as Hp
    by (intros E; apply Hs; right; right; by exists p).
  pose proof send_keeps. keep_steps. apply preserves_modify. intros v Hv.
  exact (remove_file_kept k e _ Hp (sv_fs v) Hv).
Qed.

Lemma unsigned_handler {A} io request config (f : string → SV A) v :
  (∀ secret, ¬ authenticated io.(in_verify_now) v.(sv_fs) config.(cfg_peers_path) request secret) →
  ∃ er, (s ← verify_peer_request io.(in_verify_now) request config.(cfg_peers_path); f s) v = (Err er, v)
  ∧ error_status er = 401 ∧ public_code er = "unauthorized".
Proof using Type.
  intros Hno. pose proof (verify_reads (in_verify_now io) request (cfg_peers_path config) v) as Hst.
  pose proof (verify_Err_401 (in_verify_now io) request (cfg_peers_path config) v) as He.
  destruct (verify_peer_request _ _ _ v) as [[secret|er] v1] eqn:E; simpl in Hst; subst v1.
  - apply verify_Ok in E as [_ Ha]. by destruct (Hno secret).
  - exists er. simpl in He. destruct (He er eq_refl). split; [|done]. by rewrite (bind_Err _ _ _ _ _ E).
Qed.

(** Without a trusted signature only the health check and unknown routes are answered. *)
Lemma unsigned_route io request config v :
  (∀ secret, ¬ authenticated io.(in_verify_now) v.(sv_fs) config.(cfg_peers_path) request secret) →
  (∃ er, route_request io request config v = (Err er, v) ∧ error_status er = 401
         ∧ public_code er = "unauthorized")
  ∨ (request.(hr_method) = "GET" ∧ request.(hr_path) = "/health"
     ∧ (route_request io request config v).2 = v)
  ∨ (starts_with request.(hr_path) "/file/" = false ∨ request.(hr_method) ≠ "PUT")
    ∧ route_request io request config v = (json_response 404 {| er_error := "not_found" |}, v).
Proof using Type.
  intros Hno. unfold route_request. cbv zeta.
  case_bool_decide as E1; [right; left; by destruct E1|].
  case_bool_decide; [left; by apply unsigned_handler|].
  case_bool_decide; [left; by apply unsigned_handler|].
  destruct (bool_decide (_ = "GET") && _); [left; by apply unsigned_handler|].
  destruct (bool_decide (hr_method request = "PUT") && starts_with request.(hr_path) "/file/") eqn:Ep;
    [left; by apply unsigned_handler|].
  destruct (bool_decide (_ = "DELETE") && _); [left; by apply unsigned_handler|].
  right; right. split; [|done]. apply andb_false_iff in Ep as [?%bool_decide_eq_false|?]; auto.
Qed.

Lemma error_response_bytes er : ∃ bs, error_response er = ResponseBytes bs.
Proof using Type. unfold error_response, json_response. destruct (to_json _); by eexists. Qed.

Lemma unsigned_not_authenticated now fs peers_path request secret :
  request.(hr_headers) !! "x-syncer-signature" = None → ¬ authenticated now fs peers_path request secret.
Proof using Type. intros Hn Ha. destruct Ha. congruence. Qed.

End keeps.

(** ** Properties *)

(** C11. Whatever arrives on a connection, answering it leaves every file and directory
    that was there as it was: uploads never overwrite, downloads only read, and only a
    DELETE request that a trusted peer signed within five minutes removes anything,
    namely what its path names.  The exceptions are the temporary files of the request
    itself, whose names hold its fresh identifiers. *)
Theorem server_never_overwrites
    `{TL : !TimeLib, SL : !SqlxLib, UL : !UuidLib, SJ : !SerdeJson (list BlockHash), BL : !Blake3Lib,
      IL : !IoLib, RD : !ReadDir, HL : !HexLib, SH : !Sha256Lib, HM : !HmacLib, AL : !AeadLib,
      KL : !KdfLib, RL : !ReadLib, FJ : !SerdeJson FolderDocument, PJ : !SerdeJson PeerStoreDocument,
      EJ : !SerdeJson PeerPresence, MJ : !SerdeJson FolderManifest, J1 : !SerdeJson HealthResponse,
      J2 : !SerdeJson PresenceResponse, J3 : !SerdeJson ErrorResponse,
      J4 : !SerdeJson UploadFileResponse, J5 : !SerdeJson DeleteFileResponse}
    io config v k e :
  v.(sv_fs) !! k = Some e → ¬ scratch k io config.(cfg_folder_path) →
  (handle_stream io config v).2.(sv_fs) !! k = Some e
  ∨ ∃ request v1, read_request io.(in_fs_now) io.(in_body_id) config v = (Ok request, v1)
                  ∧ deletes k io config v1 request.
Proof.
  intros Hv Hs. unfold handle_stream, unwrap_or_else. rewrite !M_bind_eq.
  assert (components (body_path config.(cfg_folder_path) io.(in_body_id)) ≠ k) as Hb
    by (intros E; apply Hs; by left).
  pose proof (read_request_keeps k e io.(in_fs_now) io.(in_body_id) config Hb v Hv) as H1.
  assert (∀ bs v2, keeps k e v2 → keeps k e (write_response (ResponseBytes bs) v2).2) as Hbytes
    by (intros bs v2 Hv2; by apply send_keeps).
  assert (∀ er v2, keeps k e v2 → keeps k e (write_response (error_response er) v2).2) as Herr.
  { intros er v2 Hv2. unfold error_response, json_response. destruct (to_json _); by apply Hbytes. }
  destruct (read_request _ _ _ v) as [[request|er] v1]; [|left; by apply Herr].
  destruct (route_keeps k e io request config v1 H1 Hs) as [H2|Hd]; [left|right; by exists request, v1].
  pose proof (route_response_path io request config v1) as Hresp.
  destruct (route_request io request config v1) as [[response|er] v2]; [|by apply Herr].
  apply (write_response_keeps k e io config.(cfg_folder_path)); [done| |done].
  intros header path b ->. by eapply Hresp.
Qed.

(** C16. A request no trusted peer signed gets nothing and changes nothing: apart from the
    health check and unknown routes, the answer is an error with status 401 and code
    "unauthorized", and files and database are as they were. *)
Theorem unauthenticated_gets_nothing
    `{TL : !TimeLib, SL : !SqlxLib, UL : !UuidLib, SJ : !SerdeJson (list BlockHash), BL : !Blake3Lib,
      IL : !IoLib, RD : !ReadDir, HL : !HexLib, SH : !Sha256Lib, HM : !HmacLib, AL : !AeadLib,
      KL : !KdfLib, RL : !ReadLib, FJ : !SerdeJson FolderDocument, PJ : !SerdeJson PeerStoreDocument,
      EJ : !SerdeJson PeerPresence, MJ : !SerdeJson FolderManifest, J1 : !SerdeJson HealthResponse,
      J2 : !SerdeJson PresenceResponse, J3 : !SerdeJson ErrorResponse,
      J4 : !SerdeJson UploadFileResponse, J5 : !SerdeJson DeleteFileResponse}
    io request config v :
  (∀ secret, ¬ authenticated io.(in_verify_now) v.(sv_fs) config.(cfg_peers_path) request secret) →
  (route_request io request config v).2 = v
  ∧ ((∃ er, (route_request io request config v).1 = Err er ∧ error_status er = 401
            ∧ public_code er = "unauthorized")
     ∨ (request.(hr_method) = "GET" ∧ request.(hr_path) = "/health")
     ∨ (route_request io request config v).1
       = json_response 404 {| er_error := "not_found" |}).
Proof.
  intros Hno. destruct (unsigned_route io request config v Hno) as [(er & -> & ? & ?)|[(? & ? & ?)|(_ & ->)]].
  - split; [done|left; by exists er].
  - split; [done|right; by left].
  - split; [done|right; by right].
Qed.

(** The body of an upload reaches the disk before its sender is known, and nothing
    removes it: anyone who can connect, without any signature, leaves a file of any
    length in the folder's metadata directory with every PUT request; the answer is
    "unauthorized", and the file is still there. *)
Theorem rejected_upload_leaves_body
    `{TL : !TimeLib, SL : !SqlxLib, UL : !UuidLib, UW : !UuidLaws, SJ : !SerdeJson (list BlockHash),
      BL : !Blake3Lib, IL : !IoLib, RD : !ReadDir, HL : !HexLib, SH : !Sha256Lib, HM : !HmacLib,
      AL : !AeadLib, KL : !KdfLib, RL : !ReadLib, FJ : !SerdeJson FolderDocument,
      PJ : !SerdeJson PeerStoreDocument, EJ : !SerdeJson PeerPresence, MJ : !SerdeJson FolderManifest,
      J1 : !SerdeJson HealthResponse, J2 : !SerdeJson PresenceResponse, J3 : !SerdeJson ErrorResponse,
      J4 : !SerdeJson UploadFileResponse, J5 : !SerdeJson DeleteFileResponse}
    io config path headers body segs v :
  message_ok "PUT" path headers → starts_with path "/file/" = true →
  Z.of_nat (length (message_head "PUT" path headers)) ≤ 12288 →
  content_length_of headers = Z.of_nat (length body) → 0 < Z.of_nat (length body) ≤ u64_max →
  "x-syncer-signature" ∉ headers.*1 →
  filled segs → mjoin segs = message_head "PUT" path headers ++ body →
  spool_ready config.(cfg_folder_path) io.(in_body_id) v.(sv_fs) →
  ∃ er answer fs', error_status er = 401 ∧ error_response er = ResponseBytes answer
  ∧ handle_stream io config (with_stream (arrives segs) v)
    = (Ok tt, {| sv_stream := []; sv_sent := v.(sv_sent) ++ answer; sv_fs := fs'; sv_db := v.(sv_db) |})
  ∧ spooled config.(cfg_folder_path) io.(in_body_id) body v.(sv_fs) fs'.
Proof.
  intros Hok Hpath Hhead Hcl Hlen Hsig Hf Hsegs Hready.
  destruct (spooled_request_read io.(in_fs_now) io.(in_body_id) config "PUT" path headers body segs v)
    as (fs' & Hrun & Hs); [done..| |lia|done|].
  { unfold should_spool_body. rewrite Hcl, Hpath. cbn. apply Z.ltb_lt. lia. }
  match type of Hrun with _ = (Ok ?r, ?w) => set (request := r) in *; set (v1 := w) in * end.
  destruct (unsigned_route io request config v1) as [(er & Hroute & H401 & _)|[(E & _)|([E|E] & _)]];
    [| |by cbn in E|by simpl in E; congruence|by destruct E].
  { intros secret. apply unsigned_not_authenticated. by apply not_elem_of_list_to_map_1. }
  destruct (error_response_bytes er) as [answer Ha].
  exists er, answer, fs'. split_and!; [done|done| |done].
  unfold handle_stream, unwrap_or_else. rewrite M_bind_eq, M_bind_eq, Hrun, Hroute. by rewrite Ha.
Qed.
