(* ===== verification/PeerUploadSpec.v ===== *)
(** * The peer server: uploads and deletions, step by step *)

From S2P Require Import Prelude RustStd External Error Manifest Limits Model Records Planning StateDb StateDbFacts StateDbSpec FileSys FolderStore Scanner ScannerSpec PathCodec RequestSigning PeerCrypto PeerStore HttpText PeerRequest PeerRequestSpec PeerServer PeerServerSpec.
From stdpp Require Import options pretty.
Local Open Scope Z_scope.

(** ** Keys of the files of a folder *)

Lemma valid_check n : bool_decide (valid_name n) = true → valid_name n.
Proof. apply bool_decide_eq_true_1. Qed.

Lemma requests_key folder :
  components (requests_dir folder) = key folder [".syncer"; "tmp"; "requests"].
Proof.
  unfold requests_dir, syncer_dir, folder_store_new, key. cbn [fst_root].
  rewrite !components_push1 by (apply valid_check; vm_compute; reflexivity).
  by rewrite <-!app_assoc.
Qed.

Lemma folder_json_key folder :
  target_key (folder_store_new folder) = key folder [".syncer"; "folder.json"].
Proof. unfold target_key, dir_key, key. by rewrite <-app_assoc. Qed.

Lemma plain_key `{UL : !UuidLib, UW : !UuidLaws} folder id :
  components (plain_path folder id)
  = key folder [".syncer"; "tmp"; "requests"; uuid_to_string id +:+ ".plain"].
Proof.
  unfold plain_path. rewrite components_push1, requests_key.
  - unfold key. by rewrite <-app_assoc.
  - apply (uuid_name_valid id "plain"). by apply (bool_decide_eq_true_1 _).
Qed.

Lemma rel_key folder p names : canonical names p →
  components (path_push folder (rel_str p)) = key folder names.
Proof. intros (Hne & Hv & _ & ->). by apply components_push. Qed.

Lemma on_way_key root a b : on_way [] (key root a) (key root b) → b `prefix_of` a.
Proof.
  intros (x & y & _ & E & Ek). simpl in Ek. subst x. unfold key in E. rewrite <-app_assoc in E.
  apply app_inv_head in E.
  assert (∀ (l : list string) (r : list Component), Normal <$> l = r →
    (λ c, match c with Normal n => n | _ => "" end) <$> r = l) as Hun.
  { intros l r <-. rewrite <-list_fmap_compose. apply list_fmap_id. }
  apply Hun in E. rewrite fmap_app in E. rewrite (Hun b _ eq_refl) in E. rewrite <-E. by eexists.
Qed.

(** Nothing the server makes for itself lies on the way to a file of the folder. *)
Lemma hidden_not_way root names rest : head names ≠ Some ".syncer" → names ≠ [] →
  ¬ on_way [] (key root names) (key root (".syncer" :: rest)).
Proof. intros Hh Hne [z E]%on_way_key. by rewrite E in Hh. Qed.

(** ** Uploads *)

(** Everything that was there is there, and what is new is a directory. *)
Definition grown (fs fs' : FS) (except : Key → Prop) : Prop :=
  ∀ k, ¬ except k → fs' !! k = fs !! k ∨ (fs !! k = None ∧ fs' !! k = Some EDir).

Section upload.
Context `{TL : !TimeLib, SL : !SqlxLib, UL : !UuidLib, UW : !UuidLaws, SJ : !SerdeJson (list BlockHash),
          BL : !Blake3Lib, IL : !IoLib, HL : !HexLib, HW : !HexLaws, AL : !AeadLib, AW : !AeadLaws,
          KL : !KdfLib, FJ : !SerdeJson FolderDocument}.
Context (io : Inputs) (folder : string) (p : RelativePath) (d : list string) (n : string).
Hypothesis Hp : canonical (d ++ [n]) p.

Let target : string := path_push folder (rel_str p).
Let plain : string := plain_path folder io.(in_plain_id).
Let requests : Key := key folder [".syncer"; "tmp"; "requests"].
Let store : FolderStore := folder_store_new folder.

(** The file system an upload to a free path finds. *)
Record upload_ready (fs : FS) : Prop := {
  ur_requests : ∀ k, on_way [] requests k → dir_or_none (fs !! k);
  ur_plain : file_or_none (fs !! components plain);
  ur_target : fs !! components target = None;
  ur_way : ∀ k, on_way [] (key folder d) k → dir_or_none (fs !! k);
  ur_config : ∃ document, folder_store_read store fs = (Ok document, fs);
}.

Lemma target_key_eq : components target = key folder (d ++ [n]).
Proof using Hp. by apply rel_key. Qed.

Lemma target_hidden : head (d ++ [n]) ≠ Some ".syncer".
Proof using Hp. by destruct Hp as (_ & _ & ? & _). Qed.

Lemma plain_not_target : components plain ≠ components target.
Proof using Hp UW.
  unfold plain. rewrite plain_key, target_key_eq. intros E%(inj (key folder)).
  apply target_hidden. by rewrite <-E.
Qed.

Lemma plain_not_way : ¬ on_way [] requests (components plain) ∧ ¬ on_way [] (key folder d) (components plain).
Proof using Hp UW.
  unfold plain. rewrite plain_key. split.
  - intros H%on_way_key. apply prefix_length in H. simpl in H. lia.
  - intros [z E]%on_way_key. apply target_hidden. by rewrite E.
Qed.

Lemma target_not_way : ¬ on_way [] requests (components target) ∧ ¬ on_way [] (key folder d) (components target).
Proof using Hp.
  rewrite target_key_eq. split.
  - intros [z E]%on_way_key. apply target_hidden.
    rewrite <-(reverse_involutive z) in E. destruct (d ++ [n]) as [|x r] eqn:Er; [by destruct d|].
    by injection E as <-.
  - intros H%on_way_key. apply prefix_length in H. rewrite length_app in H. simpl in H. lia.
Qed.

(** Reading the configuration depends on its file, which a made directory is not. *)
Lemma config_kept fs fs' document except :
  folder_store_read store fs = (Ok document, fs) → grown fs fs' except →
  ¬ except (key folder [".syncer"; "folder.json"]) → folder_store_read store fs' = (Ok document, fs').
Proof using Type.
  rewrite !read_eq. unfold store. rewrite folder_json_key. intros [= H] Hg Hx.
  destruct (Hg _ Hx) as [->|[E1 E2]]; [by rewrite H|]. by rewrite E1 in H.
Qed.

Lemma config_not_plain : key folder [".syncer"; "folder.json"] ≠ components plain.
Proof using UW. unfold plain. rewrite plain_key. by intros E%(inj (key folder)). Qed.
Lemma config_not_target : key folder [".syncer"; "folder.json"] ≠ components target.
Proof using Hp.
  rewrite target_key_eq. intros E%(inj (key folder)). apply target_hidden. by rewrite <-E.
Qed.

Lemma made_grown fs fs' dir (except : Key → Prop) :
  (∀ k, on_way [] dir k → dir_or_none (fs !! k)) → made dir except fs fs' → grown fs fs' except.
Proof using Type.
  intros Hd Hm k Hk. destruct (Hm k Hk) as [[Hw ->]|[_ ->]]; [|by left].
  destruct (Hd k Hw) as [-> | ->]; auto.
Qed.

Lemma grown_trans fs1 fs2 fs3 (except : Key → Prop) :
  grown fs1 fs2 except → grown fs2 fs3 except → grown fs1 fs3 except.
Proof using Type.
  intros H1 H2 k Hk. destruct (H2 k Hk) as [->|[E1 E2]]; [by apply H1|].
  destruct (H1 k Hk) as [E|[E _]]; [|by right]. right. by rewrite <-E.
Qed.

Lemma try_exists_free fs path : fs !! components path = None →
  (∀ j, (1 ≤ j < length (components path))%nat → dir_or_none (fs !! take j (components path))) →
  try_exists fs path = Ok false.
Proof using Type.
  intros Hn Hd. unfold try_exists. cbv zeta. rewrite Hn.
  destruct (existsb _ _) eqn:E; [|done]. apply existsb_exists in E as (k & Hk & E).
  apply list_elem_of_In, list_elem_of_fmap in Hk as (j & -> & Hj%elem_of_seq).
  destruct (Hd j) as [Hx|Hx]; [lia|by rewrite Hx in E..].
Qed.

(** *** Receiving *)

Section receive.
Context (secret_hex : string) (prefix : list ascii) (content out : list ascii) (body : FileBody) (m : option Z).
Let size : Z := chunk_len content.
Let hash : string := blake3_hex content.
Let context : FileCipherContext :=
  {| cc_direction := "upload"; cc_path := p; cc_content_hash := hash; cc_plaintext_size := size |}.
Hypothesis Hct : ciphertext_of secret_hex prefix context content out.
Hypothesis Hsize : body.(fb_size_bytes) = chunk_len out.

Lemma receive_run v document st :
  upload_ready v.(sv_fs) → v.(sv_fs) !! components body.(fb_path) = Some (EFile out m) →
  components body.(fb_path) ≠ components plain →
  folder_store_read store v.(sv_fs) = (Ok document, v.(sv_fs)) →
  folder_status v.(sv_db) = (Ok st, v.(sv_db)) →
  size ≤ remaining_bytes document.(fd_folder).(fc_size_limit) st.(fs_indexed_bytes) →
  ∃ fs', receive_upload io folder p size hash
           {| ue_shared_secret_hex := secret_hex; ue_nonce_hex := hex_encode prefix |} body v
         = (Ok (plain, hash), with_fs fs' v)
  ∧ holds plain content fs' ∧ made requests (λ k, k = components plain) v.(sv_fs) fs'.
Proof using All.
  intros [Hreq Hplain Htarget Hway _] Hbody Hne Hdoc Hst Hlimit.
  destruct (create_dirs_ok (components (requests_dir folder)) [] (sv_fs v)) as (fs1 & Hrun1 & Hin1 & Hout1).
  { by rewrite requests_key. }
  rewrite requests_key in Hin1, Hout1. fold requests in Hin1, Hout1.
  destruct plain_not_way as [Hpw _]. destruct target_not_way as [Htw _].
  assert (fs1 !! components body.(fb_path) = Some (EFile out m)) as Hbody1.
  { rewrite Hout1; [done|]. intros Hw. destruct (Hreq _ Hw); congruence. }
  destruct (decrypt_file_run io.(in_fs_now) fs1 body.(fb_path) plain secret_hex prefix context content out m Hct
    Hbody1) as (fs2 & Hrun2 & Hh2 & Hk2).
  { by rewrite Hout1. }
  { unfold plain. rewrite plain_key. change [".syncer"; "tmp"; "requests"; uuid_to_string (in_plain_id io) +:+ ".plain"]
      with ([".syncer"; "tmp"; "requests"] ++ [uuid_to_string (in_plain_id io) +:+ ".plain"]).
    rewrite key_snoc. apply has_parent_snoc. right. apply Hin1. exists requests, [].
    split_and!; [|by rewrite app_nil_r|done]. unfold requests, key. by intros [_ ?]%app_nil. }
  assert (made requests (λ k, k = components plain) (sv_fs v) fs2) as Hm2.
  { intros k Hk. rewrite Hk2 by done.
    destruct (on_way_dec requests k) as [Hw|Hw]; [left; split; [done|by apply Hin1]|right; split; [done|by apply Hout1]]. }
  pose proof (made_grown _ _ _ _ Hreq Hm2) as Hg2.
  exists fs2. split_and!; [|done|done].
  unfold receive_upload. rewrite Hsize, (ciphertext_length _ _ _ _ _ Hct). fold size.
  rewrite Z.eqb_refl. cbn [negb]. cbv zeta.
  erewrite bind_Ok; [|exact (fs_at_run (requests_dir folder) _ v _ _ Hrun1)].
  erewrite bind_Ok; [|exact (on_fs_run ServerPeerCrypto _ (with_fs fs1 v) _ _ Hrun2)].
  cbn [cf_content_hash]. rewrite bool_decide_eq_true_2 by done. cbn [negb].
  assert (folder_store_read store fs2 = (Ok document, fs2)) as Hdoc2.
  { apply (config_kept (sv_fs v) fs2 document _ Hdoc Hg2). apply config_not_plain. }
  assert (enforce_folder_limit store size (with_fs fs2 v) = (Ok tt, with_fs fs2 v)) as Hlim.
  { unfold enforce_folder_limit.
    erewrite bind_Ok; [|exact (on_fs_run ServerCore _ (with_fs fs2 v) _ _ Hdoc2)].
    erewrite bind_Ok; [|exact (on_db_run _ (with_fs fs2 v) _ _ Hst)].
    cbv zeta. rewrite (proj2 (Z.ltb_ge _ _)) by done. done. }
  erewrite bind_Ok by exact Hlim. unfold get_st. rewrite M_bind_eq. cbn [with_fs sv_fs].
  fold target. rewrite (try_exists_free fs2 target).
  - cbn [map_err]. by rewrite bind_lift_Ok.
  - rewrite Hk2 by (intros E; by apply plain_not_target). by rewrite Hout1.
  - intros j Hj. assert (on_way [] (key folder d) (take j (components target))) as Hw.
    { rewrite target_key_eq, key_snoc, length_app in *. simpl in Hj.
      rewrite take_app_le by lia. exists (take j (key folder d)), (drop j (key folder d)).
      split_and!; [|by rewrite take_drop|done]. intros E. apply (f_equal length) in E.
      rewrite length_take in E. simpl in E. lia. }
    rewrite Hk2 by (intros E; rewrite E in Hw; by apply plain_not_way).
    destruct (on_way_dec requests (take j (components target))) as [Hw'|Hw'].
    + right. by apply Hin1.
    + rewrite Hout1 by done. by apply Hway.
Qed.
End receive.

(** *** Publishing *)

Lemma commit_run profile size hash content_hash content m v document row :
  v.(sv_fs) !! components plain = Some (EFile content m) →
  file_or_none (v.(sv_fs) !! components target) →
  (∀ k, on_way [] (key folder d) k → dir_or_none (v.(sv_fs) !! k)) →
  folder_store_read store v.(sv_fs) = (Ok document, v.(sv_fs)) →
  entry_row io.(in_db_now) (uploaded_entry io profile p size content_hash) = Ok row →
  ∃ fs', commit_upload io folder profile p size hash plain content_hash v
    = (Ok {| uf_accepted := true; uf_path := p; uf_size_bytes := size; uf_content_hash := hash |},
       with_db (with_files <[rel_str p := row]> v.(sv_db)) (with_fs fs' v))
  ∧ fs' !! components target = Some (EFile content m) ∧ fs' !! components plain = None
  ∧ made (key folder d) (λ k, k = components plain ∨ k = components target) v.(sv_fs) fs'.
Proof using Hp UW Type.
  intros Hplain Htarget Hway Hdoc Hrow.
  destruct (path_parent_snoc target (key folder d) n) as (parent & Hpar & Hparc).
  { by rewrite target_key_eq, key_snoc. }
  destruct (create_dirs_ok (components parent) [] (sv_fs v)) as (fs1 & Hrun1 & Hin1 & Hout1);
    rewrite Hparc in *; [done|].
  destruct plain_not_way as [_ Hpw]. destruct target_not_way as [_ Htw].
  pose proof plain_not_target as Hpt.
  set (fs2 := <[components target := EFile content m]> (delete (components plain) fs1)).
  assert (fs_rename plain target fs1 = (Ok tt, fs2)) as Hrun2.
  { unfold fs_rename, get_st. rewrite M_bind_eq. cbv zeta. rewrite (Hout1 _ Hpw), (Hout1 _ Htw), Hplain.
    assert (has_parent fs1 (components target) = true) as ->;
      [|by destruct Htarget as [-> | (c0 & m0 & ->)]].
    rewrite target_key_eq, key_snoc. apply has_parent_snoc.
    destruct (decide (key folder d = [])); [by left|right]. apply Hin1.
    exists (key folder d), []. by rewrite app_nil_r. }
  assert (made (key folder d) (λ k, k = components plain ∨ k = components target) (sv_fs v) fs2) as Hm.
  { intros k Hk. unfold fs2. rewrite lookup_insert_ne, lookup_delete_ne by (intros E; apply Hk; auto).
    destruct (on_way_dec (key folder d) k) as [Hw|Hw];
      [left; split; [done|by apply Hin1]|right; split; [done|by apply Hout1]]. }
  pose proof (made_grown _ _ _ _ Hway Hm) as Hg.
  assert (folder_store_read store fs2 = (Ok document, fs2)) as Hdoc2.
  { apply (config_kept (sv_fs v) fs2 document _ Hdoc Hg).
    intros [E|E]; [by apply config_not_plain|by apply config_not_target]. }
  exists fs2. split_and!; [|apply lookup_insert_eq| |done].
  - unfold commit_upload. cbv zeta. erewrite bind_Ok.
    2: { unfold publish_uploaded_file. cbn [fst_root folder_store_new]. fold target. cbv zeta. rewrite Hpar.
         erewrite bind_Ok; [|exact (fs_at_run parent _ v _ _ (eq_trans (f_equal (λ c, create_dirs [] c (sv_fs v)) Hparc) Hrun1))].
         exact (fs_at_run target _ (with_fs fs1 v) _ _ Hrun2). }
    erewrite bind_Ok; [|exact (on_fs_run ServerCore _ (with_fs fs2 v) _ _ Hdoc2)].
    erewrite bind_Ok; [|apply on_db_run; cbn [with_fs sv_db]; rewrite upsert_eq; cbn [fe_path uploaded_entry];
      rewrite Hrow; reflexivity]. done.
  - unfold fs2. rewrite lookup_insert_ne by done. apply lookup_delete_eq.
Qed.

End upload.

(** What other requests leave beside the spooled files does not stand in the way. *)
Lemma ready_made `{UL : !UuidLib, UW : !UuidLaws, IL : !IoLib, FJ : !SerdeJson FolderDocument}
    io folder p d n name fs fs' :
  canonical (d ++ [n]) p → name ≠ uuid_to_string io.(in_plain_id) +:+ ".plain" →
  upload_ready io folder p d fs →
  made (key folder [".syncer"; "tmp"; "requests"])
    (λ k, k = key folder [".syncer"; "tmp"; "requests"; name]) fs fs' →
  upload_ready io folder p d fs'.
Proof.
  intros Hp Hne [Hreq Hplain Htarget Hway [document Hdoc]] Hm.
  set (other := key folder [".syncer"; "tmp"; "requests"; name]) in *.
  pose proof (target_hidden p d n Hp) as Hhead.
  destruct (plain_not_way io folder p d n Hp) as [HwrB HwdB].
  destruct (target_not_way folder p d n Hp) as [Htr Htd].
  pose proof (made_grown _ _ _ _ Hreq Hm) as Hg.
  assert (¬ on_way [] (key folder [".syncer"; "tmp"; "requests"]) other) as Hor.
  { intros H%on_way_key. apply prefix_length in H. simpl in H. lia. }
  assert (¬ on_way [] (key folder d) other) as Hod.
  { intros [z E]%on_way_key. apply Hhead. by rewrite E. }
  assert (components (plain_path folder io.(in_plain_id)) ≠ other) as Hpo.
  { rewrite plain_key. intros E%(inj (key folder)). congruence. }
  assert (components (path_push folder (rel_str p)) ≠ other) as Hto.
  { rewrite (rel_key _ _ _ Hp). intros E%(inj (key folder)). apply Hhead. by rewrite E. }
  assert (∀ k, k ≠ other → dir_or_none (fs !! k) → dir_or_none (fs' !! k)) as Hdir.
  { intros k Hk Hd. destruct (Hm k Hk) as [[_ ->]|[_ ->]]; [by right|done]. }
  constructor.
  - intros k Hk. apply Hdir; [by intros ->|by apply Hreq].
  - destruct (Hm (components (plain_path folder io.(in_plain_id)))) as [[? _]|[_ ->]]; [congruence|done|done].
  - destruct (Hm (components (path_push folder (rel_str p)))) as [[? _]|[_ ->]]; done.
  - intros k Hk. apply Hdir; [by intros ->|by apply Hway].
  - exists document. apply (config_kept folder fs fs' document _ Hdoc Hg). by intros E%(inj (key folder)).
Qed.

Lemma uploaded_row `{SJ : !SerdeJson (list BlockHash), UL : !UuidLib} io profile p size hash bh :
  to_json (@nil BlockHash) = Ok bh → 0 ≤ size ≤ i64_max →
  ∃ row, entry_row io.(in_db_now) (uploaded_entry io profile p size hash) = Ok row
  ∧ row.(w_size_bytes) = size ∧ row.(w_content_hash) = Some hash
  ∧ row.(w_sync_state) = "local_available".
Proof.
  intros Hj Hs. unfold entry_row, uploaded_entry. cbn [fe_block_hashes fe_size_bytes fe_version fv_generation].
  rewrite Hj. cbn [map_err mbind result_bind]. unfold i64_try_from_u64.
  rewrite (proj2 (Z.leb_le size i64_max)) by lia. eexists. by split_and!.
Qed.

(** An upload arrives: what a trusted sender encrypted is, after the call, the file
    at the path it named, with the announced hash and size on record; nothing that was
    there changed but for the new directories on the way, and the decrypted copy is
    gone. *)
Lemma upload_run
    `{TL : !TimeLib, SL : !SqlxLib, UL : !UuidLib, UW : !UuidLaws, SJ : !SerdeJson (list BlockHash),
      BL : !Blake3Lib, IL : !IoLib, HL : !HexLib, HW : !HexLaws, AL : !AeadLib, AW : !AeadLaws,
      KL : !KdfLib, FJ : !SerdeJson FolderDocument}
    io folder profile p d n secret_hex prefix content out body m v document st bh :
  canonical (d ++ [n]) p → upload_ready io folder p d v.(sv_fs) →
  ciphertext_of secret_hex prefix
    {| cc_direction := "upload"; cc_path := p; cc_content_hash := blake3_hex content;
       cc_plaintext_size := chunk_len content |} content out →
  v.(sv_fs) !! components body.(fb_path) = Some (EFile out m) → body.(fb_size_bytes) = chunk_len out →
  components body.(fb_path) ≠ components (plain_path folder io.(in_plain_id)) →
  folder_store_read (folder_store_new folder) v.(sv_fs) = (Ok document, v.(sv_fs)) →
  folder_status v.(sv_db) = (Ok st, v.(sv_db)) →
  chunk_len content ≤ remaining_bytes document.(fd_folder).(fc_size_limit) st.(fs_indexed_bytes) →
  to_json (@nil BlockHash) = Ok bh →
  ∃ row fs', write_uploaded_file io folder profile p (chunk_len content) (blake3_hex content)
      {| ue_shared_secret_hex := secret_hex; ue_nonce_hex := hex_encode prefix |} body v
    = (Ok {| uf_accepted := true; uf_path := p; uf_size_bytes := chunk_len content;
             uf_content_hash := blake3_hex content |},
       with_db (with_files <[rel_str p := row]> v.(sv_db)) (with_fs fs' v))
  ∧ row.(w_size_bytes) = chunk_len content ∧ row.(w_content_hash) = Some (blake3_hex content)
  ∧ row.(w_sync_state) = "local_available"
  ∧ holds (path_push folder (rel_str p)) content fs'
  ∧ fs' !! components (plain_path folder io.(in_plain_id)) = None
  ∧ grown v.(sv_fs) fs' (λ k, k = components (plain_path folder io.(in_plain_id))
                              ∨ k = components (path_push folder (rel_str p)))
  ∧ (∀ k, on_way [] (key folder d) k → fs' !! k = Some EDir).
Proof.
  intros Hp Hready Hct Hbody Hbs Hne Hdoc Hst Hlim Hj.
  destruct (receive_run io folder p d n Hp secret_hex prefix content out body m Hct Hbs v document st)
    as (fs1 & Hrun1 & Hh1 & Hm1); [done..|].
  pose proof (made_grown _ _ _ _ (ur_requests _ _ _ _ _ Hready) Hm1) as Hg1.
  destruct Hh1 as [m1 Hh1].
  assert (chunk_len content ≤ i64_max) as Hmax by (by destruct Hct).
  destruct (uploaded_row io profile p (chunk_len content) (blake3_hex content) bh Hj)
    as (row & Hrow & Hr1 & Hr2 & Hr3); [unfold chunk_len in *; lia|].
  pose proof (plain_not_target io folder p d n Hp) as Hpt.
  destruct (target_not_way folder p d n Hp) as [Htw _].
  assert (∀ k, k ≠ components (plain_path folder io.(in_plain_id)) → dir_or_none (v.(sv_fs) !! k) →
    dir_or_none (fs1 !! k)) as Hdir.
  { intros k Hk Hd. destruct (Hm1 k Hk) as [[_ ->]|[_ ->]]; [by right|done]. }
  destruct (commit_run io folder p d n Hp profile (chunk_len content) (blake3_hex content)
    (blake3_hex content) content m1 (with_fs fs1 v) document row) as (fs2 & Hrun2 & Ht2 & Hp2 & Hm2).
  - done.
  - left. change (fs1 !! components (path_push folder (rel_str p)) = None).
    destruct (Hm1 (components (path_push folder (rel_str p)))) as [[? _]|[_ ->]]; [by intros ?|done|].
    apply (ur_target _ _ _ _ _ Hready).
  - intros k Hk. apply Hdir; [|by apply (ur_way _ _ _ _ _ Hready)].
    intros ->. by apply (plain_not_way io folder p d n Hp) in Hk.
  - apply (config_kept folder (sv_fs v) fs1 document _ Hdoc Hg1). by apply config_not_plain.
  - done.
  - exists row, fs2. split_and!; [|done..|by exists m1|done| |].
    + unfold write_uploaded_file. erewrite bind_Ok by exact Hrun1. exact Hrun2.
    + eapply grown_trans.
      * intros k Hk. apply Hg1. intros E. apply Hk. by left.
      * eapply made_grown; [|exact Hm2]. intros k Hk. apply Hdir; [|by apply (ur_way _ _ _ _ _ Hready)].
        intros ->. by apply (plain_not_way io folder p d n Hp) in Hk.
    + intros k Hk. destruct (Hm2 k) as [[_ E]|[Hno _]]; [|exact E|done].
      intros [-> | ->]; [by apply (plain_not_way io folder p d n Hp) in Hk|by apply (target_not_way folder p d n Hp) in Hk].
Qed.

(** One row more or another one: the file [content] at [p], available. *)
Definition recorded `{!Blake3Lib} (p : RelativePath) (content : list ascii) (db db' : Database) : Prop :=
  ∃ row, db' = with_files <[rel_str p := row]> db ∧ row.(w_size_bytes) = chunk_len content
  ∧ row.(w_content_hash) = Some (blake3_hex content) ∧ row.(w_sync_state) = "local_available".

(** *** Two uploads of one path *)

Section two.
Context `{TL : !TimeLib, SL : !SqlxLib, UL : !UuidLib, UW : !UuidLaws, SJ : !SerdeJson (list BlockHash),
          BL : !Blake3Lib, IL : !IoLib, HL : !HexLib, HW : !HexLaws, AL : !AeadLib, AW : !AeadLaws,
          KL : !KdfLib, FJ : !SerdeJson FolderDocument}.
Context (ioA ioB : Inputs) (folder : string) (profile : LocalDeviceProfile) (p : RelativePath)
  (d : list string) (n : string) (document : FolderDocument) (contentA contentB : list ascii).
Hypothesis Hp : canonical (d ++ [n]) p.
Hypothesis Hab : components (plain_path folder ioA.(in_plain_id)) ≠ components (plain_path folder ioB.(in_plain_id)).

(** Both plaintexts are beside the folder's files, and the path is still free. *)
Record both_received (fs : FS) : Prop := {
  br_A : holds (plain_path folder ioA.(in_plain_id)) contentA fs;
  br_B : holds (plain_path folder ioB.(in_plain_id)) contentB fs;
  br_free : fs !! components (path_push folder (rel_str p)) = None;
  br_way : ∀ k, on_way [] (key folder d) k → dir_or_none (fs !! k);
  br_config : folder_store_read (folder_store_new folder) fs = (Ok document, fs);
}.

Let context content : FileCipherContext :=
  {| cc_direction := "upload"; cc_path := p; cc_content_hash := blake3_hex content;
     cc_plaintext_size := chunk_len content |}.

Lemma receive_both secretA secretB prefixA prefixB outA outB bodyA bodyB mA mB v st :
  upload_ready ioA folder p d v.(sv_fs) → upload_ready ioB folder p d v.(sv_fs) →
  ciphertext_of secretA prefixA (context contentA) contentA outA →
  ciphertext_of secretB prefixB (context contentB) contentB outB →
  v.(sv_fs) !! components bodyA.(fb_path) = Some (EFile outA mA) → bodyA.(fb_size_bytes) = chunk_len outA →
  v.(sv_fs) !! components bodyB.(fb_path) = Some (EFile outB mB) → bodyB.(fb_size_bytes) = chunk_len outB →
  components bodyA.(fb_path) ≠ components (plain_path folder ioA.(in_plain_id)) →
  components bodyB.(fb_path) ≠ components (plain_path folder ioA.(in_plain_id)) →
  components bodyB.(fb_path) ≠ components (plain_path folder ioB.(in_plain_id)) →
  folder_store_read (folder_store_new folder) v.(sv_fs) = (Ok document, v.(sv_fs)) →
  folder_status v.(sv_db) = (Ok st, v.(sv_db)) →
  chunk_len contentA ≤ remaining_bytes document.(fd_folder).(fc_size_limit) st.(fs_indexed_bytes) →
  chunk_len contentB ≤ remaining_bytes document.(fd_folder).(fc_size_limit) st.(fs_indexed_bytes) →
  ∃ fs1 fs2,
    receive_upload ioA folder p (chunk_len contentA) (blake3_hex contentA)
      {| ue_shared_secret_hex := secretA; ue_nonce_hex := hex_encode prefixA |} bodyA v
    = (Ok (plain_path folder ioA.(in_plain_id), blake3_hex contentA), with_fs fs1 v)
  ∧ receive_upload ioB folder p (chunk_len contentB) (blake3_hex contentB)
      {| ue_shared_secret_hex := secretB; ue_nonce_hex := hex_encode prefixB |} bodyB (with_fs fs1 v)
    = (Ok (plain_path folder ioB.(in_plain_id), blake3_hex contentB), with_fs fs2 v)
  ∧ both_received fs2.
Proof using Hp Hab SL SJ UW HW AW Type.
  intros HrA HrB HctA HctB HbA HsA HbB HsB HneA HneBA HneB Hdoc Hst HlA HlB.
  destruct (receive_run ioA folder p d n Hp secretA prefixA contentA outA bodyA mA HctA HsA v document st)
    as (fs1 & Hrun1 & [m1 Hh1] & Hm1); [done..|].
  assert (upload_ready ioB folder p d fs1) as HrB1.
  { pose proof Hm1 as Hm1'. rewrite plain_key in Hm1'. rewrite !plain_key in Hab.
    eapply (ready_made ioB folder p d n _ v.(sv_fs)); [done| |done|exact Hm1']. intros E. apply Hab. by rewrite E. }
  pose proof (made_grown _ _ _ _ (ur_requests _ _ _ _ _ HrA) Hm1) as Hg1.
  pose proof (config_kept folder (sv_fs v) fs1 document _ Hdoc Hg1 (config_not_plain ioA folder)) as Hdoc1.
  assert (fs1 !! components bodyB.(fb_path) = Some (EFile outB mB)) as HbB1.
  { destruct (Hg1 _ HneBA) as [->|[E _]]; [done|congruence]. }
  destruct (receive_run ioB folder p d n Hp secretB prefixB contentB outB bodyB mB HctB HsB
    (with_fs fs1 v) document st HrB1 HbB1 HneB Hdoc1 Hst HlB) as (fs2 & Hrun2 & Hh2 & Hm2).
  pose proof (made_grown _ _ _ _ (ur_requests _ _ _ _ _ HrB1) Hm2) as Hg2. cbn [with_fs sv_fs] in Hm2, Hg2.
  pose proof (plain_not_target ioB folder p d n Hp) as HptB.
  destruct (plain_not_way ioB folder p d n Hp) as [HwrB HwdB].
  destruct (target_not_way folder p d n Hp) as [Htr _].
  exists fs1, fs2. split_and!; [exact Hrun1|exact Hrun2|]. constructor.
  - exists m1. destruct (Hg2 _ Hab) as [->|[E _]]; [done|congruence].
  - done.
  - destruct (Hm2 (components (path_push folder (rel_str p)))) as [[? _]|[_ ->]]; [congruence|done|].
    by destruct HrB1.
  - intros k Hk. destruct (Hm2 k) as [[_ ->]|[_ ->]]; [by intros ->|by right|].
    by apply (ur_way _ _ _ _ _ HrB1).
  - apply (config_kept folder fs1 fs2 document _ Hdoc1 Hg2 (config_not_plain ioB folder)).
Qed.

Lemma commit_both v bh : both_received v.(sv_fs) → to_json (@nil BlockHash) = Ok bh →
  0 ≤ chunk_len contentA ≤ i64_max → 0 ≤ chunk_len contentB ≤ i64_max →
  let commit io content := commit_upload io folder profile p (chunk_len content) (blake3_hex content)
    (plain_path folder io.(in_plain_id)) (blake3_hex content) in
  let accepted content := {| uf_accepted := true; uf_path := p; uf_size_bytes := chunk_len content;
                             uf_content_hash := blake3_hex content |} in
  ∃ v3 v4, commit ioA contentA v = (Ok (accepted contentA), v3) ∧ commit ioB contentB v3 = (Ok (accepted contentB), v4)
  ∧ recorded p contentA v.(sv_db) v3.(sv_db) ∧ recorded p contentB v3.(sv_db) v4.(sv_db)
  ∧ holds (path_push folder (rel_str p)) contentA v3.(sv_fs)
  ∧ holds (path_push folder (rel_str p)) contentB v4.(sv_fs).
Proof using Hp Hab SL SJ UW Type.
  intros [[m1 HA] [m2 HB] Hfree Hway Hdoc] Hj HmaxA HmaxB commit accepted.
  pose proof (plain_not_target ioB folder p d n Hp) as HptB.
  destruct (plain_not_way ioA folder p d n Hp) as [_ HwdA].
  destruct (target_not_way folder p d n Hp) as [_ Htd].
  destruct (uploaded_row ioA profile p (chunk_len contentA) (blake3_hex contentA) bh Hj HmaxA)
    as (rowA & HrowA & HsA & HhA & HstA).
  destruct (uploaded_row ioB profile p (chunk_len contentB) (blake3_hex contentB) bh Hj HmaxB)
    as (rowB & HrowB & HsB & HhB & HstB).
  destruct (commit_run ioA folder p d n Hp profile (chunk_len contentA) (blake3_hex contentA)
    (blake3_hex contentA) contentA m1 v document rowA HA (or_introl Hfree) Hway Hdoc HrowA)
    as (fs3 & Hrun3 & Ht3 & _ & Hm3).
  pose proof (made_grown _ _ _ _ Hway Hm3) as Hg3.
  set (v3 := with_db (with_files <[rel_str p := rowA]> v.(sv_db)) (with_fs fs3 v)) in *.
  destruct (commit_run ioB folder p d n Hp profile (chunk_len contentB) (blake3_hex contentB)
    (blake3_hex contentB) contentB m2 v3 document rowB) as (fs4 & Hrun4 & Ht4 & _ & _).
  - destruct (Hg3 (components (plain_path folder ioB.(in_plain_id)))) as [E|[E _]];
      [intros [E|E]; congruence|by rewrite <-HB|congruence].
  - right. by exists contentA, m1.
  - intros k Hk. destruct (Hm3 k) as [[_ E]|[_ E]]; [by intros [-> | ->]|by right|].
    change (dir_or_none (fs3 !! k)). rewrite E. by apply Hway.
  - apply (config_kept folder v.(sv_fs) fs3 document _ Hdoc Hg3).
    intros [E|E]; [by apply (config_not_plain ioA folder)|by apply (config_not_target folder p d n Hp)].
  - exact HrowB.
  - eexists v3, _. split_and!; [exact Hrun3|exact Hrun4|by exists rowA|by exists rowB|by exists m1|by exists m2].
Qed.
End two.

(** ** Properties *)

(** C38. The check and the move of an upload are two steps: when two uploads of one path
    are checked before either is moved, both are answered as accepted and recorded with
    their size and hash, and the file of
    the first sender, whom the server told it has it, is replaced by the second's. *)
Theorem concurrent_uploads_overwrite
    `{TL : !TimeLib, SL : !SqlxLib, UL : !UuidLib, UW : !UuidLaws, SJ : !SerdeJson (list BlockHash),
      BL : !Blake3Lib, IL : !IoLib, HL : !HexLib, HW : !HexLaws, AL : !AeadLib, AW : !AeadLaws,
      KL : !KdfLib, FJ : !SerdeJson FolderDocument}
    ioA ioB folder profile p d n secretA secretB prefixA prefixB contentA contentB outA outB bodyA bodyB
    mA mB v document st bh :
  canonical (d ++ [n]) p → upload_ready ioA folder p d v.(sv_fs) → upload_ready ioB folder p d v.(sv_fs) →
  components (plain_path folder ioA.(in_plain_id)) ≠ components (plain_path folder ioB.(in_plain_id)) →
  let context content :=
    {| cc_direction := "upload"; cc_path := p; cc_content_hash := blake3_hex content;
       cc_plaintext_size := chunk_len content |} in
  ciphertext_of secretA prefixA (context contentA) contentA outA →
  ciphertext_of secretB prefixB (context contentB) contentB outB →
  v.(sv_fs) !! components bodyA.(fb_path) = Some (EFile outA mA) → bodyA.(fb_size_bytes) = chunk_len outA →
  v.(sv_fs) !! components bodyB.(fb_path) = Some (EFile outB mB) → bodyB.(fb_size_bytes) = chunk_len outB →
  components bodyA.(fb_path) ≠ components (plain_path folder ioA.(in_plain_id)) →
  components bodyB.(fb_path) ≠ components (plain_path folder ioA.(in_plain_id)) →
  components bodyB.(fb_path) ≠ components (plain_path folder ioB.(in_plain_id)) →
  folder_store_read (folder_store_new folder) v.(sv_fs) = (Ok document, v.(sv_fs)) →
  folder_status v.(sv_db) = (Ok st, v.(sv_db)) →
  chunk_len contentA ≤ remaining_bytes document.(fd_folder).(fc_size_limit) st.(fs_indexed_bytes) →
  chunk_len contentB ≤ remaining_bytes document.(fd_folder).(fc_size_limit) st.(fs_indexed_bytes) →
  to_json (@nil BlockHash) = Ok bh →
  let receive io secret prefix content body :=
    receive_upload io folder p (chunk_len content) (blake3_hex content)
      {| ue_shared_secret_hex := secret; ue_nonce_hex := hex_encode prefix |} body in
  let commit io content (r : string * string) :=
    commit_upload io folder profile p (chunk_len content) (blake3_hex content) r.1 r.2 in
  let accepted content := {| uf_accepted := true; uf_path := p; uf_size_bytes := chunk_len content;
                             uf_content_hash := blake3_hex content |} in
  ∃ rA rB v1 v2 v3 v4,
    receive ioA secretA prefixA contentA bodyA v = (Ok rA, v1)
  ∧ receive ioB secretB prefixB contentB bodyB v1 = (Ok rB, v2)
  ∧ commit ioA contentA rA v2 = (Ok (accepted contentA), v3)
  ∧ commit ioB contentB rB v3 = (Ok (accepted contentB), v4)
  ∧ recorded p contentA v.(sv_db) v3.(sv_db) ∧ recorded p contentB v3.(sv_db) v4.(sv_db)
  ∧ holds (path_push folder (rel_str p)) contentA v3.(sv_fs)
  ∧ holds (path_push folder (rel_str p)) contentB v4.(sv_fs).
Proof.
  intros Hp HrA HrB Hab context HctA HctB HbA HsA HbB HsB HneA HneBA HneB Hdoc Hst HlA HlB Hj receive commit accepted.
  destruct (receive_both ioA ioB folder p d n document contentA contentB Hp Hab secretA secretB prefixA prefixB
    outA outB bodyA bodyB mA mB v st) as (fs1 & fs2 & Hrun1 & Hrun2 & Hboth); [done..|].
  assert (∀ content secret prefix out, ciphertext_of secret prefix (context content) content out →
    0 ≤ chunk_len content ≤ i64_max) as Hmax.
  { intros content secret prefix out []. unfold chunk_len in *. lia. }
  destruct (commit_both ioA ioB folder profile p d n document contentA contentB Hp Hab (with_fs fs2 v) bh Hboth Hj)
    as (v3 & v4 & Hrun3 & Hrun4 & Hdb3 & Hdb4 & Ht3 & Ht4); [by eapply Hmax|by eapply Hmax|].
  eexists _, _, _, _, v3, v4. split_and!; [exact Hrun1|exact Hrun2|exact Hrun3|exact Hrun4|exact Hdb3|exact Hdb4|done|done].
Qed.
