(* ===== verification/PeerSharedSpec.v ===== *)
(** * The peer server: the files it serves and deletes

    What a request learns of a folder is what the scan before it recorded: the manifest
    is a list of the rows, a download and a deletion first find the row of their path. *)

From S2P Require Import Prelude RustStd External Error Manifest Limits Model Records Planning StateDb StateDbFacts StateDbSpec FileSys FolderStore Scanner ScannerSpec PathCodec RequestSigning PeerCrypto PeerStore HttpText PeerRequest PeerRequestSpec PeerServer PeerServerSpec PeerUploadSpec.
From stdpp Require Import options pretty.
Local Open Scope Z_scope.

(** ** The exported manifest *)

Lemma canonical_text names p : canonical names p → rel_str p = join_with slash names.
Proof. by intros (_ & _ & _ & ?). Qed.

(** Paths that parse to themselves are equal when their components are. *)
Lemma stable_eqb q names p : stable_path q → canonical names p →
  rel_eqb {| rel_str := q |} p = true → q = rel_str p.
Proof.
  intros Hq%parse_canonical (Hne & Hv & _ & Hp). rewrite Hp. destruct Hq as (Hne' & Hv' & _ & Hq). cbn [rel_str] in Hq.
  set (names' := path_names (trim q)) in *. clearbody names'. subst q.
  unfold rel_eqb, path_eqb. rewrite bool_decide_eq_true. cbn [rel_str]. rewrite Hp.
  rewrite !components_join by done. intros E.
  assert (Inj (=) (=) Normal) as Hinj by (intros ? ? ?; congruence).
  by apply (inj (fmap Normal)) in E as ->.
Qed.

Lemma rel_eqb_refl p : rel_eqb p p = true.
Proof. unfold rel_eqb, path_eqb. by apply bool_decide_eq_true_2. Qed.

Lemma head_filter_unique {A} (P : A → Prop) `{∀ x, Decision (P x)} (l : list A) x :
  x ∈ l → P x → (∀ y, y ∈ l → P y → y = x) → head (filter P l) = Some x.
Proof.
  induction l as [|y l IH]; intros Hx HP Hu; [by apply not_elem_of_nil in Hx|].
  rewrite filter_cons. destruct (decide (P y)) as [Hy|Hy].
  - by rewrite (Hu y) by (by first [left|done]).
  - apply IH; [|done|intros; apply Hu; [by right|done]].
    apply elem_of_cons in Hx as [->|?]; done.
Qed.

Section manifest.
Context `{TL : !TimeLib, SL : !SqlxLib}.

(** What [find_available] answers, by the row of the path. *)
Definition available_row (p : RelativePath) (row : option FileRow) : result PeerServerError FileRecord :=
  match row with
  | Some r => if bool_decide (r.(w_kind) = "file") && bool_decide (r.(w_sync_state) = "local_available")
              then Ok (file_record (rel_str p, r)) else Err NotFound
  | None => Err NotFound
  end.

(** The record of a path is the one of its row. *)
Lemma find_row n db names p : db_wf n db → canonical names p →
  head (filter (λ file, rel_eqb file.(fr_path) p = true) (file_record <$> file_rows db))
  = (λ r, file_record (rel_str p, r)) <$> db.(db_files) !! rel_str p.
Proof.
  intros Hwf Hp.
  assert (∀ y, y ∈ file_record <$> file_rows db → rel_eqb (fr_path y) p = true →
    ∃ r, db.(db_files) !! rel_str p = Some r ∧ y = file_record (rel_str p, r)) as Hy.
  { intros y ([q r] & -> & Hqr)%list_elem_of_fmap Heq. pose proof (wf_file_rows n db _ Hwf Hqr) as Hok.
    apply file_rows_elem in Hqr. cbn [file_record fr_path fst snd] in *.
    rewrite (stable_eqb q names p (fo_path _ _ Hok) Hp Heq) in *. by exists r. }
  destruct (db.(db_files) !! rel_str p) as [r|] eqn:Hr.
  - apply head_filter_unique.
    + apply list_elem_of_fmap. exists (rel_str p, r). split; [done|]. by apply file_rows_elem.
    + cbn [file_record fr_path fst]. by destruct p; apply rel_eqb_refl.
    + intros y Hin Heq. destruct (Hy y Hin Heq) as (r' & E & ->). congruence.
  - assert (filter (λ file, rel_eqb (fr_path file) p = true) (file_record <$> file_rows db) = []) as ->; [|done].
    destruct (filter _ _) as [|y l] eqn:E; [done|].
    assert (y ∈ filter (λ file, rel_eqb (fr_path file) p = true) (file_record <$> file_rows db)) as Hin
      by (rewrite E; by left).
    apply list_elem_of_filter in Hin as [Heq Hin]. destruct (Hy y Hin Heq) as (r' & E' & _). congruence.
Qed.

Lemma find_available_row n db names p f d t :
  db_wf n db → canonical names p →
  find_available {| fm_folder_id := f; fm_device_id := d; fm_generated_at := t;
                    fm_files := file_record <$> file_rows db |} p
  = available_row p (db.(db_files) !! rel_str p).
Proof.
  intros Hwf Hp. unfold find_available. cbn [fm_files]. rewrite (find_row n db names) by done.
  destruct (db.(db_files) !! rel_str p) as [r|]; [|done].
  cbn [fmap option_fmap option_map ok_or mbind result_bind available_row file_record fr_kind fr_sync_state fst snd].
  by repeat case_bool_decide.
Qed.
End manifest.

Section shared.
Context `{TL : !TimeLib, SL : !SqlxLib, UL : !UuidLib, SJ : !SerdeJson (list BlockHash), BL : !Blake3Lib,
          IL : !IoLib, RD : !ReadDir, RW : !ReadDirLaws, FJ : !SerdeJson FolderDocument}.

(** The folder of a request: configured, and with nothing in it the scanner refuses. *)
Record servable (io : Inputs) (folder : string) (profile : LocalDeviceProfile) (n : Z) (v : Server)
    (document : FolderDocument) : Prop := {
  se_config : folder_store_read (folder_store_new folder) v.(sv_fs) = (Ok document, v.(sv_fs));
  se_scan : scannable v.(sv_fs) (scanner_new folder profile.(lp_device_id));
  se_json : ∃ bh, to_json (@nil BlockHash) = Ok bh;
  se_time : ∀ q, valid_time (io.(in_scan_now_utc) q);
  se_db : db_wf n v.(sv_db);
}.

Lemma export_run io folder profile n v document : servable io folder profile n v document →
  ∃ s db', server_export_manifest io folder profile v
    = (Ok {| fm_folder_id := document.(fd_folder).(fc_id); fm_device_id := profile.(lp_device_id);
             fm_generated_at := io.(in_generated_at); fm_files := file_record <$> file_rows db' |},
       with_db db' v)
  ∧ scan_outcome io.(in_scan_now) io.(in_scan_now_utc) v.(sv_fs) (scanner_new folder profile.(lp_device_id))
      io.(in_scan_end) n v.(sv_db) s db'.
Proof using SL RW Type.
  intros [Hdoc Hscan [bh Hj] Ht Hwf].
  destruct (scan_run io.(in_scan_now) io.(in_scan_now_utc) v.(sv_fs) (scanner_new folder profile.(lp_device_id))
    (S (size v.(sv_fs))) io.(in_scan_end) n v.(sv_db) bh Hscan Hj Ht Hwf) as (s & db' & Hrun & Hout); [lia|].
  exists s, db'. split; [|done]. unfold server_export_manifest. cbv zeta.
  erewrite bind_Ok; [|exact (on_fs_run ServerCore _ v _ _ Hdoc)].
  unfold get_st. rewrite M_bind_eq. replace (with_fs (sv_fs v) v) with v by (by destruct v).
  erewrite bind_Ok.
  2: { apply on_db_run. unfold scan. rewrite Hrun. reflexivity. }
  etransitivity; [eapply (on_db_run _ (with_db db' v)); cbn [with_db sv_db]|by destruct v].
  unfold export_manifest. erewrite bind_Ok; [|by apply (list_files_wf n), (so_wf _ _ _ _ _ _ _ _ _ Hout)]. done.
Qed.

(** What the scan knows of the path of a request. *)
Lemma scanned_available now now_utc fs scanner end_now n db s db' names p :
  scan_outcome now now_utc fs scanner end_now n db s db' → fs_wf fs → canonical names p →
  (∀ c m, seen_file fs scanner names c m → ∃ r,
     db'.(db_files) !! rel_str p = Some r
     ∧ available_row p (db'.(db_files) !! rel_str p) = Ok (file_record (rel_str p, r))
     ∧ r.(w_size_bytes) = chunk_len c ∧ r.(w_content_hash) = Some (blake3_hex c))
  ∧ ((∀ c m, ¬ seen_file fs scanner names c m) →
     available_row p (db'.(db_files) !! rel_str p) = Err NotFound).
Proof using Type.
  intros Hout Hfs Hp. pose proof (canonical_text _ _ Hp) as Hpt. pose proof Hp as (_ & Hv & _ & _). split.
  - intros c m Hs. destruct (so_seen _ _ _ _ _ _ _ _ _ Hout names c m Hs) as (r & Hr & Hrow & Hst & Hsz & Hh).
    rewrite <-Hpt in Hr. exists r. split_and!; [done| |done|done]. rewrite Hr. cbn [available_row].
    rewrite Hst, (scan_row_kind _ _ _ _ _ _ _ Hrow). done.
  - intros Hno. rewrite (so_missing _ _ _ _ _ _ _ _ _ Hout).
    + destruct (db_files db !! rel_str p) as [r|]; [|done]. cbn [fmap option_fmap option_map available_row].
      unfold missing_row. by rewrite andb_false_r.
    + intros names' c m Hs E. rewrite Hpt in E. pose proof (seen_valid _ _ _ _ _ Hfs Hs) as Hv'.
      apply (f_equal path_names) in E. rewrite !path_names_join in E by done. subst names'. by eapply Hno.
Qed.

(** The file of a seen name is at its key. *)
Lemma seen_target fs folder device names p c m : canonical names p →
  seen_file fs (scanner_new folder device) names c m →
  fs !! components (path_push folder (rel_str p)) = Some (EFile c m).
Proof using Type.
  intros Hp (d & n & -> & _ & _ & Hn). by rewrite (rel_key _ _ _ Hp).
Qed.

Lemma remove_file_run path c m fs : fs !! components path = Some (EFile c m) →
  remove_file path fs = (Ok tt, delete (components path) fs).
Proof using Type. intros H. unfold remove_file, get_st. rewrite M_bind_eq. by rewrite H. Qed.

(** What the handlers find for the path of a request. *)
Lemma export_find io folder profile n v document names p :
  servable io folder profile n v document → canonical names p →
  ∃ db' manifest, server_export_manifest io folder profile v = (Ok manifest, with_db db' v)
  ∧ (∀ c m, seen_file v.(sv_fs) (scanner_new folder profile.(lp_device_id)) names c m →
       ∃ r, find_available manifest p = Ok (file_record (rel_str p, r))
            ∧ r.(w_size_bytes) = chunk_len c ∧ r.(w_content_hash) = Some (blake3_hex c))
  ∧ ((∀ c m, ¬ seen_file v.(sv_fs) (scanner_new folder profile.(lp_device_id)) names c m) →
     find_available manifest p = Err NotFound).
Proof using SL RW Type.
  intros Hse Hp. destruct (export_run io folder profile n v document Hse) as (s & db' & Hrun & Hout).
  eexists db', _. split; [exact Hrun|].
  rewrite (find_available_row n db' names p) by (done || by eapply so_wf).
  destruct (scanned_available _ _ _ _ _ _ _ _ _ names p Hout (sb_wf _ _ (se_scan _ _ _ _ _ _ Hse)) Hp) as [H1 H2].
  split; [|done]. intros c m Hs. destruct (H1 c m Hs) as (r & _ & Hr & ? & ?). by exists r.
Qed.
End shared.

(** ** The file of an encrypted response *)

Lemma join_bytes_elem sep segs a : a ∈ join_bytes sep segs → a = sep ∨ ∃ seg, seg ∈ segs ∧ a ∈ seg.
Proof.
  induction segs as [|s [|s' segs] IH]; cbn [join_bytes]; [by intros ?%not_elem_of_nil| |].
  - intros H. right. exists s. split; [by left|done].
  - intros [H|[-> |H]%elem_of_cons]%elem_of_app; [right; exists s; split; [by left|done]|by left|].
    destruct (IH H) as [->|(seg & Hs & Ha)]; [by left|right; exists seg; split; [by right|done]].
Qed.

Lemma split_bytes_elem sep l seg a : seg ∈ split_bytes sep l → a ∈ seg → a ∈ l.
Proof.
  revert seg. induction l as [|b l IH]; intros seg; cbn [split_bytes].
  - by intros ->%list_elem_of_singleton.
  - destruct (Ascii.eqb b sep).
    + intros [->|Hs]%elem_of_cons Ha; [by apply not_elem_of_nil in Ha|right; by eapply IH].
    + destruct (split_bytes sep l) as [|s segs]; [by intros ->%list_elem_of_singleton ->%list_elem_of_singleton; left|].
      intros [->|Hs]%elem_of_cons Ha.
      * apply elem_of_cons in Ha as [->|Ha]; [by left|right; apply (IH s); [by left|done]].
      * right. apply (IH seg); [by right|done].
Qed.

Lemma file_stem_no_slash name : slash ∉ bytes name → slash ∉ bytes (file_stem name).
Proof.
  intros Hn. unfold file_stem. destruct (reverse (split_on dot name)) as [|x [|y r]] eqn:E; [done..|].
  cbv zeta. case_bool_decide; [done|]. unfold join_with. rewrite bytes_of_bytes.
  intros [Hx|(seg & Hs & Ha)]%join_bytes_elem; [done|]. apply Hn.
  apply list_elem_of_fmap in Hs as (s & -> & Hs). rewrite elem_of_reverse in Hs.
  assert (s ∈ split_on dot name) as Hs'.
  { apply elem_of_reverse. rewrite E. by right. }
  unfold split_on in Hs'. apply list_elem_of_fmap in Hs' as (l & -> & Hl).
  rewrite bytes_of_bytes in Ha. by eapply split_bytes_elem.
Qed.

Definition response_name (n ext : string) : string := file_stem n +:+ "." +:+ ext.

Lemma response_name_valid n ext : slash ∉ bytes n → slash ∉ bytes ext → (2 ≤ length (bytes ext))%nat →
  valid_name (response_name n ext).
Proof.
  intros Hn He Hl.
  assert (3 ≤ length (bytes (response_name n ext)))%nat as H3.
  { unfold response_name. rewrite !bytes_app, !length_app. simpl. lia. }
  split_and!; [by intros E; rewrite E in H3; simpl in H3; lia| by intros E; rewrite E in H3; simpl in H3; lia|
    by intros E; rewrite E in H3; simpl in H3; lia|].
  unfold response_name. rewrite !bytes_app, !not_elem_of_app. split_and!; [by apply file_stem_no_slash| |done].
  by apply (bool_decide_eq_true_1 _).
Qed.

Lemma shaped_last a x n : shaped (a ++ [Normal n]) → valid_name x → shaped (a ++ [Normal x]).
Proof.
  intros Ha Hx. assert (segment_of (Normal x)) as Hs by (right; by exists x).
  destruct a as [|[] a]; simpl in *; [by constructor|..]; rewrite ?Forall_cons, ?Forall_app in *;
    rewrite ?Forall_cons, ?Forall_nil in *; tauto.
Qed.

Lemma shaped_last_valid a n : shaped (a ++ [Normal n]) → slash ∉ bytes n.
Proof.
  assert (∀ cs, Forall segment_of (cs ++ [Normal n]) → slash ∉ bytes n) as H.
  { intros cs [_ [[?|(m & [= <-] & (_ & _ & _ & ?))] _]%Forall_cons]%Forall_app; done. }
  destruct a as [|[] a]; simpl; intros Hs; [by apply (H [])|by apply (H a)..| |].
  - by apply (H (ParentDir :: a)).
  - by eapply (H (Normal _ :: a)).
Qed.

Lemma with_extension_key path d n ext : components path = d ++ [Normal n] → slash ∉ bytes n →
  slash ∉ bytes ext → (2 ≤ length (bytes ext))%nat →
  components (with_extension path ext) = d ++ [Normal (response_name n ext)].
Proof.
  intros E Hn He Hl. unfold with_extension. rewrite E, reverse_snoc, reverse_involutive.
  apply components_render. eapply shaped_last; [|by apply response_name_valid].
  rewrite <-E. apply components_shaped.
Qed.

Section download.
Context `{TL : !TimeLib, SL : !SqlxLib, UL : !UuidLib, UW : !UuidLaws, SJ : !SerdeJson (list BlockHash),
          BL : !Blake3Lib, IL : !IoLib, RD : !ReadDir, RW : !ReadDirLaws, HL : !HexLib, SH : !Sha256Lib,
          HM : !HmacLib, AL : !AeadLib, AW : !AeadLaws, KL : !KdfLib, RL : !ReadLib,
          FJ : !SerdeJson FolderDocument}.
Context (io : Inputs) (folder : string) (p : RelativePath) (d : list string) (n : string).
Hypothesis Hp : canonical (d ++ [n]) p.

Lemma response_key : components (response_path io folder p)
  = key folder d ++ [Normal (response_name n ("syncer-response-" +:+ uuid_to_string io.(in_response_id) +:+ ".enc"))].
Proof using Hp UW.
  assert (slash ∉ bytes ("syncer-response-" +:+ uuid_to_string io.(in_response_id) +:+ ".enc")) as Hs.
  { pose proof (uuid_name_valid io.(in_response_id) "enc" ltac:(by apply (bool_decide_eq_true_1 _))) as (_ & _ & _ & He).
    rewrite bytes_app, not_elem_of_app. split; [by apply (bool_decide_eq_true_1 _)|done]. }
  unfold response_path. apply with_extension_key; [| |done|].
  - by rewrite (rel_key _ _ _ Hp), key_snoc.
  - destruct Hp as (_ & Hv & _). apply Forall_app in Hv as [_ [(_ & _ & _ & ?) _]%Forall_cons]. done.
  - rewrite bytes_app, length_app. simpl. lia.
Qed.

(** The encrypted copy is made, sent and removed. *)
Lemma respond_run secret_hex secret v c m :
  hex_decode secret_hex = Ok secret → length secret = 32%nat →
  length io.(in_nonce_prefix) = NONCE_PREFIX_BYTES → full_reads c (reads c) → chunk_len c ≤ i64_max →
  v.(sv_fs) !! components (path_push folder (rel_str p)) = Some (EFile c m) →
  v.(sv_fs) !! key folder d = Some EDir →
  v.(sv_fs) !! components (response_path io folder p) = None →
  ∃ out, ciphertext_of secret_hex io.(in_nonce_prefix)
      {| cc_direction := "download"; cc_path := p; cc_content_hash := blake3_hex c;
         cc_plaintext_size := chunk_len c |} c out
  ∧ (response ← encrypted_file_response io 200 {| sf_path := path_push folder (rel_str p);
        sf_size_bytes := chunk_len c; sf_content_hash := blake3_hex c |} p secret_hex;
     write_response response) v
    = (Ok tt, {| sv_stream := v.(sv_stream); sv_fs := v.(sv_fs); sv_db := v.(sv_db);
                 sv_sent := v.(sv_sent) ++ bytes (response_header 200 "application/octet-stream" (chunk_len out)
                   [("x-syncer-encryption", ENCRYPTION_ALGORITHM);
                    ("x-syncer-nonce", hex_encode io.(in_nonce_prefix));
                    ("x-syncer-content-hash", blake3_hex c);
                    ("x-syncer-plaintext-size", pretty (chunk_len c : Z))]) ++ out |}).
Proof using Hp UW AW Type.
  intros Hsec Hlen Hpre Hreads Hmax Ht Hd Hfree.
  destruct (encrypt_file_run io.(in_fs_now) v.(sv_fs) (path_push folder (rel_str p)) (response_path io folder p)
    secret_hex _ io.(in_nonce_prefix)
    {| cc_direction := "download"; cc_path := p; cc_content_hash := blake3_hex c; cc_plaintext_size := chunk_len c |}
    c m (derive_key_ok _ _ Hsec Hlen) Hpre Ht Hreads eq_refl Hmax) as (out & fs1 & Hrun & Hct & [m1 Hout] & Hk).
  { by left. }
  { rewrite response_key. apply has_parent_snoc. by right. }
  exists out. split; [done|]. unfold encrypted_file_response. cbv zeta. cbn [sf_path sf_size_bytes sf_content_hash].
  change (with_extension (path_push folder (rel_str p)) ?e) with (response_path io folder p).
  rewrite M_bind_eq. erewrite bind_Ok; [|exact (on_fs_run ServerPeerCrypto _ v _ _ Hrun)].
  cbv zeta. cbn [cf_size_bytes cf_nonce_hex]. rewrite <-(ciphertext_length _ _ _ _ _ Hct).
  unfold mret at 1, M_ret at 1. cbn [write_response]. unfold send.
  rewrite M_bind_eq. unfold modify at 1. unfold get_st. rewrite M_bind_eq. cbn [with_fs sv_fs].
  unfold fs_read. rewrite Hout. cbn [map_err]. rewrite bind_lift_Ok, M_bind_eq. unfold modify.
  unfold remove_file, get_st. rewrite M_bind_eq. cbn [with_fs sv_fs sv_stream sv_db sv_sent]. rewrite Hout.
  cbn [modify snd]. f_equal. unfold with_fs. cbn. rewrite app_assoc. f_equal.
  apply map_eq. intros k. destruct (decide (k = components (response_path io folder p))) as [->|Hne].
  - by rewrite lookup_delete_eq, Hfree.
  - by rewrite lookup_delete_ne, Hk.
Qed.
End download.

(** A trusted peer that asks for a file of the folder gets the file: its ciphertext for
    the key the two share, announced with its nonce, hash and size. *)
Lemma download_run
    `{TL : !TimeLib, SL : !SqlxLib, UL : !UuidLib, UW : !UuidLaws, SJ : !SerdeJson (list BlockHash),
      BL : !Blake3Lib, IL : !IoLib, RD : !ReadDir, RW : !ReadDirLaws, HL : !HexLib, SH : !Sha256Lib,
      HM : !HmacLib, AL : !AeadLib, AW : !AeadLaws, KL : !KdfLib, RL : !ReadLib,
      FJ : !SerdeJson FolderDocument, PJ : !SerdeJson PeerStoreDocument,
      EJ : !SerdeJson PeerPresence, MJ : !SerdeJson FolderManifest, J1 : !SerdeJson HealthResponse,
      J2 : !SerdeJson PresenceResponse, J3 : !SerdeJson ErrorResponse,
      J4 : !SerdeJson UploadFileResponse, J5 : !SerdeJson DeleteFileResponse}
    io config p d n c m request secret_hex secret v document i :
  canonical (d ++ [n]) p → servable io config.(cfg_folder_path) config.(cfg_profile) i v document →
  seen_file v.(sv_fs) (scanner_new config.(cfg_folder_path) config.(cfg_profile).(lp_device_id)) (d ++ [n]) c m →
  request.(hr_method) = "GET" → starts_with request.(hr_path) "/file/" = true →
  file_path_of request = Ok p →
  authenticated io.(in_verify_now) v.(sv_fs) config.(cfg_peers_path) request secret_hex →
  hex_decode secret_hex = Ok secret → length secret = 32%nat →
  length io.(in_nonce_prefix) = NONCE_PREFIX_BYTES → full_reads c (reads c) →
  v.(sv_fs) !! components (response_path io config.(cfg_folder_path) p) = None →
  ∃ out db', ciphertext_of secret_hex io.(in_nonce_prefix)
      {| cc_direction := "download"; cc_path := p; cc_content_hash := blake3_hex c;
         cc_plaintext_size := chunk_len c |} c out
  ∧ (response ← route_request io request config; write_response response) v
    = (Ok tt, {| sv_stream := v.(sv_stream); sv_fs := v.(sv_fs); sv_db := db';
                 sv_sent := v.(sv_sent) ++ bytes (response_header 200 "application/octet-stream" (chunk_len out)
                   [("x-syncer-encryption", ENCRYPTION_ALGORITHM);
                    ("x-syncer-nonce", hex_encode io.(in_nonce_prefix));
                    ("x-syncer-content-hash", blake3_hex c);
                    ("x-syncer-plaintext-size", pretty (chunk_len c : Z))]) ++ out |}).
Proof.
  intros Hp Hse Hseen Hget Hpath Hfp Ha Hsec Hlen Hpre Hreads Hfree.
  set (folder := config.(cfg_folder_path)) in *. set (profile := config.(cfg_profile)) in *.
  destruct (export_find io folder profile i v document (d ++ [n]) p Hse Hp) as (db' & manifest & Hexp & Hfind & _).
  destruct (Hfind c m Hseen) as (r & Hfa & Hsz & Hh).
  pose proof (seen_target _ _ _ _ p c m Hp Hseen) as Ht.
  destruct (respond_run io folder p d n Hp secret_hex secret (with_db db' v) c m) as (out & Hct & Hrun); try done.
  { apply (sb_size _ _ (se_scan _ _ _ _ _ _ Hse) _ _ _ Hseen). }
  { destruct Hseen as (d' & n' & E & Hw & _). apply app_inj_tail in E as [<- _].
    exact (walked_dir _ _ d (se_scan _ _ _ _ _ _ Hse) Hw). }
  exists out, db'. split; [done|]. etransitivity; [|exact Hrun].
  rewrite !M_bind_eq. unfold route_request. cbv zeta. rewrite Hget.
  rewrite !(bool_decide_eq_false_2 (_ ∧ _)); [|by intros [_ E]; rewrite E in Hpath|by intros [? _]|
    by intros [_ E]; rewrite E in Hpath].
  rewrite bool_decide_eq_true_2 by done. rewrite Hpath. cbn [andb].
  erewrite bind_Ok by (by apply verify_Ok). rewrite Hfp, bind_lift_Ok.
  erewrite bind_Ok.
  2: { unfold shared_file. erewrite bind_Ok by exact Hexp. rewrite Hfa, bind_lift_Ok.
       cbn [file_record fr_content_hash fr_size_bytes fst snd]. rewrite Hh. cbn [ok_or]. rewrite bind_lift_Ok, Hsz. done. }
  done.
Qed.

(** ** Properties *)

(** C17. A deletion removes what the peer saw and nothing else: the file must be in the
    folder with the announced size and hash, and then it is gone with its row; a file
    that differs is a conflict and stays; a path with no file is not found. *)
Theorem deletion_guarded
    `{TL : !TimeLib, SL : !SqlxLib, UL : !UuidLib, SJ : !SerdeJson (list BlockHash), BL : !Blake3Lib,
      IL : !IoLib, RD : !ReadDir, RW : !ReadDirLaws, FJ : !SerdeJson FolderDocument}
    io folder profile i v document names p size hash :
  servable io folder profile i v document → canonical names p →
  let seen := seen_file v.(sv_fs) (scanner_new folder profile.(lp_device_id)) names in
  let run := delete_shared_file io folder profile p size hash v in
  (∀ c m, seen c m → size = chunk_len c → hash = blake3_hex c → ∃ db',
     run = (Ok {| df_accepted := true; df_path := p; df_size_bytes := size; df_content_hash := hash |},
            with_db db' (with_fs (delete (components (path_push folder (rel_str p))) v.(sv_fs)) v))
     ∧ db'.(db_files) !! rel_str p = None)
  ∧ (∀ c m, seen c m → ¬ (size = chunk_len c ∧ hash = blake3_hex c) → ∃ db',
     run = (Err TargetConflict, with_db db' v))
  ∧ ((∀ c m, ¬ seen c m) → ∃ db', run = (Err NotFound, with_db db' v)).
Proof.
  intros Hse Hp seen run.
  destruct (export_find io folder profile i v document names p Hse Hp) as (db' & manifest & Hexp & Hfind & Hno).
  assert (run = (file ← lift (find_available manifest p);
    if negb (file.(fr_size_bytes) =? size) || negb (bool_decide (file.(fr_content_hash) = Some hash))
    then throw TargetConflict
    else _ ← fs_at (path_push folder (rel_str p)) (remove_file (path_push folder (rel_str p)));
         _ ← on_db (forget_file p);
         mret {| df_accepted := true; df_path := p; df_size_bytes := size; df_content_hash := hash |})
    (with_db db' v)) as ->.
  { unfold run, delete_shared_file. by erewrite bind_Ok by exact Hexp. }
  split_and!.
  - intros c m Hs -> ->. destruct (Hfind c m Hs) as (r & -> & Hsz & Hh). rewrite bind_lift_Ok.
    cbn [file_record fr_content_hash fr_size_bytes fst snd]. rewrite Hsz, Hh, Z.eqb_refl, bool_decide_eq_true_2 by done.
    cbn [negb orb].
    erewrite bind_Ok; [|apply fs_at_run; cbn [with_db sv_fs]; eapply remove_file_run, seen_target; done].
    erewrite bind_Ok; [|apply on_db_run; reflexivity].
    eexists. split; [reflexivity|]. apply lookup_delete_eq.
  - intros c m Hs Hd. exists db'. destruct (Hfind c m Hs) as (r & -> & Hsz & Hh). rewrite bind_lift_Ok.
    cbn [file_record fr_content_hash fr_size_bytes fst snd]. rewrite Hsz, Hh.
    destruct (Z.eqb_spec (chunk_len c) size) as [E|]; [|done]. rewrite bool_decide_eq_false_2; [done|].
    intros [= E']. apply Hd. by split.
  - intros Hn. exists db'. by rewrite Hno.
Qed.
