(* ===== verification/PeerClient.v ===== *)
(** * [crates/syncer-agent/src/peer_client.rs]: the requests of a peer

    A call connects, writes its request and reads the response: the connection is the
    [Stream] of PeerRequest.v, [cl_sent] what was written to it.  Whether a connection
    is made, the clock, the new identifier and the random nonce are the fields of
    [ClientInputs]; a write to a connection that was made does not fail. *)

From S2P Require Import Prelude RustStd External Error Manifest Model Records StateDb FileSys FolderStore PathCodec RequestSigning PeerCrypto PeerStore HttpText PeerRequest PeerServer.
From stdpp Require Import options pretty.
Local Open Scope Z_scope.

Definition RESPONSE_LIMIT_BYTES : Z := 4 * 1024 * 1024.
Definition RESPONSE_HEADER_LIMIT_BYTES : Z := 16 * 1024.

Inductive PeerClientError :=
| UnsupportedEndpoint
| ClientIo (message : string)
| ClientJson (message : string)
| InvalidResponse
| HttpStatus (status : Z)
| UnexpectedContentLength (expected actual : Z)
| PlaintextHashMismatch
| ClientPeerCrypto (e : PeerCryptoError)
| ClientSigning (e : SigningError).

Record ClientInputs := {
  ci_fs_now : Z;
  ci_now : OffsetDateTime;
  ci_file_id : Uuid;
  ci_nonce_prefix : list ascii;
  ci_connect : string → Z → result string unit;
}.

(** [PeerRequest] without its response limit, which is a constant. *)
Record PeerRequest := {
  rq_method : string;
  rq_endpoint : string;
  rq_path : string;
  rq_device_id : string;
  rq_shared_secret_hex : string;
  rq_body : list ascii;
  rq_extra_headers : list (string * string);
}.

Record ClientUploadResponse := {
  cu_accepted : bool;
  cu_path : RelativePath;
  cu_size_bytes : Z;
  cu_content_hash : string;
}.
Record ClientDeleteResponse := {
  cd_accepted : bool;
  cd_path : RelativePath;
  cd_size_bytes : Z;
  cd_content_hash : string;
}.
Record TransferredFile := { tf_size_bytes : Z; tf_content_hash : string }.
Record ResponseHead := {
  rh_status : Z;
  rh_content_length : Z;
  rh_headers : gmap string string;
}.
Record PeerAddress := { pa_host : string; pa_port : Z }.

(** ** The connection *)

Record Client := { cl_stream : Stream; cl_sent : list ascii; cl_fs : FS }.
Abbreviation CL := (M Client PeerClientError).

Definition with_cl_stream (s : Stream) (c : Client) : Client :=
  {| cl_stream := s; cl_sent := c.(cl_sent); cl_fs := c.(cl_fs) |}.
Definition with_cl_fs (fs : FS) (c : Client) : Client :=
  {| cl_stream := c.(cl_stream); cl_sent := c.(cl_sent); cl_fs := fs |}.
Definition on_cl_stream {A} (m : M Stream PeerClientError A) : CL A :=
  zoom cl_stream with_cl_stream id m.
Definition on_cl_fs {E A} (f : E → PeerClientError) (m : M FS E A) : CL A :=
  zoom cl_fs with_cl_fs f m.
Definition cl_send (bs : list ascii) : CL unit := modify (λ c,
  {| cl_stream := c.(cl_stream); cl_sent := c.(cl_sent) ++ bs; cl_fs := c.(cl_fs) |}).

Definition io_timed_out : string := "Resource temporarily unavailable (os error 11)".
Definition io_unexpected_eof : string := "failed to fill whole buffer".

(** [stream.read(&mut buffer)] under a read timeout. *)
Definition client_read (limit : nat) : M Stream PeerClientError (list ascii) :=
  read_bytes (ClientIo io_timed_out) ClientIo limit.

(** [stream.take(limit).read_to_end(&mut response)]. *)
Fixpoint read_to_end (limit : Z) (s : Stream) : result PeerClientError (list ascii) * Stream :=
  if limit <=? 0 then (Ok [], s) else
  match s with
  | [] => (Ok [], [])
  | Silence :: s => (Err (ClientIo io_timed_out), s)
  | Broken message :: s => (Err (ClientIo message), s)
  | Segment [] :: s => (Ok [], s)
  | Segment bs :: s =>
      if limit <? Z.of_nat (length bs)
      then (Ok (take (Z.to_nat limit) bs), Segment (drop (Z.to_nat limit) bs) :: s)
      else match read_to_end (limit - Z.of_nat (length bs)) s with
           | (Ok rest, s) => (Ok (bs ++ rest), s)
           | r => r
           end
  end.

(** ** Endpoints and responses *)

(** [str::strip_prefix]. *)
Definition strip_prefix_str (p s : string) : option string :=
  of_bytes <$> strip_prefix_l (bytes p) (bytes s).

(** [PeerAddress::parse]. *)
Definition parse_address (endpoint : string) : result PeerClientError PeerAddress :=
  endpoint ← ok_or UnsupportedEndpoint (strip_prefix_str "http://" endpoint);
  hp ← ok_or UnsupportedEndpoint (rsplit_once colon endpoint);
  port ← ok_or UnsupportedEndpoint (parse_u16 hp.2);
  if bool_decide (hp.1 = "") then Err UnsupportedEndpoint
  else Ok {| pa_host := hp.1; pa_port := port |}.

(** The status of a status line. *)
Definition parse_status (status_line : string) : result PeerClientError Z :=
  word ← ok_or InvalidResponse (head (tail (split_whitespace status_line)));
  ok_or InvalidResponse (parse_u16 word).

Definition parse_json_response {R} `{!SerdeJson R} (response : list ascii) : result PeerClientError R :=
  header_end ← ok_or InvalidResponse (find_header_end response);
  text ← ok_or InvalidResponse (from_utf8 (take header_end response));
  status_line ← ok_or InvalidResponse (head (lines text));
  status ← parse_status status_line;
  let body := drop (header_end + 4) response in
  if negb (status =? 200) then Err (HttpStatus status)
  else map_err ClientJson (from_json body).

(** The loop of [read_response_head]: [read_exact] of one byte after another. *)
Fixpoint read_head_bytes (fuel : nat) (bs : list ascii) : M Stream PeerClientError (list ascii) :=
  match fuel with
  | O => throw (ClientIo io_unexpected_eof)
  | S fuel =>
      byte ← client_read 1;
      if bool_decide (byte = []) then throw (ClientIo io_unexpected_eof)
      else
        let bs := bs ++ byte in
        if RESPONSE_HEADER_LIMIT_BYTES <? Z.of_nat (length bs) then throw InvalidResponse
        else if bool_decide (header_separator `suffix_of` bs) then mret bs
        else read_head_bytes fuel bs
  end.

Definition parse_response_head (bs : list ascii) : result PeerClientError ResponseHead :=
  header_end ← ok_or InvalidResponse (find_header_end bs);
  header ← ok_or InvalidResponse (from_utf8 (take header_end bs));
  status_line ← ok_or InvalidResponse (head (lines header));
  status ← parse_status status_line;
  let headers := client_parse_headers header in
  content_length ← ok_or InvalidResponse (headers !! "content-length");
  content_length ← ok_or InvalidResponse (parse_u64 content_length);
  Ok {| rh_status := status; rh_content_length := content_length; rh_headers := headers |}.

Definition read_response_head : M Stream PeerClientError ResponseHead :=
  s ← get_st;
  bs ← read_head_bytes (S (stream_size s)) [];
  lift (parse_response_head bs).

(** ** Requests *)

Section client.
Context `{!UuidLib, !HexLib, !Sha256Lib, !HmacLib, !Blake3Lib, !IoLib, !AeadLib, !KdfLib, !ReadLib,
          !SerdeJson unit, !SerdeJson PeerPresence, !SerdeJson PresenceResponse, !SerdeJson FolderManifest,
          !SerdeJson ClientUploadResponse, !SerdeJson ClientDeleteResponse}.

(** The loop of [copy_exact] over the stream; every buffer is written as it is read. *)
Fixpoint copy_exact (fs_now : Z) (fuel : nat) (output : string) (remaining : Z) : CL unit :=
  if 0 <? remaining then
    match fuel with
    | O => throw InvalidResponse
    | S fuel =>
        read ← on_cl_stream (client_read (Z.to_nat (Z.min remaining (64 * 1024))));
        if bool_decide (read = []) then throw InvalidResponse
        else
          _ ← on_cl_fs ClientIo (append fs_now output read);
          copy_exact fs_now fuel output (u64_saturating_sub remaining (Z.of_nat (length read)))
    end
  else mret tt.

Definition encrypted_upload_path (path : string) (id : Uuid) : string :=
  with_extension path ("syncer-upload-" +:+ uuid_to_string id +:+ ".enc").
Definition encrypted_download_path (path : string) (id : Uuid) : string :=
  with_extension path ("syncer-download-" +:+ uuid_to_string id +:+ ".enc").

Definition file_sha256_hex (path : string) : M FS string string :=
  fs ← get_st;
  content ← lift (fs_read fs path);
  mret (hex_encode (sha256 (mjoin (reads content)))).

Definition request_fields (host device_id signature : string) (timestamp content_length : Z)
    : list (string * string) :=
  [("host", host); ("x-syncer-device-id", device_id);
   ("x-syncer-timestamp", pretty (timestamp : Z)); ("x-syncer-signature", signature);
   ("content-type", "application/octet-stream");
   ("content-length", pretty (content_length : Z))].

Definition request_text (method path : string) (fields : list (string * string)) : string :=
  foldl (λ text nv, text +:+ header_line nv)
    (method +:+ " " +:+ path +:+ " HTTP/1.1" +:+ crlf) fields
  +:+ "connection: close" +:+ crlf +:+ crlf.

Definition signed_request_header (io : ClientInputs) (request : PeerRequest)
    : result PeerClientError string :=
  address ← parse_address request.(rq_endpoint);
  let timestamp := unix_timestamp io.(ci_now) in
  signature ← map_err ClientSigning (sign_request request.(rq_method) request.(rq_path)
                request.(rq_device_id) timestamp request.(rq_body) request.(rq_shared_secret_hex));
  Ok (request_text request.(rq_method) request.(rq_path)
        (request_fields address.(pa_host) request.(rq_device_id) signature timestamp
           (Z.of_nat (length request.(rq_body))) ++ request.(rq_extra_headers))).

(** [TcpStream::connect]. *)
Definition connect (io : ClientInputs) (address : PeerAddress) : CL unit :=
  lift (map_err ClientIo (io.(ci_connect) address.(pa_host) address.(pa_port))).

Definition request_bytes (io : ClientInputs) (request : PeerRequest) : CL (list ascii) :=
  address ← lift (parse_address request.(rq_endpoint));
  serialized_request ← lift (signed_request_header io request);
  _ ← connect io address;
  _ ← cl_send (bytes serialized_request);
  _ ← cl_send request.(rq_body);
  on_cl_stream (read_to_end RESPONSE_LIMIT_BYTES).

Definition request_json {T R} `{!SerdeJson T, !SerdeJson R} (io : ClientInputs)
    (method endpoint path device_id shared_secret_hex : string) (body : option T)
    (extra_headers : list (string * string)) : CL R :=
  body ← lift (match body with
               | Some value => map_err ClientJson (to_json value)
               | None => Ok []
               end);
  response ← request_bytes io {| rq_method := method; rq_endpoint := endpoint; rq_path := path;
    rq_device_id := device_id; rq_shared_secret_hex := shared_secret_hex; rq_body := body;
    rq_extra_headers := extra_headers |};
  lift (parse_json_response response).

Definition post_presence (io : ClientInputs) (endpoint device_id shared_secret_hex : string)
    (presence : PeerPresence) : CL PresenceResponse :=
  request_json io "POST" endpoint "/presence" device_id shared_secret_hex (Some presence) [].

Definition fetch_manifest (io : ClientInputs) (endpoint device_id shared_secret_hex : string)
    : CL FolderManifest :=
  request_json (T := unit) io "GET" endpoint "/manifest" device_id shared_secret_hex None [].

Definition delete_file (io : ClientInputs) (endpoint device_id shared_secret_hex : string)
    (path : RelativePath) (content_hash : string) (size_bytes : Z) : CL ClientDeleteResponse :=
  request_json (T := unit) io "DELETE" endpoint ("/file/" +:+ encode_relative_path path)
    device_id shared_secret_hex None
    [("x-syncer-content-hash", content_hash); ("x-syncer-file-size", pretty (size_bytes : Z))].

(** What is left of the response of a download, once its head was read. *)
Definition receive_file (io : ClientInputs) (shared_secret_hex : string) (path : RelativePath)
    (size_bytes : Z) (destination : string) (head : ResponseHead) : CL TransferredFile :=
  if negb (head.(rh_status) =? 200) then throw (HttpStatus head.(rh_status))
  else
    encryption ← lift (ok_or InvalidResponse (head.(rh_headers) !! "x-syncer-encryption"));
    if negb (bool_decide (encryption = ENCRYPTION_ALGORITHM)) then throw InvalidResponse
    else
      nonce ← lift (ok_or InvalidResponse (head.(rh_headers) !! "x-syncer-nonce"));
      content_hash ← lift (ok_or InvalidResponse (head.(rh_headers) !! "x-syncer-content-hash"));
      let expected_ciphertext_size := encrypted_len size_bytes in
      if negb (head.(rh_content_length) =? expected_ciphertext_size)
      then throw (UnexpectedContentLength expected_ciphertext_size head.(rh_content_length))
      else
        let encrypted := encrypted_download_path destination io.(ci_file_id) in
        _ ← on_cl_fs ClientIo (fs_write io.(ci_fs_now) encrypted []);
        s ← get_st;
        _ ← copy_exact io.(ci_fs_now) (S (stream_size s.(cl_stream))) encrypted head.(rh_content_length);
        decrypted ← on_cl_fs ClientPeerCrypto (decrypt_file_to_path io.(ci_fs_now) encrypted destination
          shared_secret_hex nonce
          {| cc_direction := "download"; cc_path := path; cc_content_hash := content_hash;
             cc_plaintext_size := size_bytes |});
        _ ← modify (λ c, with_cl_fs (remove_file encrypted c.(cl_fs)).2 c);
        mret {| tf_size_bytes := decrypted.(cf_size_bytes);
                tf_content_hash := decrypted.(cf_content_hash) |}.

Definition fetch_file_to_path (io : ClientInputs) (endpoint device_id shared_secret_hex : string)
    (path : RelativePath) (size_bytes : Z) (destination : string) : CL TransferredFile :=
  let request_path := "/file/" +:+ encode_relative_path path in
  address ← lift (parse_address endpoint);
  request ← lift (signed_request_header io
    {| rq_method := "GET"; rq_endpoint := endpoint; rq_path := request_path;
       rq_device_id := device_id; rq_shared_secret_hex := shared_secret_hex; rq_body := [];
       rq_extra_headers := [] |});
  _ ← connect io address;
  _ ← cl_send (bytes request);
  head ← on_cl_stream read_response_head;
  receive_file io shared_secret_hex path size_bytes destination head.

Definition put_file_from_path (io : ClientInputs) (endpoint device_id shared_secret_hex : string)
    (path : RelativePath) (content_hash file_path : string) (size_bytes : Z) : CL ClientUploadResponse :=
  let request_path := "/file/" +:+ encode_relative_path path in
  let encrypted := encrypted_upload_path file_path io.(ci_file_id) in
  let remove_encrypted : CL unit := modify (λ c, with_cl_fs (remove_file encrypted c.(cl_fs)).2 c) in
  encrypted_file ← on_cl_fs ClientPeerCrypto (encrypt_file_to_path io.(ci_fs_now) io.(ci_nonce_prefix)
    file_path encrypted shared_secret_hex
    {| cc_direction := "upload"; cc_path := path; cc_content_hash := content_hash;
       cc_plaintext_size := size_bytes |});
  if negb (bool_decide (encrypted_file.(cf_content_hash) = content_hash))
  then _ ← remove_encrypted; throw PlaintextHashMismatch
  else
    body_sha256_hex ← on_cl_fs ClientIo (file_sha256_hex encrypted);
    let timestamp := unix_timestamp io.(ci_now) in
    signature ← lift (map_err ClientSigning (sign_request_with_body_hash_hex "PUT" request_path
      device_id timestamp body_sha256_hex shared_secret_hex));
    address ← lift (parse_address endpoint);
    let request := request_text "PUT" request_path
      (request_fields address.(pa_host) device_id signature timestamp encrypted_file.(cf_size_bytes)
       ++ [("x-syncer-content-hash", content_hash); ("x-syncer-file-size", pretty (size_bytes : Z));
           ("x-syncer-encryption", ENCRYPTION_ALGORITHM);
           ("x-syncer-nonce", encrypted_file.(cf_nonce_hex))]) in
    _ ← connect io address;
    _ ← cl_send (bytes request);
    c ← get_st;
    content ← lift (map_err ClientIo (fs_read c.(cl_fs) encrypted));
    _ ← cl_send content;
    _ ← remove_encrypted;
    response ← on_cl_stream (read_to_end RESPONSE_LIMIT_BYTES);
    lift (parse_json_response response).

End client.
