(* ===== verification/PeerClientSpec.v ===== *)
(** * The peer client: what it asks for is what it gets *)

From S2P Require Import Prelude RustStd External Error Manifest Limits Model Records Planning StateDb StateDbFacts StateDbSpec FileSys FolderStore Scanner ScannerSpec PathCodec RequestSigning PeerCrypto PeerStore HttpText PeerRequest PeerRequestSpec PeerServer PeerServerSpec PeerUploadSpec PeerSharedSpec PeerClient.
From stdpp Require Import options pretty.
Local Open Scope Z_scope.

(** ** Lemmas: the text of messages *)

Lemma fields_text text (fields : list (string * string)) :
  bytes (foldl (λ text nv, text +:+ header_line nv) text fields)
  = bytes text ++ mjoin ((λ nv, field_line nv ++ [cr; lf]) <$> fields).
Proof.
  revert text; induction fields as [|nv fields IH]; intros text; [by rewrite app_nil_r|].
  cbn [foldl]. rewrite IH. cbn [fmap list_fmap mjoin list_join].
  unfold header_line, crlf, field_line. rewrite !bytes_app, bytes_of_bytes, <-!app_assoc. done.
Qed.

Lemma join_crlf_lines first (fields : list (string * string)) :
  join_crlf (first :: (field_line <$> fields)) ++ [cr; lf]
  = first ++ [cr; lf] ++ mjoin ((λ nv, field_line nv ++ [cr; lf]) <$> fields).
Proof.
  revert first; induction fields as [|nv fields IH]; intros first; [by rewrite app_nil_r|].
  cbn [fmap list_fmap]. rewrite join_crlf_cons by done. cbn [mjoin list_join].
  rewrite <-app_assoc. cbn [app]. f_equal. do 2 f_equal. rewrite IH. by rewrite <-!app_assoc.
Qed.

(** What a message sends: its first line, its fields and [connection: close]. *)
Lemma head_of_text start first (fields : list (string * string)) :
  bytes start = first ++ [cr; lf] →
  bytes (foldl (λ text nv, text +:+ header_line nv) start fields +:+ "connection: close" +:+ crlf +:+ crlf)
  = join_crlf (first :: (field_line <$> fields ++ [("connection", "close")])) ++ header_separator.
Proof.
  intros Hs. rewrite !bytes_app, fields_text, Hs. unfold crlf. rewrite bytes_of_bytes.
  change header_separator with ([cr; lf] ++ [cr; lf]). rewrite (app_assoc (join_crlf _)), join_crlf_lines.
  rewrite fmap_app, join_app. cbn [fmap list_fmap mjoin list_join]. rewrite app_nil_r, <-!app_assoc. reflexivity.
Qed.

Lemma request_text_head method path fields :
  bytes (request_text method path fields) = message_head method path (fields ++ [("connection", "close")]).
Proof.
  unfold request_text. erewrite head_of_text; [reflexivity|].
  unfold crlf. rewrite !bytes_app, bytes_of_bytes, <-!app_assoc. f_equal.
  cbn [app]. rewrite <-!app_assoc. reflexivity.
Qed.

Definition status_line (status : Z) : list ascii :=
  bytes "HTTP/1.1 " ++ bytes (pretty status) ++ space :: bytes (reason_phrase status).
Definition response_fields (content_type : string) (content_length : Z) (extra : list (string * string))
    : list (string * string) :=
  [("content-type", content_type); ("content-length", pretty (content_length : Z))]
  ++ extra ++ [("connection", "close")].

Lemma response_header_head status content_type content_length extra :
  bytes (response_header status content_type content_length extra)
  = join_crlf (status_line status :: (field_line <$> response_fields content_type content_length extra))
    ++ header_separator.
Proof.
  unfold response_header. cbv zeta.
  set (start := "HTTP/1.1 " +:+ pretty status +:+ " " +:+ reason_phrase status +:+ crlf).
  assert (bytes (foldl (λ header nv, header +:+ header_line nv)
    ("HTTP/1.1 " +:+ pretty status +:+ " " +:+ reason_phrase status +:+ crlf
     +:+ "content-type: " +:+ content_type +:+ crlf +:+ "content-length: " +:+ pretty content_length +:+ crlf) extra)
    = bytes (foldl (λ header nv, header +:+ header_line nv) start
        ([("content-type", content_type); ("content-length", pretty content_length)] ++ extra))) as E.
  { rewrite !fields_text, fmap_app, join_app, app_assoc. f_equal. unfold start.
    cbn [fmap list_fmap mjoin list_join]. unfold field_line, crlf. cbn [fst snd].
    rewrite !bytes_app, bytes_of_bytes, app_nil_r, <-!app_assoc. reflexivity. }
  rewrite bytes_app, E, <-bytes_app.
  rewrite (head_of_text start (status_line status)).
  - by rewrite <-app_assoc.
  - unfold start, status_line, crlf. rewrite !bytes_app, bytes_of_bytes, <-!app_assoc. done.
Qed.

(** ** Lemmas: characters of a header *)

Lemma digit_token a : is_Some (digit_val a) → token_char a = true.
Proof.
  unfold digit_val, token_char, RustStd.between. intros [d Hd].
  destruct ((48 <=? byte_val a)%N && (byte_val a <=? 57)%N) eqn:E; [|done].
  apply andb_true_iff in E as [H1%N.leb_le H2%N.leb_le]. apply andb_true_iff. rewrite !N.leb_le. lia.
Qed.

Lemma pretty_token (z : Z) : 0 ≤ z → token (bytes (pretty z)) ∧ pretty z ≠ "".
Proof.
  intros Hz. rewrite pretty_nonneg by done. destruct (pretty_digits (Z.to_N z)) as [Hd Hne].
  split; [|done]. eapply Forall_impl; [exact Hd|]. intros a. apply digit_token.
Qed.

(** Signs and digits: the texts of [i64]. *)
Lemma pretty_Z_token (z : Z) : token (bytes (pretty z)).
Proof.
  destruct z as [|n|n]; [by apply pretty_token|by apply pretty_token|].
  change (bytes (pretty (Z.neg n))) with (Ascii.ascii_of_N 45 :: bytes (pretty (Z.pos n))).
  constructor; [done|]. by apply pretty_token.
Qed.

Lemma pretty_go_length k : ∀ n s, (n < 10 ^ N.of_nat k)%N →
  (length (bytes (pretty_N_go n s)) ≤ k + length (bytes s))%nat.
Proof.
  induction k as [|k IH]; intros n s Hn.
  { assert (n = 0%N) as -> by (simpl in Hn; lia). by rewrite pretty_N_go_0. }
  destruct (decide (n = 0%N)) as [->|Hz]; [rewrite pretty_N_go_0; lia|].
  rewrite pretty_N_go_step by lia. etransitivity; [apply IH|].
  - apply N.Div0.div_lt_upper_bound. by rewrite <-N.pow_succ_r', <-Nat2N.inj_succ.
  - change (bytes (String ?a ?s)) with (a :: bytes s). simpl. lia.
Qed.

Lemma pretty_u64_length (z : Z) : is_u64 z → (length (bytes (pretty z)) ≤ 20)%nat.
Proof.
  intros [H0 H1]. rewrite pretty_nonneg by done. unfold pretty, pretty_N. case_decide; [simpl; lia|].
  etransitivity; [apply (pretty_go_length 20)|simpl; lia].
  change (10 ^ N.of_nat 20)%N with 100000000000000000000%N. unfold u64_max in H1. lia.
Qed.

Lemma token_trim s : token (bytes s) → trim s = s.
Proof.
  intros Hs. unfold trim, trim_bytes. rewrite trim_start_id, trim_end_id, rev_involutive.
  - apply of_bytes_bytes.
  - apply token_no_ws_tail. by apply Forall_rev.
  - by apply token_no_ws_head.
Qed.

Lemma hex_token l : Forall (λ a, hex_char a = true) l → token l.
Proof.
  intros H. eapply Forall_impl; [exact H|]. intros a. unfold hex_char, token_char, RustStd.between.
  rewrite orb_true_iff, !andb_true_iff, !N.leb_le. lia.
Qed.

Lemma uuid_token `{UL : !UuidLib, UW : !UuidLaws} (u : Uuid) : token (bytes (uuid_to_string u)).
Proof.
  destruct (uuid_text u) as [_ Hu]. eapply Forall_impl; [exact Hu|].
  intros a. unfold uuid_char, token_char, RustStd.between. rewrite !orb_true_iff, !andb_true_iff, !N.leb_le.
  unfold is_byte. rewrite ?N.eqb_eq. lia.
Qed.

(** A field whose value is a token, and whose name is one of the program's. *)
Definition name_ok (n : string) : bool :=
  forallb token_char (bytes n) && forallb (λ a, negb (Ascii.eqb a colon)) (bytes n)
  && bool_decide (to_ascii_lowercase n = n).

Lemma field_of n v : name_ok n = true → plain (bytes v) → trim v = v → field_ok (n, v).
Proof.
  intros [[H1 H2]%andb_true_iff H3%bool_decide_eq_true]%andb_true_iff Hv Ht.
  rewrite forallb_forall in H1, H2. constructor; [| |done..].
  - apply Forall_forall. intros a Ha. by apply H1, list_elem_of_In.
  - intros Hc. specialize (H2 colon (proj1 (list_elem_of_In _ _) Hc)). by rewrite Ascii.eqb_refl in H2.
Qed.

Lemma token_field n v : name_ok n = true → token (bytes v) → field_ok (n, v).
Proof. intros Hn Hv. apply field_of; [done|by apply token_plain|by apply token_trim]. Qed.

(** ** Lemmas: reading a response *)

Lemma find_early x rest : ∃ k, find_header_end (x ++ header_separator ++ rest) = Some k ∧ (k ≤ length x)%nat.
Proof.
  induction x as [|a x [k [Hk Hl]]]; [by exists 0%nat|].
  change ((a :: x) ++ header_separator ++ rest) with (a :: (x ++ header_separator ++ rest)).
  rewrite find_cons. destruct (strip_prefix_l _ _); [by exists 0%nat; split; [|lia]|].
  rewrite Hk. exists (S k). split; [done|simpl; lia].
Qed.

(** Only the whole header ends in the separator. *)
Lemma separator_at_end head n q r : find_header_end head = Some n → length head = (n + 4)%nat →
  head = q ++ r → header_separator `suffix_of` q → r = [].
Proof.
  intros Hf Hl -> [x ->]. destruct (find_early x r) as (k & Hk & Hkl).
  rewrite <-app_assoc, Hk in Hf. injection Hf as ->. rewrite !length_app in Hl.
  apply nil_length_inv. change (length header_separator) with 4%nat in Hl. lia.
Qed.

Lemma read_head_bytes_run head n fuel : ∀ bs left segs rest,
  find_header_end head = Some n → length head = (n + 4)%nat → Z.of_nat (length head) ≤ RESPONSE_HEADER_LIMIT_BYTES →
  head = bs ++ left → left ≠ [] → filled segs → mjoin segs = left ++ rest →
  (stream_size (arrives segs) < fuel)%nat →
  ∃ segs', read_head_bytes fuel bs (arrives segs) = (Ok head, arrives segs')
  ∧ filled segs' ∧ mjoin segs' = rest.
Proof.
  induction fuel as [|fuel IH]; intros bs left segs rest Hf Hl Hmax Hh Hne Hfill Hj Hfuel; [lia|].
  assert (segs ≠ []) as Hs by (intros ->; symmetry in Hj; by apply app_nil in Hj as [-> _]).
  destruct (read_bytes_some (ClientIo io_timed_out) ClientIo 1 segs) as (chunk & segs' & Hrun & Hc & Hc1 & Hj' & Hfill' & Hsz);
    [lia|done|done|].
  cbn [read_head_bytes]. unfold client_read. rewrite M_bind_eq, Hrun, bool_decide_eq_false_2 by done. cbv zeta.
  destruct chunk as [|a [|]]; [done| |simpl in Hc1; lia].
  destruct left as [|b left]; [done|]. rewrite Hj in Hj'. injection Hj' as <- Hj'.
  rewrite (proj2 (Z.ltb_ge _ _)).
  2: { rewrite Hh in Hmax. rewrite !length_app in *. simpl in *. lia. }
  destruct (decide (left = [])) as [->|Hleft].
  - rewrite bool_decide_eq_true_2.
    + exists segs'. by rewrite Hh.
    + rewrite <-Hh. pose proof Hf as Hf'. apply find_bound in Hf.
      assert (∀ b n, find_header_end b = Some n → ∃ r, drop n b = header_separator ++ r) as Hat.
      { clear. induction b as [|a b IH]; intros n; [done|]. rewrite find_cons.
        destruct (strip_prefix_l header_separator (a :: b)) as [r|] eqn:E.
        - intros [= <-]. apply strip_prefix_Some in E. by exists r.
        - destruct (find_header_end b) as [k|]; [|done]. intros [= <-]. by apply IH. }
      destruct (Hat _ _ Hf') as [r Hr]. exists (take n head).
      assert (r = []) as ->.
      { apply (f_equal length) in Hr. rewrite length_drop, length_app in Hr. simpl in Hr.
        apply nil_length_inv. lia. }
      rewrite app_nil_r in Hr. by rewrite <-Hr, take_drop.
  - rewrite bool_decide_eq_false_2.
    + eapply (IH _ left); try done; [by rewrite <-app_assoc|lia].
    + intros Hsuf. apply Hleft. eapply separator_at_end; [exact Hf|exact Hl| |exact Hsuf].
      by rewrite <-app_assoc.
Qed.

(** The fields of a response, as the client looks them up. *)
Definition fields_map (fields : list (string * string)) : gmap string string := list_to_map fields.

Lemma client_headers first fields : head_ok (first :: (field_line <$> fields)) →
  Forall field_ok fields → NoDup fields.*1 →
  client_parse_headers (of_bytes (join_crlf (first :: (field_line <$> fields)))) = fields_map fields.
Proof.
  intros Hok Hf Hnd. unfold client_parse_headers. rewrite head_lines by done. cbn [fmap list_fmap tail].
  by apply message_fields.
Qed.

Definition status_ok (status : Z) : Prop := 0 ≤ status ≤ 65535.

Lemma reason_plain status : plain (bytes (reason_phrase status)).
Proof.
  unfold reason_phrase. repeat (destruct (_ =? _); [by repeat constructor|]). by repeat constructor.
Qed.

Lemma status_line_ok status : status_ok status → status_line status ≠ [] ∧ plain (status_line status).
Proof.
  intros [H0 _]. split; [done|]. unfold plain, status_line. rewrite !Forall_app. split_and!.
  - by repeat constructor.
  - apply token_plain. by apply pretty_token.
  - constructor; [done|apply reason_plain].
Qed.

Lemma parse_status_line status : status_ok status →
  parse_status (of_bytes (status_line status)) = Ok status.
Proof.
  intros [H0 H1]. unfold parse_status, split_whitespace, status_line.
  destruct (pretty_token status H0) as [Ht Hne]. rewrite bytes_of_bytes.
  change (bytes "HTTP/1.1 ") with (bytes "HTTP/1.1" ++ [space]). rewrite <-app_assoc.
  rewrite words_token by (by repeat constructor). cbn [app].
  rewrite words_space, words_token, words_space by done. cbn [app].
  assert (flush (bytes (pretty status)) = [bytes (pretty status)]) as ->
    by (by destruct (pretty status)).
  change (flush (bytes "HTTP/1.1")) with [bytes "HTTP/1.1"].
  cbn [app fmap list_fmap tail head ok_or mbind result_bind]. rewrite of_bytes_bytes.
  unfold parse_u16. rewrite pretty_nonneg, parse_unsigned_pretty by lia. by rewrite Z2N.id.
Qed.

(** The head of a response is read as what the server wrote. *)
Lemma response_head_read status content_type content_length extra segs rest :
  status_ok status → is_u64 content_length → plain (bytes content_type) → trim content_type = content_type →
  Forall field_ok extra →
  NoDup (response_fields content_type content_length extra).*1 →
  Z.of_nat (length (bytes (response_header status content_type content_length extra))) ≤ RESPONSE_HEADER_LIMIT_BYTES →
  filled segs → mjoin segs = bytes (response_header status content_type content_length extra) ++ rest →
  ∃ segs', read_response_head (arrives segs)
    = (Ok {| rh_status := status; rh_content_length := content_length;
             rh_headers := fields_map (response_fields content_type content_length extra) |}, arrives segs')
  ∧ filled segs' ∧ mjoin segs' = rest.
Proof.
  intros Hst Hcl Hct Htr Hex Hnd Hmax Hfill Hj.
  set (fields := response_fields content_type content_length extra) in *.
  assert (Forall field_ok fields) as Hf.
  { unfold fields, response_fields. cbn [app]. constructor; [by apply field_of|].
    constructor; [apply token_field; [done|by apply pretty_token; destruct Hcl]|].
    apply Forall_app. split; [done|]. constructor; [|done]. by apply token_field; [|repeat constructor]. }
  assert (head_ok (status_line status :: (field_line <$> fields))) as Hok.
  { split; [done|]. constructor; [by apply status_line_ok|by apply fields_ok]. }
  rewrite response_header_head in Hmax, Hj. fold fields in Hmax, Hj.
  set (ls := status_line status :: (field_line <$> fields)) in *.
  assert (length (join_crlf ls ++ header_separator) = length (join_crlf ls) + 4)%nat as Hlen
    by (by rewrite length_app).
  pose proof (head_find ls [] Hok) as Hfind. rewrite app_nil_r in Hfind.
  destruct (read_head_bytes_run (join_crlf ls ++ header_separator) (length (join_crlf ls))
    (S (stream_size (arrives segs))) [] (join_crlf ls ++ header_separator) segs rest)
    as (segs' & Hrun & Hfill' & Hj'); [done|done|done|done| |done|done|lia|].
  { intros E. apply (f_equal length) in E. rewrite Hlen in E. simpl in E. lia. }
  exists segs'. split; [|done]. unfold read_response_head, get_st. rewrite M_bind_eq.
  erewrite bind_Ok by exact Hrun. unfold lift. f_equal. unfold parse_response_head. rewrite Hfind.
  cbn [ok_or mbind result_bind]. rewrite take_app_length, head_text by done.
  cbn [ok_or mbind result_bind]. rewrite head_lines by done.
  change (head (of_bytes <$> ls)) with (Some (of_bytes (status_line status))). cbn [ok_or mbind result_bind].
  rewrite parse_status_line by done. cbn [mbind result_bind]. cbv zeta.
  assert (client_parse_headers (of_bytes (join_crlf ls)) = fields_map fields) as ->
    by (by apply client_headers).
  assert (fields_map fields !! "content-length" = Some (pretty content_length)) as E.
  { apply elem_of_list_to_map; [done|]. unfold fields, response_fields. cbn [app]. right. by left. }
  rewrite E. cbn [ok_or mbind result_bind]. rewrite parse_u64_pretty by done. done.
Qed.

(** ** Lemmas: the body of a response *)

Lemma on_cl_fs_run {E A} (f : E → PeerClientError) (m : M FS E A) c a fs' :
  m c.(cl_fs) = (Ok a, fs') → on_cl_fs f m c = (Ok a, with_cl_fs fs' c).
Proof. intros H. unfold on_cl_fs, zoom. by rewrite H. Qed.

Lemma on_cl_stream_run {A} (m : M Stream PeerClientError A) c a s' :
  m c.(cl_stream) = (Ok a, s') → on_cl_stream m c = (Ok a, with_cl_stream s' c).
Proof. intros H. unfold on_cl_stream, zoom. by rewrite H. Qed.

Section files.
Context `{IL : !IoLib}.

Lemma copy_exact_run fs_now output fuel : ∀ segs out got c,
  filled segs → mjoin segs = out → holds output got c.(cl_fs) → Z.of_nat (length out) ≤ u64_max →
  (stream_size (arrives segs) < fuel)%nat →
  ∃ fs', copy_exact fs_now fuel output (Z.of_nat (length out)) (with_cl_stream (arrives segs) c)
    = (Ok tt, with_cl_fs fs' (with_cl_stream [] c))
  ∧ holds output (got ++ out) fs' ∧ ∀ k, k ≠ components output → fs' !! k = c.(cl_fs) !! k.
Proof using Type.
  induction fuel as [|fuel IH]; intros segs out got c Hf Hj Hh Hmax Hfuel; [lia|].
  destruct (decide (segs = [])) as [->|Hne].
  { change (mjoin []) with (@nil ascii) in Hj. subst out. exists c.(cl_fs).
    split_and!; [by destruct c|by rewrite app_nil_r|done]. }
  pose proof (filled_length segs Hf Hne) as Hpos. rewrite Hj in Hpos. cbn [copy_exact].
  rewrite (proj2 (Z.ltb_lt _ _)) by lia.
  destruct (read_bytes_some (ClientIo io_timed_out) ClientIo (Z.to_nat (Z.min (Z.of_nat (length out)) (64 * 1024)))
    segs) as (chunk & segs' & Hrun & Hc & _ & Hj' & Hf' & Hsz); [lia|done|done|].
  erewrite bind_Ok; [|exact (on_cl_stream_run _ (with_cl_stream (arrives segs) c) _ _ Hrun)].
  rewrite bool_decide_eq_false_2 by done.
  destruct (append_run (E := string) fs_now output got chunk c.(cl_fs) Hh) as (fs1 & Hrun1 & Hh1 & Hk1).
  erewrite bind_Ok; [|exact (on_cl_fs_run ClientIo _ (with_cl_stream (arrives segs') c) _ _ Hrun1)].
  rewrite Hj in Hj'. subst out. rewrite Hj'.
  assert (u64_saturating_sub (Z.of_nat (length (chunk ++ mjoin segs'))) (Z.of_nat (length chunk))
    = Z.of_nat (length (mjoin segs'))) as ->.
  { rewrite Hj', length_app in *. unfold u64_saturating_sub. lia. }
  destruct (IH segs' (mjoin segs') (got ++ chunk) (with_cl_fs fs1 c)) as (fs2 & Hrun2 & Hh2 & Hk2);
    [done|done|done| |lia|].
  { rewrite Hj', length_app in Hmax. lia. }
  exists fs2. split_and!.
  - exact Hrun2.
  - by rewrite app_assoc.
  - intros k Hk. rewrite Hk2 by done. by apply Hk1.
Qed.
End files.
