(* ===== verification/PeerExchangeSpec.v ===== *)
(** * Client and server together: a signed request from one end to the other

    The two programs run against each other: what one writes arrives at the other,
    cut into segments in any way. *)

From S2P Require Import Prelude RustStd External Error Manifest Limits Model Records Planning StateDb StateDbFacts StateDbSpec FileSys FolderStore Scanner ScannerSpec PathCodec RequestSigning PeerCrypto PeerStore HttpText PeerRequest PeerRequestSpec PeerServer PeerServerSpec PeerUploadSpec PeerSharedSpec PeerClient PeerClientSpec.
From stdpp Require Import options pretty.
Local Open Scope Z_scope.

(** ** Request targets *)

Definition file_target (p : RelativePath) : string := "/file/" +:+ encode_relative_path p.

Lemma strip_prefix_self p l : strip_prefix_l p (p ++ l) = Some l.
Proof. induction p as [|a p IH]; [done|]. simpl. by rewrite Ascii.eqb_refl. Qed.

Lemma target_prefix p : starts_with (file_target p) "/file/" = true.
Proof. unfold starts_with, file_target. by rewrite bytes_app, strip_prefix_self. Qed.

Lemma encoded_head names p : canonical names p →
  ∃ a r, bytes (encode_relative_path p) = a :: r ∧ a ≠ slash.
Proof.
  intros (Hne & Hv & _ & Hp). unfold encode_relative_path. rewrite bytes_of_bytes, Hp.
  destruct names as [|n names]; [done|]. apply Forall_cons in Hv as [(Hn & _ & _ & Hs) _].
  assert (∃ a r, bytes (join_with slash (n :: names)) = a :: r ∧ a ≠ slash) as (a & r & -> & Ha).
  { unfold join_with. rewrite bytes_of_bytes. cbn [fmap list_fmap].
    destruct (bytes n) as [|a b] eqn:E; [by apply bytes_nil in E|]. rewrite join_bytes_cons_head.
    eexists _, _. split; [done|]. apply not_elem_of_cons in Hs as [Hs _]. congruence. }
  change (mjoin (encode_byte <$> a :: r)) with (encode_byte a ++ mjoin (encode_byte <$> r)).
  unfold encode_byte at 1. destruct (unreserved a); [by eexists _, _|]. by eexists _, _.
Qed.

Lemma target_decodes names p request : canonical names p → utf8_valid (rel_str p) = true →
  relative_path_parse (rel_str p) = Ok p → request.(hr_path) = file_target p →
  file_path_of request = Ok p.
Proof.
  intros Hc Hu Hp Hr. unfold file_path_of. rewrite Hr. unfold trim_start_matches, file_target. rewrite bytes_app.
  destruct (encoded_head names p Hc) as (a & r & E & Ha).
  assert (trim_start_matches_fuel (length (bytes "/file/" ++ bytes (encode_relative_path p))) (bytes "/file/")
    (bytes "/file/" ++ bytes (encode_relative_path p)) = bytes (encode_relative_path p)) as ->.
  { rewrite length_app. change (length (bytes "/file/")) with 6%nat.
    change (6 + ?n)%nat with (S (5 + n)). cbn [trim_start_matches_fuel]. rewrite strip_prefix_self, E.
    rewrite Nat.add_comm. cbn [length Nat.add trim_start_matches_fuel strip_prefix_l bytes String.list_ascii_of_string].
    change (Ascii.eqb _ a) with (Ascii.eqb slash a). by rewrite eqb_false. }
  rewrite of_bytes_bytes, decode_encode, Hp by done. done.
Qed.

Lemma safe_token a : request_safe a = true → token_char a = true ∧ a ≠ question.
Proof.
  intros H. assert (negb (request_safe a) || (token_char a && negb (Ascii.eqb a question)) = true) as Hb.
  { clear H. revert a. by apply every_byte; vm_compute. }
  rewrite H in Hb. apply andb_true_iff in Hb as [? Hq]. split; [done|]. intros ->. by rewrite Ascii.eqb_refl in Hq.
Qed.

(** A target that can stand in a request line. *)
Definition target_ok (target : string) : Prop :=
  token (bytes target) ∧ target ≠ "" ∧ question ∉ bytes target.

Lemma target_token p : target_ok (file_target p).
Proof.
  pose proof (encode_safe p) as Hs. unfold target_ok, file_target. rewrite bytes_app. split_and!.
  - apply Forall_app. split; [by repeat constructor|]. eapply Forall_impl; [exact Hs|]. by intros a [? ?]%safe_token.
  - done.
  - rewrite not_elem_of_app. split; [by apply (bool_decide_eq_true_1 _)|].
    intros Hin. rewrite Forall_forall in Hs. by destruct (safe_token _ (Hs _ Hin)).
Qed.

(** ** Signed requests *)

Section signed.
Context `{UL : !UuidLib, UW : !UuidLaws, HL : !HexLib, HW : !HexLaws, SH : !Sha256Lib, HM : !HmacLib,
          IL : !IoLib, PJ : !SerdeJson PeerStoreDocument}.

(** A device that the server trusts under the secret, with a clock within five minutes. *)
Record trusted (now client_now : OffsetDateTime) (fs : FS) (peers_path : string) (id : Uuid)
    (secret_hex : string) : Prop := {
  tr_id : (id < 2 ^ 128)%N;
  tr_time : is_i64 (unix_timestamp client_now);
  tr_clock : Z.abs (unix_timestamp now - unix_timestamp client_now) ≤ 300;
  tr_peer : ∃ document fs' peer, read_or_default peers_path fs = (Ok document, fs')
            ∧ trusted_peer document id = Some peer ∧ peer.(tp_shared_secret_hex) = secret_hex;
}.

(** The host of an endpoint, as it is sent. *)
Definition host_ok (host : string) : Prop := plain (bytes host) ∧ trim host = host.

(** The fields of a request, with the last one. *)
Definition sent_fields (host : string) (id : Uuid) (signature : string) (t content_length : Z)
    (extra : list (string * string)) : list (string * string) :=
  request_fields host (uuid_to_string id) signature t content_length ++ extra ++ [("connection", "close")].

Definition own_names : list string :=
  ["host"; "x-syncer-device-id"; "x-syncer-timestamp"; "x-syncer-signature"; "content-type";
   "content-length"; "connection"].

Lemma sent_names host id signature t content_length extra :
  NoDup extra.*1 → Forall (λ n, n ∉ own_names) extra.*1 →
  NoDup (sent_fields host id signature t content_length extra).*1.
Proof.
  intros Hnd Hx. unfold sent_fields. rewrite !fmap_app.
  assert (∀ n, n ∈ extra.*1 → n ∉ own_names) as Hx' by (by apply Forall_forall).
  apply NoDup_app. split_and!.
  - apply (bool_decide_eq_true_1 (NoDup _)). by vm_compute.
  - intros n Hn [He|He]%elem_of_app; revert Hn; cbn [request_fields fmap list_fmap fst].
    + specialize (Hx' n He). unfold own_names in Hx'. rewrite !elem_of_cons in *. tauto.
    + apply list_elem_of_singleton in He as ->. by apply (bool_decide_eq_true_1 (_ ∉ _)); vm_compute.
  - apply NoDup_app. split_and!; [done| |by apply NoDup_singleton].
    intros n Hn ->%list_elem_of_singleton. apply (Hx' _ Hn). by apply (bool_decide_eq_true_1 _).
Qed.

Lemma sent_ok method target host id signature t content_length extra :
  target_ok target → token (bytes method) → method ≠ "" → host_ok host → token (bytes signature) → 0 ≤ content_length →
  Forall field_ok extra → NoDup extra.*1 → Forall (λ n, n ∉ own_names) extra.*1 →
  message_ok method target (sent_fields host id signature t content_length extra).
Proof using UW.
  intros (Hp1 & Hp2 & Hp3) Hm Hm0 [Hh Ht] Hs Hc He Hnd Hx.
  constructor; [done|done| |by apply sent_names].
  unfold sent_fields, request_fields. rewrite !Forall_app, !Forall_cons. split_and!; [by apply field_of|..].
  - apply token_field; [done|]. by apply uuid_token.
  - apply token_field; [done|]. apply pretty_Z_token.
  - by apply token_field.
  - by apply token_field; [|repeat constructor].
  - apply token_field; [done|]. by apply pretty_token.
  - constructor.
  - done.
  - by apply token_field; [|repeat constructor].
  - constructor.
Qed.

Lemma sent_lookup host id signature t content_length extra n v :
  NoDup extra.*1 → Forall (λ n, n ∉ own_names) extra.*1 →
  (n, v) ∈ sent_fields host id signature t content_length extra →
  (list_to_map (sent_fields host id signature t content_length extra) : gmap string string) !! n = Some v.
Proof. intros. apply elem_of_list_to_map; [by apply sent_names|done]. Qed.

(** A request with the fields of a signed one is let in. *)
Lemma sent_authenticated now client_now fs peers_path id secret_hex method target host content_length extra signature
    hash body :
  trusted now client_now fs peers_path id secret_hex →
  sign_request_with_body_hash_hex method target (uuid_to_string id) (unix_timestamp client_now)
    hash secret_hex = Ok signature →
  NoDup extra.*1 → Forall (λ n, n ∉ own_names) extra.*1 →
  authenticated now fs peers_path
    {| hr_method := method; hr_path := target;
       hr_headers := list_to_map (sent_fields host id signature (unix_timestamp client_now) content_length extra);
       hr_body_sha256_hex := hash; hr_body := body |} secret_hex.
Proof using UW HW.
  intros [Hid Htime Hclock (document & fs' & peer & Hdoc & Hpeer & <-)] Hsig Hnd Hx.
  eapply authenticated_intro; cbn [hr_headers hr_method hr_path hr_body_sha256_hex].
  - apply sent_lookup; [done|done|]. right. by left.
  - apply sent_lookup; [done|done|]. do 2 right. by left.
  - apply sent_lookup; [done|done|]. do 3 right. by left.
  - by apply uuid_parse_to_string.
  - by apply parse_i64_pretty.
  - done.
  - exact Hdoc.
  - exact Hpeer.
  - by apply signed_verifies.
Qed.
End signed.

(** ** Downloads *)

Section download.
Context `{UL : !UuidLib, UW : !UuidLaws, HL : !HexLib, HW : !HexLaws, BL : !Blake3Lib, IL : !IoLib,
          AL : !AeadLib, AW : !AeadLaws, KL : !KdfLib, RL : !ReadLib}.

Definition download_fields (prefix content : list ascii) : list (string * string) :=
  [("x-syncer-encryption", ENCRYPTION_ALGORITHM); ("x-syncer-nonce", hex_encode prefix);
   ("x-syncer-content-hash", blake3_hex content);
   ("x-syncer-plaintext-size", pretty (chunk_len content : Z))].

(** The hash in a header is a short token, as a BLAKE3 digest in hex is. *)
Definition hash_text (hash : string) : Prop :=
  token (bytes hash) ∧ (length (bytes hash) ≤ 64)%nat.

Lemma download_head_short prefix content out : hash_text (blake3_hex content) →
  length prefix = NONCE_PREFIX_BYTES → is_u64 (chunk_len content) → is_u64 (chunk_len out) →
  Z.of_nat (length (bytes (response_header 200 "application/octet-stream" (chunk_len out)
    (download_fields prefix content)))) ≤ RESPONSE_HEADER_LIMIT_BYTES.
Proof using HW.
  intros [_ Hh] Hp Hc Ho. apply pretty_u64_length in Hc, Ho.
  pose proof (hex_encode_length prefix) as Hx. rewrite Hp in Hx.
  unfold response_header, download_fields, header_line, crlf. cbv zeta. cbn [foldl fst snd].
  rewrite !bytes_app, !bytes_of_bytes, !length_app, Hx.
  generalize dependent (length (bytes (pretty (chunk_len out)))).
  generalize dependent (length (bytes (pretty (chunk_len content)))).
  generalize dependent (length (bytes (blake3_hex content))). intros a Ha b Hb c Hc.
  change (bytes (pretty 200)) with (bytes "200"). change (reason_phrase 200) with "OK".
  unfold RESPONSE_HEADER_LIMIT_BYTES. cbn [length bytes String.list_ascii_of_string ENCRYPTION_ALGORITHM]. unfold NONCE_PREFIX_BYTES. lia.
Qed.

Lemma download_fields_ok prefix content : hash_text (blake3_hex content) →
  Forall field_ok (download_fields prefix content)
  ∧ ∀ n, NoDup (response_fields "application/octet-stream" n (download_fields prefix content)).*1.
Proof using HW.
  intros [Hh _]. split.
  - unfold download_fields. repeat apply Forall_cons_2; [| | | |done].
    + by apply token_field; [|repeat constructor].
    + apply token_field; [done|]. by apply hex_token, hex_encode_chars.
    + by apply token_field.
    + apply token_field; [done|]. apply pretty_Z_token.
  - intros n. apply (bool_decide_eq_true_1 (NoDup _)). by vm_compute.
Qed.

(** The rest of a response with the ciphertext of [content] leaves [content]. *)
Lemma receive_file_run io secret_hex prefix p content out destination segs c :
  ciphertext_of secret_hex prefix
    {| cc_direction := "download"; cc_path := p; cc_content_hash := blake3_hex content;
       cc_plaintext_size := chunk_len content |} content out →
  hash_text (blake3_hex content) → filled segs → mjoin segs = out →
  let encrypted := encrypted_download_path destination io.(ci_file_id) in
  components encrypted ≠ components destination →
  file_or_none (c.(cl_fs) !! components encrypted) → file_or_none (c.(cl_fs) !! components destination) →
  has_parent c.(cl_fs) (components encrypted) = true → has_parent c.(cl_fs) (components destination) = true →
  ∃ fs', receive_file io secret_hex p (chunk_len content) destination
      {| rh_status := 200; rh_content_length := chunk_len out;
         rh_headers := fields_map (response_fields "application/octet-stream" (chunk_len out)
           (download_fields prefix content)) |} (with_cl_stream (arrives segs) c)
    = (Ok {| tf_size_bytes := chunk_len content; tf_content_hash := blake3_hex content |},
       with_cl_fs fs' (with_cl_stream [] c))
  ∧ holds destination content fs' ∧ fs' !! components encrypted = None
  ∧ ∀ k, k ≠ components destination → k ≠ components encrypted → fs' !! k = c.(cl_fs) !! k.
Proof using AW HW Type.
  intros Hct Hhash Hfill Hj encrypted Hne Hfe Hfd Hpe Hpd.
  destruct (download_fields_ok prefix content Hhash) as [_ Hnd]. specialize (Hnd (chunk_len out)).
  pose proof (ciphertext_length _ _ _ _ _ Hct) as Hlen.
  set (fs1 := <[components encrypted := EFile [] (Some io.(ci_fs_now))]> c.(cl_fs)).
  assert (fs_write io.(ci_fs_now) encrypted [] c.(cl_fs) = (Ok tt, fs1)) as Hw by (by apply fs_write_ok).
  destruct (copy_exact_run io.(ci_fs_now) encrypted (S (stream_size (arrives segs))) segs out []
    (with_cl_fs fs1 c)) as (fs2 & Hcopy & [m2 Hh2] & Hk2); [done|done| | |lia|].
  { eexists. apply lookup_insert_eq. }
  { unfold chunk_len in Hlen. rewrite Hlen. unfold encrypted_len, u64_saturating_add. lia. }
  assert (∀ k, k ≠ components encrypted → fs2 !! k = c.(cl_fs) !! k) as Hk2'.
  { intros k Hk. rewrite Hk2 by done. by apply lookup_insert_ne. }
  destruct (decrypt_file_run io.(ci_fs_now) fs2 encrypted destination secret_hex prefix _ content out m2 Hct Hh2)
    as (fs3 & Hdec & Hh3 & Hk3).
  { by rewrite Hk2'. } { by apply (has_parent_kept c.(cl_fs) _ (components encrypted)). }
  exists (delete (components encrypted) fs3). split_and!.
  - unfold receive_file. cbn [rh_status rh_headers rh_content_length]. change (negb (200 =? 200)) with false. cbn iota.
    assert (∀ n v, (n, v) ∈ download_fields prefix content →
      fields_map (response_fields "application/octet-stream" (chunk_len out) (download_fields prefix content)) !! n
      = Some v) as Hl.
    { intros n v Hin. apply elem_of_list_to_map; [done|]. unfold response_fields. rewrite !elem_of_app. tauto. }
    rewrite (Hl "x-syncer-encryption" ENCRYPTION_ALGORITHM) by left. cbn [ok_or]. rewrite bind_lift_Ok.
    change (negb (bool_decide (ENCRYPTION_ALGORITHM = ENCRYPTION_ALGORITHM))) with false. cbn iota.
    rewrite (Hl "x-syncer-nonce" (hex_encode prefix)) by (right; left). cbn [ok_or]. rewrite bind_lift_Ok.
    rewrite (Hl "x-syncer-content-hash" (blake3_hex content)) by (do 2 right; left). cbn [ok_or]. rewrite bind_lift_Ok.
    cbv zeta. rewrite Hlen, Z.eqb_refl. cbn [negb].
    erewrite bind_Ok; [|exact (on_cl_fs_run ClientIo _ (with_cl_stream (arrives segs) c) _ _ Hw)].
    unfold get_st. rewrite M_bind_eq. cbn [with_cl_fs with_cl_stream cl_stream].
    rewrite <-Hlen. erewrite bind_Ok; [|exact Hcopy].
    erewrite bind_Ok; [|exact (on_cl_fs_run ClientPeerCrypto _ (with_cl_fs fs2 (with_cl_stream [] (with_cl_fs fs1 c))) _ _ Hdec)].
    unfold modify. rewrite M_bind_eq. cbn [with_cl_fs with_cl_stream cl_fs cl_stream cl_sent cf_size_bytes cf_content_hash].
    erewrite remove_file_run by (by rewrite Hk3). done.
  - destruct Hh3 as [m3 Hh3]. exists m3. by rewrite lookup_delete_ne.
  - apply lookup_delete_eq.
  - intros k Hk1 Hk4. rewrite lookup_delete_ne by done. rewrite Hk3 by done. by apply Hk2'.
Qed.
End download.

(** What a handler that answers does is what the connection sees. *)
Lemma handle_stream_run `{!TimeLib, !SqlxLib, !UuidLib, !SerdeJson (list BlockHash), !Blake3Lib, !IoLib,
      !ReadDir, !HexLib, !Sha256Lib, !HmacLib, !AeadLib, !KdfLib, !ReadLib, !SerdeJson FolderDocument,
      !SerdeJson PeerStoreDocument, !SerdeJson PeerPresence, !SerdeJson FolderManifest,
      !SerdeJson HealthResponse, !SerdeJson PresenceResponse, !SerdeJson ErrorResponse,
      !SerdeJson UploadFileResponse, !SerdeJson DeleteFileResponse}
    io config request v v1 v2 :
  read_request io.(in_fs_now) io.(in_body_id) config v = (Ok request, v1) →
  (response ← route_request io request config; write_response response) v1 = (Ok tt, v2) →
  handle_stream io config v = (Ok tt, v2).
Proof.
  intros Hread Hrun. unfold handle_stream, unwrap_or_else. rewrite M_bind_eq, M_bind_eq, Hread.
  rewrite M_bind_eq in Hrun. by destruct (route_request io request config v1) as [[]].
Qed.

(** A request with its body in memory is read as it was sent. *)
Lemma memory_read `{HL : !HexLib, SH : !Sha256Lib, UL : !UuidLib, UW : !UuidLaws, IL : !IoLib}
    fs_now body_id config method target host id signature t body extra segs v :
  let headers := sent_fields host id signature t (Z.of_nat (length body)) extra in
  message_ok method target headers → NoDup extra.*1 → Forall (λ n, n ∉ own_names) extra.*1 →
  Z.of_nat (length (message_head method target headers)) ≤ 12288 →
  should_spool_body method target (Z.of_nat (length body)) = false →
  Z.of_nat (length body) ≤ MAX_MEMORY_BODY_BYTES →
  filled segs → mjoin segs = message_head method target headers ++ body →
  read_request fs_now body_id config (with_stream (arrives segs) v)
  = (Ok {| hr_method := method; hr_path := target; hr_headers := list_to_map headers;
           hr_body_sha256_hex := hex_encode (sha256 body); hr_body := Memory body |}, with_stream [] v).
Proof.
  intros headers Hok Hnd Hx Hlen Hspool Hmax Hf Hj.
  destruct (request_head_read fs_now body_id config method target headers body segs v)
    as (prefix & segs' & Hbody & Hf' & Hreq); [done..|]. apply Hreq.
  assert (content_length_of headers = Z.of_nat (length body)) as ->.
  { unfold content_length_of, headers.
    rewrite (sent_lookup _ _ _ _ _ _ "content-length" (pretty (Z.of_nat (length body)))); [|done..|do 5 right; by left].
    cbn [mbind option_bind]. rewrite parse_u64_pretty; [done|].
    unfold is_u64, MAX_MEMORY_BODY_BYTES, u64_max in *. lia. }
  rewrite Hspool. erewrite bind_Ok by (by apply (read_memory_body_run prefix body)). done.
Qed.

(** The text of a signed request. *)
Lemma signed_header_text `{UL : !UuidLib, HL : !HexLib, SH : !Sha256Lib, HM : !HmacLib}
    cio endpoint address method target (id : Uuid) secret_hex body extra request :
  parse_address endpoint = Ok address →
  signed_request_header cio {| rq_method := method; rq_endpoint := endpoint; rq_path := target;
    rq_device_id := uuid_to_string id; rq_shared_secret_hex := secret_hex; rq_body := body;
    rq_extra_headers := extra |} = Ok request →
  ∃ signature, sign_request method target (uuid_to_string id) (unix_timestamp cio.(ci_now)) body secret_hex
      = Ok signature
  ∧ bytes request = message_head method target (sent_fields address.(pa_host) id signature
      (unix_timestamp cio.(ci_now)) (Z.of_nat (length body)) extra).
Proof.
  intros Ha. unfold signed_request_header. cbn [rq_endpoint rq_method rq_path rq_device_id rq_body
    rq_shared_secret_hex rq_extra_headers]. rewrite Ha. cbn [mbind result_bind]. cbv zeta.
  destruct (sign_request _ _ _ _ _ _) as [signature|]; [|done]. cbn [map_err mbind result_bind].
  intros [= <-]. exists signature. split; [done|]. rewrite request_text_head. unfold sent_fields.
  reflexivity.
Qed.

Lemma signature_token `{HL : !HexLib, HW : !HexLaws, SH : !Sha256Lib, HM : !HmacLib}
    method path device_id t hash secret_hex signature :
  sign_request_with_body_hash_hex method path device_id t hash secret_hex = Ok signature →
  token (bytes signature).
Proof.
  unfold sign_request_with_body_hash_hex. destruct (hex_decode secret_hex) as [s|]; [|done].
  cbn [map_err mbind result_bind]. destruct (negb _); [done|]. intros [= <-].
  apply hex_token, hex_encode_chars.
Qed.

(** The request of a download. *)
Definition download_request (endpoint : string) `{!UuidLib} (id : Uuid) (secret_hex : string) (p : RelativePath)
    : PeerRequest :=
  {| rq_method := "GET"; rq_endpoint := endpoint; rq_path := file_target p;
     rq_device_id := uuid_to_string id; rq_shared_secret_hex := secret_hex; rq_body := [];
     rq_extra_headers := [] |}.

(** What the server sends for it. *)
Definition download_answer `{!HexLib, !Blake3Lib} (prefix content out : list ascii) : list ascii :=
  bytes (response_header 200 "application/octet-stream" (chunk_len out) (download_fields prefix content)) ++ out.

Definition download_ciphertext `{!HexLib, !Blake3Lib, !AeadLib, !KdfLib, !ReadLib} (secret_hex : string)
    (prefix : list ascii) (p : RelativePath) (content out : list ascii) : Prop :=
  ciphertext_of secret_hex prefix
    {| cc_direction := "download"; cc_path := p; cc_content_hash := blake3_hex content;
       cc_plaintext_size := chunk_len content |} content out.

(** The server's side of a download. *)
Lemma download_served
    `{TL : !TimeLib, SL : !SqlxLib, UL : !UuidLib, UW : !UuidLaws, SJ : !SerdeJson (list BlockHash),
      BL : !Blake3Lib, IL : !IoLib, RD : !ReadDir, RW : !ReadDirLaws, HL : !HexLib, HW : !HexLaws,
      SH : !Sha256Lib, HM : !HmacLib, AL : !AeadLib, AW : !AeadLaws, KL : !KdfLib, RL : !ReadLib,
      FJ : !SerdeJson FolderDocument, PJ : !SerdeJson PeerStoreDocument,
      EJ : !SerdeJson PeerPresence, MJ : !SerdeJson FolderManifest, J1 : !SerdeJson HealthResponse,
      J2 : !SerdeJson PresenceResponse, J3 : !SerdeJson ErrorResponse,
      J4 : !SerdeJson UploadFileResponse, J5 : !SerdeJson DeleteFileResponse}
    io config cio endpoint address id secret_hex secret request p d n content m v document i :
  let folder := config.(cfg_folder_path) in
  canonical (d ++ [n]) p → relative_path_parse (rel_str p) = Ok p → utf8_valid (rel_str p) = true →
  servable io folder config.(cfg_profile) i v document →
  seen_file v.(sv_fs) (scanner_new folder config.(cfg_profile).(lp_device_id)) (d ++ [n]) content m →
  trusted io.(in_verify_now) cio.(ci_now) v.(sv_fs) config.(cfg_peers_path) id secret_hex →
  hex_decode secret_hex = Ok secret → length secret = 32%nat →
  length io.(in_nonce_prefix) = NONCE_PREFIX_BYTES → full_reads content (reads content) →
  v.(sv_fs) !! components (response_path io folder p) = None →
  parse_address endpoint = Ok address → host_ok address.(pa_host) →
  signed_request_header cio (download_request endpoint id secret_hex p) = Ok request →
  Z.of_nat (length (bytes request)) ≤ 12288 →
  ∃ out db', download_ciphertext secret_hex io.(in_nonce_prefix) p content out
  ∧ ∀ segs, filled segs → mjoin segs = bytes request →
      handle_stream io config (with_stream (arrives segs) v)
      = (Ok tt, {| sv_stream := []; sv_sent := v.(sv_sent) ++ download_answer io.(in_nonce_prefix) content out;
                   sv_fs := v.(sv_fs); sv_db := db' |}).
Proof.
  intros folder Hp Hparse Hutf Hse Hseen Htr Hsec Hlen Hpre Hreads Hfree Haddr Hhost Hreq Hrlen.
  destruct (signed_header_text cio endpoint address "GET" (file_target p) id secret_hex [] [] request Haddr Hreq)
    as (signature & Hsig & Htext).
  rewrite Htext in Hrlen. set (t := unix_timestamp cio.(ci_now)) in *.
  assert (token (bytes signature)) as Hst by (by eapply signature_token).
  assert (message_ok "GET" (file_target p) (sent_fields address.(pa_host) id signature t 0 [])) as Hok.
  { apply sent_ok; [apply target_token|by repeat constructor|done|done|done|done|constructor|constructor|constructor]. }
  set (request1 := {| hr_method := "GET"; hr_path := file_target p;
    hr_headers := list_to_map (sent_fields address.(pa_host) id signature t 0 []);
    hr_body_sha256_hex := hex_encode (sha256 []); hr_body := Memory [] |}).
  destruct (download_run io config p d n content m request1 secret_hex secret (with_stream [] v) document i)
    as (out & db' & Hct & Hserve); try done.
  { by destruct Hse. }
  { by eapply target_decodes. }
  { by eapply sent_authenticated; [|exact Hsig|constructor|constructor]. }
  exists out, db'. split; [done|]. intros segs Hf Hj. eapply handle_stream_run; [|exact Hserve].
  apply (memory_read _ _ _ _ _ _ _ _ _ []); [done|constructor|constructor|done| |done|done|by rewrite Hj, Htext, app_nil_r].
  unfold should_spool_body. by rewrite andb_false_r.
Qed.

(** The client's side of a download. *)
Lemma download_received
    `{UL : !UuidLib, HL : !HexLib, HW : !HexLaws, SH : !Sha256Lib, HM : !HmacLib, BL : !Blake3Lib, IL : !IoLib,
      AL : !AeadLib, AW : !AeadLaws, KL : !KdfLib, RL : !ReadLib}
    cio endpoint address id secret_hex prefix request p content out destination c :
  let encrypted := encrypted_download_path destination cio.(ci_file_id) in
  download_ciphertext secret_hex prefix p content out → hash_text (blake3_hex content) →
  length prefix = NONCE_PREFIX_BYTES → parse_address endpoint = Ok address → cio.(ci_connect) address.(pa_host) address.(pa_port) = Ok tt →
  signed_request_header cio (download_request endpoint id secret_hex p) = Ok request →
  components encrypted ≠ components destination →
  file_or_none (c.(cl_fs) !! components encrypted) → file_or_none (c.(cl_fs) !! components destination) →
  has_parent c.(cl_fs) (components encrypted) = true → has_parent c.(cl_fs) (components destination) = true →
  ∀ segs, filled segs → mjoin segs = download_answer prefix content out → ∃ fs',
      fetch_file_to_path cio endpoint (uuid_to_string id) secret_hex p (chunk_len content) destination
        (with_cl_stream (arrives segs) c)
      = (Ok {| tf_size_bytes := chunk_len content; tf_content_hash := blake3_hex content |},
         {| cl_stream := []; cl_sent := c.(cl_sent) ++ bytes request; cl_fs := fs' |})
      ∧ holds destination content fs'
      ∧ ∀ k, k ≠ components destination → k ≠ components encrypted → fs' !! k = c.(cl_fs) !! k.
Proof.
  intros encrypted Hct Hhash Hpre Haddr Hconn Hreq Hne Hfe Hfd Hpe Hpd segs Hf Hj.
  pose proof (ciphertext_length _ _ _ _ _ Hct) as Houtlen.
  assert (is_u64 (chunk_len content)) as Hu1.
  { destruct Hct as [? ? _ _ _ _ _ Hmax]. unfold is_u64, chunk_len, u64_max, i64_max in *. lia. }
  assert (is_u64 (chunk_len out)) as Hu2.
  { unfold is_u64. split; [unfold chunk_len; lia|]. rewrite Houtlen. unfold encrypted_len, u64_saturating_add. lia. }
  destruct (download_fields_ok prefix content Hhash) as [Hfo Hnd].
  destruct (response_head_read 200 "application/octet-stream" (chunk_len out)
    (download_fields prefix content) segs out) as (segs' & Hhead & Hf' & Hj');
    [by split|done|by repeat constructor|by vm_compute|done|done|by apply download_head_short|done|done|].
  destruct (receive_file_run cio secret_hex prefix p content out destination segs'
    {| cl_stream := []; cl_sent := c.(cl_sent) ++ bytes request; cl_fs := c.(cl_fs) |} Hct Hhash Hf' Hj')
    as (fs' & Hrun & Hh & _ & Hk); [done..|].
  exists fs'. split_and!; [|done|done]. unfold fetch_file_to_path. cbv zeta.
  rewrite Haddr, bind_lift_Ok. erewrite (bind_Ok (lift _)); [|exact (f_equal (λ r, (r, _)) Hreq)].
  unfold connect. rewrite Hconn. cbn [map_err]. rewrite bind_lift_Ok.
  unfold cl_send, modify. rewrite M_bind_eq. cbn [with_cl_stream cl_stream cl_sent cl_fs].
  erewrite bind_Ok; [|apply on_cl_stream_run; exact Hhead]. exact Hrun.
Qed.

(** C1. A file is fetched as it is: whatever segments the network cuts the two messages
    into, a client that the server trusts, and that asks for a file of the folder with
    the size the manifest shows, ends up with exactly the bytes of the file at its
    destination and with their hash; neither side changes any other file, and the
    server's folder is as it was. *)
Theorem download_end_to_end
    `{TL : !TimeLib, SL : !SqlxLib, UL : !UuidLib, UW : !UuidLaws, SJ : !SerdeJson (list BlockHash),
      BL : !Blake3Lib, IL : !IoLib, RD : !ReadDir, RW : !ReadDirLaws, HL : !HexLib, HW : !HexLaws,
      SH : !Sha256Lib, HM : !HmacLib, AL : !AeadLib, AW : !AeadLaws, KL : !KdfLib, RL : !ReadLib,
      FJ : !SerdeJson FolderDocument, PJ : !SerdeJson PeerStoreDocument,
      EJ : !SerdeJson PeerPresence, MJ : !SerdeJson FolderManifest, J1 : !SerdeJson HealthResponse,
      J2 : !SerdeJson PresenceResponse, J3 : !SerdeJson ErrorResponse,
      J4 : !SerdeJson UploadFileResponse, J5 : !SerdeJson DeleteFileResponse}
    io config cio endpoint address id secret_hex secret request p d n content m v document i destination c :
  let folder := config.(cfg_folder_path) in
  let rq := {| rq_method := "GET"; rq_endpoint := endpoint; rq_path := file_target p;
               rq_device_id := uuid_to_string id; rq_shared_secret_hex := secret_hex; rq_body := [];
               rq_extra_headers := [] |} in
  let encrypted := encrypted_download_path destination cio.(ci_file_id) in
  canonical (d ++ [n]) p → relative_path_parse (rel_str p) = Ok p → utf8_valid (rel_str p) = true →
  servable io folder config.(cfg_profile) i v document →
  seen_file v.(sv_fs) (scanner_new folder config.(cfg_profile).(lp_device_id)) (d ++ [n]) content m →
  trusted io.(in_verify_now) cio.(ci_now) v.(sv_fs) config.(cfg_peers_path) id secret_hex →
  hex_decode secret_hex = Ok secret → length secret = 32%nat →
  length io.(in_nonce_prefix) = NONCE_PREFIX_BYTES →
  full_reads content (reads content) → hash_text (blake3_hex content) →
  v.(sv_fs) !! components (response_path io folder p) = None →
  parse_address endpoint = Ok address → host_ok address.(pa_host) →
  cio.(ci_connect) address.(pa_host) address.(pa_port) = Ok tt →
  signed_request_header cio rq = Ok request → Z.of_nat (length (bytes request)) ≤ 12288 →
  components encrypted ≠ components destination →
  file_or_none (c.(cl_fs) !! components encrypted) → file_or_none (c.(cl_fs) !! components destination) →
  has_parent c.(cl_fs) (components encrypted) = true → has_parent c.(cl_fs) (components destination) = true →
  ∃ answer, (∀ segs, filled segs → mjoin segs = bytes request → ∃ db',
      handle_stream io config (with_stream (arrives segs) v)
      = (Ok tt, {| sv_stream := []; sv_sent := v.(sv_sent) ++ answer; sv_fs := v.(sv_fs); sv_db := db' |}))
  ∧ (∀ segs, filled segs → mjoin segs = answer → ∃ fs',
      fetch_file_to_path cio endpoint (uuid_to_string id) secret_hex p (chunk_len content) destination
        (with_cl_stream (arrives segs) c)
      = (Ok {| tf_size_bytes := chunk_len content; tf_content_hash := blake3_hex content |},
         {| cl_stream := []; cl_sent := c.(cl_sent) ++ bytes request; cl_fs := fs' |})
      ∧ holds destination content fs'
      ∧ ∀ k, k ≠ components destination → k ≠ components encrypted → fs' !! k = c.(cl_fs) !! k).
Proof.
  intros folder rq encrypted Hp Hparse Hutf Hse Hseen Htr Hsec Hlen Hpre Hreads Hhash Hfree Haddr Hhost Hconn
    Hreq Hrlen Hne Hfe Hfd Hpe Hpd.
  destruct (download_served io config cio endpoint address id secret_hex secret request p d n content m v document i)
    as (out & db' & Hct & Hserve); [done..|].
  exists (download_answer io.(in_nonce_prefix) content out). split; [intros segs Hf Hj; exists db'; by apply Hserve|].
  by eapply download_received.
Qed.
