(* ===== verification/PeerPutSpec.v ===== *)
(** * Client and server together: uploads *)

From S2P Require Import Prelude RustStd External Error Manifest Limits Model Records Planning StateDb StateDbFacts StateDbSpec FileSys FolderStore Scanner ScannerSpec PathCodec RequestSigning PeerCrypto PeerStore HttpText PeerRequest PeerRequestSpec PeerServer PeerServerSpec PeerUploadSpec PeerSharedSpec PeerClient PeerClientSpec PeerExchangeSpec.
From stdpp Require Import options pretty.
Local Open Scope Z_scope.

Lemma encrypted_len_pos n : 0 ≤ n → 0 < encrypted_len n.
Proof.
  intros Hn. unfold encrypted_len, u64_saturating_add, u64_saturating_mul, chunk_count, TAG_SIZE, CHUNK_SIZE.
  pose proof (Z.div_pos (n + 64 * 1024 - 1) (64 * 1024)).
  destruct (Z.eqb_spec n 0) as [->|]; unfold u64_max in *; lia.
Qed.

(** ** Answers in JSON *)

Lemma read_to_end_run segs : ∀ limit, filled segs → Z.of_nat (length (mjoin segs)) ≤ limit →
  read_to_end limit (arrives segs) = (Ok (mjoin segs), []).
Proof.
  induction segs as [|s segs IH]; intros limit Hf Hl.
  { cbn [arrives fmap list_fmap read_to_end]. by destruct (limit <=? 0). }
  apply Forall_cons in Hf as [Hs Hf].
  change (mjoin (s :: segs)) with (s ++ mjoin segs) in *. rewrite length_app in Hl.
  assert (0 < length s)%nat by (destruct s; [done|simpl; lia]).
  cbn [arrives fmap list_fmap read_to_end]. rewrite (proj2 (Z.leb_gt _ _)) by lia.
  destruct s as [|a s]; [done|]. rewrite (proj2 (Z.ltb_ge _ _)) by lia.
  change (Segment <$> segs) with (arrives segs). by rewrite IH by first [done|lia].
Qed.

Lemma json_answer {R} `{!SerdeJson R} body :
  parse_json_response (R := R) (binary_response 200 "application/json" body) = map_err ClientJson (from_json body).
Proof.
  unfold parse_json_response, binary_response. rewrite response_header_head.
  set (fields := response_fields "application/json" (Z.of_nat (length body)) []).
  assert (Forall field_ok fields) as Hf.
  { unfold fields, response_fields. cbn [app]. constructor; [by apply token_field; [|repeat constructor]|].
    constructor; [apply token_field; [done|apply pretty_token; lia]|].
    constructor; [by apply token_field; [|repeat constructor]|done]. }
  assert (head_ok (status_line 200 :: (field_line <$> fields))) as Hok.
  { split; [done|]. constructor; [by apply status_line_ok|by apply fields_ok]. }
  set (ls := status_line 200 :: (field_line <$> fields)) in *.
  rewrite head_find by done. cbn [ok_or mbind result_bind]. rewrite <-app_assoc, take_app_length, head_text by done.
  cbn [ok_or mbind result_bind]. rewrite head_lines by done.
  change (head (of_bytes <$> ls)) with (Some (of_bytes (status_line 200))). cbn [ok_or mbind result_bind].
  rewrite parse_status_line by done. cbn [mbind result_bind]. cbv zeta.
  change (negb (200 =? 200)) with false. cbn iota. do 2 f_equal.
  rewrite app_assoc. change 4%nat with (length header_separator). by rewrite <-length_app, drop_app_length.
Qed.

Lemma json_response_short body : Z.of_nat (length body) ≤ 1024 * 1024 →
  Z.of_nat (length (binary_response 200 "application/json" body)) ≤ RESPONSE_LIMIT_BYTES.
Proof.
  intros Hb. assert (is_u64 (Z.of_nat (length body))) as Hu by (unfold is_u64, u64_max; lia).
  apply pretty_u64_length in Hu. unfold binary_response, response_header, crlf. cbv zeta. cbn [foldl].
  rewrite !length_app, !bytes_app, !bytes_of_bytes, !length_app.
  set (x := length (bytes (pretty (Z.of_nat (length body))))) in *. clearbody x.
  change (bytes (pretty 200)) with (bytes "200"). change (reason_phrase 200) with "OK".
  unfold RESPONSE_LIMIT_BYTES. cbn [length bytes String.list_ascii_of_string]. lia.
Qed.

(** ** The message of an upload *)

Section message.
Context `{UL : !UuidLib, UW : !UuidLaws, HL : !HexLib, HW : !HexLaws, SH : !Sha256Lib, HM : !HmacLib, HH : !HmacLaws}.

Definition upload_fields (hash : string) (size : Z) (nonce_hex : string) : list (string * string) :=
  [("x-syncer-content-hash", hash); ("x-syncer-file-size", pretty (size : Z));
   ("x-syncer-encryption", ENCRYPTION_ALGORITHM); ("x-syncer-nonce", nonce_hex)].

Lemma upload_fields_ok hash size prefix : hash_text hash → 0 ≤ size →
  Forall field_ok (upload_fields hash size (hex_encode prefix))
  ∧ NoDup (upload_fields hash size (hex_encode prefix)).*1
  ∧ Forall (λ n, n ∉ own_names) (upload_fields hash size (hex_encode prefix)).*1.
Proof using HW.
  intros [Hh _] Hs. split_and!.
  - unfold upload_fields. repeat apply Forall_cons_2; [| | | |done].
    + by apply token_field.
    + apply token_field; [done|]. by apply pretty_token.
    + by apply token_field; [|repeat constructor].
    + apply token_field; [done|]. by apply hex_token, hex_encode_chars.
  - apply (bool_decide_eq_true_1 (NoDup _)). by vm_compute.
  - apply (bool_decide_eq_true_1 (Forall _ _)). by vm_compute.
Qed.

Lemma signature_length method path device_id t hash secret_hex signature :
  sign_request_with_body_hash_hex method path device_id t hash secret_hex = Ok signature →
  length (bytes signature) = 64%nat.
Proof using HW HH.
  unfold sign_request_with_body_hash_hex. destruct (hex_decode secret_hex) as [s|]; [|done].
  cbn [map_err mbind result_bind]. destruct (negb _); [done|]. intros [= <-].
  by rewrite hex_encode_length, hmac_length.
Qed.

Lemma pretty_i64_length (t : Z) : is_i64 t → (length (bytes (pretty t)) ≤ 21)%nat.
Proof using Type.
  intros [H0 H1]. destruct t as [|n|n]; [simpl; lia| |].
  - etransitivity; [apply pretty_u64_length|lia]. unfold is_u64, i64_max, u64_max in *. lia.
  - change (bytes (pretty (Z.neg n))) with (Ascii.ascii_of_N 45 :: bytes (pretty (Z.pos n))).
    assert (is_u64 (Z.pos n)) as Hn by (unfold is_u64, i64_min, u64_max in *; lia).
    apply pretty_u64_length in Hn. cbn [length]. lia.
Qed.

(** What a client that is not given an endless name writes fits the header limit. *)
Record short_names (p : RelativePath) (host : string) (id : Uuid) : Prop := {
  sn_path : Z.of_nat (length (bytes (file_target p))) ≤ 8192;
  sn_host : Z.of_nat (length (bytes host)) ≤ 1024;
  sn_id : (length (bytes (uuid_to_string id)) ≤ 64)%nat;
}.

Lemma upload_head_short p host id signature t content_length hash size prefix :
  short_names p host id → length (bytes signature) = 64%nat → is_i64 t → is_u64 content_length →
  hash_text hash → is_u64 size → length prefix = NONCE_PREFIX_BYTES →
  Z.of_nat (length (message_head "PUT" (file_target p)
    (sent_fields host id signature t content_length (upload_fields hash size (hex_encode prefix))))) ≤ 12288.
Proof using HW.
  intros [Hp Hh Hi] Hs Ht Hc [_ Hx] Hz Hn.
  apply pretty_i64_length in Ht. apply pretty_u64_length in Hc, Hz.
  pose proof (hex_encode_length prefix) as Hl. rewrite Hn in Hl. unfold NONCE_PREFIX_BYTES in Hl.
  unfold message_head, message_lines, sent_fields, request_fields, upload_fields, field_line.
  cbn [app fmap list_fmap join_crlf fst snd].
  repeat (rewrite ?length_app; cbn [length]). rewrite Hs, Hl.
  set (x1 := length (bytes (file_target p))) in *. set (x2 := length (bytes host)) in *.
  set (x3 := length (bytes (uuid_to_string id))) in *. set (x4 := length (bytes (pretty t))) in *.
  set (x5 := length (bytes (pretty content_length))) in *. set (x6 := length (bytes hash)) in *.
  set (x7 := length (bytes (pretty size))) in *. clearbody x1 x2 x3 x4 x5 x6 x7.
  cbn [length bytes String.list_ascii_of_string ENCRYPTION_ALGORITHM header_separator]. lia.
Qed.
(** What the client sends for a ciphertext. *)
Definition upload_message (p : RelativePath) (host : string) (id : Uuid) (signature : string) (t : Z)
    (hash : string) (size : Z) (prefix out : list ascii) : list ascii :=
  message_head "PUT" (file_target p)
    (sent_fields host id signature t (chunk_len out) (upload_fields hash size (hex_encode prefix))) ++ out.

End message.

(** ** The server's half *)

Section serve.
Context `{TL : !TimeLib, SL : !SqlxLib, UL : !UuidLib, UW : !UuidLaws, SJ : !SerdeJson (list BlockHash),
          BL : !Blake3Lib, IL : !IoLib, RD : !ReadDir, HL : !HexLib, HW : !HexLaws,
          SH : !Sha256Lib, HM : !HmacLib, HH : !HmacLaws, AL : !AeadLib, AW : !AeadLaws, KL : !KdfLib, RL : !ReadLib,
          FJ : !SerdeJson FolderDocument, PJ : !SerdeJson PeerStoreDocument,
          EJ : !SerdeJson PeerPresence, MJ : !SerdeJson FolderManifest, J1 : !SerdeJson HealthResponse,
          J2 : !SerdeJson PresenceResponse, J3 : !SerdeJson ErrorResponse,
          J4 : !SerdeJson UploadFileResponse, J5 : !SerdeJson DeleteFileResponse}.

Lemma read_or_default_kept path fs fs' : fs' !! components path = fs !! components path →
  read_or_default path fs' = ((read_or_default path fs).1, fs').
Proof using Type.
  intros E. unfold read_or_default, get_st. rewrite !M_bind_eq, E. case_bool_decide; [done|].
  rewrite !M_bind_eq. unfold fs_read. rewrite E. unfold lift. destruct (map_err _ _); [|done].
  rewrite !M_bind_eq. destruct (map_err StoreJson _); [|done]. by destruct (negb _).
Qed.

Lemma trusted_kept now client_now fs fs' peers_path id secret_hex :
  fs' !! components peers_path = fs !! components peers_path →
  trusted now client_now fs peers_path id secret_hex → trusted now client_now fs' peers_path id secret_hex.
Proof using Type.
  intros E [Hid Ht Hc (document & fs1 & peer & Hdoc & Hpeer)]. constructor; [done..|].
  exists document, fs', peer. split; [|done]. by rewrite (read_or_default_kept _ _ _ E), Hdoc.
Qed.

Lemma body_key folder body_id : components (body_path folder body_id)
  = key folder [".syncer"; "tmp"; "requests"; body_name body_id].
Proof using UW.
  rewrite body_path_components, requests_key. unfold key. by rewrite <-app_assoc.
Qed.

Lemma body_not_plain (a b : Uuid) : body_name a ≠ uuid_to_string b +:+ ".plain".
Proof using Type.
  intros E. apply (f_equal (λ s, last (bytes s))) in E. unfold body_name in E.
  rewrite !bytes_app, !last_app in E. discriminate E.
Qed.

(** The handler of an upload answers what [write_uploaded_file] returned. *)
Lemma put_route_run io config p host id signature t hash size prefix content_length body_hash body response
    answer secret_hex v v' :
  let headers := sent_fields host id signature t content_length (upload_fields hash size (hex_encode prefix)) in
  let request := {| hr_method := "PUT"; hr_path := file_target p; hr_headers := list_to_map headers;
                    hr_body_sha256_hex := body_hash; hr_body := File body |} in
  hash_text hash → is_u64 size → file_path_of request = Ok p →
  authenticated io.(in_verify_now) v.(sv_fs) config.(cfg_peers_path) request secret_hex →
  write_uploaded_file io config.(cfg_folder_path) config.(cfg_profile) p size hash
    {| ue_shared_secret_hex := secret_hex; ue_nonce_hex := hex_encode prefix |} body v = (Ok response, v') →
  to_json response = Ok answer →
  (response ← route_request io request config; write_response response) v
  = (Ok tt, {| sv_stream := v'.(sv_stream); sv_sent := v'.(sv_sent) ++ binary_response 200 "application/json" answer;
               sv_fs := v'.(sv_fs); sv_db := v'.(sv_db) |}).
Proof using HW Type.
  intros headers request Hhash Hsize Hfp Ha Hrun Hj.
  destruct (upload_fields_ok hash size prefix Hhash) as (_ & Hnd & Hx); [by destruct Hsize|].
  assert (∀ n v, (n, v) ∈ upload_fields hash size (hex_encode prefix) →
    required_header request n = Ok v) as Hl.
  { intros n w Hin. unfold required_header, request, headers. cbn [hr_headers].
    rewrite (sent_lookup _ _ _ _ _ _ n w); [done..|]. unfold sent_fields. rewrite !elem_of_app. tauto. }
  rewrite M_bind_eq. unfold route_request. cbv zeta. cbn [request hr_method hr_path].
  rewrite !(bool_decide_eq_false_2 (_ ∧ _)) by (by intros [? _]).
  rewrite (bool_decide_eq_false_2 ("PUT" = "GET")) by done. cbn [andb].
  rewrite (bool_decide_eq_true_2 ("PUT" = "PUT")) by done. rewrite target_prefix. cbn [andb].
  fold request. erewrite bind_Ok by (by apply verify_Ok). rewrite Hfp, bind_lift_Ok.
  assert (required_u64_header request "x-syncer-file-size" = Ok size) as ->.
  { unfold required_u64_header. rewrite (Hl "x-syncer-file-size" (pretty size)) by (right; by left). cbn [mbind result_bind].
    by rewrite parse_u64_pretty. }
  rewrite bind_lift_Ok, (Hl "x-syncer-content-hash" hash), bind_lift_Ok by (by left).
  rewrite (Hl "x-syncer-encryption" ENCRYPTION_ALGORITHM), bind_lift_Ok by (do 2 right; by left).
  rewrite (bool_decide_eq_true_2 (_ = _)) by done. cbn [negb].
  rewrite (Hl "x-syncer-nonce" (hex_encode prefix)), bind_lift_Ok by (do 3 right; by left).
  cbn [file_body hr_body request]. rewrite bind_lift_Ok.
  erewrite bind_Ok by exact Hrun. unfold json_response. rewrite Hj. done.
Qed.
Lemma put_serve_run io config host id secret_hex p d n content out prefix signature t client_now pm peers v document
    st bh answer segs :
  let folder := config.(cfg_folder_path) in
  t = unix_timestamp client_now →
  canonical (d ++ [n]) p → relative_path_parse (rel_str p) = Ok p → utf8_valid (rel_str p) = true →
  upload_ready io folder p d v.(sv_fs) → spool_ready folder io.(in_body_id) v.(sv_fs) →
  trusted io.(in_verify_now) client_now v.(sv_fs) config.(cfg_peers_path) id secret_hex →
  v.(sv_fs) !! components config.(cfg_peers_path) = Some (EFile peers pm) →
  components config.(cfg_peers_path) ≠ components (body_path folder io.(in_body_id)) →
  folder_store_read (folder_store_new folder) v.(sv_fs) = (Ok document, v.(sv_fs)) →
  folder_status v.(sv_db) = (Ok st, v.(sv_db)) →
  chunk_len content ≤ remaining_bytes document.(fd_folder).(fc_size_limit) st.(fs_indexed_bytes) →
  to_json (@nil BlockHash) = Ok bh →
  to_json {| uf_accepted := true; uf_path := p; uf_size_bytes := chunk_len content;
             uf_content_hash := blake3_hex content |} = Ok answer →
  hash_text (blake3_hex content) → host_ok host → short_names p host id →
  ciphertext_of secret_hex prefix {| cc_direction := "upload"; cc_path := p;
    cc_content_hash := blake3_hex content; cc_plaintext_size := chunk_len content |} content out →
  sign_request_with_body_hash_hex "PUT" (file_target p) (uuid_to_string id) t (hex_encode (sha256 out)) secret_hex
    = Ok signature →
  filled segs →
  mjoin segs = upload_message p host id signature t (blake3_hex content) (chunk_len content) prefix out →
  ∃ row fs', handle_stream io config (with_stream (arrives segs) v)
    = (Ok tt, {| sv_stream := []; sv_sent := v.(sv_sent) ++ binary_response 200 "application/json" answer;
                 sv_fs := fs'; sv_db := with_files <[rel_str p := row]> v.(sv_db) |})
  ∧ row.(w_size_bytes) = chunk_len content ∧ row.(w_content_hash) = Some (blake3_hex content)
  ∧ row.(w_sync_state) = "local_available"
  ∧ holds (path_push folder (rel_str p)) content fs'
  ∧ grown v.(sv_fs) fs' (λ k, k = components (body_path folder io.(in_body_id))
      ∨ k = components (plain_path folder io.(in_plain_id)) ∨ k = components (path_push folder (rel_str p)))
  ∧ (∀ k, on_way [] (key folder d) k → fs' !! k = Some EDir).
Proof using SL UW HW AW HH Type.
  intros folder Ht Hp Hparse Hutf Hready Hspool Htr Hpeers Hpb Hdoc Hst Hlim Hbh Hans Hhash Hhost Hshort Hct Hsig Hf Hj.
  assert (is_u64 (chunk_len content)) as Hu1.
  { destruct Hct as [? ? _ _ _ _ _ Hmax]. unfold is_u64, chunk_len, u64_max, i64_max in *. lia. }
  pose proof (ciphertext_length _ _ _ _ _ Hct) as Hol.
  assert (0 < chunk_len out ≤ u64_max) as Hout.
  { rewrite Hol. split; [apply encrypted_len_pos, Hu1|]. unfold encrypted_len, u64_saturating_add. lia. }
  destruct (upload_fields_ok (blake3_hex content) (chunk_len content) prefix Hhash) as (Hfo & Hnd & Hx); [apply Hu1|].
  set (headers := sent_fields host id signature t (chunk_len out)
    (upload_fields (blake3_hex content) (chunk_len content) (hex_encode prefix))).
  assert (message_ok "PUT" (file_target p) headers) as Hok.
  { apply sent_ok; [apply target_token|by repeat constructor|done|done|by eapply signature_token|lia|done..]. }
  assert (Z.of_nat (length (message_head "PUT" (file_target p) headers)) ≤ 12288) as Hhead.
  { apply upload_head_short; [done|by eapply signature_length|subst t; apply Htr|unfold is_u64; lia|done|done|by destruct Hct]. }
  assert (content_length_of headers = Z.of_nat (length out)) as Hcl.
  { unfold content_length_of, headers. rewrite (sent_lookup _ _ _ _ _ _ "content-length" (pretty (chunk_len out)));
      [|done..|do 5 right; by left]. cbn [mbind option_bind]. rewrite parse_u64_pretty by (unfold is_u64; lia). done. }
  destruct (spooled_request_read io.(in_fs_now) io.(in_body_id) config "PUT" (file_target p) headers out segs v)
    as (fs1 & Hread & [[m1 Hbody] Hm1]); [done|done|done|done|done| |apply Hout|done|].
  { unfold should_spool_body. rewrite target_prefix, Hcl. cbn. apply Z.ltb_lt. apply Hout. }
  rewrite body_key, requests_key in Hm1.
  pose proof (made_grown _ _ _ _ (ur_requests _ _ _ _ _ Hready) Hm1) as Hg1.
  pose proof (ready_made io folder p d n _ (sv_fs v) fs1 Hp (body_not_plain _ _) Hready Hm1) as Hready1.
  assert (folder_store_read (folder_store_new folder) fs1 = (Ok document, fs1)) as Hdoc1.
  { apply (config_kept folder v.(sv_fs) fs1 document _ Hdoc Hg1). by intros E%(inj (key folder)). }
  assert (fs1 !! components config.(cfg_peers_path) = v.(sv_fs) !! components config.(cfg_peers_path)) as Hpk.
  { rewrite body_key in Hpb. destruct (Hg1 _ Hpb) as [E|[E _]]; [done|congruence]. }
  destruct (upload_run io folder config.(cfg_profile) p d n secret_hex prefix content out
    {| fb_path := body_path folder io.(in_body_id); fb_size_bytes := Z.of_nat (length out);
       fb_sha256_hex := hex_encode (sha256 out) |} m1 (with_fs fs1 (with_stream [] v)) document st bh Hp Hready1 Hct Hbody)
    as (row & fs2 & Hrun & Hr1 & Hr2 & Hr3 & Hh2 & _ & Hg2 & Hd2); [done| |done|done|done|done|].
  { cbn [fb_path]. rewrite body_key, plain_key. intros E%(inj (key folder)). injection E as E. by eapply body_not_plain. }
  exists row, fs2. split_and!; [|done|done|done|done| |exact Hd2].
  - eapply handle_stream_run; [exact Hread|].
    etransitivity; [eapply (put_route_run io config p host id signature t (blake3_hex content)
      (chunk_len content) prefix (chunk_len out)); [done|done|by eapply target_decodes| |exact Hrun|exact Hans]|done].
    subst t. eapply sent_authenticated; [|exact Hsig|done|done]. by eapply trusted_kept.
  - intros k Hk. cbn [with_fs with_stream sv_fs] in Hg2.
    assert (k ≠ key folder [".syncer"; "tmp"; "requests"; body_name io.(in_body_id)]) as Hk1
      by (rewrite <-body_key; tauto).
    destruct (Hg2 k) as [->|[E1 E2]]; [tauto|by apply Hg1|].
    destruct (Hg1 k Hk1) as [E|[_ E]]; [right; by rewrite <-E|congruence].
Qed.
End serve.

(** ** The client's half *)

(** What the client makes of the server's answer to an upload. *)
Definition client_view (r : UploadFileResponse) : ClientUploadResponse :=
  {| cu_accepted := r.(uf_accepted); cu_path := r.(uf_path); cu_size_bytes := r.(uf_size_bytes);
     cu_content_hash := r.(uf_content_hash) |}.

(** The two structs of one JSON object have the same fields. *)
Class UploadWire `{!SerdeJson UploadFileResponse, !SerdeJson ClientUploadResponse} : Prop := {
  upload_wire r bs : to_json r = Ok bs → from_json bs = Ok (client_view r);
}.

Section put.
Context `{UL : !UuidLib, HL : !HexLib, SH : !Sha256Lib, HM : !HmacLib, BL : !Blake3Lib, IL : !IoLib,
          AL : !AeadLib, AW : !AeadLaws, KL : !KdfLib, RL : !ReadLib, RD : !ReadLaws,
          CJ : !SerdeJson ClientUploadResponse}.

Lemma put_client_run cio endpoint address id secret_hex secret p content file_path m c :
  let encrypted := encrypted_upload_path file_path cio.(ci_file_id) in
  hex_decode secret_hex = Ok secret → length secret = 32%nat → hmac_key_ok secret = true →
  length cio.(ci_nonce_prefix) = NONCE_PREFIX_BYTES →
  full_reads content (reads content) → chunk_len content ≤ i64_max →
  parse_address endpoint = Ok address → cio.(ci_connect) address.(pa_host) address.(pa_port) = Ok tt →
  c.(cl_fs) !! components file_path = Some (EFile content m) → components encrypted ≠ components file_path →
  c.(cl_fs) !! components encrypted = None → has_parent c.(cl_fs) (components encrypted) = true →
  ∃ out signature, ciphertext_of secret_hex cio.(ci_nonce_prefix)
      {| cc_direction := "upload"; cc_path := p; cc_content_hash := blake3_hex content;
         cc_plaintext_size := chunk_len content |} content out
  ∧ sign_request_with_body_hash_hex "PUT" (file_target p) (uuid_to_string id)
      (unix_timestamp cio.(ci_now)) (hex_encode (sha256 out)) secret_hex = Ok signature
  ∧ ∀ segs response, filled segs → Z.of_nat (length (mjoin segs)) ≤ RESPONSE_LIMIT_BYTES →
      parse_json_response (mjoin segs) = Ok response →
      put_file_from_path cio endpoint (uuid_to_string id) secret_hex p (blake3_hex content) file_path
        (chunk_len content) (with_cl_stream (arrives segs) c)
      = (Ok response, {| cl_stream := []; cl_fs := c.(cl_fs);
          cl_sent := c.(cl_sent) ++ upload_message p address.(pa_host) id signature (unix_timestamp cio.(ci_now))
            (blake3_hex content) (chunk_len content) cio.(ci_nonce_prefix) out |}).
Proof using AW RD.
  intros encrypted Hsec Hlen Hkey Hpre Hreads Hmax Haddr Hconn Hsrc Hne Hfree Hpar.
  destruct (encrypt_file_run cio.(ci_fs_now) c.(cl_fs) file_path encrypted secret_hex _ cio.(ci_nonce_prefix)
    {| cc_direction := "upload"; cc_path := p; cc_content_hash := blake3_hex content;
       cc_plaintext_size := chunk_len content |} content m (derive_key_ok _ _ Hsec Hlen) Hpre Hsrc Hreads eq_refl Hmax)
    as (out & fs1 & Hrun & Hct & [m1 Hout] & Hk); [by left|done|].
  set (signature := hex_encode (hmac secret (bytes (canonical_payload_with_body_hash_hex "PUT" (file_target p)
    (uuid_to_string id) (unix_timestamp cio.(ci_now)) (hex_encode (sha256 out)))))).
  assert (sign_request_with_body_hash_hex "PUT" (file_target p) (uuid_to_string id)
      (unix_timestamp cio.(ci_now)) (hex_encode (sha256 out)) secret_hex = Ok signature) as Hsig.
  { unfold sign_request_with_body_hash_hex. rewrite Hsec. cbn [map_err mbind result_bind]. by rewrite Hkey. }
  exists out, signature. split_and!; [done|done|]. intros segs response Hf Hrl Hresp.
  unfold put_file_from_path. cbv zeta. fold encrypted.
  erewrite bind_Ok; [|exact (on_cl_fs_run ClientPeerCrypto _ (with_cl_stream (arrives segs) c) _ _ Hrun)].
  cbn [cf_content_hash cf_size_bytes cf_nonce_hex]. rewrite (bool_decide_eq_true_2 (_ = _)) by done. cbn [negb].
  erewrite bind_Ok.
  2: { apply (on_cl_fs_run ClientIo). unfold file_sha256_hex, get_st. rewrite M_bind_eq.
       cbn [with_cl_fs cl_fs]. unfold fs_read. rewrite Hout, bind_lift_Ok, reads_whole. reflexivity. }
  change ("/file/" +:+ encode_relative_path p) with (file_target p).
  rewrite Hsig. cbn [map_err]. rewrite bind_lift_Ok, Haddr, bind_lift_Ok.
  unfold connect. rewrite Hconn. cbn [map_err]. rewrite bind_lift_Ok.
  erewrite (bind_Ok (cl_send _)); [|reflexivity]. unfold get_st. rewrite M_bind_eq.
  cbn [with_cl_fs with_cl_stream cl_fs cl_sent cl_stream]. unfold fs_read. rewrite Hout. cbn [map_err].
  rewrite bind_lift_Ok. erewrite (bind_Ok (cl_send _)); [|reflexivity].
  erewrite (bind_Ok (modify _)); [|reflexivity]. cbn [with_cl_fs with_cl_stream cl_fs cl_sent cl_stream].
  erewrite remove_file_run by exact Hout. cbn [snd].
  erewrite bind_Ok; [|apply on_cl_stream_run; cbn [cl_stream]; by apply read_to_end_run].
  unfold lift. rewrite Hresp. unfold with_cl_stream. cbn [cl_sent cl_fs]. f_equal.
  assert (delete (components encrypted) fs1 = c.(cl_fs)) as ->.
  { apply map_eq. intros k. destruct (decide (k = components encrypted)) as [->|Hkk].
    - by rewrite lookup_delete_eq, Hfree.
    - by rewrite lookup_delete_ne, Hk. }
  f_equal. rewrite <-app_assoc. f_equal. unfold upload_message. f_equal. rewrite request_text_head.
  rewrite (ciphertext_length _ _ _ _ _ Hct). unfold sent_fields. by rewrite <-app_assoc.
Qed.
End put.

(** ** Properties *)

(** C2. A file is uploaded as it is: whatever segments the network cuts the two messages
    into, what a trusted client uploads to a free path, within the folder limit, is on
    the server exactly the client's file, recorded with its size and hash; nothing else
    the server had is changed, the client is told that it arrived, and its own files are
    as they were. *)
Theorem upload_end_to_end
    `{TL : !TimeLib, SL : !SqlxLib, UL : !UuidLib, UW : !UuidLaws, SJ : !SerdeJson (list BlockHash),
      BL : !Blake3Lib, IL : !IoLib, RD : !ReadDir, HL : !HexLib, HW : !HexLaws,
      SH : !Sha256Lib, HM : !HmacLib, HH : !HmacLaws, AL : !AeadLib, AW : !AeadLaws, KL : !KdfLib,
      RL : !ReadLib, RW : !ReadLaws, FJ : !SerdeJson FolderDocument, PJ : !SerdeJson PeerStoreDocument,
      EJ : !SerdeJson PeerPresence, MJ : !SerdeJson FolderManifest, J1 : !SerdeJson HealthResponse,
      J2 : !SerdeJson PresenceResponse, J3 : !SerdeJson ErrorResponse, J4 : !SerdeJson UploadFileResponse,
      J5 : !SerdeJson DeleteFileResponse, CJ : !SerdeJson ClientUploadResponse, CW : !UploadWire}
    io config cio endpoint address id secret_hex secret p d n content file_path m pm peers v document st bh answer c :
  let folder := config.(cfg_folder_path) in
  let encrypted := encrypted_upload_path file_path cio.(ci_file_id) in
  let response := {| uf_accepted := true; uf_path := p; uf_size_bytes := chunk_len content;
                     uf_content_hash := blake3_hex content |} in
  canonical (d ++ [n]) p → relative_path_parse (rel_str p) = Ok p → utf8_valid (rel_str p) = true →
  upload_ready io folder p d v.(sv_fs) → spool_ready folder io.(in_body_id) v.(sv_fs) →
  trusted io.(in_verify_now) cio.(ci_now) v.(sv_fs) config.(cfg_peers_path) id secret_hex →
  v.(sv_fs) !! components config.(cfg_peers_path) = Some (EFile peers pm) →
  components config.(cfg_peers_path) ≠ components (body_path folder io.(in_body_id)) →
  folder_store_read (folder_store_new folder) v.(sv_fs) = (Ok document, v.(sv_fs)) →
  folder_status v.(sv_db) = (Ok st, v.(sv_db)) →
  chunk_len content ≤ remaining_bytes document.(fd_folder).(fc_size_limit) st.(fs_indexed_bytes) →
  to_json (@nil BlockHash) = Ok bh → to_json response = Ok answer → Z.of_nat (length answer) ≤ 1024 * 1024 →
  hex_decode secret_hex = Ok secret → length secret = 32%nat → hmac_key_ok secret = true →
  length cio.(ci_nonce_prefix) = NONCE_PREFIX_BYTES →
  full_reads content (reads content) → chunk_len content ≤ i64_max → hash_text (blake3_hex content) →
  parse_address endpoint = Ok address → host_ok address.(pa_host) → short_names p address.(pa_host) id →
  cio.(ci_connect) address.(pa_host) address.(pa_port) = Ok tt →
  c.(cl_fs) !! components file_path = Some (EFile content m) → components encrypted ≠ components file_path →
  c.(cl_fs) !! components encrypted = None → has_parent c.(cl_fs) (components encrypted) = true →
  ∃ request answered, (∀ segs, filled segs → mjoin segs = request → ∃ row fs',
      handle_stream io config (with_stream (arrives segs) v)
      = (Ok tt, {| sv_stream := []; sv_sent := v.(sv_sent) ++ answered; sv_fs := fs';
                   sv_db := with_files <[rel_str p := row]> v.(sv_db) |})
      ∧ row.(w_size_bytes) = chunk_len content ∧ row.(w_content_hash) = Some (blake3_hex content)
      ∧ row.(w_sync_state) = "local_available"
      ∧ holds (path_push folder (rel_str p)) content fs'
      ∧ grown v.(sv_fs) fs' (λ k, k = components (body_path folder io.(in_body_id))
          ∨ k = components (plain_path folder io.(in_plain_id)) ∨ k = components (path_push folder (rel_str p)))
      ∧ (∀ k, on_way [] (key folder d) k → fs' !! k = Some EDir))
  ∧ (∀ segs, filled segs → mjoin segs = answered →
      put_file_from_path cio endpoint (uuid_to_string id) secret_hex p (blake3_hex content) file_path
        (chunk_len content) (with_cl_stream (arrives segs) c)
      = (Ok (client_view response), {| cl_stream := []; cl_sent := c.(cl_sent) ++ request; cl_fs := c.(cl_fs) |})).
Proof.
  intros folder encrypted response Hp Hparse Hutf Hready Hspool Htr Hpeers Hpb Hdoc Hst Hlim Hbh Hans Halen
    Hsec Hlen Hkey Hpre Hreads Hmax Hhash Haddr Hhost Hshort Hconn Hsrc Hne Hfree Hpar.
  destruct (put_client_run cio endpoint address id secret_hex secret p content file_path m c)
    as (out & signature & Hct & Hsig & Hclient); [done..|].
  set (t := unix_timestamp cio.(ci_now)) in *.
  exists (upload_message p address.(pa_host) id signature t (blake3_hex content) (chunk_len content)
    cio.(ci_nonce_prefix) out), (binary_response 200 "application/json" answer). split.
  2: { intros segs Hf Hj. apply Hclient; [done| |].
       - rewrite Hj. by apply json_response_short.
       - by rewrite Hj, json_answer, (upload_wire _ _ Hans). }
  intros segs Hf Hj. by eapply put_serve_run.
Qed.
