(* ===== verification/PeerJsonSpec.v ===== *)
(** * Client and server together: presence, manifests and deletions

    The three calls whose request and answer are kept in memory and are JSON texts.
    [json_served] is the server's side of any of them and [json_received] the client's. *)

From S2P Require Import Prelude RustStd External Error Manifest Limits Model Records Planning StateDb StateDbFacts StateDbSpec FileSys FolderStore Scanner ScannerSpec PathCodec RequestSigning PeerCrypto PeerStore HttpText PeerRequest PeerRequestSpec PeerServer PeerServerSpec PeerUploadSpec PeerSharedSpec PeerClient PeerClientSpec PeerExchangeSpec PeerPutSpec.
From stdpp Require Import options pretty.
Local Open Scope Z_scope.

(** The request of a JSON call. *)
Definition json_request `{!UuidLib} (method endpoint target : string) (id : Uuid) (secret_hex : string)
    (body : list ascii) (extra : list (string * string)) : PeerRequest :=
  {| rq_method := method; rq_endpoint := endpoint; rq_path := target; rq_device_id := uuid_to_string id;
     rq_shared_secret_hex := secret_hex; rq_body := body; rq_extra_headers := extra |}.

(** The same request as the server reads it. *)
Definition json_arrived `{!UuidLib, !HexLib, !Sha256Lib} (method target host : string) (id : Uuid)
    (signature : string) (t : Z) (body : list ascii) (extra : list (string * string)) : HttpRequest :=
  {| hr_method := method; hr_path := target;
     hr_headers := list_to_map (sent_fields host id signature t (Z.of_nat (length body)) extra);
     hr_body_sha256_hex := hex_encode (sha256 body); hr_body := Memory body |}.

(** Headers of its own a call may add, and a body the server keeps in memory. *)
Record json_call_ok (method target : string) (body : list ascii) (extra : list (string * string)) : Prop := {
  jc_target : target_ok target;
  jc_method : token (bytes method) ∧ method ≠ "";
  jc_fields : Forall field_ok extra;
  jc_names : NoDup extra.*1;
  jc_own : Forall (λ n, n ∉ own_names) extra.*1;
  jc_memory : should_spool_body method target (Z.of_nat (length body)) = false;
  jc_size : Z.of_nat (length body) ≤ MAX_MEMORY_BODY_BYTES;
}.

Definition answered (bs : list ascii) (v : Server) : Server :=
  {| sv_stream := v.(sv_stream); sv_sent := v.(sv_sent) ++ bs; sv_fs := v.(sv_fs); sv_db := v.(sv_db) |}.

(** ** The server's side *)

Section serve.
Context `{TL : !TimeLib, SL : !SqlxLib, UL : !UuidLib, UW : !UuidLaws, SJ : !SerdeJson (list BlockHash),
          BL : !Blake3Lib, IL : !IoLib, RD : !ReadDir, HL : !HexLib, HW : !HexLaws,
          SH : !Sha256Lib, HM : !HmacLib, AL : !AeadLib, KL : !KdfLib, RL : !ReadLib,
          FJ : !SerdeJson FolderDocument, PJ : !SerdeJson PeerStoreDocument,
          EJ : !SerdeJson PeerPresence, MJ : !SerdeJson FolderManifest, J1 : !SerdeJson HealthResponse,
          J2 : !SerdeJson PresenceResponse, J3 : !SerdeJson ErrorResponse,
          J4 : !SerdeJson UploadFileResponse, J5 : !SerdeJson DeleteFileResponse}.

Lemma json_served io config cio endpoint address id secret_hex method target body extra request v v2 bs :
  json_call_ok method target body extra →
  parse_address endpoint = Ok address → host_ok address.(pa_host) →
  trusted io.(in_verify_now) cio.(ci_now) v.(sv_fs) config.(cfg_peers_path) id secret_hex →
  signed_request_header cio (json_request method endpoint target id secret_hex body extra) = Ok request →
  Z.of_nat (length (bytes request)) ≤ 12288 →
  (∀ signature, let r := json_arrived method target address.(pa_host) id signature
       (unix_timestamp cio.(ci_now)) body extra in
     authenticated io.(in_verify_now) v.(sv_fs) config.(cfg_peers_path) r secret_hex →
     route_request io r config (with_stream [] v) = (Ok (ResponseBytes bs), v2)) →
  ∀ segs, filled segs → mjoin segs = bytes request ++ body →
    handle_stream io config (with_stream (arrives segs) v) = (Ok tt, answered bs v2).
Proof using SL UW HW Type.
  intros [Htarget [Hm Hm0] Hfo Hnd Hx Hmem Hsize] Haddr Hhost Htr Hreq Hlen Hroute segs Hf Hj.
  destruct (signed_header_text cio endpoint address method target id secret_hex body extra request Haddr Hreq)
    as (signature & Hsig & Htext).
  rewrite Htext in Hlen, Hj. eapply handle_stream_run.
  - apply memory_read; [|done..]. apply sent_ok; [done..| |lia|done|done|done]. by eapply signature_token.
  - erewrite bind_Ok; [|apply (Hroute signature)]; [done|].
    by eapply sent_authenticated; [|exact Hsig|done|done].
Qed.

(** ** The routes *)

Lemma manifest_route io config request v manifest v2 bs secret_hex :
  request.(hr_method) = "GET" → request.(hr_path) = "/manifest" →
  authenticated io.(in_verify_now) v.(sv_fs) config.(cfg_peers_path) request secret_hex →
  server_export_manifest io config.(cfg_folder_path) config.(cfg_profile) v = (Ok manifest, v2) →
  to_json manifest = Ok bs →
  route_request io request config v = (Ok (ResponseBytes (binary_response 200 "application/json" bs)), v2).
Proof using SL Type.
  intros Hm Hp Ha Hrun Hj. unfold route_request. cbv zeta. rewrite Hm, Hp.
  do 2 rewrite (bool_decide_eq_false_2 (_ ∧ _)) by (by intros [? ?]).
  rewrite (bool_decide_eq_true_2 (_ ∧ _)) by done.
  erewrite bind_Ok by (by apply verify_Ok). erewrite bind_Ok by exact Hrun. unfold json_response. by rewrite Hj.
Qed.

Lemma presence_route io config request v body presence bs secret_hex :
  request.(hr_method) = "POST" → request.(hr_path) = "/presence" → request.(hr_body) = Memory body →
  authenticated io.(in_verify_now) v.(sv_fs) config.(cfg_peers_path) request secret_hex →
  from_json body = Ok presence →
  to_json {| pr_accepted := true; pr_received_from := device_id_to_string presence.(pp_device_id);
             pr_local_presence := {| pp_device_id := config.(cfg_profile).(lp_device_id);
                                     pp_sent_at := io.(in_sent_at); pp_agent_version := CARGO_PKG_VERSION |} |}
    = Ok bs →
  route_request io request config v = (Ok (ResponseBytes (binary_response 200 "application/json" bs)), v).
Proof using SL Type.
  intros Hm Hp Hb Ha Hfrom Hj. unfold route_request. cbv zeta. rewrite Hm, Hp.
  rewrite (bool_decide_eq_false_2 (_ ∧ _)) by (by intros [? ?]).
  rewrite (bool_decide_eq_true_2 (_ ∧ _)) by done.
  erewrite bind_Ok by (by apply verify_Ok). unfold memory_body. rewrite Hb, bind_lift_Ok, Hfrom. cbn [map_err].
  rewrite bind_lift_Ok. unfold json_response. by rewrite Hj.
Qed.

Lemma delete_route io config request v p size hash response v2 bs secret_hex :
  request.(hr_method) = "DELETE" → request.(hr_path) = file_target p → file_path_of request = Ok p →
  request.(hr_headers) !! "x-syncer-file-size" = Some (pretty (size : Z)) → is_u64 size →
  request.(hr_headers) !! "x-syncer-content-hash" = Some hash →
  authenticated io.(in_verify_now) v.(sv_fs) config.(cfg_peers_path) request secret_hex →
  delete_shared_file io config.(cfg_folder_path) config.(cfg_profile) p size hash v = (Ok response, v2) →
  to_json response = Ok bs →
  route_request io request config v = (Ok (ResponseBytes (binary_response 200 "application/json" bs)), v2).
Proof using SL Type.
  intros Hm Hp Hfp Hs Hu Hh Ha Hrun Hj. unfold route_request. cbv zeta. rewrite Hm, Hp, target_prefix.
  do 3 rewrite (bool_decide_eq_false_2 (_ ∧ _)) by (by intros [? ?]).
  rewrite (bool_decide_eq_false_2 ("DELETE" = "GET")), (bool_decide_eq_false_2 ("DELETE" = "PUT")),
    (bool_decide_eq_true_2 ("DELETE" = "DELETE")) by done. cbn [andb].
  erewrite bind_Ok by (by apply verify_Ok). rewrite Hfp, bind_lift_Ok.
  unfold required_u64_header, required_header. rewrite Hs, Hh. cbn [ok_or mbind result_bind].
  rewrite parse_u64_pretty by done. cbn [ok_or]. rewrite !bind_lift_Ok. erewrite bind_Ok by exact Hrun.
  unfold json_response. by rewrite Hj.
Qed.
End serve.

(** ** The client's side *)

Lemma json_received `{UL : !UuidLib, HL : !HexLib, SH : !Sha256Lib, HM : !HmacLib} {T R}
    `{!SerdeJson T, !SerdeJson R}
    cio method endpoint address target (id : Uuid) secret_hex (value : option T) body extra request answer (r : R)
    segs c :
  match value with Some x => to_json x = Ok body | None => body = [] end →
  parse_address endpoint = Ok address → cio.(ci_connect) address.(pa_host) address.(pa_port) = Ok tt →
  signed_request_header cio (json_request method endpoint target id secret_hex body extra) = Ok request →
  filled segs → mjoin segs = binary_response 200 "application/json" answer →
  Z.of_nat (length answer) ≤ 1024 * 1024 → from_json answer = Ok r →
  request_json cio method endpoint target (uuid_to_string id) secret_hex value extra (with_cl_stream (arrives segs) c)
  = (Ok r, {| cl_stream := []; cl_sent := c.(cl_sent) ++ bytes request ++ body; cl_fs := c.(cl_fs) |}).
Proof.
  intros Hbody Haddr Hconn Hreq Hf Hj Hlen Hfrom. unfold request_json.
  assert ((match value with Some x => map_err ClientJson (to_json x) | None => Ok [] end)
    = (Ok body : result PeerClientError _)) as ->.
  { destruct value; [by rewrite Hbody|by subst body]. }
  rewrite bind_lift_Ok. unfold request_bytes. fold (json_request method endpoint target id secret_hex body extra).
  rewrite M_bind_eq. cbn [json_request rq_endpoint rq_body]. rewrite Haddr, bind_lift_Ok, Hreq, bind_lift_Ok.
  unfold connect. rewrite Hconn. cbn [map_err]. rewrite bind_lift_Ok.
  unfold cl_send, modify. rewrite !M_bind_eq. cbn [with_cl_stream cl_stream cl_sent cl_fs].
  erewrite on_cl_stream_run; [|cbn [cl_stream]; apply read_to_end_run; [done|rewrite Hj; by apply json_response_short]].
  unfold lift. rewrite Hj, json_answer, Hfrom. cbn [map_err with_cl_stream cl_fs cl_sent]. by rewrite <-app_assoc.
Qed.

(** ** A request fits the limit of the server *)

Definition fields_length (fields : list (string * string)) : nat :=
  length (mjoin ((λ nv, field_line nv ++ [cr; lf]) <$> fields)).

Lemma signed_request_short `{UL : !UuidLib, HL : !HexLib, HW : !HexLaws, SH : !Sha256Lib, HM : !HmacLib, HH : !HmacLaws}
    cio endpoint address method target (id : Uuid) secret_hex secret body extra :
  parse_address endpoint = Ok address → hex_decode secret_hex = Ok secret → hmac_key_ok secret = true →
  (length (bytes method) ≤ 16)%nat → Z.of_nat (length (bytes target)) ≤ 8192 →
  Z.of_nat (length (bytes address.(pa_host))) ≤ 1024 → (length (bytes (uuid_to_string id)) ≤ 64)%nat →
  is_i64 (unix_timestamp cio.(ci_now)) → is_u64 (Z.of_nat (length body)) → (fields_length extra ≤ 1024)%nat →
  ∃ request, signed_request_header cio (json_request method endpoint target id secret_hex body extra) = Ok request
  ∧ Z.of_nat (length (bytes request)) ≤ 12288.
Proof.
  intros Haddr Hsec Hkey Hm Ht Hh Hi Htime Hb Hx.
  assert (∃ signature, sign_request method target (uuid_to_string id) (unix_timestamp cio.(ci_now)) body secret_hex
    = Ok signature) as [signature Hsig].
  { unfold sign_request, sign_request_with_body_hash_hex. rewrite Hsec. cbn [map_err mbind result_bind].
    rewrite Hkey. by eexists. }
  assert (∃ request, signed_request_header cio (json_request method endpoint target id secret_hex body extra)
    = Ok request) as [request Hreq].
  { unfold signed_request_header. cbn [json_request rq_endpoint rq_method rq_path rq_device_id rq_body
      rq_shared_secret_hex]. rewrite Haddr. cbn [mbind result_bind]. cbv zeta. rewrite Hsig. by eexists. }
  exists request. split; [done|].
  destruct (signed_header_text cio endpoint address method target id secret_hex body extra request Haddr Hreq)
    as (signature' & Hsig' & ->).
  assert (length (bytes signature') = 64%nat) as Hsl by (by eapply signature_length).
  apply pretty_i64_length in Htime. apply pretty_u64_length in Hb.
  unfold message_head, message_lines. change header_separator with ([cr; lf] ++ [cr; lf]).
  rewrite app_assoc, join_crlf_lines. unfold sent_fields. rewrite !fmap_app, !join_app.
  unfold request_fields, field_line. cbn [fmap list_fmap mjoin list_join fst snd app].
  unfold fields_length in Hx. unfold field_line in Hx.
  repeat (rewrite ?length_app; cbn [length]). rewrite Hsl.
  set (x1 := length (bytes method)) in *. set (x2 := length (bytes target)) in *.
  set (x3 := length (bytes address.(pa_host))) in *. set (x4 := length (bytes (uuid_to_string id))) in *.
  set (x5 := length (bytes (pretty (unix_timestamp (ci_now cio))))) in *.
  set (x6 := length (bytes (pretty (Z.of_nat (length body))))) in *.
  set (x7 := length (mjoin _)) in *. clearbody x1 x2 x3 x4 x5 x6 x7.
  cbn [length bytes String.list_ascii_of_string]. lia.
Qed.
