(* ===== verification/PeerWitness.v ===== *)
(** * Witnesses of the peer protocol: two small machines *)

From S2P Require Import Prelude RustStd External Error Manifest Limits Model Records Planning StateDb StateDbFacts StateDbSpec FileSys FolderStore Scanner ScannerSpec PathCodec RequestSigning PeerCrypto PeerStore HttpText PeerRequest PeerRequestSpec PeerServer PeerServerSpec PeerUploadSpec PeerSharedSpec PeerClient PeerClientSpec PeerExchangeSpec PeerPutSpec.
From stdpp Require Import options pretty.
Local Open Scope Z_scope.

Module PeerWitness.
Import Sample SampleFs FolderStore.Witness PeerCrypto.Witness.
#[local] Existing Instance w_reads.
#[local] Existing Instance w_reads_laws.

(** A serialiser of one text for the structs no witness reads back. *)
Definition constant_json (A : Type) : SerdeJson A :=
  {| to_json := λ _, Ok (bytes "{}"); from_json := λ _, Err "syntax" |}.
#[local] Instance unit_json : SerdeJson unit := constant_json _.
#[local] Instance presence_json : SerdeJson PeerPresence := constant_json _.
#[local] Instance manifest_json : SerdeJson FolderManifest := constant_json _.
#[local] Instance health_json : SerdeJson HealthResponse := constant_json _.
#[local] Instance presence_response_json : SerdeJson PresenceResponse := constant_json _.
#[local] Instance error_json : SerdeJson ErrorResponse := constant_json _.
#[local] Instance delete_json : SerdeJson DeleteFileResponse := constant_json _.

Definition w_secret : list ascii := replicate 32 dot.
Definition w_secret_hex : string := hex_encode w_secret.
Definition w_peers : PeerStoreDocument :=
  {| sd_schema_version := 1;
     sd_peers := [{| tp_device_id := 7%N; tp_device_name := "Phone"; tp_endpoint := "http://phone:9000";
                     tp_identity_public_hex := ""; tp_shared_secret_hex := w_secret_hex; tp_trusted_at := 0 |}] |}.
#[local] Instance peers_json : SerdeJson PeerStoreDocument :=
  {| to_json := λ _, Ok (bytes "[]"); from_json := λ _, Ok w_peers |}.

Definition w_profile : LocalDeviceProfile :=
  {| lp_device_id := 1%N; lp_device_name := {| device_name := "Laptop" |}; lp_created_at := 0;
     lp_local_api_token_hex := ""; lp_identity_public_hex := "p"; lp_identity_secret_hex := "s" |}.
Definition w_config : PeerServerConfig :=
  {| cfg_bind := "0.0.0.0:8080"; cfg_folder_path := "/data"; cfg_peers_path := "/peers.json";
     cfg_profile := w_profile |}.

(** The server: a configured folder with one file. *)
Definition w_k (names : list string) : Key := RootDir :: (Normal <$> names).
Definition w_disk : FS := list_to_map
  [(w_k ["peers.json"], EFile (bytes "[]") None); (w_k ["data"], EDir);
   (w_k ["data"; "a.txt"], EFile (bytes "hello") (Some 5000000000));
   (w_k ["data"; ".syncer"], EDir); (w_k ["data"; ".syncer"; "folder.json"], EFile (bytes "{}") None)].
Definition w_server : Server := {| sv_stream := []; sv_sent := []; sv_fs := w_disk; sv_db := db_empty |}.

Definition w_io : Inputs :=
  {| in_fs_now := 5; in_verify_now := 100 * nanos_per_second; in_sent_at := 0; in_generated_at := 0;
     in_modified_at := 0; in_db_now := 3; in_scan_now := λ _, 100; in_scan_now_utc := λ _, 0; in_scan_end := 200;
     in_body_id := 21%N; in_plain_id := 22%N; in_response_id := 23%N;
     in_nonce_prefix := replicate 16 dot |}.

(** The client: a directory with a file to upload. *)
Definition w_client : Client :=
  {| cl_stream := []; cl_sent := [];
     cl_fs := list_to_map [(w_k ["c"], EDir); (w_k ["c"; "up.txt"], EFile (bytes "new") None)] |}.
Definition w_cio : ClientInputs :=
  {| ci_fs_now := 5; ci_now := 0; ci_file_id := 31%N; ci_nonce_prefix := replicate 16 dot;
     ci_connect := λ _ _, Ok tt |}.
Definition w_endpoint : string := "http://laptop:8080".
Definition w_address : PeerAddress := {| pa_host := "laptop"; pa_port := 8080 |}.

(** ** Facts of the two machines *)

Definition dir_check (fs : FS) (k : Key) : bool :=
  forallb (λ j, match fs !! take j k with None | Some EDir => true | _ => false end) (seq 1 (length k)).
Lemma on_way_check fs dir : dir_check fs dir = true → ∀ k, on_way [] dir k → dir_or_none (fs !! k).
Proof.
  intros H k (a & b & Ha & -> & ->). unfold dir_check in H. rewrite forallb_forall in H.
  specialize (H (length a)). rewrite take_app_length in H. simpl.
  destruct (fs !! a) as [[]|] eqn:E; [|by right| |by left]; exfalso;
    (assert (false = true); [apply H|done]); apply in_seq; rewrite length_app; destruct a; simpl in *; (done || lia).
Qed.

Lemma w_disk_scannable : scannable w_disk (scanner_new "/data" 1%N).
Proof. apply ScannerSpec.Witness.scannable_check; [apply fs_wf_check| |]; vm_compute; reflexivity. Qed.

Lemma w_document_read : folder_store_read (folder_store_new "/data") w_disk = (Ok w_document, w_disk).
Proof. rewrite read_eq. by f_equal. Qed.

Lemma w_servable : servable w_io "/data" w_profile 0 w_server w_document.
Proof.
  constructor; [exact w_document_read|exact w_disk_scannable|by exists (bytes "[]")|done|apply db_empty_wf].
Qed.

Lemma w_served_seen : seen_file w_disk (scanner_new "/data" 1%N) ["a.txt"] (bytes "hello") (Some 5000000000).
Proof. exists [], "a.txt". split; [done|]. split; [constructor|]. split; vm_compute; reflexivity. Qed.

Lemma w_canonical n : bool_decide (valid_name n) = true → n ≠ ".syncer" → canonical ([] ++ [n]) {| rel_str := n |}.
Proof.
  intros Hv%bool_decide_eq_true Hn. split_and!; [done|by constructor|simpl; congruence|].
  unfold join_with. simpl. by rewrite of_bytes_bytes.
Qed.

Lemma w_trusted : trusted w_io.(in_verify_now) w_cio.(ci_now) w_disk "/peers.json" 7%N w_secret_hex.
Proof.
  constructor; [done|by split; vm_compute|by vm_compute|].
  eexists w_peers, w_disk, _. split; [|split; vm_compute; reflexivity].
  apply injective_projections; [vm_compute; reflexivity|apply read_or_default_reads].
Qed.

Lemma w_one_chunk c : c ≠ [] → chunk_len c ≤ CHUNK_SIZE → full_reads c (reads c).
Proof.
  intros Hc Hl. destruct c as [|a c]; [done|]. unfold reads, w_reads. split_and!.
  - cbn. by rewrite app_nil_r.
  - split; [lia|]. simpl. lia.
  - by repeat constructor.
Qed.

Definition w_answer : UploadFileResponse :=
  {| uf_accepted := true; uf_path := {| rel_str := "up.txt" |}; uf_size_bytes := 3; uf_content_hash := "new" |}.
#[local] Instance UploadFileResponse_eq_dec : EqDecision UploadFileResponse.
Proof. solve_decision. Defined.
#[local] Instance upload_json : SerdeJson UploadFileResponse :=
  {| to_json := λ r, if decide (r = w_answer) then Ok (bytes "{up}") else Err "other";
     from_json := λ _, Err "syntax" |}.
#[local] Instance client_upload_json : SerdeJson ClientUploadResponse :=
  {| to_json := λ _, Err "other"; from_json := λ _, Ok (client_view w_answer) |}.
#[local] Instance w_wire : UploadWire.
Proof. constructor. intros r bs. simpl. destruct (decide (r = w_answer)) as [->|]; [|done]. by intros [= <-]. Qed.

(** ** Requests from end to end *)

Definition w_fetch : PeerRequest :=
  {| rq_method := "GET"; rq_endpoint := w_endpoint; rq_path := file_target {| rel_str := "a.txt" |};
     rq_device_id := uuid_to_string 7%N; rq_shared_secret_hex := w_secret_hex; rq_body := [];
     rq_extra_headers := [] |}.
Definition w_fetch_text : string := default "" (result_ok (signed_request_header w_cio w_fetch)).

Lemma download_end_to_end_witness :
  ∃ answer fs', (∀ segs, filled segs → mjoin segs = bytes w_fetch_text → ∃ db',
    handle_stream w_io w_config (with_stream (arrives segs) w_server)
    = (Ok tt, {| sv_stream := []; sv_sent := answer; sv_fs := w_disk; sv_db := db' |}))
  ∧ (fetch_file_to_path w_cio w_endpoint "7" w_secret_hex {| rel_str := "a.txt" |} 5 "/c/out.txt"
       (with_cl_stream (arrives ((λ a, [a]) <$> answer)) w_client)).2.(cl_fs) = fs'
  ∧ holds "/c/out.txt" (bytes "hello") fs'.
Proof.
  destruct (download_end_to_end w_io w_config w_cio w_endpoint w_address 7%N w_secret_hex w_secret w_fetch_text
    {| rel_str := "a.txt" |} [] "a.txt" (bytes "hello") (Some 5000000000) w_server w_document 0 "/c/out.txt" w_client)
    as (answer & Hserve & Hfetch).
  - apply w_canonical; [vm_compute; reflexivity|discriminate].
  - vm_compute. reflexivity.
  - vm_compute. reflexivity.
  - exact w_servable.
  - exact w_served_seen.
  - exact w_trusted.
  - apply hex_decode_encode.
  - reflexivity.
  - reflexivity.
  - apply w_one_chunk; [discriminate|vm_compute; discriminate].
  - split; [repeat constructor|simpl; lia].
  - vm_compute. reflexivity.
  - vm_compute. reflexivity.
  - split; [repeat constructor|vm_compute; reflexivity].
  - reflexivity.
  - vm_compute. reflexivity.
  - vm_compute. discriminate.
  - vm_compute. discriminate.
  - left. vm_compute. reflexivity.
  - left. vm_compute. reflexivity.
  - vm_compute. reflexivity.
  - vm_compute. reflexivity.
  - destruct (Hfetch ((λ a, [a]) <$> answer)) as (fs' & Hrun & Hh & _).
    + apply Forall_fmap, Forall_true. intros a. discriminate.
    + clear. induction answer as [|a l IH]; [reflexivity|]. cbn. f_equal. exact IH.
    + exists answer, fs'. split; [exact Hserve|]. split; [|exact Hh].
      exact (f_equal (λ r, cl_fs r.2) Hrun).
Defined.

Lemma w_spool_ready : spool_ready "/data" 21%N w_disk.
Proof.
  constructor; [apply on_way_check; vm_compute; reflexivity|left; vm_compute; reflexivity].
Qed.

Lemma w_upload_ready id n : bool_decide (valid_name n) = true → n ≠ ".syncer" →
  w_disk !! components (path_push "/data" n) = None →
  w_disk !! components (plain_path "/data" id) = None →
  upload_ready {| in_fs_now := 5; in_verify_now := 100 * nanos_per_second; in_sent_at := 0; in_generated_at := 0;
     in_modified_at := 0; in_db_now := 3; in_scan_now := λ _, 100; in_scan_now_utc := λ _, 0; in_scan_end := 200;
     in_body_id := 21%N; in_plain_id := id; in_response_id := 23%N; in_nonce_prefix := replicate 16 dot |}
    "/data" {| rel_str := n |} [] w_disk.
Proof.
  intros Hv Hn Hf Hp. constructor.
  - apply on_way_check. vm_compute. reflexivity.
  - by left.
  - exact Hf.
  - apply on_way_check. vm_compute. reflexivity.
  - exists w_document. exact w_document_read.
Qed.

Lemma upload_end_to_end_witness :
  ∃ request answered row fs', handle_stream w_io w_config (with_stream (arrives ((λ a, [a]) <$> request)) w_server)
    = (Ok tt, {| sv_stream := []; sv_sent := answered; sv_fs := fs'; sv_db := with_files <["up.txt" := row]> db_empty |})
  ∧ holds "/data/up.txt" (bytes "new") fs'
  ∧ (put_file_from_path w_cio w_endpoint "7" w_secret_hex {| rel_str := "up.txt" |} "new" "/c/up.txt" 3
       (with_cl_stream (arrives ((λ a, [a]) <$> answered)) w_client)).1 = Ok (client_view w_answer).
Proof.
  assert (∀ l : list ascii, filled ((λ a, [a]) <$> l) ∧ mjoin ((λ a, [a]) <$> l) = l) as Hcut.
  { intros l. split; [apply Forall_fmap, Forall_true; intros a; discriminate|].
    induction l as [|a l IH]; [reflexivity|]. cbn. f_equal. exact IH. }
  assert (∃ st, folder_status db_empty = (Ok st, db_empty) ∧ st.(fs_indexed_bytes) = 0) as (st & Hst & Hb)
    by (eexists; split; vm_compute; reflexivity).
  destruct (upload_end_to_end w_io w_config w_cio w_endpoint w_address 7%N w_secret_hex w_secret
    {| rel_str := "up.txt" |} [] "up.txt" (bytes "new") "/c/up.txt" None None (bytes "[]") w_server w_document st
    (bytes "[]") (bytes "{up}") w_client) as (request & answered & Hserve & Hput).
  - apply w_canonical; [vm_compute; reflexivity|discriminate].
  - vm_compute. reflexivity.
  - vm_compute. reflexivity.
  - apply (w_upload_ready 22%N); [vm_compute; reflexivity|discriminate|vm_compute; reflexivity..].
  - exact w_spool_ready.
  - exact w_trusted.
  - vm_compute. reflexivity.
  - vm_compute. discriminate.
  - exact w_document_read.
  - exact Hst.
  - rewrite Hb. vm_compute. discriminate.
  - reflexivity.
  - vm_compute. reflexivity.
  - vm_compute. discriminate.
  - apply hex_decode_encode.
  - reflexivity.
  - reflexivity.
  - reflexivity.
  - apply w_one_chunk; [discriminate|vm_compute; discriminate].
  - vm_compute. discriminate.
  - split; [repeat constructor|simpl; lia].
  - vm_compute. reflexivity.
  - split; [repeat constructor|vm_compute; reflexivity].
  - constructor; [vm_compute; discriminate|vm_compute; discriminate|simpl; lia].
  - reflexivity.
  - vm_compute. reflexivity.
  - vm_compute. discriminate.
  - vm_compute. reflexivity.
  - vm_compute. reflexivity.
  - destruct (Hserve ((λ a, [a]) <$> request)) as (row & fs' & Hrun & _ & _ & _ & Hh & _); [apply Hcut|apply Hcut|].
    exists request, answered, row, fs'. split; [exact Hrun|]. split; [exact Hh|].
    exact (f_equal fst (Hput ((λ a, [a]) <$> answered) (proj1 (Hcut answered)) (proj2 (Hcut answered)))).
Defined.

(** ** What the server promises *)

(** The name of a response file ends in [.enc]. *)
Lemma w_not_response p : w_k ["data"; "a.txt"] ≠ components (response_path w_io "/data" p).
Proof.
  unfold response_path. set (path := path_push "/data" (rel_str p)).
  pose proof (components_shaped path) as Hs.
  assert (last (w_k ["data"; "a.txt"]) = Some (Normal "a.txt")) as Hl by reflexivity.
  destruct (components path) as [|c d _] eqn:E using rev_ind.
  { unfold with_extension. rewrite E. simpl. rewrite E. discriminate. }
  intros Eq. rewrite Eq in Hl. destruct c as [| | |name].
  1-3: unfold with_extension in Hl; rewrite E, reverse_snoc, E, last_snoc in Hl; discriminate.
  erewrite with_extension_key in Hl; [|exact E| | |].
  - rewrite last_snoc in Hl. injection Hl as Hl. apply (f_equal (λ s, last (bytes s))) in Hl.
    unfold response_name in Hl. rewrite !bytes_app, !last_app in Hl. vm_compute in Hl. discriminate.
  - by eapply shaped_last_valid.
  - by apply (bool_decide_eq_true_1 (_ ∉ _)); vm_compute.
  - vm_compute. lia.
Qed.

Definition w_put_headers : list (string * string) := [("content-length", "3"); ("connection", "close")].
Definition w_put_segs : list (list ascii) :=
  [message_head "PUT" "/file/x.txt" w_put_headers ++ bytes "a"; bytes "bc"].

Lemma w_put_ok : message_ok "PUT" "/file/x.txt" w_put_headers.
Proof.
  constructor.
  - split; [repeat constructor|discriminate].
  - split; [repeat constructor|]. split; [discriminate|]. apply (bool_decide_eq_true_1 (_ ∉ _)). vm_compute. reflexivity.
  - constructor; [apply token_field; [reflexivity|repeat constructor]|].
    constructor; [apply token_field; [reflexivity|repeat constructor]|constructor].
  - apply (bool_decide_eq_true_1 (NoDup _)). vm_compute. reflexivity.
Qed.

Lemma request_reassembled_witness :
  ∃ request fs', read_request 5 21%N w_config (with_stream (arrives w_put_segs) w_server)
    = (Ok request, with_fs fs' (with_stream [] w_server))
  ∧ request.(hr_method) = "PUT" ∧ spooled "/data" 21%N (bytes "abc") w_disk fs'.
Proof.
  destruct (request_reassembled 5 21%N w_config "PUT" "/file/x.txt" w_put_headers (bytes "abc") w_put_segs w_server)
    as [_ H].
  - exact w_put_ok.
  - vm_compute. discriminate.
  - vm_compute. reflexivity.
  - repeat constructor; discriminate.
  - vm_compute. reflexivity.
  - destruct H as (fs' & Hrun & Hs); [vm_compute; reflexivity|vm_compute; discriminate|exact w_spool_ready|].
    eexists _, fs'. split; [exact Hrun|]. split; [reflexivity|exact Hs].
Defined.

Lemma rejected_upload_leaves_body_witness :
  ∃ answer fs', handle_stream w_io w_config (with_stream (arrives w_put_segs) w_server)
    = (Ok tt, {| sv_stream := []; sv_sent := answer; sv_fs := fs'; sv_db := db_empty |})
  ∧ holds (body_path "/data" 21%N) (bytes "abc") fs'.
Proof.
  destruct (rejected_upload_leaves_body w_io w_config "/file/x.txt" w_put_headers (bytes "abc") w_put_segs w_server)
    as (er & answer & fs' & _ & _ & Hrun & Hs).
  - exact w_put_ok.
  - reflexivity.
  - vm_compute. discriminate.
  - vm_compute. reflexivity.
  - split; [reflexivity|vm_compute; discriminate].
  - apply (bool_decide_eq_true_1 (_ ∉ _)). vm_compute. reflexivity.
  - repeat constructor; discriminate.
  - vm_compute. reflexivity.
  - exact w_spool_ready.
  - exists answer, fs'. split; [exact Hrun|exact (proj1 Hs)].
Defined.

Lemma server_never_overwrites_witness :
  (handle_stream w_io w_config (with_stream (arrives w_put_segs) w_server)).2.(sv_fs)
    !! w_k ["data"; "a.txt"] = Some (EFile (bytes "hello") (Some 5000000000))
  ∨ ∃ request v1, deletes (w_k ["data"; "a.txt"]) w_io w_config v1 request.
Proof.
  destruct (server_never_overwrites w_io w_config (with_stream (arrives w_put_segs) w_server)
    (w_k ["data"; "a.txt"]) (EFile (bytes "hello") (Some 5000000000))) as [H|(request & v1 & _ & H)].
  - vm_compute. reflexivity.
  - intros [E|[E|[p E]]].
    + vm_compute in E. discriminate E.
    + vm_compute in E. discriminate E.
    + revert E. apply w_not_response.
  - left. exact H.
  - right. exists request, v1. exact H.
Defined.

Definition w_unsigned : HttpRequest :=
  {| hr_method := "DELETE"; hr_path := "/file/a.txt"; hr_headers := ∅; hr_body_sha256_hex := ""; hr_body := Memory [] |}.

Lemma unauthenticated_gets_nothing_witness :
  (∀ secret, ¬ authenticated w_io.(in_verify_now) w_disk "/peers.json" w_unsigned secret)
  ∧ (route_request w_io w_unsigned w_config w_server).2 = w_server.
Proof.
  assert (∀ secret, ¬ authenticated w_io.(in_verify_now) w_disk "/peers.json" w_unsigned secret) as Hno.
  { intros secret. apply unsigned_not_authenticated. reflexivity. }
  split; [exact Hno|]. exact (proj1 (unauthenticated_gets_nothing w_io w_unsigned w_config w_server Hno)).
Defined.

Lemma deletion_guarded_witness :
  (delete_shared_file w_io "/data" w_profile {| rel_str := "a.txt" |} 5 "hello" w_server).2.(sv_fs)
    = delete (w_k ["data"; "a.txt"]) w_disk
  ∧ (delete_shared_file w_io "/data" w_profile {| rel_str := "a.txt" |} 5 "other" w_server).1 = Err TargetConflict.
Proof.
  assert (canonical ["a.txt"] {| rel_str := "a.txt" |}) as Hp
    by (apply (w_canonical "a.txt"); [vm_compute; reflexivity|discriminate]).
  assert ("hello" = blake3_hex (bytes "hello")) as Hh by (vm_compute; reflexivity).
  split.
  - destruct (proj1 (deletion_guarded w_io "/data" w_profile 0 w_server w_document ["a.txt"] {| rel_str := "a.txt" |}
      5 "hello" w_servable Hp) (bytes "hello") _ w_served_seen eq_refl Hh) as (db' & H & _).
    exact (f_equal (λ r, r.2.(sv_fs)) H).
  - destruct (proj1 (proj2 (deletion_guarded w_io "/data" w_profile 0 w_server w_document ["a.txt"]
      {| rel_str := "a.txt" |} 5 "other" w_servable Hp)) (bytes "hello") _ w_served_seen) as (db' & H).
    + intros [_ E]. vm_compute in E. discriminate E.
    + exact (f_equal fst H).
Defined.

(** Two senders of one path, each with its body in a file. *)
Definition w_second : Inputs :=
  {| in_fs_now := 5; in_verify_now := 100 * nanos_per_second; in_sent_at := 0; in_generated_at := 0;
     in_modified_at := 0; in_db_now := 3; in_scan_now := λ _, 100; in_scan_now_utc := λ _, 0; in_scan_end := 200;
     in_body_id := 21%N; in_plain_id := 24%N; in_response_id := 23%N; in_nonce_prefix := replicate 16 dot |}.
Definition w_context (content : list ascii) : FileCipherContext :=
  {| cc_direction := "upload"; cc_path := {| rel_str := "x.txt" |}; cc_content_hash := blake3_hex content;
     cc_plaintext_size := chunk_len content |}.
Definition w_body (path : string) (out : list ascii) : FileBody :=
  {| fb_path := path; fb_size_bytes := chunk_len out; fb_sha256_hex := "" |}.

Lemma w_ciphertext content : content ≠ [] → chunk_len content ≤ CHUNK_SIZE →
  ∃ out, ciphertext_of w_secret_hex (replicate 16 dot) (w_context content) content out.
Proof.
  intros Hc Hl.
  destruct (encrypt_file_run 5 (<[[Normal "s"] := EFile content None]> ∅) "s" "e" w_secret_hex _ (replicate 16 dot)
    (w_context content) content None (derive_key_ok _ w_secret (hex_decode_encode _) eq_refl))
    as (out & _ & _ & Hct & _).
  - reflexivity.
  - change (components "s") with [Normal "s"]. apply lookup_insert_eq.
  - by apply w_one_chunk.
  - reflexivity.
  - unfold CHUNK_SIZE, i64_max in *. lia.
  - left. change (components "e") with [Normal "e"]. by rewrite lookup_insert_ne.
  - reflexivity.
  - by exists out.
Qed.

Lemma concurrent_uploads_overwrite_witness :
  ∃ v v3 v4, holds "/data/x.txt" (bytes "one") v3.(sv_fs) ∧ holds "/data/x.txt" (bytes "two") v4.(sv_fs)
  ∧ recorded {| rel_str := "x.txt" |} (bytes "two") v3.(sv_db) v4.(sv_db)
  ∧ ∃ rA rB v1 v2 bodyA bodyB,
      receive_upload w_io "/data" {| rel_str := "x.txt" |} 3 "one"
        {| ue_shared_secret_hex := w_secret_hex; ue_nonce_hex := hex_encode (replicate 16 dot) |} bodyA v = (Ok rA, v1)
    ∧ receive_upload w_second "/data" {| rel_str := "x.txt" |} 3 "two"
        {| ue_shared_secret_hex := w_secret_hex; ue_nonce_hex := hex_encode (replicate 16 dot) |} bodyB v1 = (Ok rB, v2)
    ∧ commit_upload w_io "/data" w_profile {| rel_str := "x.txt" |} 3 "one" rA.1 rA.2 v2
      = (Ok {| uf_accepted := true; uf_path := {| rel_str := "x.txt" |}; uf_size_bytes := 3; uf_content_hash := "one" |}, v3)
    ∧ commit_upload w_second "/data" w_profile {| rel_str := "x.txt" |} 3 "two" rB.1 rB.2 v3
      = (Ok {| uf_accepted := true; uf_path := {| rel_str := "x.txt" |}; uf_size_bytes := 3; uf_content_hash := "two" |}, v4).
Proof.
  destruct (w_ciphertext (bytes "one")) as [outA HA]; [discriminate|vm_compute; discriminate|].
  destruct (w_ciphertext (bytes "two")) as [outB HB]; [discriminate|vm_compute; discriminate|].
  assert (∃ st, folder_status db_empty = (Ok st, db_empty) ∧ st.(fs_indexed_bytes) = 0) as (st & Hst & Hb)
    by (eexists; split; vm_compute; reflexivity).
  set (disk := <[w_k ["one"] := EFile outA None]> (<[w_k ["two"] := EFile outB None]> w_disk)).
  assert (∀ id, uuid_to_string id +:+ ".plain" ≠ "" → w_disk !! components (plain_path "/data" id) = None →
    upload_ready {| in_fs_now := 5; in_verify_now := 100 * nanos_per_second; in_sent_at := 0; in_generated_at := 0;
     in_modified_at := 0; in_db_now := 3; in_scan_now := λ _, 100; in_scan_now_utc := λ _, 0; in_scan_end := 200;
     in_body_id := 21%N; in_plain_id := id; in_response_id := 23%N; in_nonce_prefix := replicate 16 dot |}
    "/data" {| rel_str := "x.txt" |} [] disk) as Hready.
  { intros id _ Hplain. constructor.
    - apply on_way_check. vm_compute. reflexivity.
    - left. cbn [in_plain_id]. unfold disk. rewrite !lookup_insert_ne; [exact Hplain|..]; rewrite plain_key; discriminate.
    - vm_compute. reflexivity.
    - apply on_way_check. vm_compute. reflexivity.
    - exists w_document. rewrite read_eq. by f_equal. }
  destruct (concurrent_uploads_overwrite w_io w_second "/data" w_profile {| rel_str := "x.txt" |} [] "x.txt"
    w_secret_hex w_secret_hex (replicate 16 dot) (replicate 16 dot) (bytes "one") (bytes "two") outA outB
    (w_body "/one" outA) (w_body "/two" outB) None None
    {| sv_stream := []; sv_sent := []; sv_fs := disk; sv_db := db_empty |} w_document st (bytes "[]"))
    as (rA & rB & v1 & v2 & v3 & v4 & H1 & H2 & H3 & H4 & _ & Hdb & H5 & H6).
  - apply w_canonical; [vm_compute; reflexivity|discriminate].
  - apply (Hready 22%N); [discriminate|vm_compute; reflexivity].
  - apply (Hready 24%N); [discriminate|vm_compute; reflexivity].
  - vm_compute. discriminate.
  - exact HA.
  - exact HB.
  - vm_compute. reflexivity.
  - reflexivity.
  - vm_compute. reflexivity.
  - reflexivity.
  - vm_compute. discriminate.
  - vm_compute. discriminate.
  - vm_compute. discriminate.
  - rewrite read_eq. by f_equal.
  - exact Hst.
  - rewrite Hb. vm_compute. discriminate.
  - rewrite Hb. vm_compute. discriminate.
  - reflexivity.
  - exists {| sv_stream := []; sv_sent := []; sv_fs := disk; sv_db := db_empty |}, v3, v4.
    split; [exact H5|]. split; [exact H6|]. split; [exact Hdb|]. exists rA, rB, v1, v2, (w_body "/one" outA), (w_body "/two" outB).
    split; [exact H1|]. split; [exact H2|]. split; [exact H3|exact H4].
Defined.

End PeerWitness.
