(* ===== verification/Agreement.v ===== *)
(** * When two folders hold the same files

    A scanned database holds exactly the files of its folder ([indexed]); of two such
    databases the plan is known path by path: what both folders hold alike is in sync,
    and what only the remote one holds is downloaded. *)

From S2P Require Import Prelude RustStd External Error Manifest Limits Model Records Planning StateDb StateDbFacts StateDbSpec FileSys FolderStore Scanner ScannerSpec PeerSharedSpec.
From stdpp Require Import options.
Local Open Scope Z_scope.

(** ** Folders *)

(** The two folders hold the same files with the same content, but for some names. *)
Definition agree_but (except : list string → Prop) (fs1 : FS) (s1 : LinuxFolderScanner)
    (fs2 : FS) (s2 : LinuxFolderScanner) : Prop :=
  ∀ names c, ¬ except names → (∃ m, seen_file fs1 s1 names c m) ↔ (∃ m, seen_file fs2 s2 names c m).

(** Every entry below the root of the folder lies in a directory. *)
Definition rooted (fs : FS) (scanner : LinuxFolderScanner) : Prop :=
  ∀ names n, is_Some (node fs scanner (names ++ [n])) → node fs scanner names = Some EDir.

Lemma hidden_snoc names n : names ≠ [] → hidden (names ++ [n]) = hidden names.
Proof. by destruct names. Qed.

Lemma walked_visible fs scanner names : walked fs scanner names → names ≠ [] → hidden names = false.
Proof. by induction 1. Qed.

(** Directories are walked as they are in a rooted tree. *)
Lemma walked_rooted fs fs' scanner names : rooted fs scanner → walked fs' scanner names →
  names = [] ∨ node fs scanner names = Some EDir → walked fs scanner names.
Proof.
  intros Hr. induction 1 as [|names n Hw IH _ Hh]; intros Hn; [constructor|].
  destruct Hn as [Hn|Hn]; [by destruct names|]. constructor; [|done|done].
  apply IH. right. by apply (Hr names n); rewrite Hn.
Qed.

Lemma seen_functional fs scanner names c1 m1 c2 m2 :
  seen_file fs scanner names c1 m1 → seen_file fs scanner names c2 m2 → c1 = c2.
Proof. intros (? & ? & _ & _ & _ & H1) (? & ? & _ & _ & _ & H2). congruence. Qed.

(** A name with no entry is the text of no file. *)
Lemma absent_unseen fs scanner names : fs_wf fs → Forall valid_name names → node fs scanner names = None →
  ∀ names' c m, seen_file fs scanner names' c m → join_with slash names ≠ join_with slash names'.
Proof.
  intros Hfs Hvalid Hfree names' c m Hs E. assert (names' = names) as ->.
  { by rewrite <-(path_names_join names'), <-(path_names_join names), E by (done || by eapply seen_valid). }
  destruct Hs as (? & ? & _ & _ & _ & Hnode). congruence.
Qed.

(** ** A file added *)

(** Below [root] and outside its metadata directory only the file and directories came. *)
Definition grown_off (root : string) (names : list string) (fs fs' : FS) : Prop :=
  ∀ others, head others ≠ Some ".syncer" → others ≠ names →
    fs' !! key root others = fs !! key root others
    ∨ (fs !! key root others = None ∧ fs' !! key root others = Some EDir).

(** A file is there that was not, and directories on the way to it. *)
Record file_added (scanner : LinuxFolderScanner) (d : list string) (n : string) (content : list ascii)
    (fs fs' : FS) : Prop := {
  fa_hidden : hidden (d ++ [n]) = false;
  fa_free : node fs scanner (d ++ [n]) = None;
  fa_file : ∃ m, node fs' scanner (d ++ [n]) = Some (EFile content m);
  fa_grown : grown_off scanner.(ls_root) (d ++ [n]) fs fs';
  fa_way : ∀ j, on_way [] (key scanner.(ls_root) d) j → fs' !! j = Some EDir;
}.

Lemma walked_way fs scanner names : (∀ j, on_way [] (key scanner.(ls_root) names) j → fs !! j = Some EDir) →
  head names ≠ Some ".syncer" → walked fs scanner names.
Proof.
  induction names as [|x names IH] using rev_ind; intros Hway Hh; [constructor|].
  assert (hidden (names ++ [x]) = false) as Hhid by (by apply bool_decide_eq_false).
  constructor; [|apply Hway|done].
  - apply IH; [|by destruct names]. intros j (u & w & Hu & E & ->). apply Hway. exists u, (w ++ [Normal x]).
    rewrite key_snoc, E, <-app_assoc. done.
  - exists (key scanner.(ls_root) (names ++ [x])), []. rewrite app_nil_r. split_and!; [|done|done].
    rewrite key_snoc. by destruct (key scanner.(ls_root) names).
Qed.

Section added.
Context (scanner : LinuxFolderScanner) (d : list string) (n : string) (content : list ascii) (fs fs' : FS).
Context (Hadded : file_added scanner d n content fs fs').

Lemma added_kept names e : head names ≠ Some ".syncer" → node fs scanner names = Some e → node fs' scanner names = Some e.
Proof using Hadded.
  intros Hh Hn. destruct (decide (names = d ++ [n])) as [->|Hne]; [by rewrite (fa_free _ _ _ _ _ _ Hadded) in Hn|].
  unfold node in *. destruct (fa_grown _ _ _ _ _ _ Hadded names Hh Hne) as [->|[E _]]; [done|]. by rewrite E in Hn.
Qed.

Lemma added_walked names : walked fs scanner names → walked fs' scanner names.
Proof using Hadded.
  induction 1 as [|names n0 Hw IH Hn Hh]; [constructor|]. constructor; [done| |done].
  apply added_kept; [by apply bool_decide_eq_false in Hh|done].
Qed.

(** The other files are as they were. *)
Lemma added_seen names c : rooted fs scanner → names ≠ d ++ [n] →
  (∃ m, seen_file fs' scanner names c m) ↔ (∃ m, seen_file fs scanner names c m).
Proof using Hadded.
  intros Hroot Hne. split; intros [m (d0 & n0 & -> & Hw & Hhid & Hnode)]; exists m, d0, n0.
  - assert (node fs scanner (d0 ++ [n0]) = Some (EFile c m)) as Hn.
    { unfold node in *. destruct (fa_grown _ _ _ _ _ _ Hadded (d0 ++ [n0])) as [E|[_ E]];
        [by apply bool_decide_eq_false in Hhid|done|by rewrite <-E|by rewrite E in Hnode]. }
    split_and!; [done| |done|done]. eapply walked_rooted; [done|exact Hw|]. right. apply (Hroot d0 n0). by rewrite Hn.
  - split_and!; [done|by apply added_walked|done|]. apply added_kept; [by apply bool_decide_eq_false in Hhid|done].
Qed.

Lemma added_file : ∃ m, seen_file fs' scanner (d ++ [n]) content m.
Proof using Hadded.
  destruct (fa_file _ _ _ _ _ _ Hadded) as [m Hm]. pose proof (fa_hidden _ _ _ _ _ _ Hadded) as Hh.
  exists m, d, n. split_and!; [done| |done|done].
  apply walked_way; [apply (fa_way _ _ _ _ _ _ Hadded)|]. apply bool_decide_eq_false in Hh. by destruct d.
Qed.

(** The folders agree when the file was all that was missing. *)
Lemma added_agree fr sr : rooted fs scanner → agree_but (λ names, names = d ++ [n]) fs scanner fr sr →
  (∃ m, seen_file fr sr (d ++ [n]) content m) → agree_but (λ _, False) fs' scanner fr sr.
Proof using Hadded.
  intros Hroot Hag [m Hm] names c _. destruct added_file as [m' Hm'].
  destruct (decide (names = d ++ [n])) as [->|Hne].
  - split; intros [m2 H2]; [exists m|exists m'].
    + by rewrite (seen_functional _ _ _ _ _ _ _ H2 Hm').
    + by rewrite (seen_functional _ _ _ _ _ _ _ H2 Hm).
  - rewrite (added_seen names c Hroot Hne). by apply Hag.
Qed.
End added.

Lemma agree_but_sym except fs1 s1 fs2 s2 : agree_but except fs1 s1 fs2 s2 → agree_but except fs2 s2 fs1 s1.
Proof. intros Hag names c Hn. by rewrite (Hag names c Hn). Qed.

(** ** Databases *)

Section indexed.
Context `{TL : !TimeLib, SL : !SqlxLib, UL : !UuidLib, SJ : !SerdeJson (list BlockHash), BL : !Blake3Lib}.

(** The database lists no path at which the folder has no file. *)
Definition none_stale (fs : FS) (scanner : LinuxFolderScanner) (db : Database) : Prop :=
  ∀ q, (∀ names c m, seen_file fs scanner names c m → q ≠ join_with slash names) → db.(db_files) !! q = None.

(** It holds every file as it is, and no other. *)
Record indexed (fs : FS) (scanner : LinuxFolderScanner) (db : Database) : Prop := {
  ix_seen : ∀ names c m, seen_file fs scanner names c m →
    ∃ row, db.(db_files) !! join_with slash names = Some row
    ∧ row.(w_sync_state) = "local_available" ∧ row.(w_size_bytes) = Z.of_nat (length c)
    ∧ row.(w_content_hash) = Some (blake3_hex c);
  ix_stale : none_stale fs scanner db;
}.

Lemma scan_indexed now now_utc fs scanner end_now n db s db' :
  none_stale fs scanner db → scan_outcome now now_utc fs scanner end_now n db s db' → indexed fs scanner db'.
Proof using Type.
  intros Hk Hout. constructor.
  - intros names c m Hs. destruct (so_seen _ _ _ _ _ _ _ _ _ Hout _ _ _ Hs) as (row & H1 & _ & H2 & H3 & H4).
    by exists row.
  - intros q Hq. by rewrite (so_missing _ _ _ _ _ _ _ _ _ Hout) by done; rewrite (Hk q Hq).
Qed.

(** A row for the new file is all the database needs. *)
Lemma added_none_stale scanner d n content fs fs' db db' row : file_added scanner d n content fs fs' → rooted fs scanner →
  none_stale fs scanner db → db'.(db_files) = <[join_with slash (d ++ [n]) := row]> db.(db_files) → none_stale fs' scanner db'.
Proof using Type.
  intros Hadded Hroot Hk Hdb q Hq. destruct (added_file _ _ _ _ _ _ Hadded) as [m' Hm'].
  rewrite Hdb, lookup_insert_ne.
  - apply Hk. intros names c m2 H2 ->. destruct (decide (names = d ++ [n])) as [->|Hn]; [by apply (Hq _ _ _ Hm')|].
    destruct (proj2 (added_seen _ _ _ _ _ _ Hadded names c Hroot Hn)) as [m3 H3]; [by exists m2|]. by apply (Hq _ _ _ H3).
  - intros <-. by apply (Hq _ _ _ Hm').
Qed.

Lemma indexed_rows fs scanner db db' : db'.(db_files) = db.(db_files) → indexed fs scanner db → indexed fs scanner db'.
Proof using Type. intros E [Hs Hk]. by constructor; unfold none_stale; rewrite E. Qed.

(** With the row of the new file it holds every file as it is again. *)
Lemma added_indexed scanner d n content fs fs' db db' row : file_added scanner d n content fs fs' → rooted fs scanner →
  indexed fs scanner db → db'.(db_files) = <[join_with slash (d ++ [n]) := row]> db.(db_files) →
  Forall valid_name (d ++ [n]) → fs_wf fs →
  row.(w_sync_state) = "local_available" → row.(w_size_bytes) = Z.of_nat (length content) →
  row.(w_content_hash) = Some (blake3_hex content) → indexed fs' scanner db'.
Proof using Type.
  intros Hadded Hroot [Hseen Hstale] Hdb Hvalid Hfs Hs Hz Hh. constructor; [|by eapply added_none_stale].
  intros names c m Hc. rewrite Hdb. destruct (decide (names = d ++ [n])) as [->|Hne].
  - destruct (added_file _ _ _ _ _ _ Hadded) as [m' Hm']. rewrite (seen_functional _ _ _ _ _ _ _ Hc Hm'). exists row. by rewrite lookup_insert_eq.
  - destruct (proj1 (added_seen _ _ _ _ _ _ Hadded names c Hroot Hne)) as [m0 H0]; [by exists m|].
    rewrite lookup_insert_ne by (eapply absent_unseen; [done|done|apply (fa_free _ _ _ _ _ _ Hadded)|exact H0]).
    by eapply Hseen.
Qed.

(** ** Manifests and plans *)

Lemma record_of_rows db folder device time q :
  record_of {| fm_folder_id := folder; fm_device_id := device; fm_generated_at := time;
               fm_files := file_record <$> file_rows db |} q
  = (λ r, file_record (q, r)) <$> db.(db_files) !! q.
Proof using Type.
  set (manifest := Build_FolderManifest _ _ _ _).
  assert (∀ f, record_of manifest q = Some f → ∃ r, db.(db_files) !! q = Some r ∧ f = file_record (q, r)) as Hf.
  { intros f Hf. apply last_Some_elem_of, list_elem_of_filter in Hf as [Hp Hf]. cbn in Hf.
    apply list_elem_of_fmap in Hf as ([q' r] & -> & Hr%file_rows_elem). cbn in Hp. subst q'. by exists r. }
  destruct (record_of manifest q) as [f|] eqn:E; [by destruct (Hf f eq_refl) as (r & -> & ->)|].
  destruct (db.(db_files) !! q) as [r|] eqn:Hr; [|done]. exfalso.
  destruct (proj2 (record_of_Some manifest q)) as [f Hs]; [|congruence].
  exists (file_record (q, r)). split; [|done]. apply list_elem_of_fmap. exists (q, r).
  split; [done|]. by apply file_rows_elem.
Qed.

(** What a manifest lists of a database. *)
Definition lists (m : FolderManifest) (db : Database) : Prop := m.(fm_files) = file_record <$> file_rows db.

Lemma record_of_listed m db q : lists m db → record_of m q = (λ r, file_record (q, r)) <$> db.(db_files) !! q.
Proof using Type.
  intros Hl. rewrite <-(record_of_rows db m.(fm_folder_id) m.(fm_device_id) m.(fm_generated_at)).
  unfold record_of. cbn [fm_files]. by rewrite <-Hl.
Qed.

Lemma mode_keeps_sync e mode : e.(pe_action) = InSync → (apply_folder_mode e mode).(pe_action) = InSync.
Proof using Type. intros He. unfold apply_folder_mode. rewrite He. by destruct mode. Qed.

(** ** Queuing a plan with one transfer *)

Lemma omap_none {A B} (f : A → option B) l : (∀ x, x ∈ l → f x = None) → omap f l = [].
Proof using Type.
  induction l as [|x l IH]; intros Hl; [done|]. cbn. rewrite (Hl x) by left. apply IH. intros y Hy.
  apply Hl. by right.
Qed.

Lemma planned_rows_one stamps plan e :
  e ∈ plan.(sp_entries) → NoDup (pe_path <$> plan.(sp_entries)) →
  (∀ e', e' ∈ plan.(sp_entries) → e'.(pe_path) ≠ e.(pe_path) → e'.(pe_action) = InSync) →
  ∃ i, planned_rows stamps plan
  = match planned_row plan.(sp_remote_device_id) stamps (i, e) with Some row => [row] | None => [] end.
Proof using Type.
  intros He Hnd Hothers. apply list_elem_of_split in He as (l1 & l2 & E). exists (length l1). unfold planned_rows.
  rewrite E in *. rewrite fmap_app, fmap_cons in Hnd. apply NoDup_app in Hnd as (_ & H1 & [H2 _]%NoDup_cons).
  assert (∀ l, (∀ x, x ∈ l → pe_action x = InSync) → ∀ k,
    omap (planned_row plan.(sp_remote_device_id) stamps) (imap (λ i, pair (k + i)%nat) l) = []) as Hnone.
  { intros l Hl k. apply omap_none. intros x (j & y & -> & Hy)%elem_of_lookup_imap_1. unfold planned_row. cbn.
    by rewrite (Hl y) by (by eapply list_elem_of_lookup_2). }
  rewrite imap_app, omap_app. change (imap pair l1) with (imap (λ i, pair (0 + i)%nat) l1). rewrite (Hnone l1).
  2: { intros x Hx. apply Hothers; [by apply elem_of_app; left|]. intros Eq.
       eapply H1; [by apply list_elem_of_fmap_2|]. rewrite Eq. left. }
  rewrite app_nil_l.
  assert (imap (λ i, pair (length l1 + i)%nat) (e :: l2)
    = (length l1, e) :: imap (λ i, pair (S (length l1) + i)%nat) l2) as ->.
  { rewrite imap_cons. f_equal; [by rewrite Nat.add_0_r|].
    apply imap_ext. intros i x _. unfold compose. f_equal. lia. }
  rewrite omap_cons_eq, (Hnone l2); [by destruct (planned_row _ _ _)|].
  intros x Hx. apply Hothers; [by apply elem_of_app; right; right|]. intros Eq. apply H2. rewrite <-Eq.
  by apply list_elem_of_fmap_2.
Qed.

Lemma planned_rows_none stamps plan :
  (∀ e, e ∈ plan.(sp_entries) → e.(pe_action) = InSync) → planned_rows stamps plan = [].
Proof using Type.
  intros Hall. apply omap_none. intros x (i & e & -> & He%list_elem_of_lookup_2)%elem_of_lookup_imap_1.
  unfold planned_row. cbn. by rewrite (Hall e He).
Qed.

(** What is queued with the remote machine afterwards is what the plan gives. *)
Lemma enqueue_rows count stamps plan rows db :
  db_wf count db → planned_rows stamps plan = rows → forallb row_fits rows = true → count ≤ i64_max →
  let db' := with_operations (λ old, delete_open plan.(sp_remote_device_id) old ++ rows) db in
  db_wf count db' → ∃ status, enqueue_sync_plan stamps plan db = (Ok status, db').
Proof using Type.
  intros Hwf Hrows Hfits Hn db' Hwf'.
  assert (db_wf count (with_operations (delete_open plan.(sp_remote_device_id)) db)) as Hwf0 by (by apply delete_open_wf).
  unfold enqueue_sync_plan. rewrite M_bind_eq. unfold in_transaction. rewrite M_bind_eq. unfold modify at 1. cbn iota.
  pose proof (enqueue_loop plan.(sp_remote_device_id) stamps (imap pair plan.(sp_entries)) _ (wf_ids _ _ Hwf0)) as Hloop.
  cbn zeta in Hloop. unfold planned_rows in Hrows. rewrite Hrows, Hfits in Hloop.
  rewrite bool_decide_eq_true_2 in Hloop by exact (wf_ids _ _ Hwf'). cbn [andb] in Hloop. rewrite Hloop.
  rewrite (queue_status_wf count); [by eexists|done|exact Hwf'].
Qed.

Lemma enqueue_one count stamps plan row db :
  db_wf count db → planned_rows stamps plan = [row] → row_fits row = true → op_row_ok count row →
  row.(o_id) ∉ (o_id <$> db.(db_operations)) → count ≤ i64_max →
  let db' := with_operations (λ rows, delete_open plan.(sp_remote_device_id) rows ++ [row]) db in
  (∃ status, enqueue_sync_plan stamps plan db = (Ok status, db')) ∧ db_wf count db'.
Proof using Type.
  intros Hwf Hrows Hfits Hok Hid Hn db'.
  assert (db_wf count (with_operations (delete_open plan.(sp_remote_device_id)) db)) as Hwf0 by (by apply delete_open_wf).
  assert (db_wf count db') as Hwf'.
  { apply (wf_with_operations count); [| |done].
    - apply Forall_app. split; [apply Hwf0|by constructor].
    - rewrite fmap_app. apply NoDup_app. split_and!; [apply Hwf0| |apply NoDup_singleton].
      intros x Hx ->%list_elem_of_singleton. apply Hid. apply list_elem_of_fmap in Hx as (r0 & -> & Hr0). apply list_elem_of_fmap_2.
      by eapply delete_open_elem. }
  split; [|done]. apply (enqueue_rows count); [done|done| |done|done]. simpl. by rewrite Hfits.
Qed.

Lemma enqueue_nothing count stamps plan db :
  db_wf count db → (∀ e, e ∈ plan.(sp_entries) → e.(pe_action) = InSync) → count ≤ i64_max →
  let db' := with_operations (delete_open plan.(sp_remote_device_id)) db in
  (∃ status, enqueue_sync_plan stamps plan db = (Ok status, db')) ∧ db_wf count db'.
Proof using Type.
  intros Hwf Hall Hn db'. assert (db_wf count db') as Hwf' by (by apply delete_open_wf).
  assert (with_operations (λ old, delete_open plan.(sp_remote_device_id) old ++ []) db = db') as E
    by (unfold db', with_operations; by rewrite app_nil_r).
  split; [|done]. rewrite <-E. apply (enqueue_rows count); [done|by apply planned_rows_none|done|done|by rewrite E].
Qed.

(** The transfers of the queue with one remote machine. *)
Lemma delete_open_pending remote rows kind :
  filter (λ r, o_remote_device_id r = remote ∧ o_kind r = kind ∧ o_status r = "pending") (delete_open remote rows) = [].
Proof using Type.
  destruct (filter _ _) as [|r l] eqn:E; [done|exfalso].
  assert (r ∈ r :: l) as Hin by left. rewrite <-E in Hin. apply list_elem_of_filter in Hin as [(H1 & _ & H3) Hin].
  rewrite <-delete_open_spec in Hin. apply list_elem_of_filter in Hin as [Hno _]. apply Hno. by split; [|left].
Qed.
Section two.
Context (fl : FS) (sl : LinuxFolderScanner) (dl : Database) (fr : FS) (sr : LinuxFolderScanner) (dr : Database).
Context (Hl : indexed fl sl dl) (Hr : indexed fr sr dr).
Context (ml mr : FolderManifest) (Hml : lists ml dl) (Hmr : lists mr dr) (mode : FolderMode).

(** A file both folders hold alike is in sync. *)
Lemma both_in_sync names c : (∃ m, seen_file fl sl names c m) → (∃ m, seen_file fr sr names c m) →
  (entry_at ml mr mode (join_with slash names)).(pe_action) = InSync.
Proof using Hl Hr Hml Hmr.
  intros [m1 H1] [m2 H2].
  destruct (ix_seen _ _ _ Hl _ _ _ H1) as (r1 & E1 & S1 & Z1 & C1).
  destruct (ix_seen _ _ _ Hr _ _ _ H2) as (r2 & E2 & S2 & Z2 & C2).
  unfold entry_at. apply mode_keeps_sync.
  rewrite (record_of_listed _ _ _ Hml), (record_of_listed _ _ _ Hmr), E1, E2. cbn [fmap option_fmap option_map].
  unfold plan_path, plan_existing_path, is_missing, file_record. cbn [fr_sync_state fr_content_hash fr_size_bytes snd].
  rewrite S1, S2, !(bool_decide_eq_true_2 ("local_available" = _)) by done.
  rewrite !(bool_decide_eq_false_2 (LocalAvailable = _)) by done.
  rewrite C1, C2, Z1, Z2, Z.eqb_refl, (bool_decide_eq_true_2 (Some _ = _)) by done. done.
Qed.

Lemma agreed_in_sync except q : agree_but except fl sl fr sr → (∀ names, except names → q ≠ join_with slash names) →
  is_Some (record_of ml q) ∨ is_Some (record_of mr q) → (entry_at ml mr mode q).(pe_action) = InSync.
Proof using Hl Hr Hml Hmr.
  intros Ha Hq Hs. destruct (decide ((entry_at ml mr mode q).(pe_action) = InSync)) as [|Hne]; [done|exfalso].
  rewrite (record_of_listed _ _ _ Hml), (record_of_listed _ _ _ Hmr), !fmap_is_Some in Hs.
  assert (∀ names, q = join_with slash names → ¬ except names) as Hx by (intros names E Hex; by apply (Hq names)).
  destruct Hs as [[r E]|[r E]].
  - rewrite (ix_stale _ _ _ Hl) in E; [done|]. intros names c m Hs ->. apply Hne.
    apply (both_in_sync names c); [by exists m|]. apply Ha; [by apply Hx|by exists m].
  - rewrite (ix_stale _ _ _ Hr) in E; [done|]. intros names c m Hs ->. apply Hne.
    apply (both_in_sync names c); [|by exists m]. apply Ha; [by apply Hx|by exists m].
Qed.

(** A file only the remote folder holds is to be downloaded. *)
Lemma remote_only_download names c m : (∀ names' c' m', seen_file fl sl names' c' m' →
    join_with slash names ≠ join_with slash names') →
  seen_file fr sr names c m → mode ≠ UploadOnly →
  ∃ reason, entry_at ml mr mode (join_with slash names)
  = entry (join_with slash names) DownloadFromRemote None (Some (Z.of_nat (length c))) None (Some (blake3_hex c)) reason.
Proof using Hl Hr Hml Hmr.
  intros Hno Hs Hm. destruct (ix_seen _ _ _ Hr _ _ _ Hs) as (r & E & Ss & Hz & Hc).
  unfold entry_at. rewrite (record_of_listed _ _ _ Hml), (record_of_listed _ _ _ Hmr), E.
  rewrite (ix_stale _ _ _ Hl _ Hno). cbn [fmap option_fmap option_map].
  unfold plan_path, is_missing, file_record. cbn [fr_sync_state fr_content_hash fr_size_bytes snd].
  rewrite Ss, (bool_decide_eq_true_2 ("local_available" = _)), (bool_decide_eq_false_2 (LocalAvailable = _)) by done.
  rewrite Hz, Hc. eexists. unfold apply_folder_mode. cbn [entry pe_action].
  by destruct mode.
Qed.

(** A file only the local folder holds is to be uploaded. *)
Lemma local_only_upload names c m : (∀ names' c' m', seen_file fr sr names' c' m' →
    join_with slash names ≠ join_with slash names') →
  seen_file fl sl names c m → mode ≠ DownloadOnly →
  ∃ reason, entry_at ml mr mode (join_with slash names)
  = entry (join_with slash names) UploadToRemote (Some (Z.of_nat (length c))) None (Some (blake3_hex c)) None reason.
Proof using Hl Hr Hml Hmr.
  intros Hno Hs Hm. destruct (ix_seen _ _ _ Hl _ _ _ Hs) as (r & E & Ss & Hz & Hc).
  unfold entry_at. rewrite (record_of_listed _ _ _ Hml), (record_of_listed _ _ _ Hmr), E.
  rewrite (ix_stale _ _ _ Hr _ Hno). cbn [fmap option_fmap option_map].
  unfold plan_path, is_missing, file_record. cbn [fr_sync_state fr_content_hash fr_size_bytes snd].
  rewrite Ss, (bool_decide_eq_true_2 ("local_available" = _)), (bool_decide_eq_false_2 (LocalAvailable = _)) by done.
  rewrite Hz, Hc. eexists. unfold apply_folder_mode. cbn [entry pe_action].
  by destruct mode.
Qed.

(** When the folders agree but for one name, queuing the plan leaves one row with the remote
    machine, the transfer of that name. *)
Lemma queue_one_name count stamps names e (row : OperationId * Z → OpRow) :
  let plan := plan_manifest_sync_for_mode ml mr mode in
  let remote := device_id_to_string mr.(fm_device_id) in
  agree_but (λ names', names' = names) fl sl fr sr → entry_at ml mr mode (join_with slash names) = e →
  is_Some (record_of ml (join_with slash names)) ∨ is_Some (record_of mr (join_with slash names)) →
  (∀ i, planned_row remote stamps (i, e) = Some (row (stamps i))) →
  (∀ i, row_fits (row (stamps i)) = true ∧ op_row_ok count (row (stamps i))
    ∧ ((row (stamps i)).(o_id) ∉ (o_id <$> dl.(db_operations)))) →
  db_wf count dl → count ≤ i64_max →
  ∃ i status, let db' := with_operations (λ rows, delete_open remote rows ++ [row (stamps i)]) dl in
    enqueue_sync_plan stamps plan dl = (Ok status, db') ∧ db_wf count db'.
Proof using Hl Hr Hml Hmr.
  intros plan remote Hag He Hrec Hrow Hok Hwf Hn.
  assert (pe_path e = join_with slash names) as Hpath by (rewrite <-He; apply entry_at_path).
  assert (sp_remote_device_id plan = remote) as Hrem
    by (unfold plan, plan_manifest_sync_for_mode; by rewrite plan_fold).
  destruct (planned_rows_one stamps plan e) as [i Hrows].
  - apply plan_entry_elem. rewrite Hpath. by split.
  - unfold plan. rewrite plan_entries, <-list_fmap_compose. erewrite list_fmap_ext, list_fmap_id; [apply plan_paths_NoDup|].
    intros ? q _. apply entry_at_path.
  - intros e' He' Hne. apply plan_entry_elem in He' as [-> Hsome]. rewrite entry_at_path in Hsome.
    apply (agreed_in_sync _ _ Hag); [|done]. intros names' -> E. apply Hne. by rewrite E, Hpath.
  - rewrite Hrem, Hrow in Hrows. destruct (Hok i) as (H1 & H2 & H3).
    destruct (enqueue_one count stamps plan (row (stamps i)) dl Hwf Hrows H1 H2 H3 Hn) as [[status Hq] Hwf'].
    rewrite Hrem in Hq, Hwf'. exists i, status. by split.
Qed.
End two.

End indexed.
