(* ===== verification/AgentError.v ===== *)
(** * [crates/syncer-agent/src/main.rs]: the errors of the agent and their texts

    The text of a failed transfer is stored with its operation, so the [Display]
    texts of every error a transfer can end in are written out, those of
    request_signing.rs, peer_crypto.rs and peer_client.rs included. *)

From S2P Require Import Prelude RustStd External Error RequestSigning PeerCrypto PeerStore PeerRequest PeerClient.
From stdpp Require Import options pretty.
Local Open Scope Z_scope.

Inductive TransferError :=
| LocalFileMissing
| LocalPathIsNotFile
| LocalHashMissing
| LocalFileChanged
| RemoteFileMissing
| RemotePathIsNotFile
| RemoteHashMissing
| RemoteFileChanged
| RemoteTargetExists
| RemoteDeleteRejected
| UploadRejected
| LocalTargetExists
| SizeMismatch (expected actual : Z)
| TransferHashMismatch
| TransferFolderLimitExceeded (remaining requested : Z)
| TransferFilesystem (path source : string)
| TransferPeerClient (e : PeerClientError)
| TransferCore (e : CoreError).

(** The errors of [time] are texts. *)
Inductive AgentError :=
| AgentCore (e : CoreError)
| AgentDateTime (message : string)
| InvalidPendingTransfer
| MissingDeletePeerConfig
| CreateDirectory (path source : string)
| CreateConfig (path source : string)
| WriteConfig (path source : string)
| AgentJson (message : string)
| AgentProfileRead (e : ProfileReadError)
| AgentPeerServer (e : PeerServerError)
| AgentPeerClient (e : PeerClientError)
| AgentPeerStore (e : PeerStoreError)
| AgentTransfer (e : TransferError).

(** ** [Display] *)

Definition signing_error_to_string (e : SigningError) : string :=
  match e with
  | SigningHex message => "hex decode error: " +:+ message
  | InvalidSecret => "invalid shared secret"
  | InvalidSignature => "invalid request signature"
  end.

Definition peer_crypto_error_to_string (e : PeerCryptoError) : string :=
  match e with
  | CryptoHex message => "hex decode error: " +:+ message
  | CryptoIo message => "I/O error: " +:+ message
  | InvalidSharedSecret => "invalid shared secret"
  | InvalidNonce => "invalid nonce"
  | Encrypt => "encryption failed"
  | Decrypt => "decryption failed"
  | InvalidCiphertext => "invalid ciphertext"
  | SizeOverflow => "file size exceeded supported range"
  | UnexpectedPlaintextSize expected actual =>
      "unexpected plaintext size: expected " +:+ pretty (expected : Z) +:+ ", got " +:+ pretty (actual : Z)
  end.

Definition peer_client_error_to_string (e : PeerClientError) : string :=
  match e with
  | UnsupportedEndpoint => "endpoint must use http://host:port"
  | ClientIo message => "I/O error: " +:+ message
  | ClientJson message => "JSON error: " +:+ message
  | InvalidResponse => "invalid HTTP response"
  | HttpStatus status => "peer returned HTTP " +:+ pretty (status : Z)
  | UnexpectedContentLength expected actual =>
      "unexpected content length: expected " +:+ pretty (expected : Z) +:+ ", got " +:+ pretty (actual : Z)
  | PlaintextHashMismatch => "plaintext hash does not match the queued content hash"
  | ClientPeerCrypto e => peer_crypto_error_to_string e
  | ClientSigning e => signing_error_to_string e
  end.

Definition transfer_error_to_string (e : TransferError) : string :=
  match e with
  | LocalFileMissing => "local file is missing"
  | LocalPathIsNotFile => "local path is not a regular file"
  | LocalHashMissing => "local file hash is missing"
  | LocalFileChanged => "local file changed after this operation was queued"
  | RemoteFileMissing => "remote file is missing"
  | RemotePathIsNotFile => "remote path is not a regular file"
  | RemoteHashMissing => "remote file hash is missing"
  | RemoteFileChanged => "remote file changed after this operation was queued"
  | RemoteTargetExists => "remote target already exists"
  | RemoteDeleteRejected => "peer rejected remote delete"
  | UploadRejected => "peer rejected uploaded file"
  | LocalTargetExists => "local target already exists"
  | SizeMismatch expected actual =>
      "downloaded size mismatch: expected " +:+ pretty (expected : Z) +:+ ", got " +:+ pretty (actual : Z)
  | TransferHashMismatch => "downloaded file hash does not match remote manifest"
  | TransferFolderLimitExceeded remaining requested =>
      "folder size limit exceeded: requested " +:+ pretty (requested : Z)
      +:+ ", remaining " +:+ pretty (remaining : Z)
  | TransferFilesystem path source => "filesystem error at " +:+ path +:+ ": " +:+ source
  | TransferPeerClient e => peer_client_error_to_string e
  | TransferCore e => core_error_to_string e
  end.
