(* ===== verification/Agent.v ===== *)
(** * [crates/syncer-agent/src/main.rs]: the transfer engine

    The state of an agent is its file system, the database of its folder, the
    remote machine, what was written to standard output and the pauses between two
    rounds.  What answers a request is the class [World]: [respond] is everything
    between the bytes the agent writes to a connection and the bytes that arrive on
    it, the network and the remote machine together; [accepts] are the connections
    a listener is offered.  [clock n] holds the clocks,
    new identifiers and random bytes of the [n]-th call that uses some.  [ag_db]
    is what the database of the folder holds, nothing when it was never opened. *)

From S2P Require Import Prelude RustStd External Error Manifest Limits Model Records Planning StateDb FileSys FolderStore Scanner PathCodec RequestSigning PeerCrypto PeerStore HttpText PeerRequest PeerServer PeerClient AgentError.
From stdpp Require Import options pretty.
Local Open Scope Z_scope.

(** ** The world of an agent *)

Record Tick := {
  ti_now_utc : OffsetDateTime;
  ti_unixepoch : Z;
  ti_id : Uuid;
  ti_random : list ascii;
  ti_client : ClientInputs;
  ti_scan_now : string → Z;
  ti_scan_now_utc : string → OffsetDateTime;
  ti_scan_end : Z;
  ti_stamps : nat → OperationId * Z;
}.

Class World := {
  Peer : Type;
  respond : list ascii → Peer → Stream * Peer;
  clock : nat → Tick;
  accepts : string → result string (list (result string (Inputs * Stream)));
}.

Record Agent `{!World} := {
  ag_fs : FS;
  ag_db : Database;
  ag_peer : Peer;
  ag_out : list ascii;
  ag_slept : list Z;
  ag_ticks : nat;
}.

Record TransferOperationResult := {
  tr_operation_id : string;
  tr_path : RelativePath;
  tr_status : string;
  tr_size_bytes : Z;
  tr_error : option string;
}.
Record ExecuteSyncQueueOutput := {
  eq_completed : Z;
  eq_failed : Z;
  eq_results : list TransferOperationResult;
}.
Record SyncOnceOutput := {
  so_presence : PresenceResponse;
  so_plan_summary : SyncPlanSummary;
  so_queued : QueueStatus;
  so_transfer : ExecuteSyncQueueOutput;
  so_final_queue : QueueStatus;
}.

(** [result] of a computation as a value: a [match] on what was awaited. *)
Definition attempt {S E F A} (m : M S E A) : M S F (result E A) := λ s, let '(r, s) := m s in (Ok r, s).

(** [Option::or]. *)
Definition option_or {A} (a b : option A) : option A := match a with Some _ => a | None => b end.

Section world.
Context {W : World}.

Definition with_ag_fs (fs : FS) (a : Agent) : Agent :=
  {| ag_fs := fs; ag_db := a.(ag_db); ag_peer := a.(ag_peer); ag_out := a.(ag_out);
     ag_slept := a.(ag_slept); ag_ticks := a.(ag_ticks) |}.
Definition with_ag_db (db : Database) (a : Agent) : Agent :=
  {| ag_fs := a.(ag_fs); ag_db := db; ag_peer := a.(ag_peer); ag_out := a.(ag_out);
     ag_slept := a.(ag_slept); ag_ticks := a.(ag_ticks) |}.
Definition with_ag_peer (p : Peer) (a : Agent) : Agent :=
  {| ag_fs := a.(ag_fs); ag_db := a.(ag_db); ag_peer := p; ag_out := a.(ag_out);
     ag_slept := a.(ag_slept); ag_ticks := a.(ag_ticks) |}.
Definition with_ag_ticks (n : nat) (a : Agent) : Agent :=
  {| ag_fs := a.(ag_fs); ag_db := a.(ag_db); ag_peer := a.(ag_peer); ag_out := a.(ag_out);
     ag_slept := a.(ag_slept); ag_ticks := n |}.

Definition ag_on_fs {E F A} (f : E → F) (m : M FS E A) : M Agent F A := zoom ag_fs with_ag_fs f m.
Definition ag_on_db {F A} (f : CoreError → F) (m : DB A) : M Agent F A := zoom ag_db with_ag_db f m.
Definition ag_fs_at {A} (path : string) (m : M FS string A) : M Agent TransferError A :=
  ag_on_fs (TransferFilesystem path) m.

(** The inputs of the next call. *)
Definition tick {E} : M Agent E Tick := λ a, (Ok (clock a.(ag_ticks)), with_ag_ticks (S a.(ag_ticks)) a).

(** [tokio::time::sleep]. *)
Definition sleep {E} (seconds : Z) : M Agent E unit := modify (λ a,
  {| ag_fs := a.(ag_fs); ag_db := a.(ag_db); ag_peer := a.(ag_peer); ag_out := a.(ag_out);
     ag_slept := a.(ag_slept) ++ [seconds]; ag_ticks := a.(ag_ticks) |}).

(** [print_json]. *)
Definition print_json {T} `{!SerdeJson T} (value : T) : M Agent AgentError unit :=
  text ← lift (map_err AgentJson (to_json value));
  modify (λ a,
    {| ag_fs := a.(ag_fs); ag_db := a.(ag_db); ag_peer := a.(ag_peer);
       ag_out := a.(ag_out) ++ text ++ [newline]; ag_slept := a.(ag_slept); ag_ticks := a.(ag_ticks) |}).

(** A call of the client: a request is complete before its response is read, so
    what is sent is what the call sends when nothing arrives (see AgentSpec.v). *)
Definition client_on (fs : FS) (s : Stream) : Client := {| cl_stream := s; cl_sent := []; cl_fs := fs |}.
Definition exchange {F A} (f : PeerClientError → F) (m : ClientInputs → CL A) : M Agent F A :=
  t ← tick;
  a ← get_st;
  let request := (m t.(ti_client) (client_on a.(ag_fs) [])).2.(cl_sent) in
  let arrived := if bool_decide (request = []) then ([], a.(ag_peer))
                 else respond request a.(ag_peer) in
  let ended := m t.(ti_client) (client_on a.(ag_fs) arrived.1) in
  _ ← modify (λ a, with_ag_peer arrived.2 (with_ag_fs ended.2.(cl_fs) a));
  lift (map_err f ended.1).

End world.

Section engine.
Context `{W : !World}.
Context `{!TimeLib, !SqlxLib, !UuidLib, !SerdeJson (list BlockHash), !Blake3Lib, !IoLib, !ReadDir,
          !HexLib, !Sha256Lib, !HmacLib, !AeadLib, !KdfLib, !ReadLib,
          !SerdeJson FolderDocument, !SerdeJson LocalDeviceProfile,
          !SerdeJson unit, !SerdeJson PeerPresence, !SerdeJson PresenceResponse, !SerdeJson FolderManifest,
          !SerdeJson ClientUploadResponse, !SerdeJson ClientDeleteResponse}.

(** [StateDatabase::open]: SQLite makes the file in a directory that is there. *)
Definition open_database (store : FolderStore) : M Agent CoreError unit :=
  a ← get_st;
  if bool_decide (a.(ag_fs) !! components (syncer_dir store) = Some EDir) then mret tt
  else throw (core_error_from_sqlx sqlx_cannot_open_message).
Definition opened (store : FolderStore) : M Agent AgentError unit := zoom id (λ a _, a) AgentCore (open_database store).

Definition scan_folder_into (path : string) (profile : LocalDeviceProfile) : M Agent AgentError ScanSummary :=
  t ← tick;
  a ← get_st;
  ag_on_db AgentCore (scan t.(ti_scan_now) t.(ti_scan_now_utc) a.(ag_fs)
    (scanner_new path profile.(lp_device_id)) t.(ti_scan_end)).

Definition device_text (profile : LocalDeviceProfile) : string := device_id_to_string profile.(lp_device_id).

(** ** Uploads *)

Definition find_record (p : RelativePath) (files : list FileRecord) : option FileRecord :=
  head (filter (λ file, rel_eqb file.(fr_path) p = true) files).
Definition find_remote_target (manifest : FolderManifest) (p : RelativePath) : option FileRecord :=
  head (filter (λ file, rel_eqb file.(fr_path) p && is_state LocalAvailable file = true) manifest.(fm_files)).

(** The queued size is absent or the size there is. *)
Definition size_changed (queued : option Z) (size : Z) : bool :=
  match queued with Some size_bytes => negb (size_bytes =? size) | None => false end.

(** The hash both sides agreed on when the operation was queued, if the file still has it. *)
Definition agreed_hash (missing changed : TransferError) (queued_hash : option string) (queued_size : option Z)
    (file : FileRecord) : result TransferError string :=
  expected_hash ← ok_or missing (option_or queued_hash file.(fr_content_hash));
  if negb (bool_decide (file.(fr_content_hash) = Some expected_hash)) then Err changed
  else if size_changed queued_size file.(fr_size_bytes) then Err changed
  else Ok expected_hash.

(** The file the upload replaces is deleted on the remote machine first. *)
Definition delete_remote_target (profile : LocalDeviceProfile) (endpoint shared_secret : string)
    (operation : SyncOperationRecord) (remote_target : FileRecord) : M Agent TransferError unit :=
  if negb (bool_decide (operation.(op_remote_content_hash) = remote_target.(fr_content_hash)))
     || negb (bool_decide (operation.(op_remote_size_bytes) = Some remote_target.(fr_size_bytes)))
  then throw RemoteTargetExists
  else
    hash ← lift (ok_or RemoteHashMissing remote_target.(fr_content_hash));
    response ← exchange TransferPeerClient (λ io,
      delete_file io endpoint (device_text profile) shared_secret operation.(op_path) hash
        remote_target.(fr_size_bytes));
    if negb response.(cd_accepted)
       || negb (rel_eqb response.(cd_path) operation.(op_path))
       || negb (response.(cd_size_bytes) =? remote_target.(fr_size_bytes))
       || negb (bool_decide (Some response.(cd_content_hash) = remote_target.(fr_content_hash)))
    then throw RemoteDeleteRejected
    else mret tt.

Definition done_result (operation : SyncOperationRecord) (size_bytes : Z) : TransferOperationResult :=
  {| tr_operation_id := operation.(op_id); tr_path := operation.(op_path); tr_status := "done";
     tr_size_bytes := size_bytes; tr_error := None |}.

(** [mark_sync_operation_done]. *)
Definition mark_done (operation : SyncOperationRecord) : M Agent TransferError unit :=
  t ← tick;
  ag_on_db TransferCore (mark_sync_operation_done t.(ti_unixepoch) operation.(op_id)).

Definition upload_operation (store : FolderStore) (profile : LocalDeviceProfile)
    (endpoint shared_secret : string) (remote_manifest : FolderManifest) (operation : SyncOperationRecord)
    : M Agent TransferError TransferOperationResult :=
  let remote_target := find_remote_target remote_manifest operation.(op_path) in
  files ← ag_on_db TransferCore list_files;
  local_file ← lift (ok_or LocalFileMissing (find_record operation.(op_path) files));
  if negb (bool_decide (local_file.(fr_kind) = KFile)) then throw LocalPathIsNotFile
  else
    expected_hash ← lift (agreed_hash LocalHashMissing LocalFileChanged
      operation.(op_local_content_hash) operation.(op_local_size_bytes) local_file);
    _ ← match remote_target with
        | Some remote_target => delete_remote_target profile endpoint shared_secret operation remote_target
        | None => mret tt
        end;
    let target := path_push store.(fst_root) (rel_str operation.(op_path)) in
    response ← exchange TransferPeerClient (λ io,
      put_file_from_path io endpoint (device_text profile) shared_secret operation.(op_path) expected_hash
        target local_file.(fr_size_bytes));
    if negb response.(cu_accepted)
       || negb (rel_eqb response.(cu_path) operation.(op_path))
       || negb (response.(cu_size_bytes) =? local_file.(fr_size_bytes))
       || negb (bool_decide (response.(cu_content_hash) = expected_hash))
    then throw UploadRejected
    else
      _ ← mark_done operation;
      mret (done_result operation local_file.(fr_size_bytes)).

(** ** Downloads *)

Definition enforce_local_download_limit (store : FolderStore) (relative_path : RelativePath) (size_bytes : Z)
    : M Agent TransferError unit :=
  folder ← ag_on_fs TransferCore (folder_store_read store);
  status ← ag_on_db TransferCore folder_status;
  let remaining := remaining_bytes folder.(fd_folder).(fc_size_limit) status.(fs_indexed_bytes) in
  if remaining <? size_bytes then
    t ← tick;
    _ ← ag_on_db TransferCore (record_skipped_folder_limit t.(ti_unixepoch)
          {| pt_operation_id := t.(ti_id); pt_path := relative_path; pt_size_bytes := size_bytes;
             pt_queued_at := t.(ti_now_utc) |});
    throw (TransferFolderLimitExceeded remaining size_bytes)
  else mret tt.

Definition downloads_dir (store : FolderStore) : string :=
  path_push (path_push (syncer_dir store) "tmp") "downloads".
Definition download_temporary_path (store : FolderStore) (operation_id : string) : M Agent TransferError string :=
  let temporary_dir := downloads_dir store in
  _ ← ag_fs_at temporary_dir (create_dir_all temporary_dir);
  mret (path_push temporary_dir (operation_id +:+ ".part")).

Definition publish_download (store : FolderStore) (relative_path : RelativePath) (temporary : string)
    : M Agent TransferError unit :=
  let target := path_push store.(fst_root) (rel_str relative_path) in
  _ ← match path_parent target with
      | Some parent => ag_fs_at parent (create_dir_all parent)
      | None => mret tt
      end;
  ag_fs_at target (fs_rename temporary target).

(** The target is the file the operation was queued against. *)
Definition is_replaced (operation : SyncOperationRecord) (file : FileRecord) : bool :=
  rel_eqb file.(fr_path) operation.(op_path)
  && bool_decide (operation.(op_local_content_hash) = file.(fr_content_hash))
  && bool_decide (operation.(op_local_size_bytes) = Some file.(fr_size_bytes)).

(** Whether the download replaces a file; an error when it must not. *)
Definition replace_existing (store : FolderStore) (operation : SyncOperationRecord) : M Agent TransferError bool :=
  let target := path_push store.(fst_root) (rel_str operation.(op_path)) in
  a ← get_st;
  target_exists ← lift (map_err (TransferFilesystem target) (try_exists a.(ag_fs) target));
  replace ← (if target_exists : bool
             then files ← ag_on_db TransferCore list_files; mret (existsb (is_replaced operation) files)
             else mret false);
  if target_exists && negb replace then throw LocalTargetExists else mret replace.

(** The file of the remote machine, beside the folder's files; its hash is what was queued. *)
Definition fetch_download (store : FolderStore) (profile : LocalDeviceProfile) (endpoint shared_secret : string)
    (operation : SyncOperationRecord) (remote_file : FileRecord) (expected_hash : string)
    : M Agent TransferError (string * TransferredFile) :=
  temporary ← download_temporary_path store operation.(op_id);
  transferred ← exchange TransferPeerClient (λ io,
    fetch_file_to_path io endpoint (device_text profile) shared_secret operation.(op_path)
      remote_file.(fr_size_bytes) temporary);
  if negb (transferred.(tf_size_bytes) =? remote_file.(fr_size_bytes))
  then throw (SizeMismatch remote_file.(fr_size_bytes) transferred.(tf_size_bytes))
  else if negb (bool_decide (transferred.(tf_content_hash) = expected_hash)) then throw TransferHashMismatch
  else mret (temporary, transferred).

Definition downloaded_entry (now_utc : OffsetDateTime) (profile : LocalDeviceProfile)
    (operation : SyncOperationRecord) (remote_file : FileRecord) (transferred : TransferredFile) : FileEntry :=
  {| fe_path := operation.(op_path); fe_kind := KFile; fe_size_bytes := transferred.(tf_size_bytes);
     fe_modified_at := now_utc;
     fe_content_hash := Some (content_hash_from_hex transferred.(tf_content_hash));
     fe_block_hashes := [];
     fe_version := {| fv_generation := remote_file.(fr_generation); fv_device_id := profile.(lp_device_id) |} |}.

Definition download_operation (store : FolderStore) (profile : LocalDeviceProfile)
    (endpoint shared_secret : string) (remote_manifest : FolderManifest) (operation : SyncOperationRecord)
    : M Agent TransferError TransferOperationResult :=
  remote_file ← lift (ok_or RemoteFileMissing (find_record operation.(op_path) remote_manifest.(fm_files)));
  if negb (bool_decide (remote_file.(fr_kind) = KFile)) then throw RemotePathIsNotFile
  else
    expected_hash ← lift (agreed_hash RemoteHashMissing RemoteFileChanged
      operation.(op_remote_content_hash) operation.(op_remote_size_bytes) remote_file);
    _ ← enforce_local_download_limit store operation.(op_path) remote_file.(fr_size_bytes);
    replace ← replace_existing store operation;
    fetched ← fetch_download store profile endpoint shared_secret operation remote_file expected_hash;
    let target := path_push store.(fst_root) (rel_str operation.(op_path)) in
    _ ← (if replace : bool then ag_fs_at target (remove_file target) else mret tt);
    _ ← publish_download store operation.(op_path) fetched.1;
    t ← tick;
    _ ← ag_on_db TransferCore (upsert_file t.(ti_unixepoch)
          (downloaded_entry t.(ti_now_utc) profile operation remote_file fetched.2));
    _ ← mark_done operation;
    mret (done_result operation fetched.2.(tf_size_bytes)).

(** ** The queue *)

Definition count_completed (progress : ExecuteSyncQueueOutput) (result : TransferOperationResult)
    : ExecuteSyncQueueOutput :=
  {| eq_completed := u64_saturating_add progress.(eq_completed) 1; eq_failed := progress.(eq_failed);
     eq_results := progress.(eq_results) ++ [result] |}.
Definition count_failed (progress : ExecuteSyncQueueOutput) (result : TransferOperationResult)
    : ExecuteSyncQueueOutput :=
  {| eq_completed := progress.(eq_completed); eq_failed := u64_saturating_add progress.(eq_failed) 1;
     eq_results := progress.(eq_results) ++ [result] |}.

(** One iteration of a loop over the queue: the transfer of [operation], whose size
    is reported when it fails. *)
Definition settle_operation (size_bytes : option Z) (operation : SyncOperationRecord)
    (transfer : M Agent TransferError TransferOperationResult) (progress : ExecuteSyncQueueOutput)
    : M Agent AgentError ExecuteSyncQueueOutput :=
  t ← tick;
  _ ← ag_on_db AgentCore (mark_sync_operation_started t.(ti_unixepoch) operation.(op_id));
  outcome ← attempt transfer;
  match outcome with
  | Ok result => mret (count_completed progress result)
  | Err error =>
      t ← tick;
      _ ← ag_on_db AgentCore (mark_sync_operation_failed t.(ti_unixepoch) operation.(op_id)
            (transfer_error_to_string error));
      mret (count_failed progress
        {| tr_operation_id := operation.(op_id); tr_path := operation.(op_path); tr_status := "failed";
           tr_size_bytes := default 0 size_bytes; tr_error := Some (transfer_error_to_string error) |})
  end.

Definition no_progress : ExecuteSyncQueueOutput := {| eq_completed := 0; eq_failed := 0; eq_results := [] |}.

(** What is picked from the queue: downloads first, uploads with what is left of the limit. *)
Definition pick_operations (remote_device_id : string) (limit : Z)
    : DB (list SyncOperationRecord * list SyncOperationRecord) :=
  downloads ← list_pending_download_operations remote_device_id limit;
  uploads ← list_pending_upload_operations remote_device_id
              (u64_saturating_sub limit (Z.of_nat (length downloads)));
  mret (downloads, uploads).

(** The two loops over what was picked. *)
Definition settle_all (store : FolderStore) (profile : LocalDeviceProfile) (endpoint shared_secret : string)
    (remote_manifest : FolderManifest) (picked : list SyncOperationRecord * list SyncOperationRecord)
    : M Agent AgentError ExecuteSyncQueueOutput :=
  progress ← foldM (λ progress operation,
      settle_operation operation.(op_remote_size_bytes) operation
        (download_operation store profile endpoint shared_secret remote_manifest operation) progress)
    no_progress picked.1;
  foldM (λ progress operation,
      settle_operation operation.(op_local_size_bytes) operation
        (upload_operation store profile endpoint shared_secret remote_manifest operation) progress)
    progress picked.2.

Definition read_profile (device_config : string) : M Agent AgentError LocalDeviceProfile :=
  ag_on_fs AgentProfileRead (profile_read device_config).

Definition run_sync_queue (path endpoint shared_secret : string) (limit : Z) (device_config : string)
    : M Agent AgentError ExecuteSyncQueueOutput :=
  profile ← read_profile device_config;
  let store := folder_store_new path in
  _ ← opened store;
  _ ← scan_folder_into path profile;
  remote_manifest ← exchange AgentPeerClient (λ io,
    fetch_manifest io endpoint (device_text profile) shared_secret);
  picked ← ag_on_db AgentCore
    (pick_operations (device_id_to_string remote_manifest.(fm_device_id)) limit);
  settle_all store profile endpoint shared_secret remote_manifest picked.

(** ** One round of synchronisation *)

Definition send_presence (endpoint shared_secret device_config : string)
    : M Agent AgentError PresenceResponse :=
  profile ← read_profile device_config;
  t ← tick;
  exchange AgentPeerClient (λ io,
    post_presence io endpoint (device_text profile) shared_secret
      {| pp_device_id := profile.(lp_device_id); pp_sent_at := t.(ti_now_utc);
         pp_agent_version := CARGO_PKG_VERSION |}).

(** The plan; the database it is queued in is the agent's. *)
Definition build_sync_plan (path endpoint shared_secret device_config : string) : M Agent AgentError SyncPlan :=
  profile ← read_profile device_config;
  let store := folder_store_new path in
  _ ← opened store;
  _ ← scan_folder_into path profile;
  folder ← ag_on_fs AgentCore (folder_store_read store);
  t ← tick;
  local_manifest ← ag_on_db AgentCore
    (export_manifest t.(ti_now_utc) folder.(fd_folder).(fc_id) profile.(lp_device_id));
  remote_manifest ← exchange AgentPeerClient (λ io,
    fetch_manifest io endpoint (device_text profile) shared_secret);
  mret (plan_manifest_sync_for_mode local_manifest remote_manifest folder.(fd_folder).(fc_mode)).

Definition enqueue_plan (plan : SyncPlan) : M Agent AgentError QueueStatus :=
  t ← tick;
  ag_on_db AgentCore (enqueue_sync_plan t.(ti_stamps) plan).

Definition run_sync_once (path endpoint shared_secret : string) (limit : Z) (device_config : string)
    : M Agent AgentError SyncOnceOutput :=
  presence ← send_presence endpoint shared_secret device_config;
  plan ← build_sync_plan path endpoint shared_secret device_config;
  queued ← enqueue_plan plan;
  transfer ← run_sync_queue path endpoint shared_secret limit device_config;
  final_queue ← ag_on_db AgentCore queue_status;
  mret {| so_presence := presence; so_plan_summary := plan.(sp_summary); so_queued := queued;
          so_transfer := transfer; so_final_queue := final_queue |}.

(** ** The loop *)

(** [u64::try_from(interval.whole_seconds()).unwrap_or_default().max(1)]. *)
Definition pause_seconds (interval : Z) : Z := Z.max (default 0 (u64_try_from_i64 interval)) 1.

(** One iteration: the number of completed ones to go on with, [None] to return. *)
Definition sync_round `{!SerdeJson SyncOnceOutput} (path endpoint shared_secret : string) (limit : Z)
    (iterations : option Z) (device_config : string) (completed_iterations : Z) : M Agent AgentError (option Z) :=
  output ← run_sync_once path endpoint shared_secret limit device_config;
  _ ← print_json output;
  let completed_iterations := u64_saturating_add completed_iterations 1 in
  if match iterations with Some max => max <=? completed_iterations | None => false end then mret None
  else
    folder ← ag_on_fs AgentCore (folder_store_read (folder_store_new path));
    _ ← sleep (pause_seconds (sync_interval folder.(fd_folder)));
    mret (Some completed_iterations).

(** [None] when the fuel is used up. *)
Fixpoint sync_loop `{!SerdeJson SyncOnceOutput} (fuel : nat) (path endpoint shared_secret : string) (limit : Z)
    (iterations : option Z) (device_config : string) (completed_iterations : Z) (a : Agent)
    : option (result AgentError unit * Agent) :=
  match fuel with
  | O => None
  | S fuel =>
      match sync_round path endpoint shared_secret limit iterations device_config completed_iterations a with
      | (Ok None, a) => Some (Ok tt, a)
      | (Ok (Some completed_iterations), a) =>
          sync_loop fuel path endpoint shared_secret limit iterations device_config completed_iterations a
      | (Err e, a) => Some (Err e, a)
      end
  end.

End engine.
