(* ===== verification/AgentCommands.v ===== *)
(** * [crates/syncer-agent/src/main.rs]: the commands of the agent

    One definition for each command and [run_command] for the dispatch; what clap
    makes of a command line is the argument.  All commands work on the folder whose
    database is [ag_db]. *)

From S2P Require Import Prelude RustStd External Error Manifest Limits Model Records Planning StateDb FileSys FolderStore Scanner PathCodec RequestSigning PeerCrypto PeerStore HttpText PeerRequest PeerServer PeerClient AgentError Agent.
From stdpp Require Import options pretty.
Local Open Scope Z_scope.

Inductive ResolveActionArg := ActionDownloadFromRemote | ActionUploadToRemote.
Definition resolution_of (value : ResolveActionArg) : BlockedOperationResolution :=
  match value with
  | ActionDownloadFromRemote => RDownloadFromRemote
  | ActionUploadToRemote => RUploadToRemote
  end.

Inductive DeleteScopeArg := ScopeLocalOnly | ScopeBoth.
Definition scope_of (value : DeleteScopeArg) : DeleteScope :=
  match value with ScopeLocalOnly => LocalOnly | ScopeBoth => PropagateToPeers end.

(** The names [ValueEnum] derives: the variants in kebab case. *)
Definition action_names : list (string * ResolveActionArg) :=
  [("download-from-remote", ActionDownloadFromRemote); ("upload-to-remote", ActionUploadToRemote)].
Definition scope_names : list (string * DeleteScopeArg) :=
  [("local-only", ScopeLocalOnly); ("both", ScopeBoth)].

Record PendingTransferArg := { pa_path : string; pa_size_bytes : Z; pa_queued_at : OffsetDateTime }.

Inductive Command :=
| InitDevice (name config : string)
| InitFolder (path display_name : string) (max_bytes warning_threshold_percent : Z)
| ScanFolder (path device_config : string)
| FolderStatusCommand (path : string)
| ExportManifest (path device_config : string)
| Serve (bind path device_config peers : string)
| PairingTicketCommand (endpoint : string) (ttl_seconds : Z) (device_config : string) (out : option string)
| AcceptPeer (ticket peers : string)
| PingPeer (endpoint shared_secret device_config : string)
| FetchManifest (endpoint shared_secret device_config : string)
| PlanSync (path endpoint shared_secret device_config : string)
| EnqueueSyncPlan (path endpoint shared_secret device_config : string)
| QueueStatusCommand (path : string)
| RetryFailed (path : string) (remote_device_id : option string)
| ResolveBlocked (path operation_id : string) (action : ResolveActionArg)
| DeleteFile (path file : string) (scope : DeleteScopeArg) (endpoint shared_secret : option string)
    (device_config : string)
| ExecuteSyncQueue (path endpoint shared_secret : string) (limit : Z) (device_config : string)
| SyncOnce (path endpoint shared_secret : string) (limit : Z) (device_config : string)
| SyncLoop (path endpoint shared_secret : string) (limit : Z) (iterations : option Z) (device_config : string)
| PlanFolderLimit (max_bytes warning_threshold_percent used_bytes : Z) (files : list PendingTransferArg).

(** ** What the commands print *)

Record InitDeviceOutput := {
  oi_device_id : string;
  oi_device_name : string;
  oi_identity_public_hex : string;
  oi_config_path : string;
}.
Record InitFolderOutput := {
  of_folder_id : string;
  of_folder_path : string;
  of_config_path : string;
  of_state_db_path : string;
}.
Record PairingTicketOutput := {
  ot_ticket_path : string;
  ot_device_id : string;
  ot_expires_at : OffsetDateTime;
}.
Record AcceptPeerOutput := {
  oa_accepted : bool;
  oa_device_id : string;
  oa_device_name : string;
  oa_peers_path : string;
}.
Record EnqueueSyncPlanOutput := { oe_queued : QueueStatus; oe_plan_summary : SyncPlanSummary }.
Record QueueStatusOutput := { oq_status : QueueStatus; oq_operations : list SyncOperationRecord }.
Record DeleteFileOutput := {
  od_path : RelativePath;
  od_scope : DeleteScope;
  od_local_deleted : bool;
  od_remote_deleted : bool;
}.

(** The parser of RFC 3339 times of [time]. *)
Class Rfc3339Lib := { parse_rfc3339 : string → result string OffsetDateTime }.

(** [str::splitn(3, ':')]: three parts, the last with what is left. *)
Definition splitn3 (s : string) : option (string * option (string * option string)) :=
  match split_on colon s with
  | [] => None
  | [a] => Some (a, None)
  | [a; b] => Some (a, Some (b, None))
  | a :: b :: rest => Some (a, Some (b, Some (join_with colon rest)))
  end.

Definition parse_pending_transfer `{!Rfc3339Lib} (value : string) : result AgentError PendingTransferArg :=
  parts ← ok_or InvalidPendingTransfer (splitn3 value);
  if bool_decide (parts.1 = "") then Err InvalidPendingTransfer
  else
    parts2 ← ok_or InvalidPendingTransfer parts.2;
    size_bytes ← ok_or InvalidPendingTransfer (parse_u64 parts2.1);
    time ← ok_or InvalidPendingTransfer parts2.2;
    queued_at ← map_err AgentDateTime (parse_rfc3339 time);
    Ok {| pa_path := parts.1; pa_size_bytes := size_bytes; pa_queued_at := queued_at |}.

Section commands.
Context `{W : !World}.
Context `{!TimeLib, !SqlxLib, !UuidLib, !SerdeJson (list BlockHash), !Blake3Lib, !IoLib, !ReadDir,
          !HexLib, !Sha256Lib, !HmacLib, !AeadLib, !KdfLib, !ReadLib,
          !SerdeJson FolderDocument, !SerdeJson LocalDeviceProfile,
          !SerdeJson unit, !SerdeJson PeerPresence, !SerdeJson PresenceResponse, !SerdeJson FolderManifest,
          !SerdeJson ClientUploadResponse, !SerdeJson ClientDeleteResponse}.

(** ** Files of the agent *)

Definition write_json_to_writer {T} `{!SerdeJson T} (now : Z) (path : string) (value : T) : M FS AgentError unit :=
  serialized ← lift (map_err AgentJson (to_json value));
  _ ← append now path serialized;
  append now path [newline].

Definition create_parent (path : string) : M Agent AgentError unit :=
  match path_parent path with
  | Some parent => ag_on_fs (CreateDirectory parent) (create_dir_all parent)
  | None => mret tt
  end.

Definition write_json_file {T} `{!SerdeJson T} (path : string) (value : T) : M Agent AgentError unit :=
  _ ← create_parent path;
  t ← tick;
  let now := t.(ti_client).(ci_fs_now) in
  _ ← ag_on_fs (CreateConfig path) (create_new_file now path);
  ag_on_fs id (write_json_to_writer now path value).

Definition init_device `{!SerdeJson InitDeviceOutput} (name config : string) : M Agent AgentError unit :=
  secret ← tick;
  token ← tick;
  profile ← lift (map_err AgentCore
    (profile_create secret.(ti_random) token.(ti_random) token.(ti_id) token.(ti_now_utc) name));
  _ ← write_json_file config profile;
  print_json {| oi_device_id := device_text profile;
                oi_device_name := device_name_as_str profile.(lp_device_name);
                oi_identity_public_hex := profile.(lp_identity_public_hex); oi_config_path := config |}.

(** ** The folder *)

Definition agent_init_folder `{!SerdeJson InitFolderOutput} (path display_name : string)
    (max_bytes warning_threshold_percent : Z) : M Agent AgentError unit :=
  limit ← lift (map_err AgentCore (folder_size_limit_new max_bytes warning_threshold_percent));
  let store := folder_store_new path in
  t ← tick;
  document ← ag_on_fs AgentCore
    (folder_store_initialize t.(ti_client).(ci_fs_now) t.(ti_id) store display_name Bidirectional limit []);
  _ ← opened store;
  print_json {| of_folder_id := folder_id_to_string document.(fd_folder).(fc_id); of_folder_path := path;
                of_config_path := folder_json_path store; of_state_db_path := state_db_path store |}.

Definition scan_folder `{!SerdeJson ScanSummary} (path device_config : string) : M Agent AgentError unit :=
  profile ← read_profile device_config;
  _ ← opened (folder_store_new path);
  summary ← scan_folder_into path profile;
  print_json summary.

Definition agent_folder_status `{!SerdeJson FolderStatus} (path : string) : M Agent AgentError unit :=
  _ ← opened (folder_store_new path);
  status ← ag_on_db AgentCore folder_status;
  print_json status.

Definition load_manifest (path : string) (profile : LocalDeviceProfile) : M Agent AgentError FolderManifest :=
  let store := folder_store_new path in
  folder ← ag_on_fs AgentCore (folder_store_read store);
  _ ← opened store;
  t ← tick;
  ag_on_db AgentCore (export_manifest t.(ti_now_utc) folder.(fd_folder).(fc_id) profile.(lp_device_id)).

Definition agent_export_manifest (path device_config : string) : M Agent AgentError unit :=
  profile ← read_profile device_config;
  manifest ← load_manifest path profile;
  print_json manifest.

(** ** Pairing *)

Definition agent_pairing_ticket `{!SerdeJson PairingTicketDocument, !SerdeJson PairingTicketOutput}
    (endpoint : string) (ttl_seconds : Z) (device_config : string) (out : option string)
    : M Agent AgentError unit :=
  profile ← read_profile device_config;
  t ← tick;
  ticket ← lift (map_err AgentPeerStore
    (ticket_create profile t.(ti_random) t.(ti_now_utc) endpoint ttl_seconds));
  match out with
  | Some path =>
      _ ← write_json_file path ticket;
      print_json {| ot_ticket_path := path; ot_device_id := device_id_to_string ticket.(pd_device_id);
                    ot_expires_at := ticket.(pd_expires_at) |}
  | None => print_json ticket
  end.

Definition accept_peer `{!SerdeJson PairingTicketDocument, !SerdeJson PeerStoreDocument, !SerdeJson AcceptPeerOutput}
    (ticket peers : string) : M Agent AgentError unit :=
  t ← tick;
  document ← ag_on_fs AgentPeerStore (ticket_read t.(ti_now_utc) ticket);
  store ← ag_on_fs AgentPeerStore (read_or_default peers);
  now ← tick;
  later ← tick;
  let accepted := accept_ticket now.(ti_now_utc) later.(ti_now_utc) document store in
  _ ← lift (map_err AgentPeerStore accepted.1);
  _ ← ag_on_fs AgentPeerStore (peer_store_write later.(ti_client).(ci_fs_now) accepted.2 peers);
  print_json {| oa_accepted := true; oa_device_id := device_id_to_string document.(pd_device_id);
                oa_device_name := document.(pd_device_name); oa_peers_path := peers |}.

Definition ping_peer (endpoint shared_secret device_config : string) : M Agent AgentError unit :=
  response ← send_presence endpoint shared_secret device_config;
  print_json response.

Definition agent_fetch_manifest (endpoint shared_secret device_config : string) : M Agent AgentError unit :=
  profile ← read_profile device_config;
  manifest ← exchange AgentPeerClient (λ io, fetch_manifest io endpoint (device_text profile) shared_secret);
  print_json manifest.

(** ** The queue *)

Definition plan_sync `{!SerdeJson SyncPlan} (path endpoint shared_secret device_config : string)
    : M Agent AgentError unit :=
  plan ← build_sync_plan path endpoint shared_secret device_config;
  print_json plan.

Definition agent_enqueue_sync_plan `{!SerdeJson EnqueueSyncPlanOutput}
    (path endpoint shared_secret device_config : string) : M Agent AgentError unit :=
  plan ← build_sync_plan path endpoint shared_secret device_config;
  status ← enqueue_plan plan;
  print_json {| oe_queued := status; oe_plan_summary := plan.(sp_summary) |}.

Definition agent_queue_status `{!SerdeJson QueueStatusOutput} (path : string) : M Agent AgentError unit :=
  _ ← opened (folder_store_new path);
  status ← ag_on_db AgentCore queue_status;
  operations ← ag_on_db AgentCore list_sync_operations;
  print_json {| oq_status := status; oq_operations := operations |}.

Definition retry_failed `{!SerdeJson RetryFailedSummary} (path : string) (remote_device_id : option string)
    : M Agent AgentError unit :=
  _ ← opened (folder_store_new path);
  t ← tick;
  summary ← ag_on_db AgentCore (retry_failed_sync_operations t.(ti_unixepoch) remote_device_id);
  print_json summary.

Definition resolve_blocked `{!SerdeJson ResolveOperationSummary} (path operation_id : string)
    (resolution : BlockedOperationResolution) : M Agent AgentError unit :=
  _ ← opened (folder_store_new path);
  t ← tick;
  summary ← ag_on_db AgentCore (resolve_blocked_sync_operation t.(ti_unixepoch) operation_id resolution);
  print_json summary.

Definition execute_sync_queue `{!SerdeJson ExecuteSyncQueueOutput} (path endpoint shared_secret : string)
    (limit : Z) (device_config : string) : M Agent AgentError unit :=
  output ← run_sync_queue path endpoint shared_secret limit device_config;
  print_json output.

Definition sync_once `{!SerdeJson SyncOnceOutput} (path endpoint shared_secret : string) (limit : Z)
    (device_config : string) : M Agent AgentError unit :=
  output ← run_sync_once path endpoint shared_secret limit device_config;
  print_json output.

(** ** Deletions *)

Definition agent_fs_at {A} (path : string) (m : M FS string A) : M Agent AgentError A :=
  ag_on_fs (λ source, AgentTransfer (TransferFilesystem path source)) m.

(** The file is removed when it is there. *)
Definition remove_if_there (target : string) : M Agent AgentError unit :=
  a ← get_st;
  there ← lift (map_err (λ source, AgentTransfer (TransferFilesystem target source)) (try_exists a.(ag_fs) target));
  if there : bool then agent_fs_at target (remove_file target) else mret tt.

(** What the remote machine must answer to a deletion. *)
Definition delete_on_peer (relative_path : RelativePath) (existing : FileRecord)
    (endpoint shared_secret : option string) (device_config : string) : M Agent AgentError unit :=
  endpoint ← lift (ok_or MissingDeletePeerConfig endpoint);
  shared_secret ← lift (ok_or MissingDeletePeerConfig shared_secret);
  profile ← read_profile device_config;
  expected_hash ← lift (ok_or (AgentTransfer LocalHashMissing) existing.(fr_content_hash));
  response ← exchange AgentPeerClient (λ io,
    delete_file io endpoint (device_text profile) shared_secret relative_path expected_hash existing.(fr_size_bytes));
  if negb response.(cd_accepted)
     || negb (rel_eqb response.(cd_path) relative_path)
     || negb (response.(cd_size_bytes) =? existing.(fr_size_bytes))
     || negb (bool_decide (response.(cd_content_hash) = expected_hash))
  then throw (AgentTransfer UploadRejected)
  else mret tt.

Definition agent_delete_file `{!SerdeJson DeleteFileOutput} (path file : string) (scope : DeleteScope)
    (endpoint shared_secret : option string) (device_config : string) : M Agent AgentError unit :=
  relative_path ← lift (map_err AgentCore (relative_path_parse file));
  let store := folder_store_new path in
  _ ← opened store;
  files ← ag_on_db AgentCore list_files;
  existing ← lift (ok_or (AgentTransfer LocalFileMissing) (find_record relative_path files));
  _ ← remove_if_there (path_push store.(fst_root) (rel_str relative_path));
  match scope with
  | LocalOnly =>
      t ← tick;
      _ ← ag_on_db AgentCore (mark_file_deleted_locally t.(ti_unixepoch) relative_path);
      print_json {| od_path := relative_path; od_scope := scope; od_local_deleted := true;
                    od_remote_deleted := false |}
  | PropagateToPeers =>
      _ ← delete_on_peer relative_path existing endpoint shared_secret device_config;
      _ ← ag_on_db AgentCore (forget_file relative_path);
      print_json {| od_path := relative_path; od_scope := scope; od_local_deleted := true;
                    od_remote_deleted := true |}
  end.

(** ** The transfer planner *)

(** The new operation identifiers are those of the calls, in order. *)
Fixpoint pending_transfers (files : list PendingTransferArg) : M Agent AgentError (list PendingTransfer) :=
  match files with
  | [] => mret []
  | file :: files =>
      t ← tick;
      path ← lift (map_err AgentCore (relative_path_parse file.(pa_path)));
      rest ← pending_transfers files;
      mret ({| pt_operation_id := t.(ti_id); pt_path := path; pt_size_bytes := file.(pa_size_bytes);
               pt_queued_at := file.(pa_queued_at) |} :: rest)
  end.

Definition plan_folder_limit `{!SerdeJson FolderLimitPlan}
    (max_bytes warning_threshold_percent used_bytes : Z) (files : list PendingTransferArg)
    : M Agent AgentError unit :=
  limit ← lift (map_err AgentCore (folder_size_limit_new max_bytes warning_threshold_percent));
  pending ← pending_transfers files;
  print_json (plan_transfers limit used_bytes pending).

End commands.

(** ** The dispatch *)

Section dispatch.
Context `{W : !World}.
Context `{!TimeLib, !SqlxLib, !UuidLib, !SerdeJson (list BlockHash), !Blake3Lib, !IoLib, !ReadDir,
          !HexLib, !Sha256Lib, !HmacLib, !AeadLib, !KdfLib, !ReadLib,
          !SerdeJson FolderDocument, !SerdeJson LocalDeviceProfile,
          !SerdeJson unit, !SerdeJson PeerPresence, !SerdeJson PresenceResponse, !SerdeJson FolderManifest,
          !SerdeJson ClientUploadResponse, !SerdeJson ClientDeleteResponse,
          !SerdeJson PeerStoreDocument, !SerdeJson HealthResponse, !SerdeJson ErrorResponse,
          !SerdeJson UploadFileResponse, !SerdeJson DeleteFileResponse,
          !SerdeJson InitDeviceOutput, !SerdeJson InitFolderOutput, !SerdeJson ScanSummary,
          !SerdeJson FolderStatus, !SerdeJson PairingTicketDocument, !SerdeJson PairingTicketOutput,
          !SerdeJson AcceptPeerOutput, !SerdeJson SyncPlan, !SerdeJson EnqueueSyncPlanOutput,
          !SerdeJson QueueStatusOutput, !SerdeJson RetryFailedSummary, !SerdeJson ResolveOperationSummary,
          !SerdeJson DeleteFileOutput, !SerdeJson ExecuteSyncQueueOutput, !SerdeJson SyncOnceOutput,
          !SerdeJson FolderLimitPlan}.

(** [serve] with [peer_server::run]; [None] while the listener waits. *)
Definition serve (bind path device_config peers : string) (a : Agent) : option (result AgentError unit * Agent) :=
  match read_profile device_config a with
  | (Err e, a) => Some (Err e, a)
  | (Ok profile, a) =>
      match accepts bind with
      | Err message => Some (Err (AgentPeerServer (ServerIo message)), a)
      | Ok accepted =>
          let config := {| cfg_bind := bind; cfg_folder_path := path; cfg_peers_path := peers;
                           cfg_profile := profile |} in
          let ended := accept_loop config accepted a.(ag_fs) a.(ag_db) in
          let a := with_ag_db ended.2.2 (with_ag_fs ended.2.1 a) in
          match ended.1 with
          | Some e => Some (Err (AgentPeerServer e), a)
          | None => None
          end
      end
  end.

(** [main] after the command line was parsed; the fuel bounds the rounds of [sync_loop]. *)
Definition run_command (fuel : nat) (command : Command) (a : Agent) : option (result AgentError unit * Agent) :=
  match command with
  | InitDevice name config => Some (init_device name config a)
  | InitFolder path display_name max_bytes warning_threshold_percent =>
      Some (agent_init_folder path display_name max_bytes warning_threshold_percent a)
  | ScanFolder path device_config => Some (scan_folder path device_config a)
  | FolderStatusCommand path => Some (agent_folder_status path a)
  | ExportManifest path device_config => Some (agent_export_manifest path device_config a)
  | Serve bind path device_config peers => serve bind path device_config peers a
  | PairingTicketCommand endpoint ttl_seconds device_config out =>
      Some (agent_pairing_ticket endpoint ttl_seconds device_config out a)
  | AcceptPeer ticket peers => Some (accept_peer ticket peers a)
  | PingPeer endpoint shared_secret device_config => Some (ping_peer endpoint shared_secret device_config a)
  | FetchManifest endpoint shared_secret device_config =>
      Some (agent_fetch_manifest endpoint shared_secret device_config a)
  | PlanSync path endpoint shared_secret device_config =>
      Some (plan_sync path endpoint shared_secret device_config a)
  | EnqueueSyncPlan path endpoint shared_secret device_config =>
      Some (agent_enqueue_sync_plan path endpoint shared_secret device_config a)
  | QueueStatusCommand path => Some (agent_queue_status path a)
  | RetryFailed path remote_device_id => Some (retry_failed path remote_device_id a)
  | ResolveBlocked path operation_id action =>
      Some (resolve_blocked path operation_id (resolution_of action) a)
  | DeleteFile path file scope endpoint shared_secret device_config =>
      Some (agent_delete_file path file (scope_of scope) endpoint shared_secret device_config a)
  | ExecuteSyncQueue path endpoint shared_secret limit device_config =>
      Some (execute_sync_queue path endpoint shared_secret limit device_config a)
  | SyncOnce path endpoint shared_secret limit device_config =>
      Some (sync_once path endpoint shared_secret limit device_config a)
  | SyncLoop path endpoint shared_secret limit iterations device_config =>
      sync_loop fuel path endpoint shared_secret limit iterations device_config 0 a
  | PlanFolderLimit max_bytes warning_threshold_percent used_bytes files =>
      Some (plan_folder_limit max_bytes warning_threshold_percent used_bytes files a)
  end.

End dispatch.
