(* ===== verification/AgentSpec.v ===== *)
(** * The transfer engine: requests, progress and the end of its loops

    What a call of the client sends does not depend on what arrives, which is what
    [exchange] relies on.  Whatever the remote machine and the network do, a run of the
    queue settles every operation it picks, and the sync loop ends when its number of
    iterations is given. *)

From S2P Require Import Prelude RustStd External Error Manifest Limits Model Records Planning StateDb StateDbFacts FileSys FolderStore Scanner PathCodec RequestSigning PeerCrypto PeerStore HttpText PeerRequest PeerServer PeerClient AgentError Agent.
From stdpp Require Import options pretty.
Local Open Scope Z_scope.

(** ** Requests are written before responses are read *)

(** What [m] sends does not depend on what arrives. *)
Definition writes_first {A} (m : CL A) : Prop :=
  ∀ s c, (m (with_cl_stream s c)).2.(cl_sent) = (m c).2.(cl_sent).
(** [m] does not look at what arrives. *)
Definition blind {A} (m : CL A) : Prop :=
  ∀ s c, m (with_cl_stream s c) = ((m c).1, with_cl_stream s (m c).2).
(** [m] sends nothing. *)
Definition sends_nothing {A} (m : CL A) : Prop := ∀ c, (m c).2.(cl_sent) = c.(cl_sent).

Lemma blind_lift {A} (r : result PeerClientError A) : blind (lift r).
Proof. done. Qed.
Lemma blind_throw {A} e : blind (throw e : CL A).
Proof. done. Qed.
Lemma blind_send bs : blind (cl_send bs).
Proof. by intros s []. Qed.
Lemma blind_on_fs {E A} (f : E → PeerClientError) (m : M FS E A) : blind (on_cl_fs f m).
Proof. intros s []. unfold on_cl_fs, zoom. simpl. by destruct (m cl_fs) as [[] ?]. Qed.
Lemma blind_remove `{!IoLib} path : blind (modify (λ c, with_cl_fs (remove_file path c.(cl_fs)).2 c)).
Proof. by intros s []. Qed.

Lemma silent_bind {A B} (m : CL A) (f : A → CL B) :
  sends_nothing m → (∀ a, sends_nothing (f a)) → sends_nothing (m ≫= f).
Proof.
  intros Hm Hf c. rewrite M_bind_eq. specialize (Hm c). destruct (m c) as [[a|e] c']; [|done].
  by rewrite Hf.
Qed.
Lemma silent_on_stream {A} (m : M Stream PeerClientError A) : sends_nothing (on_cl_stream m).
Proof. intros c. unfold on_cl_stream, zoom. by destruct (m (cl_stream c)) as [[] ?]. Qed.
Lemma silent_on_fs {E A} (f : E → PeerClientError) (m : M FS E A) : sends_nothing (on_cl_fs f m).
Proof. intros c. unfold on_cl_fs, zoom. by destruct (m (cl_fs c)) as [[] ?]. Qed.
Lemma silent_lift {A} (r : result PeerClientError A) : sends_nothing (lift r).
Proof. done. Qed.
Lemma silent_ret {A} (a : A) : sends_nothing (mret a).
Proof. done. Qed.
Lemma silent_throw {A} e : sends_nothing (throw e : CL A).
Proof. done. Qed.
Lemma silent_get : sends_nothing get_st.
Proof. done. Qed.
Lemma silent_remove `{!IoLib} path : sends_nothing (modify (λ c, with_cl_fs (remove_file path c.(cl_fs)).2 c)).
Proof. done. Qed.

Lemma silent_writes_first {A} (m : CL A) : sends_nothing m → writes_first m.
Proof. intros H s c. by rewrite !H. Qed.
Lemma blind_writes_first {A} (m : CL A) : blind m → writes_first m.
Proof. intros H s c. by rewrite H. Qed.
Lemma writes_first_bind {A B} (m : CL A) (f : A → CL B) :
  blind m → (∀ a, writes_first (f a)) → writes_first (m ≫= f).
Proof.
  intros Hm Hf s c. rewrite !M_bind_eq, Hm. destruct (m c) as [[a|e] c']; simpl; [apply Hf|done].
Qed.
Lemma writes_first_then {A B} (m : CL A) (f : A → CL B) :
  writes_first m → (∀ a, sends_nothing (f a)) → writes_first (m ≫= f).
Proof.
  intros Hm Hf s c. rewrite !M_bind_eq. specialize (Hm s c).
  destruct (m (with_cl_stream s c)) as [[] ?], (m c) as [[] ?]; simpl in *; by rewrite ?Hf.
Qed.
Lemma writes_first_get {B} (f : Client → CL B) :
  (∀ c s, f (with_cl_stream s c) = f c) → (∀ c, writes_first (f c)) → writes_first (get_st ≫= f).
Proof.
  intros Hf Hw s c. unfold get_st. rewrite !M_bind_eq. rewrite Hf. apply Hw.
Qed.

#[export] Hint Resolve blind_lift blind_throw blind_send blind_on_fs blind_remove silent_on_stream silent_on_fs
  silent_lift silent_ret silent_throw silent_get silent_remove : syncer.

Ltac silent_steps :=
  repeat first
    [ solve [eauto with syncer]
    | match goal with
      | |- sends_nothing (mbind _ _) => apply silent_bind; [|intros]
      | |- sends_nothing (match ?x with _ => _ end) => destruct x
      | |- sends_nothing (let _ := _ in _) => cbv zeta
      end ].
Ltac writes_first_steps :=
  repeat first
    [ solve [apply silent_writes_first; silent_steps]
    | match goal with
      | |- writes_first (mbind _ _) => apply writes_first_bind; [solve [eauto with syncer]|intros]
      | |- writes_first (match ?x with _ => _ end) => destruct x
      | |- writes_first (let _ := _ in _) => cbv zeta
      end ].

Section requests.
Context `{UL : !UuidLib, HL : !HexLib, SH : !Sha256Lib, HM : !HmacLib, BL : !Blake3Lib, IL : !IoLib,
          AL : !AeadLib, KL : !KdfLib, RL : !ReadLib,
          J1 : !SerdeJson unit, J2 : !SerdeJson PeerPresence, J3 : !SerdeJson PresenceResponse,
          J4 : !SerdeJson FolderManifest, J5 : !SerdeJson ClientUploadResponse,
          J6 : !SerdeJson ClientDeleteResponse}.

Lemma copy_exact_silent now fuel output : ∀ remaining, sends_nothing (copy_exact now fuel output remaining).
Proof.
  induction fuel as [|fuel IH]; intros remaining; cbn [copy_exact]; silent_steps.
Qed.

Lemma connect_blind io address : blind (connect io address).
Proof. done. Qed.
Hint Resolve copy_exact_silent connect_blind : syncer.

Lemma request_json_writes_first {T R} `{!SerdeJson T, !SerdeJson R} io method endpoint path id secret
    (body : option T) extra : writes_first (request_json (T:=T) (R:=R) io method endpoint path id secret body extra).
Proof.
  unfold request_json, request_bytes. apply writes_first_bind; [eauto with syncer|intros bs].
  apply writes_first_then; [writes_first_steps|eauto with syncer].
Qed.

Lemma fetch_file_writes_first io endpoint id secret p size destination :
  writes_first (fetch_file_to_path io endpoint id secret p size destination).
Proof.
  unfold fetch_file_to_path, receive_file. cbv zeta. do 4 (apply writes_first_bind; [eauto with syncer|intros]).
  writes_first_steps.
Qed.

Lemma put_file_writes_first io endpoint id secret p hash file_path size :
  writes_first (put_file_from_path io endpoint id secret p hash file_path size).
Proof.
  unfold put_file_from_path. cbv zeta. apply writes_first_bind; [eauto with syncer|intros encrypted].
  destruct (negb _); [writes_first_steps|].
  do 5 (apply writes_first_bind; [eauto with syncer|intros]).
  apply writes_first_get; [done|intros c]. writes_first_steps.
Qed.

(** C28. What a call of the client sends is the same whatever arrives on its connection: the
    request is complete before the response is looked at, for each of the five calls. *)
Theorem request_before_response io endpoint id secret c s presence p hash size file destination :
  let same A (m : CL A) := (m (with_cl_stream s c)).2.(cl_sent) = (m c).2.(cl_sent) in
  same _ (post_presence io endpoint id secret presence)
  ∧ same _ (fetch_manifest io endpoint id secret)
  ∧ same _ (delete_file io endpoint id secret p hash size)
  ∧ same _ (fetch_file_to_path io endpoint id secret p size destination)
  ∧ same _ (put_file_from_path io endpoint id secret p hash file size).
Proof.
  cbv zeta. split_and!; [apply request_json_writes_first..|apply fetch_file_writes_first|apply put_file_writes_first].
Qed.

End requests.

(** ** The rows of the queue *)

Definition ag_ops `{!World} (a : Agent) : list OpRow := a.(ag_db).(db_operations).
Definition ops_inv `{!World} (P : list OpRow → Prop) (a : Agent) : Prop := P (ag_ops a).
Definition db_ops (P : list OpRow → Prop) (db : Database) : Prop := P db.(db_operations).

(** Every row of the operation is at its end. *)
Definition settled (id : string) (rows : list OpRow) : Prop :=
  Forall (λ r, r.(o_id) = id → r.(o_status) = "done" ∨ r.(o_status) = "failed") rows.
(** The rows are those of before, in place, and only those of [ids] have changed. *)
Definition touched (ids : list string) (rows rows' : list OpRow) : Prop :=
  Forall2 (λ r r', r'.(o_id) = r.(o_id) ∧ (r.(o_id) ∉ ids → r' = r)) rows rows'.
Definition keeps_id (f : OpRow → OpRow) : Prop := ∀ r, (f r).(o_id) = r.(o_id).

Lemma touched_refl ids rows : touched ids rows rows.
Proof. by apply Forall_Forall2_diag, Forall_true. Qed.

Lemma touched_update ids id f rows rows' : id ∈ ids → keeps_id f → touched ids rows rows' →
  touched ids rows ((λ r, if has_id id r then f r else r) <$> rows').
Proof.
  intros Hid Hf H. apply Forall2_fmap_r. eapply Forall2_impl; [exact H|]. intros r r' [Hr Hne].
  unfold compose. destruct (has_id id r') eqn:E; [|by split]. apply bool_decide_eq_true in E. split; [by rewrite Hf|].
  intros Hni. exfalso. apply Hni. by rewrite <-Hr, E.
Qed.

Lemma settled_update id f rows : keeps_id f →
  (∀ r, (f r).(o_status) = "done" ∨ (f r).(o_status) = "failed") →
  settled id ((λ r, if has_id id r then f r else r) <$> rows).
Proof.
  intros Hf Hs. apply Forall_fmap, Forall_true. intros r. unfold compose, has_id.
  case_bool_decide as E; [by intros _|done].
Qed.

(** An update that keeps the ends of operations keeps [settled]. *)
Lemma settled_kept id id' f rows : keeps_id f →
  (∀ r, (f r).(o_status) = r.(o_status) ∨ (f r).(o_status) = "done" ∨ (f r).(o_status) = "failed") →
  settled id rows → settled id ((λ r, if has_id id' r then f r else r) <$> rows).
Proof.
  intros Hf Hs H. apply Forall_fmap. eapply Forall_impl; [exact H|]. intros r Hr. unfold compose.
  destruct (has_id id' r); [|done]. rewrite Hf. intros E. destruct (Hs r) as [->|?]; auto.
Qed.

(** ** What the steps of the engine do to the queue *)

Section ops.
Context `{W : !World}.
Context `{TL : !TimeLib, SL : !SqlxLib, UL : !UuidLib, SJ : !SerdeJson (list BlockHash), BL : !Blake3Lib,
          IL : !IoLib, RD : !ReadDir, HL : !HexLib, SH : !Sha256Lib, HM : !HmacLib, AL : !AeadLib,
          KL : !KdfLib, RL : !ReadLib, FJ : !SerdeJson FolderDocument, LJ : !SerdeJson LocalDeviceProfile,
          J1 : !SerdeJson unit, J2 : !SerdeJson PeerPresence, J3 : !SerdeJson PresenceResponse,
          J4 : !SerdeJson FolderManifest, J5 : !SerdeJson ClientUploadResponse,
          J6 : !SerdeJson ClientDeleteResponse}.

Section inv.
Context (P : list OpRow → Prop).

Lemma tick_ops {E} : preserves (ops_inv P) (tick (E:=E)).
Proof. by intros a. Qed.
Lemma ag_on_fs_ops {E F A} (f : E → F) (m : M FS E A) : preserves (ops_inv P) (ag_on_fs f m).
Proof. by apply preserves_zoom_rest. Qed.
Lemma ag_fs_at_ops {A} path (m : M FS string A) : preserves (ops_inv P) (ag_fs_at path m).
Proof. apply ag_on_fs_ops. Qed.
Lemma ag_on_db_ops {F A} (f : CoreError → F) (m : DB A) :
  preserves (db_ops P) m → preserves (ops_inv P) (ag_on_db f m).
Proof. intros Hm. by apply (preserves_zoom ag_db with_ag_db f (db_ops P)). Qed.
Lemma exchange_ops {F A} (f : PeerClientError → F) (m : ClientInputs → CL A) :
  preserves (ops_inv P) (exchange f m).
Proof. by intros a. Qed.
Lemma opened_ops store : preserves (ops_inv P) (opened store).
Proof. intros a Ha. unfold opened, zoom, open_database, get_st. rewrite M_bind_eq. by destruct (bool_decide _). Qed.

(** Operations on the other tables. *)
Lemma db_read_ops {A} (m : DB A) : (∀ db, (m db).2 = db) → preserves (db_ops P) m.
Proof. apply preserves_read. Qed.
Lemma list_files_ops : preserves (db_ops P) list_files.
Proof. by apply db_read_ops. Qed.
Lemma list_skipped_ops : preserves (db_ops P) list_skipped_files.
Proof. by apply db_read_ops. Qed.
Lemma modify_files_ops f : preserves (db_ops P) (modify (with_files f) : DB unit).
Proof. by apply preserves_modify. Qed.
Lemma modify_skipped_ops f : preserves (db_ops P) (modify (with_skipped f) : DB unit).
Proof. by apply preserves_modify. Qed.
Hint Resolve tick_ops ag_on_fs_ops ag_fs_at_ops ag_on_db_ops exchange_ops opened_ops list_files_ops
  list_skipped_ops modify_files_ops modify_skipped_ops : syncer.

Lemma folder_status_ops : preserves (db_ops P) folder_status.
Proof. unfold folder_status. keep_steps. Qed.
Lemma upsert_ops now e : preserves (db_ops P) (upsert_file now e).
Proof. unfold upsert_file. keep_steps. Qed.
Lemma skipped_ops now t : preserves (db_ops P) (record_skipped_folder_limit now t).
Proof. unfold record_skipped_folder_limit. keep_steps. Qed.
Hint Resolve folder_status_ops upsert_ops skipped_ops : syncer.

Lemma scan_entry_ops now now_utc fs scanner d st n :
  preserves (db_ops P) (scan_entry now now_utc fs scanner d st n).
Proof. destruct st as [summary stack]. unfold scan_entry. keep_steps. Qed.
Lemma scan_directory_ops now now_utc fs scanner d summary stack :
  preserves (db_ops P) (scan_directory now now_utc fs scanner d summary stack).
Proof.
  unfold scan_directory. keep_steps. apply preserves_foldM. intros. apply scan_entry_ops.
Qed.
Lemma scan_loop_ops now now_utc fs scanner fuel : ∀ summary stack db r db',
  db_ops P db → scan_loop now now_utc fs scanner fuel summary stack db = Some (r, db') → db_ops P db'.
Proof.
  induction fuel as [|fuel IH]; intros summary stack db r db' Hdb; destruct stack as [|d stack]; cbn [scan_loop];
    try (by intros [= _ <-]); try done.
  pose proof (scan_directory_ops now now_utc fs scanner d summary stack db Hdb) as Hd.
  destruct (scan_directory _ _ _ _ _ _ _ db) as [[[s st]|e] db1]; [by apply IH|by intros [= _ <-]].
Qed.
Lemma scan_ops now now_utc fs scanner end_now : preserves (db_ops P) (scan now now_utc fs scanner end_now).
Proof.
  intros db Hdb. unfold scan, scan_into.
  set (db1 := (mark_scan_started db).2). assert (db_ops P db1) as Hdb1 by done.
  change (mark_scan_started db) with ((Ok tt : CoreResult unit), db1). cbn iota.
  destruct (scan_loop _ _ _ _ _ _ _ db1) as [[[s|e] db2]|] eqn:E; cbn [default]; [| |done].
  - pose proof (scan_loop_ops _ _ _ _ _ _ _ _ _ _ Hdb1 E) as H2.
    assert (preserves (db_ops P) (finish_scan end_now s)) as Hf; [|by apply Hf].
    unfold finish_scan, finalize_scan. keep_steps.
  - by eapply scan_loop_ops.
Qed.

Lemma scan_folder_into_ops path profile : preserves (ops_inv P) (scan_folder_into path profile).
Proof. unfold scan_folder_into. pose proof scan_ops. keep_steps. Qed.

(** The transfer of [operation], where its own end keeps [P]. *)
Context (operation : SyncOperationRecord).
Hypothesis Hdone : ∀ now db, db_ops P db → db_ops P (mark_sync_operation_done now operation.(op_id) db).2.

Lemma mark_done_ops : preserves (ops_inv P) (mark_done operation).
Proof using Hdone Type. unfold mark_done. apply preserves_bind; [apply tick_ops|intros t]. apply ag_on_db_ops. intros db. apply Hdone. Qed.
Hint Resolve mark_done_ops : syncer.

Lemma upload_ops store profile endpoint secret manifest :
  preserves (ops_inv P) (upload_operation store profile endpoint secret manifest operation).
Proof using Hdone Type. unfold upload_operation, delete_remote_target. keep_steps. Qed.

Lemma download_ops store profile endpoint secret manifest :
  preserves (ops_inv P) (download_operation store profile endpoint secret manifest operation).
Proof using Hdone Type.
  unfold download_operation, enforce_local_download_limit, replace_existing, fetch_download,
    download_temporary_path, publish_download. keep_steps.
Qed.
End inv.

(** *** One operation *)

Definition settled_in (id : string) (a : Agent) : Prop := settled id (ag_ops a).

Lemma mark_done_ends operation size :
  ends (λ r a, r = done_result operation size ∧ settled_in operation.(op_id) a)
    (_ ← mark_done operation; mret (done_result operation size)).
Proof.
  intros s a s' [= <- <-]. split; [done|]. apply settled_update; [done|]. intros r. by left.
Qed.

Definition settles (operation : SyncOperationRecord) (m : M Agent TransferError TransferOperationResult) : Prop :=
  ends (λ r a, (∃ size, r = done_result operation size) ∧ settled_in operation.(op_id) a) m.

Lemma done_settles operation size : settles operation (_ ← mark_done operation; mret (done_result operation size)).
Proof. intros s a s' H%mark_done_ends. destruct H as [-> ?]. split; [by exists size|done]. Qed.

Lemma upload_settles store profile endpoint secret manifest operation :
  settles operation (upload_operation store profile endpoint secret manifest operation).
Proof.
  unfold upload_operation, settles. cbv zeta.
  repeat first [apply done_settles | progress end_steps | apply ends_bind; intros].
Qed.

Lemma download_settles store profile endpoint secret manifest operation :
  settles operation (download_operation store profile endpoint secret manifest operation).
Proof.
  unfold download_operation, settles. cbv zeta.
  repeat first [apply done_settles | progress end_steps | apply ends_bind; intros].
Qed.

(** ** The loops of the queue *)

(** A transfer, whichever it is: it marks its operation when it succeeds and touches no
    other row of the queue. *)
Record transfers (operation : SyncOperationRecord) (m : M Agent TransferError TransferOperationResult) : Prop := {
  tf_settles : settles operation m;
  tf_keeps (P : list OpRow → Prop) :
    (∀ now db, db_ops P db → db_ops P (mark_sync_operation_done now operation.(op_id) db).2) →
    preserves (ops_inv P) m;
}.

Lemma upload_transfers store profile endpoint secret manifest operation :
  transfers operation (upload_operation store profile endpoint secret manifest operation).
Proof. split; [apply upload_settles|intros P HP; by apply upload_ops]. Qed.
Lemma download_transfers store profile endpoint secret manifest operation :
  transfers operation (download_operation store profile endpoint secret manifest operation).
Proof. split; [apply download_settles|intros P HP; by apply download_ops]. Qed.

(** What a loop reports of an operation. *)
Definition is_done (r : TransferOperationResult) : bool := bool_decide (r.(tr_status) = "done").
Definition reports (operation : SyncOperationRecord) (r : TransferOperationResult) : Prop :=
  r.(tr_operation_id) = operation.(op_id) ∧ r.(tr_path) = operation.(op_path)
  ∧ (r.(tr_status) = "done" ∧ r.(tr_error) = None ∨ r.(tr_status) = "failed" ∧ is_Some r.(tr_error)).

(** The counters count the results. *)
Definition tallied (p : ExecuteSyncQueueOutput) : Prop :=
  p.(eq_completed) = Z.of_nat (countb is_done p.(eq_results))
  ∧ p.(eq_failed) = Z.of_nat (countb (λ r, negb (is_done r)) p.(eq_results)).

(** Where the loops are: of the rows at the start only those of the picked operations have
    changed, and the operations behind are settled. *)
Definition under_way (ids : list string) (rows : list OpRow) (behind : list string) (rows' : list OpRow) : Prop :=
  touched ids rows rows' ∧ Forall (λ id, settled id rows') behind.

Lemma under_way_update ids rows behind id f rows' : id ∈ ids → keeps_id f →
  (∀ r, (f r).(o_status) = r.(o_status) ∨ (f r).(o_status) = "done" ∨ (f r).(o_status) = "failed") →
  under_way ids rows behind rows' →
  under_way ids rows behind ((λ r, if has_id id r then f r else r) <$> rows').
Proof using Type.
  intros Hid Hf Hs [Ht Hb]. split; [by apply touched_update|]. eapply Forall_impl; [exact Hb|].
  intros id' ?. by apply settled_kept.
Qed.

Lemma settle_run size operation m progress ids rows behind a :
  transfers operation m → operation.(op_id) ∈ ids → under_way ids rows behind (ag_ops a) →
  tallied progress → Z.of_nat (S (length progress.(eq_results))) ≤ u64_max →
  ∃ r a' p', settle_operation size operation m progress a = (Ok p', a')
  ∧ p'.(eq_results) = progress.(eq_results) ++ [r] ∧ tallied p' ∧ reports operation r
  ∧ under_way ids rows (behind ++ [operation.(op_id)]) (ag_ops a').
Proof using Type.
  intros [Hset Hkeep] Hid Ha [Hc Hf] Hlen. unfold settle_operation.
  assert (∀ (p : ExecuteSyncQueueOutput) (b : TransferOperationResult → bool),
    Z.of_nat (length (eq_results p)) < u64_max →
    u64_saturating_add (Z.of_nat (countb b (eq_results p))) 1 = Z.of_nat (countb b (eq_results p)) + 1) as Hadd.
  { intros p b Hp. unfold u64_saturating_add. pose proof (countb_le b (eq_results p)). lia. }
  unfold tick. rewrite M_bind_eq. set (t := clock (ag_ticks a)).
  set (a1 := with_ag_db (mark_sync_operation_started (ti_unixepoch t) (op_id operation) (ag_db a)).2
               (with_ag_ticks (S (ag_ticks a)) a)).
  assert (under_way ids rows behind (ag_ops a1)) as H1 by (apply under_way_update; try done; by left).
  erewrite bind_Ok; [|by change (ag_on_db AgentCore (mark_sync_operation_started (ti_unixepoch t)
    (op_id operation)) (with_ag_ticks (S (ag_ticks a)) a)) with ((Ok tt : result AgentError unit), a1)].
  assert (ops_inv (under_way ids rows behind) (m a1).2) as H2.
  { apply Hkeep; [|done]. intros now db Hdb. apply under_way_update; try done. intros r. by right; left. }
  unfold attempt. rewrite M_bind_eq. destruct (m a1) as [[r|e] a2] eqn:Em.
  - destruct (Hset _ _ _ Em) as [[sz ->] Hs]. eexists _, a2, _. split; [done|].
    split; [done|]. split; [|split].
    + split; simpl; rewrite countb_app, Nat2Z.inj_add; simpl; [rewrite Hc, Hadd by lia; done|by rewrite Hf, Z.add_0_r].
    + split_and!; [done..|by left].
    + destruct H2 as [Ht Hb]. split; [done|]. apply Forall_app. split; [done|]. by constructor.
  - set (t2 := clock (ag_ticks a2)).
    set (a3 := with_ag_db (mark_sync_operation_failed (ti_unixepoch t2) (op_id operation)
                 (transfer_error_to_string e) (ag_db a2)).2 (with_ag_ticks (S (ag_ticks a2)) a2)).
    eexists _, a3, _. split; [done|]. split; [done|]. split; [|split].
    + split; simpl; rewrite countb_app, Nat2Z.inj_add; simpl; [by rewrite Hc, Z.add_0_r|rewrite Hf, Hadd by lia; done].
    + split_and!; [done..|right]. split; [done|by eexists].
    + destruct H2 as [Ht Hb]. split; [by apply touched_update|]. apply Forall_app. split.
      * eapply Forall_impl; [exact Hb|]. intros id ?. apply settled_kept; [done| |done]. intros ?. by right; right.
      * constructor; [|done]. apply settled_update; [done|]. intros ?. by right.
Qed.

Lemma settle_loop (size_of : SyncOperationRecord → option Z)
    (transfer : SyncOperationRecord → M Agent TransferError TransferOperationResult) ids rows operations :
  (∀ operation, transfers operation (transfer operation)) →
  ∀ behind progress a, Forall (λ operation, operation.(op_id) ∈ ids) operations →
  under_way ids rows behind (ag_ops a) → tallied progress →
  Z.of_nat (length progress.(eq_results) + length operations) ≤ u64_max →
  ∃ results a' p',
    foldM (λ progress operation, settle_operation (size_of operation) operation (transfer operation) progress)
      progress operations a = (Ok p', a')
  ∧ p'.(eq_results) = progress.(eq_results) ++ results ∧ tallied p' ∧ Forall2 reports operations results
  ∧ under_way ids rows (behind ++ (op_id <$> operations)) (ag_ops a').
Proof using Type.
  intros Htr. induction operations as [|operation operations IH]; intros behind progress a Hids Ha Hp Hlen.
  { exists [], a, progress. rewrite !app_nil_r. by repeat (split; [done|]). }
  apply Forall_cons in Hids as [Hid Hids]. cbn [length] in Hlen. cbn [foldM].
  destruct (settle_run (size_of operation) operation (transfer operation) progress ids rows behind a)
    as (r & a1 & p1 & Hrun & Hres & Hp1 & Hrep & Ha1); try done; [lia|].
  destruct (IH (behind ++ [operation.(op_id)]) p1 a1) as (results & a2 & p2 & Hrun2 & Hres2 & Hp2 & Hrep2 & Ha2);
    try done; [rewrite Hres, length_app; simpl; lia|].
  exists (r :: results), a2, p2. erewrite bind_Ok; [|exact Hrun]. split; [done|]. split; [by rewrite Hres2, Hres, <-app_assoc|].
  split; [done|]. split; [by constructor|]. by rewrite <-app_assoc in Ha2.
Qed.

(** *** What is picked *)

Lemma list_pending_length remote kind limit db l db' :
  list_pending_operations remote kind limit db = (Ok l, db') → db' = db ∧ Z.of_nat (length l) ≤ Z.max 0 limit.
Proof using Type.
  unfold list_pending_operations. rewrite M_bind_eq. unfold i64_try_from_u64.
  destruct (limit <=? i64_max); cbn [ok_or lift]; [|done]. unfold get_st. rewrite M_bind_eq. unfold lift.
  intros [= H ->]. split; [done|]. apply result_mapM_Ok, Forall2_length in H.
  rewrite <-H, length_take. lia.
Qed.

Lemma pick_length remote limit db downloads uploads db' :
  pick_operations remote limit db = (Ok (downloads, uploads), db') →
  db' = db ∧ Z.of_nat (length (downloads ++ uploads)) ≤ Z.max 0 limit
  ∧ Z.of_nat (length (downloads ++ uploads)) ≤ i64_max.
Proof using Type.
  unfold pick_operations, list_pending_download_operations, list_pending_upload_operations.
  rewrite M_bind_eq. destruct (list_pending_operations _ KDownloadFromRemote limit db) as [[l|] db1] eqn:E1; [|done].
  destruct (list_pending_length _ _ _ _ _ _ E1) as [-> Hl].
  rewrite M_bind_eq. destruct (list_pending_operations _ KUploadToRemote _ db) as [[l2|] db2] eqn:E2; [|done].
  destruct (list_pending_length _ _ _ _ _ _ E2) as [-> Hl2]. intros [= <- <- <-]. split; [done|].
  rewrite length_app, Nat2Z.inj_add. unfold u64_saturating_sub in Hl2.
  assert (limit ≤ i64_max); [|unfold i64_max in *; lia].
  revert E1. unfold list_pending_operations. rewrite M_bind_eq. unfold i64_try_from_u64.
  destruct (Z.leb_spec limit i64_max); [done|]. done.
Qed.

Lemma pick_unchanged remote limit db : (pick_operations remote limit db).2 = db.
Proof using Type.
  unfold pick_operations, list_pending_download_operations, list_pending_upload_operations.
  assert (∀ kind n, (list_pending_operations remote kind n db).2 = db) as H.
  { intros kind n. unfold list_pending_operations. rewrite M_bind_eq. unfold lift at 1.
    by destruct (ok_or FileSizeOverflow (i64_try_from_u64 n)). }
  rewrite M_bind_eq. pose proof (H KDownloadFromRemote limit) as H1.
  destruct (list_pending_operations _ _ limit db) as [[l|] db1]; simpl in H1; subst db1; [|done].
  rewrite M_bind_eq. pose proof (H KUploadToRemote (u64_saturating_sub limit (Z.of_nat (length l)))) as H2.
  by destruct (list_pending_operations _ _ _ db) as [[l2|] db2]; simpl in *; subst db2.
Qed.

(** The two loops, on whatever was picked. *)
Lemma settle_all_run store profile endpoint secret manifest downloads uploads a :
  Z.of_nat (length (downloads ++ uploads)) ≤ i64_max →
  ∃ out a', settle_all store profile endpoint secret manifest (downloads, uploads) a = (Ok out, a')
  ∧ Forall2 reports (downloads ++ uploads) out.(eq_results) ∧ tallied out
  ∧ touched (op_id <$> downloads ++ uploads) (ag_ops a) (ag_ops a')
  ∧ Forall (λ id, settled id (ag_ops a')) (op_id <$> downloads ++ uploads).
Proof using Type.
  intros Hlen. rewrite length_app in Hlen. set (ids := op_id <$> downloads ++ uploads).
  assert (∀ l, (∀ x, x ∈ l → x ∈ downloads ++ uploads) → Forall (λ o, op_id o ∈ ids) l) as Hids.
  { intros l Hl. apply Forall_forall. intros x Hx. apply list_elem_of_fmap. eexists. split; [done|auto]. }
  destruct (settle_loop op_remote_size_bytes (download_operation store profile endpoint secret manifest)
    ids (ag_ops a) downloads) with (behind := @nil string) (progress := no_progress) (a := a)
    as (r1 & a1 & p1 & Hrun1 & Hres1 & Hp1 & Hrep1 & H1).
  { intros. apply download_transfers. }
  { apply Hids. intros x Hx. apply elem_of_app. by left. }
  { split; [apply touched_refl|constructor]. }
  { done. }
  { unfold u64_max, i64_max in *. simpl. lia. }
  pose proof (Forall2_length _ _ _ Hrep1) as Hl1. simpl in Hres1.
  destruct (settle_loop op_local_size_bytes (upload_operation store profile endpoint secret manifest)
    ids (ag_ops a) uploads) with (behind := op_id <$> downloads) (progress := p1) (a := a1)
    as (r2 & a2 & p2 & Hrun2 & Hres2 & Hp2 & Hrep2 & [Ht Hs]).
  { intros. apply upload_transfers. }
  { apply Hids. intros x Hx. apply elem_of_app. by right. }
  { done. }
  { done. }
  { rewrite Hres1, <-Hl1. unfold u64_max, i64_max in *. lia. }
  exists p2, a2. unfold settle_all. erewrite bind_Ok; [|exact Hrun1]. split; [exact Hrun2|].
  rewrite Hres2, Hres1. unfold ids. rewrite fmap_app. split; [by apply Forall2_app|].
  split; [done|]. split; [|done]. by rewrite <-fmap_app.
Qed.

(** C9. Whatever the network and the remote machine do, a run of the queue either fails
    before it touches the queue (no profile, no database, no scan, no manifest), or it
    ends with every operation it picked, at most [limit] of them, done or failed and
    reported so in order; the counters add up and no other row of the queue has
    changed. *)
Theorem queue_settles path endpoint secret limit device_config a :
  (∃ e a', run_sync_queue path endpoint secret limit device_config a = (Err e, a') ∧ ag_ops a' = ag_ops a)
  ∨ ∃ out a' remote db picked,
      run_sync_queue path endpoint secret limit device_config a = (Ok out, a')
    ∧ db.(db_operations) = ag_ops a
    ∧ pick_operations remote limit db = (Ok picked, db)
    ∧ Z.of_nat (length (picked.1 ++ picked.2)) ≤ Z.max 0 limit
    ∧ Forall2 reports (picked.1 ++ picked.2) out.(eq_results) ∧ tallied out
    ∧ Forall (λ operation, settled operation.(op_id) (ag_ops a')) (picked.1 ++ picked.2)
    ∧ touched (op_id <$> picked.1 ++ picked.2) (ag_ops a) (ag_ops a').
Proof using Type.
  unfold run_sync_queue, read_profile. cbv zeta.
  assert (∀ B (m : M Agent AgentError B) b, preserves (ops_inv (eq (ag_ops a))) m → ag_ops b = ag_ops a →
    ∃ r b', m b = (r, b') ∧ ag_ops b' = ag_ops a) as Hstep.
  { intros B m b Hm Hb. specialize (Hm b). destruct (m b) as [r b']. exists r, b'. split; [done|].
    symmetry. by apply Hm. }
  rewrite M_bind_eq.
  destruct (Hstep _ (ag_on_fs AgentProfileRead (profile_read device_config)) a)
    as ([profile|e] & a1 & -> & H1); [apply ag_on_fs_ops|done| |left; by eauto].
  rewrite M_bind_eq. destruct (Hstep _ (opened (folder_store_new path)) a1)
    as ([[]|e] & a2 & -> & H2); [apply opened_ops|done| |left; by eauto].
  rewrite M_bind_eq. destruct (Hstep _ (scan_folder_into path profile) a2)
    as ([s|e] & a3 & -> & H3); [apply scan_folder_into_ops|done| |left; by eauto].
  rewrite M_bind_eq. destruct (Hstep _ (exchange AgentPeerClient (λ io,
    fetch_manifest io endpoint (device_text profile) secret)) a3)
    as ([manifest|e] & a4 & -> & H4); [apply exchange_ops|done| |left; by eauto].
  rewrite M_bind_eq. unfold ag_on_db, zoom.
  pose proof (pick_unchanged (device_id_to_string manifest.(fm_device_id)) limit (ag_db a4)) as Hun.
  destruct (pick_operations _ limit (ag_db a4)) as [[[downloads uploads]|e] db] eqn:E; simpl in Hun; subst db;
    [|left; by eauto].
  destruct (pick_length _ _ _ _ _ _ E) as (_ & Hl & Hmax).
  replace (with_ag_db (ag_db a4) a4) with a4 by (by destruct a4).
  destruct (settle_all_run (folder_store_new path) profile endpoint secret manifest downloads uploads a4 Hmax)
    as (out & a5 & Hrun & Hrep & Htal & Ht & Hs).
  right. exists out, a5, (device_id_to_string manifest.(fm_device_id)), (ag_db a4), (downloads, uploads).
  rewrite H4 in Ht. apply Forall_fmap in Hs. by repeat (split; [done|]).
Qed.

(** ** The loop *)

(** What no command touches but the output and the pauses. *)
Definition slept (l : list Z) (a : Agent) : Prop := a.(ag_slept) = l.

Section slept.
Context (l : list Z).

Lemma tick_slept {E} : preserves (slept l) (tick (E:=E)).
Proof. by intros a. Qed.
Lemma zoom_slept {S E F A} (part : Agent → S) put (f : E → F) (m : M S E A) :
  (∀ s a, (put s a).(ag_slept) = a.(ag_slept)) → preserves (slept l) (zoom part put f m).
Proof. intros Hp. apply preserves_zoom_rest. unfold slept. intros s a. by rewrite Hp. Qed.
Lemma on_fs_slept {E F A} (f : E → F) (m : M FS E A) : preserves (slept l) (ag_on_fs f m).
Proof. by apply zoom_slept. Qed.
Lemma fs_at_slept {A} path (m : M FS string A) : preserves (slept l) (ag_fs_at path m).
Proof. apply on_fs_slept. Qed.
Lemma on_db_slept {F A} (f : CoreError → F) (m : DB A) : preserves (slept l) (ag_on_db f m).
Proof. by apply zoom_slept. Qed.
Lemma exchange_slept {F A} (f : PeerClientError → F) (m : ClientInputs → CL A) :
  preserves (slept l) (exchange f m).
Proof. by intros a. Qed.
Lemma opened_slept store : preserves (slept l) (opened store).
Proof. intros a Ha. unfold opened, zoom, open_database, get_st. rewrite M_bind_eq. by destruct (bool_decide _). Qed.
Lemma attempt_slept {E F A} (m : M Agent E A) : preserves (slept l) m → preserves (slept l) (attempt (F:=F) m).
Proof. intros Hm a Ha. specialize (Hm a Ha). unfold attempt. by destruct (m a). Qed.
Lemma print_slept {T} `{!SerdeJson T} (v : T) : preserves (slept l) (print_json v).
Proof. unfold print_json. apply preserves_bind_lift. intros text _. by apply preserves_modify. Qed.
Hint Resolve tick_slept on_fs_slept fs_at_slept on_db_slept exchange_slept opened_slept attempt_slept
  print_slept : syncer.

Lemma mark_done_slept operation : preserves (slept l) (mark_done operation).
Proof. unfold mark_done. keep_steps. Qed.
Hint Resolve mark_done_slept : syncer.
Lemma upload_slept store profile endpoint secret manifest operation :
  preserves (slept l) (upload_operation store profile endpoint secret manifest operation).
Proof. unfold upload_operation, delete_remote_target. keep_steps. Qed.
Lemma download_slept store profile endpoint secret manifest operation :
  preserves (slept l) (download_operation store profile endpoint secret manifest operation).
Proof.
  unfold download_operation, enforce_local_download_limit, replace_existing, fetch_download,
    download_temporary_path, publish_download. keep_steps.
Qed.
Hint Resolve upload_slept download_slept : syncer.

Lemma queue_slept path endpoint secret limit device_config :
  preserves (slept l) (run_sync_queue path endpoint secret limit device_config).
Proof.
  unfold run_sync_queue, read_profile, scan_folder_into, settle_all.
  keep_steps; apply preserves_foldM; intros; unfold settle_operation; keep_steps.
Qed.
Lemma once_slept path endpoint secret limit device_config :
  preserves (slept l) (run_sync_once path endpoint secret limit device_config).
Proof.
  pose proof queue_slept. unfold run_sync_once, send_presence, build_sync_plan, enqueue_plan, read_profile,
    scan_folder_into. keep_steps.
Qed.
End slept.

(** The pauses of a loop last a second at least. *)
Definition paused (n : Z) (before after : list Z) : Prop :=
  ∃ pauses, after = before ++ pauses ∧ Forall (λ s, 1 ≤ s) pauses ∧ Z.of_nat (length pauses) = n.

Context `{SO : !SerdeJson SyncOnceOutput}.

(** A round ends in an error, at the last iteration, or after a pause. *)
Lemma round_cases path endpoint secret limit iterations device_config completed a :
  match sync_round path endpoint secret limit iterations device_config completed a with
  | (Err _, _) => True
  | (Ok None, a') => a'.(ag_slept) = a.(ag_slept)
      ∧ ∃ max, iterations = Some max ∧ max ≤ u64_saturating_add completed 1
  | (Ok (Some next), a') => paused 1 a.(ag_slept) a'.(ag_slept) ∧ next = u64_saturating_add completed 1
      ∧ ∀ max, iterations = Some max → u64_saturating_add completed 1 < max
  end.
Proof using Type.
  unfold sync_round. rewrite M_bind_eq.
  pose proof (once_slept a.(ag_slept) path endpoint secret limit device_config a eq_refl) as H1.
  destruct (run_sync_once _ _ _ _ _ a) as [[output|e] a1]; [|done]. rewrite M_bind_eq.
  pose proof (print_slept a.(ag_slept) output a1 H1) as H2.
  destruct (print_json output a1) as [[[]|e] a2]; [|done]. cbv zeta.
  destruct (match iterations with Some max => _ | None => _ end) eqn:E.
  - split; [exact H2|]. destruct iterations as [max|]; [|done]. exists max. split; [done|]. by apply Z.leb_le.
  - rewrite M_bind_eq.
    pose proof (on_fs_slept a.(ag_slept) AgentCore (folder_store_read (folder_store_new path)) a2 H2) as H3.
    destruct (ag_on_fs _ _ a2) as [[folder|e] a3]; [|done]. simpl. split; [|split; [done|]].
    + exists [pause_seconds (sync_interval (fd_folder folder))]. unfold slept in H3. simpl in H3. rewrite H3.
      split; [done|]. split; [|done]. constructor; [|done]. unfold pause_seconds. lia.
    + intros max ->. by apply Z.leb_gt.
Qed.

Lemma loop_ends path endpoint secret limit max device_config fuel : ∀ completed a,
  0 ≤ completed < Z.max 1 max → max ≤ u64_max → (Z.to_nat (Z.max 1 max - completed) ≤ fuel)%nat →
  ∃ r a', sync_loop fuel path endpoint secret limit (Some max) device_config completed a = Some (r, a')
  ∧ (r = Ok tt → paused (Z.max 1 max - completed - 1) a.(ag_slept) a'.(ag_slept)).
Proof using Type.
  induction fuel as [|fuel IH]; intros completed a Hc Hm Hf; [lia|]. cbn [sync_loop].
  pose proof (round_cases path endpoint secret limit (Some max) device_config completed a) as H.
  assert (u64_saturating_add completed 1 = completed + 1) as Hadd
    by (unfold u64_saturating_add, u64_max in *; lia).
  rewrite Hadd in H. destruct (sync_round _ _ _ _ _ _ _ a) as [[[next|]|e] a1].
  - destruct H as ((p1 & Hp1 & Hf1 & Hl1) & -> & Hlt). specialize (Hlt max eq_refl).
    destruct (IH (completed + 1) a1) as (r & a2 & Hrun & Hok); [lia|lia|lia|].
    exists r, a2. split; [done|]. intros Hr. destruct (Hok Hr) as (p2 & -> & Hf2 & Hl2).
    exists (p1 ++ p2). rewrite Hp1, app_assoc. split; [done|]. split; [by apply Forall_app|].
    rewrite length_app. lia.
  - destruct H as [Hs (m & [= <-] & Hle)]. exists (Ok tt), a1. split; [done|]. intros _.
    exists []. rewrite app_nil_r, Hs. split; [done|]. split; [done|]. simpl. lia.
  - by exists (Err e), a1.
Qed.


End ops.
