(* ===== verification/AgentSafety.v ===== *)
(** * The transfer engine: local changes survive synchronisation

    Whatever the remote machine sends, a file of the folder is replaced only by a queued
    download that was planned against exactly the content it has, and only by content
    whose hash is the announced one. *)

From S2P Require Import Prelude RustStd External Error Manifest Limits Model Records Planning StateDb StateDbFacts StateDbSpec FileSys FolderStore Scanner ScannerSpec PathCodec RequestSigning PeerCrypto PeerStore HttpText PeerRequest PeerRequestSpec PeerServer PeerServerSpec PeerUploadSpec PeerSharedSpec PeerClient AgentError Agent AgentSpec.
From stdpp Require Import options pretty.
Local Open Scope Z_scope.

(** ** Directories *)

(** No call turns a directory into something else. *)
Section dirs.
Context `{IL : !IoLib} (k : Key).

Lemma fs_write_dir now path content : preserves (kept k EDir) (fs_write now path content).
Proof.
  destruct (decide (components path = k)) as [<-|?]; [|by apply fs_write_kept].
  intros fs Hk. unfold fs_write, get_st. rewrite M_bind_eq. cbv zeta. unfold kept in Hk. by rewrite Hk.
Qed.
Lemma append_dir {E} now path bs : preserves (kept k EDir) (append (E:=E) now path bs).
Proof.
  destruct (decide (components path = k)) as [<-|?]; [|by apply append_kept].
  apply preserves_modify. unfold kept. intros fs Hk. by rewrite lookup_alter_eq, Hk.
Qed.
Lemma remove_file_dir path : preserves (kept k EDir) (remove_file path).
Proof.
  destruct (decide (components path = k)) as [<-|?]; [|by apply remove_file_kept].
  intros fs Hk. unfold remove_file, get_st. rewrite M_bind_eq. unfold kept in Hk. by rewrite Hk.
Qed.
Lemma fs_rename_dir from to : preserves (kept k EDir) (fs_rename from to).
Proof.
  intros fs Hk. unfold kept in Hk. unfold fs_rename, get_st. rewrite M_bind_eq. cbv zeta.
  destruct (fs !! components from) as [[c m| |]|] eqn:Ef; [|done..].
  assert (components from ≠ k) by congruence.
  destruct (decide (components to = k)) as [<-|?]; [by rewrite Hk|].
  assert (∀ x, kept k EDir (<[components to := x]> (delete (components from) fs))) as Hi
    by (intros x; unfold kept; by rewrite lookup_insert_ne, lookup_delete_ne).
  destruct (fs !! components to) as [[c' m'| |]|]; try done; (destruct (has_parent _ _); [apply Hi|done]).
Qed.
End dirs.

(** ** Decryption *)

Section decrypt.
Context `{HL : !HexLib, BL : !Blake3Lib, AL : !AeadLib, KL : !KdfLib, RL : !ReadLib, IL : !IoLib}.

Lemma decrypt_loop_holds now key prefix context dest chunks : ∀ i remaining input hashed fs ih fs',
  holds dest hashed fs →
  decrypt_loop now key prefix context dest chunks i remaining input hashed fs = (Ok ih, fs') →
  holds dest ih.2 fs'.
Proof.
  induction chunks as [|chunks IH]; intros i remaining input hashed fs ih fs' Hh; cbn [decrypt_loop].
  { by intros [= <- <-]. }
  destruct (length input <? _)%nat; [done|]. rewrite M_bind_eq. unfold lift.
  destruct (ok_or Decrypt _) as [plaintext|e]; [|done]. rewrite M_bind_eq.
  destruct (append_run (E:=PeerCryptoError) now dest hashed plaintext fs Hh) as (fs1 & -> & Hh1 & _).
  by apply IH.
Qed.

(** What a decryption reports is the hash of what it wrote. *)
Lemma decrypt_holds now source dest secret nonce context fs r fs' :
  decrypt_file_to_path now source dest secret nonce context fs = (Ok r, fs') →
  ∃ content, holds dest content fs' ∧ r.(cf_content_hash) = blake3_hex content.
Proof.
  unfold decrypt_file_to_path. rewrite M_bind_eq. unfold lift at 1. destruct (derive_key secret) as [key|]; [|done].
  rewrite M_bind_eq. unfold lift at 1. destruct (decode_nonce_prefix nonce) as [prefix|]; [|done].
  rewrite M_bind_eq. destruct (open_read source fs) as [[content|] fs1]; [|done].
  rewrite M_bind_eq. unfold crypto_io. destruct (fs_write now dest [] fs1) as [[[]|] fs2] eqn:Ew; [|done].
  assert (holds dest [] fs2) as Hh.
  { revert Ew. unfold fs_write, get_st. rewrite M_bind_eq. cbv zeta.
    assert (holds dest [] (<[components dest := EFile [] (Some now)]> fs1)) as Hi
      by (exists (Some now); apply lookup_insert_eq).
    destruct (fs1 !! components dest) as [[]|]; try done; (destruct (has_parent _ _); [|done]);
      by intros [= <-]. }
  rewrite M_bind_eq. destruct (decrypt_loop _ _ _ _ _ _ _ _ _ _ fs2) as [[ih|] fs3] eqn:Ed; [|done].
  apply decrypt_loop_holds in Ed; [|done]. destruct (negb _); [done|]. intros [= <- <-]. by exists ih.2.
Qed.
End decrypt.

(** ** The calls of the client *)

Definition cl_keeps (k : Key) (e : Entry) (c : Client) : Prop := kept k e c.(cl_fs).

Section client.
Context `{UL : !UuidLib, HL : !HexLib, SH : !Sha256Lib, HM : !HmacLib, BL : !Blake3Lib, IL : !IoLib,
          AL : !AeadLib, KL : !KdfLib, RL : !ReadLib,
          J1 : !SerdeJson unit, J2 : !SerdeJson PeerPresence, J3 : !SerdeJson PresenceResponse,
          J4 : !SerdeJson FolderManifest, J5 : !SerdeJson ClientUploadResponse,
          J6 : !SerdeJson ClientDeleteResponse}.

Section keeps.
Context (k : Key) (e : Entry).

Lemma cl_send_keeps bs : preserves (cl_keeps k e) (cl_send bs).
Proof. by apply preserves_modify. Qed.
Lemma on_cl_stream_keeps {A} (m : M Stream PeerClientError A) : preserves (cl_keeps k e) (on_cl_stream m).
Proof. by apply preserves_zoom_rest. Qed.
Lemma on_cl_fs_keeps {E A} (f : E → PeerClientError) (m : M FS E A) :
  preserves (kept k e) m → preserves (cl_keeps k e) (on_cl_fs f m).
Proof. intros Hm. by apply (preserves_zoom cl_fs with_cl_fs f (kept k e)). Qed.
Lemma cl_remove_keeps path : preserves (kept k e) (remove_file path) →
  preserves (cl_keeps k e) (modify (λ c, with_cl_fs (remove_file path c.(cl_fs)).2 c) : CL unit).
Proof. intros H. apply preserves_modify. intros c Hc. by apply H. Qed.
Lemma connect_keeps io address : preserves (cl_keeps k e) (connect io address).
Proof. apply preserves_lift. Qed.
Hint Resolve cl_send_keeps on_cl_stream_keeps on_cl_fs_keeps cl_remove_keeps connect_keeps : syncer.

Lemma request_json_keeps {T R} `{!SerdeJson T, !SerdeJson R} io method endpoint path id secret
    (body : option T) extra :
  preserves (cl_keeps k e) (request_json (T:=T) (R:=R) io method endpoint path id secret body extra).
Proof. unfold request_json, request_bytes. keep_steps. Qed.

(** A file apart from those the call writes, or a directory. *)
Definition safe_from (path : string) : Prop := components path ≠ k ∨ e = EDir.

Lemma write_safe now path content : safe_from path → preserves (kept k e) (fs_write now path content).
Proof. intros [?| ->]; [by apply fs_write_kept|apply fs_write_dir]. Qed.
Lemma append_safe {E} now path bs : safe_from path → preserves (kept k e) (append (E:=E) now path bs).
Proof. intros [?| ->]; [by apply append_kept|apply append_dir]. Qed.
Lemma remove_safe path : safe_from path → preserves (kept k e) (remove_file path).
Proof. intros [?| ->]; [by apply remove_file_kept|apply remove_file_dir]. Qed.
Lemma rename_safe from to : safe_from from → safe_from to → preserves (kept k e) (fs_rename from to).
Proof. intros [?| ->] [?|He]; try subst e; try apply fs_rename_dir; try done. by apply fs_rename_kept. Qed.
Hint Resolve write_safe append_safe remove_safe crypto_io_kept open_read_kept : syncer.

Lemma copy_exact_keeps now fuel output : safe_from output → ∀ remaining,
  preserves (cl_keeps k e) (copy_exact now fuel output remaining).
Proof.
  intros Ho. induction fuel as [|fuel IH]; intros remaining; cbn [copy_exact]; keep_steps.
Qed.
Lemma encrypt_loop_safe now key prefix context dest input : safe_from dest → ∀ processed hashed i,
  preserves (kept k e) (encrypt_loop now key prefix context dest input processed hashed i).
Proof.
  intros Hd. induction input as [|chunk input IH]; intros processed hashed i; cbn [encrypt_loop];
    unfold encrypt_chunk; keep_steps.
Qed.
Lemma decrypt_loop_safe now key prefix context dest chunks : safe_from dest → ∀ i remaining input hashed,
  preserves (kept k e) (decrypt_loop now key prefix context dest chunks i remaining input hashed).
Proof.
  intros Hd. induction chunks as [|chunks IH]; intros i remaining input hashed; cbn [decrypt_loop]; keep_steps.
Qed.
Lemma encrypt_file_safe now prefix source dest secret context : safe_from dest →
  preserves (kept k e) (encrypt_file_to_path now prefix source dest secret context).
Proof. intros Hd. pose proof encrypt_loop_safe. unfold encrypt_file_to_path. cbv zeta. keep_steps. Qed.
Lemma decrypt_file_safe now source dest secret nonce context : safe_from dest →
  preserves (kept k e) (decrypt_file_to_path now source dest secret nonce context).
Proof. intros Hd. pose proof decrypt_loop_safe. unfold decrypt_file_to_path. cbv zeta. keep_steps. Qed.
Lemma file_sha_keeps path : preserves (kept k e) (file_sha256_hex path).
Proof.
  apply preserves_read. intros fs. unfold file_sha256_hex, get_st. rewrite M_bind_eq, M_bind_eq.
  unfold lift. by destruct (fs_read fs path).
Qed.
Hint Resolve copy_exact_keeps encrypt_file_safe decrypt_file_safe file_sha_keeps : syncer.

Lemma receive_file_keeps io secret p size destination head :
  safe_from destination → safe_from (encrypted_download_path destination io.(ci_file_id)) →
  preserves (cl_keeps k e) (receive_file io secret p size destination head).
Proof. intros Hd He. unfold receive_file. cbv zeta. keep_steps. Qed.

Lemma fetch_keeps io endpoint id secret p size destination :
  safe_from destination → safe_from (encrypted_download_path destination io.(ci_file_id)) →
  preserves (cl_keeps k e) (fetch_file_to_path io endpoint id secret p size destination).
Proof. intros Hd He. pose proof receive_file_keeps. unfold fetch_file_to_path. cbv zeta. keep_steps. Qed.

Lemma put_keeps io endpoint id secret p hash file_path size :
  safe_from (encrypted_upload_path file_path io.(ci_file_id)) →
  preserves (cl_keeps k e) (put_file_from_path io endpoint id secret p hash file_path size).
Proof. intros He. unfold put_file_from_path. cbv zeta. keep_steps. Qed.
End keeps.

(** What a download reports is the hash of the file it left. *)
Lemma receive_holds io secret p size destination head c r c' :
  components (encrypted_download_path destination io.(ci_file_id)) ≠ components destination →
  receive_file io secret p size destination head c = (Ok r, c') →
  ∃ content, holds destination content c'.(cl_fs) ∧ r.(tf_content_hash) = blake3_hex content.
Proof.
  intros Hne. unfold receive_file. destruct (negb _); [done|].
  rewrite M_bind_eq. unfold lift at 1. destruct (ok_or _ _) as [encryption|]; [|done].
  destruct (negb _); [done|].
  rewrite M_bind_eq. unfold lift at 1. destruct (ok_or _ _) as [nonce|]; [|done].
  rewrite M_bind_eq. unfold lift at 1. destruct (ok_or _ _) as [hash|]; [|done].
  cbv zeta. destruct (negb _); [done|]. rewrite M_bind_eq.
  destruct (on_cl_fs ClientIo _ c) as [[[]|] c1]; [|done]. unfold get_st. rewrite M_bind_eq.
  rewrite M_bind_eq. destruct (copy_exact _ _ _ _ c1) as [[[]|] c2]; [|done]. rewrite M_bind_eq.
  unfold on_cl_fs, zoom. destruct (decrypt_file_to_path _ _ _ _ _ _ (cl_fs c2)) as [[f|] fs3] eqn:Ed; [|done].
  apply decrypt_holds in Ed as (content & [m Hh] & Hhash). rewrite M_bind_eq. unfold modify.
  intros [= <- <-]. exists content. split; [|exact Hhash]. exists m. cbn [cl_fs with_cl_fs].
  by apply (remove_file_kept (components destination) (EFile content m)).
Qed.

Lemma fetch_holds io endpoint id secret p size destination c r c' :
  components (encrypted_download_path destination io.(ci_file_id)) ≠ components destination →
  fetch_file_to_path io endpoint id secret p size destination c = (Ok r, c') →
  ∃ content, holds destination content c'.(cl_fs) ∧ r.(tf_content_hash) = blake3_hex content.
Proof.
  intros Hne. unfold fetch_file_to_path. cbv zeta.
  rewrite M_bind_eq. unfold lift at 1. destruct (parse_address endpoint); [|done].
  rewrite M_bind_eq. unfold lift at 1. destruct (signed_request_header _ _); [|done].
  rewrite M_bind_eq. destruct (connect _ _ c) as [[[]|] c1]; [|done].
  rewrite M_bind_eq. destruct (cl_send _ c1) as [[[]|] c2]; [|done].
  rewrite M_bind_eq. destruct (on_cl_stream _ c2) as [[head|] c3]; [|done]. by apply receive_holds.
Qed.
End client.

(** ** The names of temporary files *)

Section names.
Context `{UL : !UuidLib, UW : !UuidLaws}.

(** An identifier as [OperationId] prints it. *)
Definition uuid_named (id : string) : Prop := ∃ u, id = uuid_to_string u.
Definition upload_extension (u : Uuid) : string := "syncer-upload-" +:+ uuid_to_string u +:+ ".enc".
Definition download_extension (u : Uuid) : string := "syncer-download-" +:+ uuid_to_string u +:+ ".enc".

(** A file of the user: outside the metadata directory and not called like the encrypted
    copy of an upload. *)
Definition user_file (names : list string) : Prop :=
  head names ≠ Some ".syncer" ∧ ∀ d n u, names ≠ d ++ [response_name n (upload_extension u)].

Definition part_path (store : FolderStore) (id : string) : string :=
  path_push (downloads_dir store) (id +:+ ".part").

Lemma extension_no_slash prefix (u : Uuid) : slash ∉ bytes prefix →
  (slash ∉ bytes (prefix +:+ uuid_to_string u +:+ ".enc"))
  ∧ (2 ≤ length (bytes (prefix +:+ uuid_to_string u +:+ ".enc")))%nat.
Proof using UW Type.
  intros Hp. split.
  - pose proof (uuid_name_valid u "enc" ltac:(by apply (bool_decide_eq_true_1 _))) as (_ & _ & _ & He).
    rewrite bytes_app, not_elem_of_app. by split.
  - rewrite !bytes_app, !length_app. simpl. lia.
Qed.

Lemma downloads_key root : components (downloads_dir (folder_store_new root)) = key root [".syncer"; "tmp"; "downloads"].
Proof using UW Type.
  unfold downloads_dir, syncer_dir, folder_store_new, key. cbn [fst_root].
  rewrite !components_push1 by (apply valid_check; vm_compute; reflexivity). by rewrite <-!app_assoc.
Qed.

Lemma part_valid id : uuid_named id → valid_name (id +:+ ".part").
Proof using UW Type. intros [u ->]. apply (uuid_name_valid u "part"). by apply (bool_decide_eq_true_1 _). Qed.

Lemma part_key root id : uuid_named id →
  components (part_path (folder_store_new root) id) = key root [".syncer"; "tmp"; "downloads"] ++ [Normal (id +:+ ".part")].
Proof using UW Type. intros H. unfold part_path. by rewrite components_push1, downloads_key by (by apply part_valid). Qed.

Lemma part_enc_key root id u : uuid_named id →
  components (encrypted_download_path (part_path (folder_store_new root) id) u)
  = key root [".syncer"; "tmp"; "downloads"] ++ [Normal (response_name (id +:+ ".part") (download_extension u))].
Proof using UW Type.
  intros H. destruct (extension_no_slash "syncer-download-" u) as [Hs Hl]; [by apply (bool_decide_eq_true_1 _)|].
  apply with_extension_key; [by apply part_key| |done|done]. by destruct (part_valid id H) as (_ & _ & _ & ?).
Qed.

(** The part and its encrypted copy end differently. *)
Lemma enc_not_part root id u : uuid_named id →
  components (encrypted_download_path (part_path (folder_store_new root) id) u)
  ≠ components (part_path (folder_store_new root) id).
Proof using UW Type.
  intros H. rewrite part_enc_key, part_key by done. intros E%app_inj_tail. destruct E as [_ [= E]].
  apply (f_equal (λ s, last (bytes s))) in E. revert E. unfold response_name, download_extension.
  rewrite !bytes_app. change (bytes ".enc") with ([dot; Ascii.ascii_of_N 101; Ascii.ascii_of_N 110] ++ [Ascii.ascii_of_N 99]).
  change (bytes ".part") with ((dot :: bytes "par") ++ [Ascii.ascii_of_N 116]).
  rewrite !app_assoc, !last_snoc. done.
Qed.

Lemma upload_enc_key root p names u : canonical names p →
  ∃ d n, components (encrypted_upload_path (path_push root (rel_str p)) u)
    = key root (d ++ [response_name n (upload_extension u)]).
Proof using UW Type.
  intros Hp. destruct names as [|n d _] using rev_ind; [by destruct Hp|].
  exists d, n. rewrite key_snoc.
  destruct (extension_no_slash "syncer-upload-" u) as [Hs Hl]; [by apply (bool_decide_eq_true_1 _)|].
  apply with_extension_key; [by rewrite (rel_key _ _ _ Hp), key_snoc| |done|done].
  destruct Hp as (_ & Hv & _). apply Forall_app in Hv as [_ [(_ & _ & _ & ?) _]%Forall_cons]. done.
Qed.

(** What an agent may not touch: a directory, or a file of the user. *)
Definition guarded (root : string) (k : Key) (e : Entry) : Prop :=
  e = EDir ∨ ∃ names, k = key root names ∧ user_file names.

Lemma guarded_hidden root k e path rest : guarded root k e → components path = key root (".syncer" :: rest) →
  safe_from k e path.
Proof using UW Type.
  intros [->|(names & -> & Hh & _)] Hp; [by right|left]. rewrite Hp. intros E%(inj (key root)).
  subst names. by apply Hh.
Qed.
Lemma guarded_part root k e id : guarded root k e → uuid_named id →
  safe_from k e (part_path (folder_store_new root) id).
Proof using UW Type.
  intros Hg Hi. eapply (guarded_hidden _ _ _ _ ["tmp"; "downloads"; id +:+ ".part"]); [done|].
  rewrite part_key, <-key_snoc by done. done.
Qed.
Lemma guarded_part_enc root k e id u : guarded root k e → uuid_named id →
  safe_from k e (encrypted_download_path (part_path (folder_store_new root) id) u).
Proof using UW Type.
  intros Hg Hi. eapply (guarded_hidden _ _ _ _ ["tmp"; "downloads"; _]); [done|].
  rewrite part_enc_key, <-key_snoc by done. done.
Qed.
Lemma guarded_upload root k e p names u : guarded root k e → canonical names p →
  safe_from k e (encrypted_upload_path (path_push root (rel_str p)) u).
Proof using UW Type.
  intros [->|(names' & -> & _ & Hu)] Hp; [by right|left].
  destruct (upload_enc_key root p names u Hp) as (d & n & ->). intros E%(inj (key root)).
  by apply (Hu d n u).
Qed.
End names.

(** ** What the steps of the engine leave alone *)

Definition ag_keeps `{!World} (k : Key) (e : Entry) (a : Agent) : Prop := kept k e a.(ag_fs).
Definition ag_files `{!World} (P : gmap string FileRow → Prop) (a : Agent) : Prop := P a.(ag_db).(db_files).
Definition files_of (P : gmap string FileRow → Prop) (db : Database) : Prop := P db.(db_files).

Section engine.
Context `{W : !World}.
Context `{TL : !TimeLib, SL : !SqlxLib, UL : !UuidLib, UW : !UuidLaws, SJ : !SerdeJson (list BlockHash),
          BL : !Blake3Lib, IL : !IoLib, RD : !ReadDir, HL : !HexLib, SH : !Sha256Lib, HM : !HmacLib,
          AL : !AeadLib, KL : !KdfLib, RL : !ReadLib, FJ : !SerdeJson FolderDocument,
          LJ : !SerdeJson LocalDeviceProfile, J1 : !SerdeJson unit, J2 : !SerdeJson PeerPresence,
          J3 : !SerdeJson PresenceResponse, J4 : !SerdeJson FolderManifest,
          J5 : !SerdeJson ClientUploadResponse, J6 : !SerdeJson ClientDeleteResponse}.

(** The second half of [fetch_download]. *)
Definition fetch_part (store : FolderStore) (profile : LocalDeviceProfile) (endpoint shared_secret : string)
    (operation : SyncOperationRecord) (remote_file : FileRecord) (expected_hash : string)
    : M Agent TransferError (string * TransferredFile) :=
  let temporary := part_path store operation.(op_id) in
  transferred ← exchange TransferPeerClient (λ io,
    fetch_file_to_path io endpoint (device_text profile) shared_secret operation.(op_path)
      remote_file.(fr_size_bytes) temporary);
  if negb (transferred.(tf_size_bytes) =? remote_file.(fr_size_bytes))
  then throw (SizeMismatch remote_file.(fr_size_bytes) transferred.(tf_size_bytes))
  else if negb (bool_decide (transferred.(tf_content_hash) = expected_hash)) then throw TransferHashMismatch
  else mret (temporary, transferred).

Lemma fetch_download_eq store profile endpoint secret operation remote_file hash a :
  fetch_download store profile endpoint secret operation remote_file hash a
  = (_ ← ag_fs_at (downloads_dir store) (create_dir_all (downloads_dir store));
     fetch_part store profile endpoint secret operation remote_file hash) a.
Proof using Type.
  unfold fetch_download, download_temporary_path. cbv zeta. rewrite !M_bind_eq.
  by destruct (ag_fs_at _ _ a) as [[[]|] a1].
Qed.

Lemma fetch_download_part store profile endpoint secret operation remote_file hash a temporary transferred a' :
  fetch_download store profile endpoint secret operation remote_file hash a = (Ok (temporary, transferred), a') →
  temporary = part_path store operation.(op_id).
Proof using Type.
  rewrite fetch_download_eq. revert a temporary transferred a'.
  assert (ends (λ r _, r.1 = part_path store (op_id operation))
    (_ ← ag_fs_at (downloads_dir store) (create_dir_all (downloads_dir store));
     fetch_part store profile endpoint secret operation remote_file hash)) as H.
  { apply ends_bind; intros _. unfold fetch_part. cbv zeta. apply ends_bind; intros r. end_steps.
    by intros a x a' [= <- _]. }
  intros a temporary transferred a' E. by apply H in E.
Qed.

(** *** Files *)

Section fs.
Context (root : string) (k : Key) (e : Entry).
Hypothesis Hk : guarded root k e.

Lemma tick_keeps {E} : preserves (ag_keeps k e) (tick (E:=E)).
Proof using Type. by intros a. Qed.
Lemma ag_on_db_keeps {F A} (f : CoreError → F) (m : DB A) : preserves (ag_keeps k e) (ag_on_db f m).
Proof using Type. by apply preserves_zoom_rest. Qed.
Lemma ag_on_fs_keeps {E F A} (f : E → F) (m : M FS E A) :
  preserves (kept k e) m → preserves (ag_keeps k e) (ag_on_fs f m).
Proof using Type. intros Hm. by apply (preserves_zoom ag_fs with_ag_fs f (kept k e)). Qed.
Lemma ag_fs_at_keeps {A} path (m : M FS string A) :
  preserves (kept k e) m → preserves (ag_keeps k e) (ag_fs_at path m).
Proof using Type. apply ag_on_fs_keeps. Qed.
Lemma exchange_keeps {F A} (f : PeerClientError → F) (m : ClientInputs → CL A) :
  (∀ io, preserves (cl_keeps k e) (m io)) → preserves (ag_keeps k e) (exchange f m).
Proof using Type.
  intros Hm a Ha. unfold exchange, tick, get_st, modify. rewrite !M_bind_eq. cbv zeta. unfold lift. cbn [snd].
  by apply (Hm _ (client_on _ _)).
Qed.
Hint Resolve tick_keeps ag_on_db_keeps ag_on_fs_keeps ag_fs_at_keeps exchange_keeps folder_store_read_kept : syncer.

Lemma mark_done_keeps operation : preserves (ag_keeps k e) (mark_done operation).
Proof using Type. unfold mark_done. keep_steps. Qed.
Lemma download_limit_keeps store p size : preserves (ag_keeps k e) (enforce_local_download_limit store p size).
Proof using Type. unfold enforce_local_download_limit. keep_steps. Qed.
Lemma replace_keeps store operation : preserves (ag_keeps k e) (replace_existing store operation).
Proof using Type. unfold replace_existing. keep_steps. Qed.
Hint Resolve mark_done_keeps download_limit_keeps replace_keeps : syncer.

Lemma upload_operation_keeps names profile endpoint secret manifest operation :
  canonical names operation.(op_path) →
  preserves (ag_keeps k e) (upload_operation (folder_store_new root) profile endpoint secret manifest operation).
Proof using Hk UW.
  intros Hp. unfold upload_operation, delete_remote_target. cbn [fst_root folder_store_new].
  pose proof (λ u, guarded_upload root k e _ names u Hk Hp) as Hu.
  assert (∀ io id hash size, preserves (cl_keeps k e) (put_file_from_path io endpoint id secret
    (op_path operation) hash (path_push root (rel_str (op_path operation))) size)) as Hput
    by (intros; by apply put_keeps).
  assert (∀ io id p hash size, preserves (cl_keeps k e) (delete_file io endpoint id secret p hash size)) as Hdel
    by (intros; apply request_json_keeps).
  keep_steps.
Qed.

Lemma fetch_download_keeps profile endpoint secret operation remote_file hash :
  uuid_named operation.(op_id) →
  preserves (ag_keeps k e) (fetch_download (folder_store_new root) profile endpoint secret operation remote_file hash).
Proof using Hk UW.
  intros Hi a Ha. rewrite fetch_download_eq. revert a Ha.
  match goal with |- ∀ a, _ → ag_keeps k e (?m a).2 => change (preserves (ag_keeps k e) m) end.
  assert (∀ io id p size, preserves (cl_keeps k e) (fetch_file_to_path io endpoint id secret p size
    (part_path (folder_store_new root) (op_id operation)))) as Hf.
  { intros. apply fetch_keeps; [by apply guarded_part|by apply guarded_part_enc]. }
  unfold fetch_part. keep_steps.
Qed.

(** A download of another file. *)
Lemma download_other profile endpoint secret manifest operation :
  uuid_named operation.(op_id) → safe_from k e (path_push root (rel_str operation.(op_path))) →
  preserves (ag_keeps k e) (download_operation (folder_store_new root) profile endpoint secret manifest operation).
Proof using Hk UW.
  intros Hi Ht. pose proof (fetch_download_keeps profile endpoint secret operation) as Hf.
  unfold download_operation. apply preserves_bind_lift. intros remote_file _. destruct (negb _); [apply preserves_throw|].
  apply preserves_bind_lift. intros hash _.
  apply preserves_bind; [apply download_limit_keeps|intros _]. apply preserves_bind; [apply replace_keeps|intros replace].
  intros a Ha. rewrite M_bind_eq. pose proof (Hf remote_file hash Hi a Ha) as H1.
  destruct (fetch_download _ _ _ _ _ _ _ a) as [[[temporary transferred]|er] a1] eqn:E; [|exact H1].
  apply fetch_download_part in E as ->. cbn [fst_root folder_store_new fst snd]. revert a1 H1.
  match goal with |- ∀ a1, _ → ag_keeps k e (?m a1).2 => change (preserves (ag_keeps k e) m) end.
  pose proof (remove_safe k e _ Ht). pose proof (rename_safe k e _ _ (guarded_part root k e _ Hk Hi) Ht).
  unfold publish_download. keep_steps.
Qed.
End fs.

(** *** Rows *)

Section files.
Context (P : gmap string FileRow → Prop).

Lemma tick_files {E} : preserves (ag_files P) (tick (E:=E)).
Proof using Type. by intros a. Qed.
Lemma ag_on_fs_files {E F A} (f : E → F) (m : M FS E A) : preserves (ag_files P) (ag_on_fs f m).
Proof using Type. by apply preserves_zoom_rest. Qed.
Lemma ag_fs_at_files {A} path (m : M FS string A) : preserves (ag_files P) (ag_fs_at path m).
Proof using Type. apply ag_on_fs_files. Qed.
Lemma ag_on_db_files {F A} (f : CoreError → F) (m : DB A) :
  preserves (files_of P) m → preserves (ag_files P) (ag_on_db f m).
Proof using Type. intros Hm. by apply (preserves_zoom ag_db with_ag_db f (files_of P)). Qed.
Lemma exchange_files {F A} (f : PeerClientError → F) (m : ClientInputs → CL A) : preserves (ag_files P) (exchange f m).
Proof using Type. by intros a. Qed.
Lemma list_files_files : preserves (files_of P) list_files.
Proof using Type. by apply preserves_read. Qed.
Lemma list_skipped_files_files : preserves (files_of P) list_skipped_files.
Proof using Type. by apply preserves_read. Qed.
Lemma modify_operations_files f : preserves (files_of P) (modify (with_operations f) : DB unit).
Proof using Type. by apply preserves_modify. Qed.
Lemma modify_skipped_files f : preserves (files_of P) (modify (with_skipped f) : DB unit).
Proof using Type. by apply preserves_modify. Qed.
Hint Resolve tick_files ag_on_fs_files ag_fs_at_files ag_on_db_files exchange_files list_files_files
  list_skipped_files_files modify_operations_files modify_skipped_files : syncer.

Lemma mark_done_files operation : preserves (ag_files P) (mark_done operation).
Proof using Type.
  unfold mark_done, mark_sync_operation_done, update_sync_operation_status, update_operations. keep_steps.
Qed.
Lemma limit_files store p size : preserves (ag_files P) (enforce_local_download_limit store p size).
Proof using Type.
  assert (preserves (files_of P) folder_status) by (unfold folder_status; keep_steps).
  assert (∀ now t, preserves (files_of P) (record_skipped_folder_limit now t))
    by (intros; unfold record_skipped_folder_limit; keep_steps).
  unfold enforce_local_download_limit. keep_steps.
Qed.
Lemma replace_files store operation : preserves (ag_files P) (replace_existing store operation).
Proof using Type. unfold replace_existing. keep_steps. Qed.
Hint Resolve mark_done_files limit_files replace_files : syncer.
Lemma fetch_download_files store profile endpoint secret operation remote_file hash :
  preserves (ag_files P) (fetch_download store profile endpoint secret operation remote_file hash).
Proof using Type. unfold fetch_download, download_temporary_path. keep_steps. Qed.
Hint Resolve fetch_download_files : syncer.

Lemma upload_files store profile endpoint secret manifest operation :
  preserves (ag_files P) (upload_operation store profile endpoint secret manifest operation).
Proof using Type. unfold upload_operation, delete_remote_target. keep_steps. Qed.

Lemma download_files store profile endpoint secret manifest operation :
  (∀ files row, P files → P (<[rel_str operation.(op_path) := row]> files)) →
  preserves (ag_files P) (download_operation store profile endpoint secret manifest operation).
Proof using Type.
  intros Hi.
  assert (∀ now now_utc profile file transferred, preserves (files_of P)
    (upsert_file now (downloaded_entry now_utc profile operation file transferred))) as Hu.
  { intros. unfold upsert_file. apply preserves_bind_lift. intros row _. apply preserves_modify.
    intros db Hdb. by apply Hi. }
  unfold download_operation, publish_download. keep_steps.
Qed.
Lemma started_files now id : preserves (files_of P) (mark_sync_operation_started now id).
Proof using Type. unfold mark_sync_operation_started, update_operations. keep_steps. Qed.
Lemma failed_files now id error : preserves (files_of P) (mark_sync_operation_failed now id error).
Proof using Type. unfold mark_sync_operation_failed, update_sync_operation_status, update_operations. keep_steps. Qed.
End files.

(** Rows that are read back, and a row for a path that is in them. *)
Definition all_stable (files : gmap string FileRow) : Prop := map_Forall (λ t _, stable_path t) files.

Lemma listed_row db files db' names p y :
  list_files db = (Ok files, db') → all_stable db.(db_files) → canonical names p →
  y ∈ files → rel_eqb y.(fr_path) p = true →
  ∃ r, db.(db_files) !! rel_str p = Some r ∧ y.(fr_content_hash) = r.(w_content_hash)
  ∧ y.(fr_size_bytes) = r.(w_size_bytes).
Proof using Type.
  intros Hl Hs Hp Hy Heq. unfold list_files, get_st in Hl. rewrite M_bind_eq in Hl. unfold lift in Hl.
  injection Hl as Hl _. apply result_mapM_Ok in Hl.
  apply list_elem_of_lookup in Hy as [i Hi]. destruct (Forall2_lookup_r _ _ _ _ _ Hl Hi) as ([t r] & Htr & Hrow).
  apply list_elem_of_lookup_2 in Htr. unfold file_rows in Htr. rewrite sort_by_elem in Htr.
  apply elem_of_map_to_list in Htr. pose proof (Hs _ _ Htr) as Hst.
  unfold row_to_file_record in Hrow. rewrite Hst in Hrow.
  destruct (file_kind_parse _) as [kind|]; [|done]. cbn [mbind result_bind] in Hrow.
  unfold u64_try_from_i64 in Hrow. destruct (0 <=? w_size_bytes r); [|done]. cbn [mbind result_bind ok_or] in Hrow.
  destruct (map_err _ _) as [modified|]; [|done]. cbn [mbind result_bind] in Hrow.
  destruct (ok_or _ _) as [generation|]; [|done]. cbn [mbind result_bind] in Hrow.
  destruct (file_sync_state_parse _) as [state|]; [|done]. cbn [mbind result_bind] in Hrow.
  injection Hrow as <-. cbn [fr_path fr_content_hash fr_size_bytes] in *.
  rewrite <-(stable_eqb _ _ _ Hst Hp Heq). by exists r.
Qed.

(** A download that finds a file at its target goes on only when the row of the file is the
    one the operation was queued against. *)
Lemma replace_existing_cases root operation names a :
  canonical names operation.(op_path) → all_stable a.(ag_db).(db_files) →
  is_Some (a.(ag_fs) !! key root names) →
  (∃ er, replace_existing (folder_store_new root) operation a = (Err er, a))
  ∨ replace_existing (folder_store_new root) operation a = (Ok true, a)
    ∧ ∃ r, a.(ag_db).(db_files) !! rel_str operation.(op_path) = Some r
      ∧ operation.(op_local_content_hash) = r.(w_content_hash)
      ∧ operation.(op_local_size_bytes) = Some r.(w_size_bytes).
Proof using Type.
  intros Hp Hs [e He]. unfold replace_existing. cbn [fst_root folder_store_new]. cbv zeta.
  unfold get_st. rewrite M_bind_eq. unfold try_exists. rewrite (rel_key _ _ _ Hp), He.
  cbn [map_err]. rewrite bind_lift_Ok. rewrite !M_bind_eq. unfold ag_on_db, zoom.
  assert ((list_files (ag_db a)).2 = ag_db a) as Hdb by done.
  destruct (list_files (ag_db a)) as [[files|er] db] eqn:El; simpl in Hdb; subst db;
    replace (with_ag_db (ag_db a) a) with a by (by destruct a); cbn [mret M_ret]; [|left; by eexists].
  destruct (existsb (is_replaced operation) files) eqn:Ex; [right|left; by eexists].
  split; [done|]. apply existsb_exists in Ex as (y & Hy%list_elem_of_In & Hr).
  unfold is_replaced in Hr. rewrite !andb_true_iff, !bool_decide_eq_true in Hr. destruct Hr as [[Heq Hh] Hz].
  destruct (listed_row _ _ _ _ _ _ El Hs Hp Hy Heq) as (r & Hr & E1 & E2).
  exists r. by rewrite Hh, Hz, E1, E2.
Qed.

(** *** One download onto a file that is there *)

Lemma ag_fs_at_run {A} path (m : M FS string A) a r fs' : m a.(ag_fs) = (Ok r, fs') →
  ag_fs_at path m a = (Ok r, with_ag_fs fs' a).
Proof using Type. intros H. unfold ag_fs_at, ag_on_fs, zoom. by rewrite H. Qed.

(** The downloaded part is moved to a free target. *)
Lemma publish_free root p d n id c' m' a :
  canonical (d ++ [n]) p → uuid_named id →
  a.(ag_fs) !! key root (d ++ [n]) = None →
  (∀ j, on_way [] (key root d) j → dir_or_none (a.(ag_fs) !! j)) →
  a.(ag_fs) !! components (part_path (folder_store_new root) id) = Some (EFile c' m') →
  ∃ fs', publish_download (folder_store_new root) p (part_path (folder_store_new root) id) a
    = (Ok tt, with_ag_fs fs' a) ∧ fs' !! key root (d ++ [n]) = Some (EFile c' m')
  ∧ made (key root d) (λ k, k = components (part_path (folder_store_new root) id) ∨ k = key root (d ++ [n]))
      a.(ag_fs) fs'.
Proof using UW Type.
  intros Hp Hid Hk Hway Hpart. pose proof (rel_key root p _ Hp) as Ht.
  set (target := path_push root (rel_str p)) in *. set (part := part_path (folder_store_new root) id) in *.
  destruct (path_parent_snoc target (key root d) n) as (parent & Hpar & Hparc); [by rewrite Ht, key_snoc|].
  destruct (create_dirs_ok (components parent) [] (ag_fs a)) as (fs2 & Hrun2 & Hin2 & Hout2);
    rewrite Hparc in *; [done|].
  assert (components part = key root [".syncer"; "tmp"; "downloads"; id +:+ ".part"]) as Hpk
    by (unfold part; by rewrite part_key, <-key_snoc by done).
  assert (components part ≠ components target) as Hne.
  { rewrite Ht, Hpk. intros E%(inj (key root)). destruct Hp as (_ & _ & Hh & _). apply Hh. by rewrite <-E. }
  assert (¬ on_way [] (key root d) (components part)) as Hpw.
  { rewrite Hpk. intros [z E]%on_way_key. destruct Hp as (_ & _ & Hh & _). apply Hh. by rewrite E. }
  assert (¬ on_way [] (key root d) (components target)) as Htw.
  { rewrite Ht. intros H%on_way_key%prefix_length. rewrite length_app in H. simpl in H. lia. }
  set (fs3 := <[components target := EFile c' m']> (delete (components part) fs2)).
  exists fs3. split_and!; [|unfold fs3; by rewrite Ht, lookup_insert_eq|].
  - unfold publish_download. cbn [fst_root folder_store_new]. fold target. cbv zeta. rewrite Hpar.
    erewrite bind_Ok; [|exact (ag_fs_at_run parent (create_dir_all parent) a tt fs2
      (eq_trans (f_equal (λ c, create_dirs [] c (ag_fs a)) Hparc) Hrun2))].
    apply (ag_fs_at_run target _ (with_ag_fs fs2 a)). cbn [ag_fs with_ag_fs].
    unfold fs_rename, get_st. rewrite M_bind_eq. cbv zeta. rewrite (Hout2 _ Hpw), (Hout2 _ Htw), Hpart, Ht, Hk.
    assert (has_parent fs2 (key root (d ++ [n])) = true) as ->; [|unfold fs3; by rewrite Ht].
    rewrite key_snoc. apply has_parent_snoc. destruct (decide (key root d = [])); [by left|right].
    apply Hin2. exists (key root d), []. by rewrite app_nil_r.
  - intros k Hx. unfold fs3. rewrite <-Ht in Hx.
    rewrite lookup_insert_ne, lookup_delete_ne by (intros E; apply Hx; auto).
    destruct (on_way_dec (key root d) k) as [Hw|Hw];
      [left; split; [done|by apply Hin2]|right; split; [done|by apply Hout2]].
Qed.

(** The downloaded part takes the place of the target. *)
Lemma publish_run root p d n id c m c' m' a :
  canonical (d ++ [n]) p → uuid_named id →
  a.(ag_fs) !! key root (d ++ [n]) = Some (EFile c m) →
  (∀ j, on_way [] (key root d) j → a.(ag_fs) !! j = Some EDir) →
  a.(ag_fs) !! components (part_path (folder_store_new root) id) = Some (EFile c' m') →
  ∃ fs', (_ ← ag_fs_at (path_push root (rel_str p)) (remove_file (path_push root (rel_str p)));
          publish_download (folder_store_new root) p (part_path (folder_store_new root) id)) a
    = (Ok tt, with_ag_fs fs' a) ∧ fs' !! key root (d ++ [n]) = Some (EFile c' m').
Proof using UW Type.
  intros Hp Hid Hk Hway Hpart. pose proof (rel_key root p _ Hp) as Ht.
  set (target := path_push root (rel_str p)) in *. set (fs1 := delete (components target) (ag_fs a)).
  assert (remove_file target (ag_fs a) = (Ok tt, fs1)) as Hrm by (apply (remove_file_run _ c m); by rewrite Ht).
  assert (components (part_path (folder_store_new root) id) ≠ components target) as Hne.
  { rewrite Ht, part_key, <-key_snoc by done. intros E%(inj (key root)).
    destruct Hp as (_ & _ & Hh & _). apply Hh. by rewrite <-E. }
  destruct (publish_free root p d n id c' m' (with_ag_fs fs1 a)) as (fs' & Hrun & Hfs' & _); try done.
  - cbn [ag_fs with_ag_fs]. unfold fs1. rewrite Ht. apply lookup_delete_eq.
  - intros j Hj. right. cbn [ag_fs with_ag_fs]. unfold fs1. rewrite lookup_delete_ne; [by apply Hway|].
    intros E. subst j. rewrite Ht in Hj. apply on_way_key, prefix_length in Hj. rewrite length_app in Hj.
    simpl in Hj. lia.
  - cbn [ag_fs with_ag_fs]. unfold fs1. by rewrite lookup_delete_ne.
  - exists fs'. split; [|done]. erewrite bind_Ok; [|by apply ag_fs_at_run, Hrm]. exact Hrun.
Qed.

(** What was fetched has the announced hash. *)
Lemma fetch_part_holds root profile endpoint secret operation remote_file hash a r a' :
  uuid_named operation.(op_id) →
  fetch_download (folder_store_new root) profile endpoint secret operation remote_file hash a = (Ok r, a') →
  ∃ content m, a'.(ag_fs) !! components (part_path (folder_store_new root) operation.(op_id)) = Some (EFile content m)
  ∧ hash = blake3_hex content.
Proof using UW Type.
  intros Hid. rewrite fetch_download_eq, M_bind_eq. destruct (ag_fs_at _ _ a) as [[[]|] a1]; [|done].
  unfold fetch_part. cbv zeta. rewrite M_bind_eq.
  destruct (exchange _ _ a1) as [[transferred|] a2] eqn:Ex; [|done].
  destruct (negb (_ =? _)); [done|]. destruct (bool_decide _) eqn:Eh; [|done]. cbn [negb].
  apply bool_decide_eq_true in Eh. intros [= _ <-]. subst hash.
  unfold exchange, tick, get_st, modify in Ex. rewrite !M_bind_eq in Ex. cbv zeta in Ex. unfold lift in Ex.
  match type of Ex with (map_err _ ?x.1, _) = _ => destruct x as [[t|] c1] eqn:Ef; [|done] end.
  cbn [map_err fst snd] in Ex. injection Ex as -> <-.
  apply fetch_holds in Ef as (content & [m Hc] & Hh); [|by apply enc_not_part].
  exists content, m. split; [exact Hc|done].
Qed.

Lemma agreed_remote missing changed queued size file hash :
  agreed_hash missing changed queued size file = Ok hash → ∀ h, queued = Some h → h = hash.
Proof using Type.
  unfold agreed_hash. destruct queued as [q|]; [|by intros]. cbn [option_or ok_or mbind result_bind].
  destruct (negb _); [done|]. destruct (size_changed _ _); [done|]. by intros [= <-] h [= <-].
Qed.

(** A file, the directories on the way to it and the rows of the folder. *)
Definition in_place (root : string) (d : list string) (n : string) (c : list ascii) (m : option Z)
    (files : gmap string FileRow) (a : Agent) : Prop :=
  a.(ag_fs) !! key root (d ++ [n]) = Some (EFile c m)
  ∧ (∀ j, on_way [] (key root d) j → a.(ag_fs) !! j = Some EDir) ∧ a.(ag_db).(db_files) = files.

Lemma in_place_preserves {E A} root d n c m files (f : M Agent E A) :
  preserves (ag_keeps (key root (d ++ [n])) (EFile c m)) f →
  (∀ j, preserves (ag_keeps j EDir) f) → preserves (ag_files (eq files)) f →
  preserves (in_place root d n c m files) f.
Proof using Type.
  intros H1 H2 H3 a (Hk & Hw & Hf). split_and!; [by apply H1|intros j Hj; by apply H2, Hw|].
  symmetry. by apply H3.
Qed.

(** Either nothing of this has changed, or the operation was queued against the row of the
    file, and the file now is what the operation announced. *)
Definition kept_or_updated (root : string) (d : list string) (n : string) (c : list ascii) (m : option Z)
    (files : gmap string FileRow) (operation : SyncOperationRecord) (a' : Agent) : Prop :=
  in_place root d n c m files a'
  ∨ (∃ r, files !! rel_str operation.(op_path) = Some r
     ∧ operation.(op_local_content_hash) = r.(w_content_hash)
     ∧ operation.(op_local_size_bytes) = Some r.(w_size_bytes))
    ∧ ∃ c' m', a'.(ag_fs) !! key root (d ++ [n]) = Some (EFile c' m')
      ∧ ∀ h, operation.(op_remote_content_hash) = Some h → h = blake3_hex c'.

(** One download whose target is a file that is there. *)
Lemma download_same root d n profile endpoint secret manifest operation c m files a :
  canonical (d ++ [n]) operation.(op_path) → user_file (d ++ [n]) → uuid_named operation.(op_id) →
  all_stable files → in_place root d n c m files a →
  kept_or_updated root d n c m files operation
    (download_operation (folder_store_new root) profile endpoint secret manifest operation a).2.
Proof using UW Type.
  intros Hp Hu Hid Hs Ha.
  assert (guarded root (key root (d ++ [n])) (EFile c m)) as Hg by (right; by eexists).
  assert (∀ j, guarded root j EDir) as Hgd by (by left).
  assert (∀ p size, preserves (in_place root d n c m files) (enforce_local_download_limit (folder_store_new root) p size)) as Hlim.
  { intros. apply in_place_preserves; [apply download_limit_keeps|intros; apply download_limit_keeps|apply limit_files]. }
  assert (∀ file hash, preserves (in_place root d n c m files)
    (fetch_download (folder_store_new root) profile endpoint secret operation file hash)) as Hfetch.
  { intros. apply in_place_preserves; [by apply (fetch_download_keeps root)|
      intros; by apply (fetch_download_keeps root)|apply fetch_download_files]. }
  unfold download_operation. rewrite M_bind_eq. unfold lift at 1.
  destruct (ok_or RemoteFileMissing _) as [remote_file|]; [|by left]. destruct (negb _); [by left|].
  rewrite M_bind_eq. unfold lift at 1. destruct (agreed_hash _ _ _ _ _) as [hash|] eqn:Eh; [|by left].
  rewrite M_bind_eq. pose proof (Hlim (op_path operation) (fr_size_bytes remote_file) a Ha) as H1.
  destruct (enforce_local_download_limit _ _ _ a) as [[[]|] a1]; [|by left]. cbn [snd] in H1.
  rewrite M_bind_eq. destruct H1 as (Hk1 & Hw1 & Hf1).
  destruct (replace_existing_cases root operation (d ++ [n]) a1) as [[er ->]|(-> & Hrow)];
    [done|by rewrite Hf1|by eexists|by left|]. rewrite Hf1 in Hrow.
  rewrite M_bind_eq. pose proof (Hfetch remote_file hash a1 (conj Hk1 (conj Hw1 Hf1))) as H2.
  destruct (fetch_download _ _ _ _ _ _ _ a1) as [[[temporary transferred]|] a2] eqn:Ef; [|by left].
  cbn [snd] in H2. destruct H2 as (Hk2 & Hw2 & Hf2). right. split; [done|].
  destruct (fetch_part_holds _ _ _ _ _ _ _ _ _ _ Hid Ef) as (c' & m' & Hc' & Hh).
  apply fetch_download_part in Ef as ->. cbn [fst snd fst_root folder_store_new].
  destruct (publish_run root _ d n _ c m c' m' a2 Hp Hid Hk2 Hw2 Hc') as (fs' & Hrun & Hfs').
  exists c', m'. split; [|intros h Hq; rewrite <-Hh; by eapply agreed_remote].
  rewrite M_bind_eq in Hrun. cbv zeta. rewrite M_bind_eq.
  destruct (ag_fs_at _ (remove_file _) a2) as [[[]|] a3]; [|done].
  rewrite M_bind_eq, Hrun.
  match goal with |- ag_fs (?f (with_ag_fs fs' a2)).2 !! ?k = ?e =>
    assert (preserves (ag_keeps k (EFile c' m')) f) as Hrest end.
  { apply preserves_bind; [apply tick_keeps|intros t]. apply preserves_bind; [apply ag_on_db_keeps|intros _].
    apply preserves_bind; [apply mark_done_keeps|intros _]. apply preserves_ret. }
  by apply Hrest.
Qed.

(** *** The loops of the queue *)

(** What the queue may do to a file: [agreed] that an operation was queued against it,
    [announced] what the new content is. *)
Section loops.
Context (root : string) (d : list string) (n : string) (c : list ascii) (m : option Z).
Context (agreed : Prop) (announced : list ascii → Prop).
Let names : list string := d ++ [n].

Definition tracked (content : list ascii) (files : gmap string FileRow) : Prop :=
  all_stable files ∧ ∀ r, files !! join_with slash names = Some r →
    r.(w_content_hash) = Some (blake3_hex content) ∧ r.(w_size_bytes) = Z.of_nat (length content).

Definition placed (content : list ascii) (modified : option Z) (P : gmap string FileRow → Prop) (a : Agent) : Prop :=
  in_place root d n content modified a.(ag_db).(db_files) a ∧ P a.(ag_db).(db_files).

(** The file as it was, or agreed and announced content in its place. *)
Definition survives (a : Agent) : Prop :=
  placed c m (tracked c) a ∨ agreed ∧ ∃ c' m', announced c' ∧ placed c' m' all_stable a.

Lemma placed_preserves {E A} content modified P (f : M Agent E A) :
  preserves (ag_keeps (key root names) (EFile content modified)) f →
  (∀ j, preserves (ag_keeps j EDir) f) → preserves (ag_files P) f →
  preserves (placed content modified P) f.
Proof using Type.
  intros H1 H2 H3 a ((Hk & Hw & _) & HP).
  split; [split_and!; [by apply H1|intros j Hj; by apply H2, Hw|done]|by apply H3].
Qed.

Lemma survives_preserves {E A} (f : M Agent E A) :
  (∀ content modified, preserves (ag_keeps (key root names) (EFile content modified)) f) →
  (∀ j, preserves (ag_keeps j EDir) f) → preserves (ag_files (tracked c)) f → preserves (ag_files all_stable) f →
  preserves survives f.
Proof using Type.
  intros H1 H2 H3 H4 a [Ha|(Hag & c' & m' & Han & Ha)].
  - left. by apply (placed_preserves c m (tracked c) f).
  - right. split; [done|]. exists c', m'. split; [done|]. by apply (placed_preserves c' m' all_stable f).
Qed.

Hypothesis Hu : user_file names.

Lemma guard_file content modified : guarded root (key root names) (EFile content modified).
Proof using Hu. right. by eexists. Qed.

Lemma upload_survives names' profile endpoint secret manifest operation : canonical names' operation.(op_path) →
  preserves survives (upload_operation (folder_store_new root) profile endpoint secret manifest operation).
Proof using Hu UW.
  intros Hp. apply survives_preserves.
  - intros. eapply upload_operation_keeps; [apply guard_file|done].
  - intros j. eapply upload_operation_keeps; [by left|done].
  - apply upload_files.
  - apply upload_files.
Qed.

Lemma stable_insert p row files : stable_path p → all_stable files → all_stable (<[p := row]> files).
Proof using Type. intros Hp Hf. by apply map_Forall_insert_2. Qed.

Lemma download_survives names' profile endpoint secret manifest operation :
  canonical names' operation.(op_path) → stable_path (rel_str operation.(op_path)) →
  uuid_named operation.(op_id) → Forall valid_name names →
  (rel_str operation.(op_path) = join_with slash names →
     (operation.(op_local_content_hash) = Some (blake3_hex c) →
      operation.(op_local_size_bytes) = Some (Z.of_nat (length c)) → agreed)
     ∧ ∀ c', (∀ h, operation.(op_remote_content_hash) = Some h → h = blake3_hex c') → announced c') →
  preserves survives (download_operation (folder_store_new root) profile endpoint secret manifest operation).
Proof using Hu UW.
  intros Hp Hst Hid Hv Hop. set (f := download_operation _ _ _ _ _ _).
  assert (∀ j, preserves (ag_keeps j EDir) f) as Hdir
    by (intros j; apply download_other; [by left|done|by right]).
  assert (preserves (ag_files all_stable) f) as Hall
    by (apply download_files; intros; by apply stable_insert).
  destruct (decide (names' = names)) as [->|Hne].
  - pose proof (canonical_text _ _ Hp) as Ht. destruct (Hop Ht) as [Hag Han].
    assert (∀ content modified P a, placed content modified P a → all_stable a.(ag_db).(db_files) →
      placed content modified P (f a).2
      ∨ (∃ r, a.(ag_db).(db_files) !! join_with slash names = Some r
         ∧ operation.(op_local_content_hash) = r.(w_content_hash)
         ∧ operation.(op_local_size_bytes) = Some r.(w_size_bytes))
        ∧ ∃ c' m', announced c' ∧ placed c' m' all_stable (f a).2) as Hstep.
    { intros content modified P a [Ha HP] Hs.
      destruct (download_same root d n profile endpoint secret manifest operation content modified _ a
        Hp Hu Hid Hs Ha) as [H1|(Hr & c' & m' & Hf & Hh)].
      - left. destruct H1 as (H1 & H2 & H3). fold f in H1, H2, H3. split; [by split_and!|by rewrite H3].
      - right. rewrite Ht in Hr. split; [done|]. exists c', m'. split; [by apply Han|].
        split; [|by apply Hall]. split_and!; [done| |done]. intros j Hj. apply Hdir. by apply Ha. }
    intros a [Ha|(Hagd & c1 & m1 & Han1 & Ha)].
    + destruct (Hstep c m (tracked c) a Ha) as [H1|((r & Hr & E1 & E2) & H2)]; [apply Ha|by left|right].
      destruct Ha as [_ [_ Htr]]. destruct (Htr r Hr) as [E3 E4]. rewrite E3 in E1. rewrite E4 in E2.
      split; [by apply Hag|done].
    + right. split; [done|]. destruct (Hstep c1 m1 all_stable a Ha) as [H1|(_ & H2)]; [apply Ha| |done].
      by exists c1, m1.
  - assert (rel_str (op_path operation) ≠ join_with slash names) as Hneq.
    { rewrite (canonical_text _ _ Hp). intros E. apply (f_equal path_names) in E.
      destruct Hp as (Hne1 & Hv1 & _). rewrite !path_names_join in E; done. }
    apply survives_preserves; [|done| |done].
    + intros content modified. apply download_other; [apply guard_file|done|left].
      rewrite (rel_key _ _ _ Hp). by intros E%(inj (key root)).
    + apply download_files. intros files row [Hs Htr]. split; [by apply stable_insert|].
      by rewrite lookup_insert_ne.
Qed.

(** A step of a loop changes no file and no row of the folder beside its transfer. *)
Lemma settle_survives size operation f progress :
  preserves survives f → preserves survives (settle_operation size operation f progress).
Proof using Type.
  intros Hf. unfold settle_operation.
  assert (∀ E A (g : M Agent E A), (∀ k e, preserves (ag_keeps k e) g) → (∀ P, preserves (ag_files P) g) →
    preserves survives g) as Hrest.
  { intros E A g H1 H2. by apply survives_preserves. }
  assert (∀ E, preserves survives (tick (E:=E))) as Ht
    by (intros; apply Hrest; intros; [apply tick_keeps|apply tick_files]).
  assert (∀ E A (g : DB A) (h : CoreError → E), (∀ P, preserves (files_of P) g) → preserves survives (ag_on_db h g))
    as Hdb by (intros; apply Hrest; intros; [apply ag_on_db_keeps|by apply ag_on_db_files]).
  apply preserves_bind; [apply Ht|intros t].
  apply preserves_bind; [apply Hdb; intros; apply started_files|intros _].
  apply preserves_bind.
  { intros a Ha. unfold attempt. specialize (Hf a Ha). by destruct (f a). }
  intros [r|e]; [apply preserves_ret|]. apply preserves_bind; [apply Ht|intros t2].
  apply preserves_bind; [apply Hdb; intros; apply failed_files|intros _]. apply preserves_ret.
Qed.
End loops.

(** *** A run of the queue *)

Definition queued (kind : SyncOperationKind) (rows : list OpRow) (operation : SyncOperationRecord) (r : OpRow) : Prop :=
  r ∈ rows ∧ operation = op_record r ∧ r.(o_kind) = kind_as_str kind ∧ r.(o_status) = "pending".

Lemma list_pending_rows count remote kind limit db l db' : db_wf count db → count ≤ i64_max →
  list_pending_operations remote kind limit db = (Ok l, db') →
  ∀ operation, operation ∈ l → ∃ r, queued kind db.(db_operations) operation r.
Proof using Type.
  intros Hwf Hn. unfold list_pending_operations. rewrite M_bind_eq. unfold lift at 1.
  destruct (ok_or _ _) as [i|]; [|done]. unfold get_st. rewrite M_bind_eq. unfold lift.
  intros [= Hl _] operation Ho. apply result_mapM_Ok in Hl.
  apply list_elem_of_lookup in Ho as [j Hj]. destruct (Forall2_lookup_r _ _ _ _ _ Hl Hj) as (r & Hr & Hrow).
  apply list_elem_of_lookup_2, subseteq_take in Hr. rewrite sort_by_elem, list_elem_of_filter in Hr.
  destruct Hr as [(_ & Hk & Hs) Hin]. exists r. split_and!; [done| |done|done].
  pose proof (wf_operations _ _ Hwf) as Hops. rewrite Forall_forall in Hops.
  rewrite (op_row_decodes count r Hn (Hops r Hin)) in Hrow. congruence.
Qed.

Lemma pick_rows count remote limit db downloads uploads db' : db_wf count db → count ≤ i64_max →
  pick_operations remote limit db = (Ok (downloads, uploads), db') →
  (∀ operation, operation ∈ downloads → ∃ r, queued KDownloadFromRemote db.(db_operations) operation r)
  ∧ ∀ operation, operation ∈ uploads → ∃ r, queued KUploadToRemote db.(db_operations) operation r.
Proof using Type.
  intros Hwf Hn. unfold pick_operations, list_pending_download_operations, list_pending_upload_operations.
  rewrite M_bind_eq. destruct (list_pending_operations _ KDownloadFromRemote limit db) as [[l|] db1] eqn:E1; [|done].
  destruct (list_pending_length _ _ _ _ _ _ E1) as [-> _].
  rewrite M_bind_eq. destruct (list_pending_operations _ KUploadToRemote _ db) as [[l2|] db2] eqn:E2; [|done].
  intros [= <- <- _]. split; eapply list_pending_rows; eauto.
Qed.

Lemma queued_path count kind db operation r : db_wf count db → queued kind db.(db_operations) operation r →
  stable_path (rel_str operation.(op_path)) ∧ ∃ names, canonical names operation.(op_path).
Proof using Type.
  intros Hwf (Hin & -> & _ & _). pose proof (wf_operations _ _ Hwf) as Hops. rewrite Forall_forall in Hops.
  pose proof (oo_path _ _ (Hops r Hin)) as Hst. split; [done|].
  eexists. by apply parse_canonical in Hst.
Qed.

(** The two loops, for operations that come from well-formed rows. *)
Lemma settle_all_survives root d n c m count db profile endpoint secret manifest downloads uploads agreed announced :
  user_file (d ++ [n]) → Forall valid_name (d ++ [n]) → db_wf count db →
  Forall (λ r, uuid_named r.(o_id)) db.(db_operations) →
  (∀ operation, operation ∈ downloads → ∃ r, queued KDownloadFromRemote db.(db_operations) operation r
     ∧ (r.(o_path) = join_with slash (d ++ [n]) →
        (r.(o_local_content_hash) = Some (blake3_hex c) →
         r.(o_local_size_bytes) = Some (Z.of_nat (length c)) → agreed)
        ∧ ∀ c', (∀ h, r.(o_remote_content_hash) = Some h → h = blake3_hex c') → announced c')) →
  (∀ operation, operation ∈ uploads → ∃ r, queued KUploadToRemote db.(db_operations) operation r) →
  preserves (survives root d n c m agreed announced)
    (settle_all (folder_store_new root) profile endpoint secret manifest (downloads, uploads)).
Proof using UW Type.
  intros Hu Hv Hwf Hids Hdown Hup. unfold settle_all. apply preserves_bind.
  - apply preserves_foldM. intros progress operation Ho. apply settle_survives.
    destruct (Hdown _ Ho) as (r & Hq & Hr). destruct (queued_path _ _ _ _ _ Hwf Hq) as [Hst [names' Hp]].
    rewrite Forall_forall in Hids. destruct Hq as (Hin & -> & _ & _).
    eapply download_survives; [done|exact Hp|done|by apply Hids|done|exact Hr].
  - intros progress1. apply preserves_foldM. intros progress operation Ho. apply settle_survives.
    destruct (Hup _ Ho) as (r & Hq). destruct (queued_path _ _ _ _ _ Hwf Hq) as [_ [names' Hp]].
    by eapply upload_survives.
Qed.

(** A folder the agent can synchronise. *)
Record syncable (path device_config : string) (profile : LocalDeviceProfile) (count : Z) (a : Agent) : Prop := {
  sy_profile : profile_read device_config a.(ag_fs) = (Ok profile, a.(ag_fs));
  sy_scannable : scannable a.(ag_fs) (scanner_new path profile.(lp_device_id));
  sy_json : ∃ bh, to_json (@nil BlockHash) = Ok bh;
  sy_clock : ∀ i q, valid_time ((clock i).(ti_scan_now_utc) q);
  sy_db : db_wf count a.(ag_db);
  sy_count : count ≤ i64_max;
  sy_ids : Forall (λ r, uuid_named r.(o_id)) (ag_ops a);
}.

(** A file of the folder and its content. *)
Record local_file (path : string) (profile : LocalDeviceProfile) (d : list string) (n : string)
    (c : list ascii) (m : option Z) (a : Agent) : Prop := {
  lf_seen : seen_file a.(ag_fs) (scanner_new path profile.(lp_device_id)) (d ++ [n]) c m;
  lf_user : user_file (d ++ [n]);
  lf_way : ∀ j, on_way [] (key path d) j → a.(ag_fs) !! j = Some EDir;
}.

Definition pending_downloads (p : string) (rows : list OpRow) : list OpRow :=
  filter (λ r, r.(o_path) = p ∧ r.(o_kind) = "download_from_remote" ∧ r.(o_status) = "pending") rows.

(** The scan at the start of a run. *)
Lemma scan_into_run path device_config profile count a : ReadDirLaws → syncable path device_config profile count a →
  ∃ s db, scan_folder_into path profile a = (Ok s, with_ag_db db (with_ag_ticks (S (ag_ticks a)) a))
  ∧ scan_outcome (clock (ag_ticks a)).(ti_scan_now) (clock (ag_ticks a)).(ti_scan_now_utc) a.(ag_fs)
      (scanner_new path profile.(lp_device_id)) (clock (ag_ticks a)).(ti_scan_end) count a.(ag_db) s db.
Proof using SL Type.
  intros RW [_ Hsc [bh Hj] Hclock Hwf _ _].
  unfold scan_folder_into, tick, get_st. rewrite !M_bind_eq. set (t := clock (ag_ticks a)).
  destruct (scan_run t.(ti_scan_now) t.(ti_scan_now_utc) a.(ag_fs) (scanner_new path profile.(lp_device_id))
    (S (size a.(ag_fs))) t.(ti_scan_end) count a.(ag_db) bh Hsc Hj (Hclock _) Hwf) as (s & db & Hrun & Hout); [lia|].
  exists s, db. split; [|done]. unfold ag_on_db, zoom, scan. cbn [ag_db ag_fs with_ag_ticks]. by rewrite Hrun.
Qed.

(** It records the file as it is. *)
Lemma scan_places path profile count d n c m a agreed announced device_config :
  ReadDirLaws → syncable path device_config profile count a → local_file path profile d n c m a →
  ∃ s a', scan_folder_into path profile a = (Ok s, a') ∧ survives path d n c m agreed announced a'
  ∧ db_wf count a'.(ag_db) ∧ ag_ops a' = ag_ops a ∧ a'.(ag_fs) = a.(ag_fs).
Proof using SL Type.
  intros RW Hsy [Hseen Hu Hway].
  destruct (scan_into_run path device_config profile count a RW Hsy) as (s & db & Hrun & Hout).
  exists s, (with_ag_db db (with_ag_ticks (S (ag_ticks a)) a)). split; [done|].
  split_and!; [|by eapply so_wf|by eapply so_queue|done]. left.
  destruct (so_seen _ _ _ _ _ _ _ _ _ Hout _ _ _ Hseen) as (row & Hr & _ & _ & Hsz & Hh).
  split.
  - split_and!; [by destruct Hseen as (d' & n' & _ & _ & _ & Hn)|exact Hway|done].
  - split.
    + intros q r Hq. by apply (fo_path q r), (wf_files _ _ (so_wf _ _ _ _ _ _ _ _ _ Hout)).
    + intros r Hr'. cbn [ag_db with_ag_db] in Hr'. rewrite Hr in Hr'. injection Hr' as <-. by split.
Qed.

(** The file is as it was, or a queued download was planned against its content and what is
    there now was announced by a queued download. *)
Definition unchanged_or_agreed (path : string) (d : list string) (n : string) (c : list ascii) (m : option Z)
    (downloads : list OpRow) (a' : Agent) : Prop :=
  a'.(ag_fs) !! key path (d ++ [n]) = Some (EFile c m)
  ∨ (∃ r, r ∈ downloads ∧ r.(o_local_content_hash) = Some (blake3_hex c)
     ∧ r.(o_local_size_bytes) = Some (Z.of_nat (length c)))
    ∧ ∃ r c' m', r ∈ downloads ∧ a'.(ag_fs) !! key path (d ++ [n]) = Some (EFile c' m')
      ∧ ∀ h, r.(o_remote_content_hash) = Some h → h = blake3_hex c'.

(** C8. Whatever the remote machine and the network send, a run of the queue leaves a file
    of the folder as it is, unless the queue holds a pending download for its path that was
    planned against exactly its present content; then the file is still there, and what it
    holds has the hash a queued download announced.  No local change is overwritten and no
    file is lost, even when a transfer fails half-way. *)
Theorem sync_keeps_local_changes `{RW : !ReadDirLaws} path endpoint secret limit device_config profile count
    d n c m a :
  syncable path device_config profile count a → local_file path profile d n c m a →
  unchanged_or_agreed path d n c m (pending_downloads (join_with slash (d ++ [n])) (ag_ops a))
    (run_sync_queue path endpoint secret limit device_config a).2.
Proof using UW Type.
  intros Hsy Hlf. set (downloads := pending_downloads _ _).
  set (agreed := ∃ r, r ∈ downloads ∧ r.(o_local_content_hash) = Some (blake3_hex c)
     ∧ r.(o_local_size_bytes) = Some (Z.of_nat (length c))).
  set (announced := λ c', ∃ r, r ∈ downloads ∧ ∀ h, r.(o_remote_content_hash) = Some h → h = blake3_hex c').
  set (J := survives path d n c m agreed announced).
  assert (∀ b : Agent, J b → unchanged_or_agreed path d n c m downloads b) as Hend.
  { intros b [[[Hb _] _]|(Hag & c' & m' & (r & Hr & Hh) & [[Hb _] _])]; [by left|right]. split; [done|]. by exists r, c', m'. }
  pose proof Hlf as [Hseen Hu Hway]. assert (Forall valid_name (d ++ [n])) as Hv
    by (eapply seen_valid; [apply (sb_wf _ _ (sy_scannable _ _ _ _ _ Hsy))|exact Hseen]).
  assert (a.(ag_fs) !! key path (d ++ [n]) = Some (EFile c m)) as Hk by (by destruct Hseen as (? & ? & _ & _ & _ & Hn)).
  unfold run_sync_queue, read_profile. cbv zeta. rewrite M_bind_eq.
  unfold ag_on_fs at 1, zoom at 1. rewrite (sy_profile _ _ _ _ _ Hsy).
  replace (with_ag_fs (ag_fs a) a) with a by (by destruct a).
  rewrite M_bind_eq. unfold opened, zoom at 1, open_database, get_st at 1, id at 1. rewrite M_bind_eq.
  destruct (bool_decide _); cbn [mret M_ret throw]; [|by left].
  destruct (scan_places path profile count d n c m a agreed announced device_config RW Hsy Hlf)
    as (s & a1 & Hrun & H1 & Hwf1 & Hops1 & _).
  erewrite bind_Ok; [|exact Hrun]. rewrite M_bind_eq.
  match goal with |- context [exchange ?f ?g a1] => assert (preserves J (exchange f g)) as Hx end.
  { apply survives_preserves.
    - intros. apply exchange_keeps. intros io. apply request_json_keeps.
    - intros. apply exchange_keeps. intros io. apply request_json_keeps.
    - apply exchange_files.
    - apply exchange_files. }
  match goal with |- context [exchange ?f ?g a1] => pose proof (Hx a1 H1) as H2; pose proof (λ P, exchange_ops P f g a1) as H3;
    assert ((exchange f g a1).2.(ag_db) = a1.(ag_db)) as H4 by done;
    destruct (exchange f g a1) as [[manifest|er] a2] end; [|by apply Hend].
  cbn [snd] in *. rewrite M_bind_eq. unfold ag_on_db at 1, zoom at 1. rewrite H4.
  pose proof (pick_unchanged (device_id_to_string manifest.(fm_device_id)) limit (ag_db a1)) as Hun.
  destruct (pick_operations _ limit (ag_db a1)) as [[[down up]|er] db] eqn:E; simpl in Hun; subst db;
    (replace (with_ag_db (ag_db a1) a2) with a2 by (rewrite <-H4; by destruct a2)); [|by apply Hend].
  destruct (pick_rows _ _ _ _ _ _ _ Hwf1 (sy_count _ _ _ _ _ Hsy) E) as [Hdown Hup].
  apply Hend. eapply (settle_all_survives path d n c m count (ag_db a1)); try done.
  - change (Forall (λ r, uuid_named r.(o_id)) (ag_ops a1)). rewrite Hops1. apply (sy_ids _ _ _ _ _ Hsy).
  - intros operation Ho. destruct (Hdown _ Ho) as (r & Hq). exists r. split; [done|]. intros Hpath.
    assert (r ∈ downloads) as Hr.
    { unfold downloads. rewrite <-Hops1. apply list_elem_of_filter. by destruct Hq as (? & _ & ? & ?). }
    split; [intros Eh Es; by exists r|]. intros c' Hc'. by exists r.
Qed.

End engine.
