(* ===== verification/AgentRemote.v ===== *)
(** * Two machines: the transfer engine against the real server

    The remote machine of an agent is the server of PeerServer.v: every connection is
    answered by [handle_stream] on the remote disk and database, with the inputs of its
    own, and the network cuts both messages in any way. *)

From S2P Require Import Prelude RustStd External Error Manifest Limits Model Records Planning StateDb StateDbFacts StateDbSpec FileSys FolderStore Scanner ScannerSpec PathCodec RequestSigning PeerCrypto PeerStore HttpText PeerRequest PeerRequestSpec PeerServer PeerServerSpec PeerUploadSpec PeerSharedSpec PeerClient PeerClientSpec PeerExchangeSpec PeerPutSpec PeerJsonSpec AgentError Agent AgentSpec AgentSafety.
From stdpp Require Import options pretty.
Local Open Scope Z_scope.

Record Remote := {
  rm_connections : nat;
  rm_fs : FS;
  rm_db : Database;
}.

(** The network delivers what was sent, in pieces. *)
Definition delivers (cut : list ascii → list (list ascii)) : Prop :=
  ∀ bs, filled (cut bs) ∧ mjoin (cut bs) = bs.

Definition server_on (r : Remote) : Server :=
  {| sv_stream := []; sv_sent := []; sv_fs := r.(rm_fs); sv_db := r.(rm_db) |}.
Definition served (r : Remote) (fs : FS) (db : Database) : Remote :=
  {| rm_connections := S r.(rm_connections); rm_fs := fs; rm_db := db |}.

Section world.
Context `{TL : !TimeLib, SL : !SqlxLib, UL : !UuidLib, SJ : !SerdeJson (list BlockHash),
          BL : !Blake3Lib, IL : !IoLib, RD : !ReadDir, HL : !HexLib, SH : !Sha256Lib, HM : !HmacLib,
          AL : !AeadLib, KL : !KdfLib, RL : !ReadLib,
          FJ : !SerdeJson FolderDocument, PJ : !SerdeJson PeerStoreDocument,
          EJ : !SerdeJson PeerPresence, MJ : !SerdeJson FolderManifest, J1 : !SerdeJson HealthResponse,
          J2 : !SerdeJson PresenceResponse, J3 : !SerdeJson ErrorResponse,
          J4 : !SerdeJson UploadFileResponse, J5 : !SerdeJson DeleteFileResponse}.
Context (ins : nat → Inputs) (config : PeerServerConfig) (cut : list ascii → list (list ascii)) (ticks : nat → Tick).

(** One connection: the request arrives cut, and so does the answer. *)
Definition answer_connection (request : list ascii) (r : Remote) : Stream * Remote :=
  let ended := (handle_stream (ins r.(rm_connections)) config
    (with_stream (arrives (cut request)) (server_on r))).2 in
  (arrives (cut ended.(sv_sent)), served r ended.(sv_fs) ended.(sv_db)).

Definition server_world : World :=
  {| Peer := Remote; respond := answer_connection; clock := ticks; accepts := λ _, Ok [] |}.
End world.

(** ** One exchange with the server *)

Section exchange.
Context `{TL : !TimeLib, SL : !SqlxLib, UL : !UuidLib, UW : !UuidLaws, SJ : !SerdeJson (list BlockHash),
          BL : !Blake3Lib, IL : !IoLib, RD : !ReadDir, RW : !ReadDirLaws, HL : !HexLib, HW : !HexLaws,
          SH : !Sha256Lib, HM : !HmacLib, HH : !HmacLaws, AL : !AeadLib, AW : !AeadLaws, KL : !KdfLib, RL : !ReadLib,
          FJ : !SerdeJson FolderDocument, PJ : !SerdeJson PeerStoreDocument,
          EJ : !SerdeJson PeerPresence, MJ : !SerdeJson FolderManifest, MW : !SerdeLaws FolderManifest,
          J1 : !SerdeJson HealthResponse, J2 : !SerdeJson PresenceResponse, J3 : !SerdeJson ErrorResponse,
          J4 : !SerdeJson UploadFileResponse, J5 : !SerdeJson DeleteFileResponse,
          LJ : !SerdeJson LocalDeviceProfile, UJ : !SerdeJson unit,
          C1 : !SerdeJson ClientUploadResponse, C2 : !SerdeJson ClientDeleteResponse}.
Context (ins : nat → Inputs) (config : PeerServerConfig) (cut : list ascii → list (list ascii)) (ticks : nat → Tick).
Hypothesis Hcut : delivers cut.
#[local] Instance remote_world : World := server_world ins config cut ticks.

Definition next_client (a : Agent) : ClientInputs := (ticks a.(ag_ticks)).(ti_client).
Definition remote_of (a : Agent) : Remote := a.(ag_peer).
Definition next_inputs (a : Agent) : Inputs := ins (remote_of a).(rm_connections).

(** The agent after a call of its client. *)
Definition exchanged (a : Agent) (fs : FS) (r : Remote) : Agent :=
  with_ag_peer (r : @Peer remote_world) (with_ag_fs fs (with_ag_ticks (S a.(ag_ticks)) a)).

Lemma exchange_remote {F A} (f : PeerClientError → F) (m : ClientInputs → CL A) a request answer r rest left cfs fs db :
  request ≠ [] → writes_first (m (next_client a)) →
  handle_stream (next_inputs a) config (with_stream (arrives (cut request)) (server_on (remote_of a)))
  = (Ok tt, {| sv_stream := rest; sv_sent := answer; sv_fs := fs; sv_db := db |}) →
  m (next_client a) (client_on a.(ag_fs) (arrives (cut answer)))
  = (r, {| cl_stream := left; cl_sent := request; cl_fs := cfs |}) →
  exchange f m a = (map_err f r, exchanged a cfs (served (remote_of a) fs db)).
Proof using Type.
  intros Hne Hw Hserve Hclient. unfold exchange, tick, get_st. rewrite !M_bind_eq. cbv zeta.
  cbn [clock remote_world server_world with_ag_ticks ag_fs ag_peer].
  change ((ticks (ag_ticks a)).(ti_client)) with (next_client a).
  assert ((m (next_client a) (client_on a.(ag_fs) [])).2.(cl_sent) = request) as ->.
  { pose proof (Hw (arrives (cut answer)) (client_on a.(ag_fs) [])) as E.
    change (with_cl_stream (arrives (cut answer)) (client_on (ag_fs a) []))
      with (client_on a.(ag_fs) (arrives (cut answer))) in E. rewrite Hclient in E. by rewrite <-E. }
  rewrite (bool_decide_eq_false_2 (_ = _)) by done.
  assert (respond request a.(ag_peer) = (arrives (cut answer), served (remote_of a) fs db)) as Hr.
  { cbn [respond remote_world server_world]. unfold answer_connection.
    change (ag_peer a) with (remote_of a). unfold next_inputs in Hserve. by rewrite Hserve. }
  cbn [respond remote_world server_world] in Hr |- *. rewrite Hr. cbn [fst snd]. rewrite Hclient.
  done.
Qed.

Context (endpoint : string) (address : PeerAddress) (id : Uuid) (secret_hex : string) (secret : list ascii).

(** The two devices share a secret, and the endpoint is an address. *)
Record paired : Prop := {
  pr_address : parse_address endpoint = Ok address;
  pr_host : host_ok address.(pa_host);
  pr_host_short : Z.of_nat (length (bytes address.(pa_host))) ≤ 1024;
  pr_id_short : (length (bytes (uuid_to_string id)) ≤ 64)%nat;
  pr_secret : hex_decode secret_hex = Ok secret;
  pr_length : length secret = 32%nat;
  pr_key : hmac_key_ok secret = true;
}.

(** The next connection of the agent is made, to a server that trusts it. *)
Record reachable (a : Agent) : Prop := {
  rc_trusted : trusted (next_inputs a).(in_verify_now) (next_client a).(ci_now) (remote_of a).(rm_fs)
    config.(cfg_peers_path) id secret_hex;
  rc_connect : (next_client a).(ci_connect) address.(pa_host) address.(pa_port) = Ok tt;
}.

Lemma manifest_exchanged {F} (f : PeerClientError → F) a manifest db bs :
  paired → reachable a →
  server_export_manifest (next_inputs a) config.(cfg_folder_path) config.(cfg_profile) (server_on (remote_of a))
  = (Ok manifest, with_db db (server_on (remote_of a))) →
  to_json manifest = Ok bs → Z.of_nat (length bs) ≤ 1024 * 1024 →
  exchange f (λ io, fetch_manifest io endpoint (uuid_to_string id) secret_hex) a
  = (Ok manifest, exchanged a a.(ag_fs) (served (remote_of a) (remote_of a).(rm_fs) db)).
Proof using Hcut UW HW HH MW SL Type.
  intros [Haddr Hhost Hhs His Hsec Hslen Hkey] [Htr Hconn] Hexp Hj Hlen.
  destruct (signed_request_short (next_client a) endpoint address "GET" "/manifest" id secret_hex secret [] [])
    as (request & Hreq & Hrlen); try done; [simpl; lia|by destruct Htr|unfold fields_length; simpl; lia|].
  destruct (Hcut (bytes request)) as [Hf1 Hj1].
  destruct (Hcut (binary_response 200 "application/json" bs)) as [Hf2 Hj2].
  eapply (exchange_remote f _ a (bytes request) (binary_response 200 "application/json" bs) (Ok manifest)).
  - intros E. destruct (signed_header_text _ _ _ _ _ _ _ _ _ _ Haddr Hreq) as (signature & _ & Ht).
    rewrite Ht in E. by apply app_nil in E as [_ E].
  - apply request_json_writes_first.
  - rewrite (json_served (next_inputs a) config (next_client a) endpoint address id secret_hex "GET" "/manifest" [] []
      request (server_on (remote_of a)) (with_db db (server_on (remote_of a)))
      (binary_response 200 "application/json" bs)); try done.
    + constructor; [|by split; [repeat constructor|]|constructor..|done|done].
      split_and!; [by repeat constructor|done|by apply (bool_decide_eq_true_1 (_ ∉ _)); vm_compute].
    + intros signature r Ha. by eapply manifest_route.
    + by rewrite app_nil_r.
  - unfold fetch_manifest. erewrite (json_received (T:=unit) (next_client a) "GET" endpoint address "/manifest" id
      secret_hex None [] [] request bs manifest (cut (binary_response 200 "application/json" bs))
      (client_on (ag_fs a) [])); [|done..|by eapply from_to_json].
    cbn [client_on cl_sent cl_fs app]. by rewrite app_nil_r.
Qed.

(** The two machines trust each other at any time, and connections are made. *)
Record linked (remote_fs : FS) : Prop := {
  ln_paired : paired;
  ln_trusted : ∀ i j, trusted (ins i).(in_verify_now) (ticks j).(ti_client).(ci_now) remote_fs
    config.(cfg_peers_path) id secret_hex;
  ln_connect : ∀ j, (ticks j).(ti_client).(ci_connect) address.(pa_host) address.(pa_port) = Ok tt;
}.

Lemma linked_reachable (a : Agent) : linked (remote_of a).(rm_fs) → reachable a.
Proof using Type. intros [_ Ht Hc]. constructor; [apply Ht|apply Hc]. Qed.

(** ** A run up to its queue *)

(** The agent when the manifest of the server has arrived. *)
Definition informed (a1 : Agent) (db : Database) : Agent :=
  exchanged a1 a1.(ag_fs) (served (remote_of a1) (remote_of a1).(rm_fs) db).

Lemma run_reaches_queue root profile limit device_config count (a a1 : Agent) s manifest db bs picked :
  profile.(lp_device_id) = id → linked (remote_of a1).(rm_fs) →
  syncable root device_config profile count a → a.(ag_fs) !! components (syncer_dir (folder_store_new root)) = Some EDir →
  scan_folder_into root profile a = (Ok s, a1) →
  server_export_manifest (next_inputs a1) config.(cfg_folder_path) config.(cfg_profile) (server_on (remote_of a1))
  = (Ok manifest, with_db db (server_on (remote_of a1))) →
  to_json manifest = Ok bs → Z.of_nat (length bs) ≤ 1024 * 1024 →
  pick_operations (device_id_to_string manifest.(fm_device_id)) limit a1.(ag_db) = (Ok picked, a1.(ag_db)) →
  run_sync_queue root endpoint secret_hex limit device_config a
  = settle_all (folder_store_new root) profile endpoint secret_hex manifest picked (informed a1 db).
Proof using Hcut UW HW HH MW SL Type.
  intros Hme Hl Hsy Hopen Hscan Hexp Hj Hlen Hpick.
  pose proof (manifest_exchanged AgentPeerClient a1 manifest db bs (ln_paired _ Hl) (linked_reachable a1 Hl) Hexp Hj Hlen)
    as Hman.
  unfold run_sync_queue, read_profile. cbv zeta. rewrite M_bind_eq. unfold ag_on_fs at 1, zoom at 1.
  rewrite (sy_profile _ _ _ _ _ Hsy). replace (with_ag_fs (ag_fs a) a) with a by (by destruct a).
  rewrite M_bind_eq. unfold opened, zoom at 1, open_database, get_st at 1, Datatypes.id at 1. rewrite M_bind_eq.
  rewrite (bool_decide_eq_true_2 (_ = _)) by done. cbn [mret M_ret].
  erewrite bind_Ok; [|exact Hscan]. unfold device_text at 1. rewrite Hme. erewrite bind_Ok; [|exact Hman].
  erewrite bind_Ok.
  2: { unfold ag_on_db, zoom. change (ag_db (exchanged a1 _ _)) with (ag_db a1). rewrite Hpick. reflexivity. }
  reflexivity.
Qed.
End exchange.

(** ** An operation that is done *)

Section settle.
Context `{W : !World, TL : !TimeLib, SL : !SqlxLib}.

(** The agent when a transfer starts. *)
Definition started (operation_id : string) (a : Agent) : Agent :=
  with_ag_db (mark_sync_operation_started (clock a.(ag_ticks)).(ti_unixepoch) operation_id a.(ag_db)).2
    (with_ag_ticks (S a.(ag_ticks)) a).

Lemma settle_done `{UL : !UuidLib} size operation transfer result progress (a a' : Agent) :
  transfer (started operation.(op_id) a) = (Ok result, a') →
  settle_operation size operation transfer progress a = (Ok (count_completed progress result), a').
Proof using Type.
  intros Hrun. unfold settle_operation, tick. rewrite M_bind_eq. erewrite bind_Ok; [|reflexivity].
  unfold attempt. rewrite M_bind_eq. fold (started operation.(op_id) a).
  match goal with |- context [transfer ?b] => change b with (started operation.(op_id) a) end. by rewrite Hrun.
Qed.

Lemma status_started operation_id (a : Agent) st :
  folder_status a.(ag_db) = (Ok st, a.(ag_db)) →
  folder_status (started operation_id a).(ag_db) = (Ok st, (started operation_id a).(ag_db)).
Proof using Type.
  unfold started. cbn [ag_db with_ag_db]. set (now := ti_unixepoch _).
  unfold folder_status, list_files, list_skipped_files, get_st. rewrite !M_bind_eq. unfold lift.
  change (file_rows (mark_sync_operation_started now operation_id (ag_db a)).2) with (file_rows a.(ag_db)).
  destruct (mapM row_to_file_record (file_rows a.(ag_db))); [|done]. rewrite !M_bind_eq.
  change (skipped_rows (mark_sync_operation_started now operation_id (ag_db a)).2) with (skipped_rows a.(ag_db)).
  destruct (mapM row_to_skipped_file_record (skipped_rows a.(ag_db))); [|done]. intros E. by injection E as <-.
Qed.

(** The transfers of the queue with one remote machine. *)
Definition pending_of (remote_device_id : string) (kind : SyncOperationKind) (rows : list OpRow) : list OpRow :=
  filter (λ r, o_remote_device_id r = remote_device_id ∧ o_kind r = kind_as_str kind ∧ o_status r = "pending") rows.

Lemma list_one count remote_device_id kind limit db rows :
  db_wf count db → count ≤ i64_max → pending_of remote_device_id kind db.(db_operations) = rows →
  (length rows ≤ 1)%nat → Z.of_nat (length rows) ≤ limit ≤ i64_max →
  list_pending_operations remote_device_id kind limit db = (Ok (op_record <$> rows), db).
Proof using Type.
  intros Hwf Hn Hrows H1 Hl. unfold list_pending_operations, i64_try_from_u64.
  rewrite (proj2 (Z.leb_le _ _)) by lia. cbn [ok_or]. rewrite bind_lift_Ok. unfold get_st. rewrite M_bind_eq.
  fold (pending_of remote_device_id kind db.(db_operations)). rewrite Hrows.
  assert (sort_by op_le rows = rows) as -> by (destruct rows as [|? [|??]]; simpl in *; [done|done|lia]).
  rewrite take_ge by lia. unfold lift. f_equal. apply (decode_ops_wf count); [done|].
  subst rows. apply Forall_forall. intros r [_ Hr]%list_elem_of_filter.
  by eapply Forall_forall in Hr; [|apply (wf_operations _ _ Hwf)].
Qed.

(** At most one operation of each direction is picked as it is. *)
Lemma pick_rows_one count remote_device_id limit db downloads uploads :
  db_wf count db → count ≤ i64_max → Z.of_nat (length (downloads ++ uploads)) ≤ limit ≤ i64_max →
  pending_of remote_device_id KDownloadFromRemote db.(db_operations) = downloads →
  pending_of remote_device_id KUploadToRemote db.(db_operations) = uploads →
  (length downloads ≤ 1)%nat → (length uploads ≤ 1)%nat →
  pick_operations remote_device_id limit db = (Ok (op_record <$> downloads, op_record <$> uploads), db).
Proof using Type.
  intros Hwf Hn Hl Hdown Hup H1 H2. rewrite length_app in Hl.
  unfold pick_operations, list_pending_download_operations, list_pending_upload_operations.
  erewrite bind_Ok; [|apply (list_one count); [done|done|exact Hdown|done|lia]].
  erewrite bind_Ok; [|apply (list_one count); [done|done|exact Hup|done|]]; [done|].
  rewrite length_fmap. unfold u64_saturating_sub. lia.
Qed.
End settle.
