(* ===== verification/AgentMeeting.v ===== *)
(** * Two machines: a round of synchronisation up to its queue

    [run_sync_once] against the real server: the presence of the agent, the plan of its
    folder and the server's ([round_reaches_queue]).  Between folders that hold the same
    files nothing follows from it, in one round or in a loop of them. *)

From S2P Require Import Prelude RustStd External Error Manifest Limits Model Records Planning StateDb StateDbFacts StateDbSpec FileSys FolderStore Scanner ScannerSpec Agreement PathCodec RequestSigning PeerCrypto PeerStore HttpText PeerRequest PeerRequestSpec PeerServer PeerServerSpec PeerUploadSpec PeerSharedSpec PeerClient PeerClientSpec PeerExchangeSpec PeerPutSpec PeerJsonSpec AgentError Agent AgentSpec AgentSafety AgentRemote.
From stdpp Require Import options pretty.
Local Open Scope Z_scope.

Section meeting.
Context `{TL : !TimeLib, SL : !SqlxLib, UL : !UuidLib, UW : !UuidLaws, SJ : !SerdeJson (list BlockHash),
          BL : !Blake3Lib, IL : !IoLib, RD : !ReadDir, RW : !ReadDirLaws, HL : !HexLib, HW : !HexLaws,
          SH : !Sha256Lib, HM : !HmacLib, HH : !HmacLaws, AL : !AeadLib, AW : !AeadLaws, KL : !KdfLib, RL : !ReadLib,
          FJ : !SerdeJson FolderDocument, PJ : !SerdeJson PeerStoreDocument,
          EJ : !SerdeJson PeerPresence, EW : !SerdeLaws PeerPresence,
          MJ : !SerdeJson FolderManifest, MW : !SerdeLaws FolderManifest,
          J1 : !SerdeJson HealthResponse, J2 : !SerdeJson PresenceResponse, J2W : !SerdeLaws PresenceResponse,
          J3 : !SerdeJson ErrorResponse, J4 : !SerdeJson UploadFileResponse, J5 : !SerdeJson DeleteFileResponse,
          LJ : !SerdeJson LocalDeviceProfile, UJ : !SerdeJson unit,
          C1 : !SerdeJson ClientUploadResponse, C2 : !SerdeJson ClientDeleteResponse}.
Context (ins : nat → Inputs) (config : PeerServerConfig) (cut : list ascii → list (list ascii)) (ticks : nat → Tick).
Hypothesis Hcut : delivers cut.
#[local] Instance meeting_world : World := server_world ins config cut ticks.
Context (endpoint : string) (address : PeerAddress) (secret_hex : string) (secret : list ascii).
Context (root : string) (profile : LocalDeviceProfile).
Abbreviation store := (folder_store_new root).
Abbreviation me := (profile.(lp_device_id)).
Abbreviation client a := (next_client ins config cut ticks a).
Abbreviation inputs a := (next_inputs ins config cut ticks a).
Abbreviation remote a := (remote_of ins config cut ticks a).
Abbreviation exchanged_with a := (exchanged ins config cut ticks a).
Abbreviation linked_to fs := (linked ins config ticks endpoint address me secret_hex secret fs).

Abbreviation local_scanner := (scanner_new root me).
Abbreviation remote_scanner := (scanner_new config.(cfg_folder_path) config.(cfg_profile).(lp_device_id)).
Abbreviation remote_id := (device_id_to_string config.(cfg_profile).(lp_device_id)).

(** ** The presence *)

Definition answer_to (a : Agent) (presence : PeerPresence) : PresenceResponse :=
  {| pr_accepted := true; pr_received_from := device_id_to_string presence.(pp_device_id);
     pr_local_presence := {| pp_device_id := config.(cfg_profile).(lp_device_id);
                             pp_sent_at := (inputs a).(in_sent_at); pp_agent_version := CARGO_PKG_VERSION |} |}.

Lemma presence_exchanged {F} (f : PeerClientError → F) (a : Agent) presence body bs :
  paired endpoint address me secret_hex secret → reachable ins config cut ticks address me secret_hex a →
  to_json presence = Ok body → Z.of_nat (length body) ≤ 65536 →
  to_json (answer_to a presence) = Ok bs → Z.of_nat (length bs) ≤ 1024 * 1024 →
  exchange f (λ io, post_presence io endpoint (uuid_to_string me) secret_hex presence) a
  = (Ok (answer_to a presence), exchanged_with a a.(ag_fs) (served (remote a) (remote a).(rm_fs) (remote a).(rm_db))).
Proof using Hcut UW HW HH EW J2W SL Type.
  intros [Haddr Hhost Hhs His Hsec Hslen Hkey] [Htr Hconn] Hbody Hblen Hj Hlen.
  destruct (signed_request_short (client a) endpoint address "POST" "/presence" me secret_hex secret body [])
    as (request & Hreq & Hrlen); try done;
    [simpl; lia|by destruct Htr|unfold is_u64, u64_max; lia|unfold fields_length; simpl; lia|].
  destruct (Hcut (bytes request ++ body)) as [Hf1 Hj1].
  destruct (Hcut (binary_response 200 "application/json" bs)) as [Hf2 Hj2].
  eapply (exchange_remote ins config cut ticks f _ a (bytes request ++ body) (binary_response 200 "application/json" bs)
    (Ok (answer_to a presence))).
  - intros E. destruct (signed_header_text _ _ _ _ _ _ _ _ _ _ Haddr Hreq) as (signature & _ & Ht).
    rewrite Ht in E. apply app_nil in E as [E _]. by apply app_nil in E as [_ E].
  - apply request_json_writes_first.
  - rewrite (json_served (inputs a) config (client a) endpoint address me secret_hex "POST" "/presence" body []
      request (server_on (remote a)) (server_on (remote a)) (binary_response 200 "application/json" bs)); try done.
    + constructor; [|by split; [repeat constructor|]|constructor..|done|unfold MAX_MEMORY_BODY_BYTES; lia].
      split_and!; [by repeat constructor|done|by apply (bool_decide_eq_true_1 (_ ∉ _)); vm_compute].
    + intros signature r Ha. apply (presence_route _ _ _ _ body presence bs secret_hex); try done.
      by apply from_to_json.
  - unfold post_presence. erewrite (json_received (client a) "POST" endpoint address "/presence" me
      secret_hex (Some presence) body [] request bs (answer_to a presence) (cut (binary_response 200 "application/json" bs))
      (client_on (ag_fs a) [])); [|done..|by apply from_to_json].
    cbn [client_on cl_sent cl_fs app]. done.
Qed.

(** ** The plan *)

Definition local_manifest (document : FolderDocument) (time : OffsetDateTime) (db : Database) : FolderManifest :=
  {| fm_folder_id := document.(fd_folder).(fc_id); fm_device_id := me; fm_generated_at := time;
     fm_files := file_record <$> file_rows db |}.

(** The agent when it asks for the server's manifest. *)
Definition scanned_agent (a : Agent) (db : Database) : Agent := with_ag_ticks (2 + a.(ag_ticks)) (with_ag_db db a).

Lemma plan_built device_config count (a : Agent) s db1 document manifest dbr bs :
  syncable root device_config profile count a → a.(ag_fs) !! components (syncer_dir store) = Some EDir →
  scan_folder_into root profile a = (Ok s, with_ag_db db1 (with_ag_ticks (S (ag_ticks a)) a)) → db_wf count db1 →
  folder_store_read store a.(ag_fs) = (Ok document, a.(ag_fs)) → linked_to (remote a).(rm_fs) →
  server_export_manifest (inputs a) config.(cfg_folder_path) config.(cfg_profile) (server_on (remote a))
  = (Ok manifest, with_db dbr (server_on (remote a))) →
  to_json manifest = Ok bs → Z.of_nat (length bs) ≤ 1024 * 1024 →
  build_sync_plan root endpoint secret_hex device_config a
  = (Ok (plan_manifest_sync_for_mode (local_manifest document (ticks (S a.(ag_ticks))).(ti_now_utc) db1) manifest
           document.(fd_folder).(fc_mode)),
     exchanged_with (scanned_agent a db1) a.(ag_fs) (served (remote a) (remote a).(rm_fs) dbr)).
Proof using Hcut UW HW HH MW SL Type.
  intros Hsy Hopen Hscan Hwf Hdoc Hl Hexp Hj Hlen. set (a1 := scanned_agent a db1).
  pose proof (linked_reachable ins config cut ticks endpoint address me secret_hex secret a1 Hl) as Hr.
  destruct Hl as [Hpaired _ _].
  pose proof (manifest_exchanged ins config cut ticks Hcut endpoint address me secret_hex secret AgentPeerClient a1
    manifest dbr bs Hpaired Hr Hexp Hj Hlen) as Hman.
  unfold build_sync_plan, read_profile. cbv zeta. rewrite M_bind_eq. unfold ag_on_fs at 1, zoom at 1.
  rewrite (sy_profile _ _ _ _ _ Hsy). replace (with_ag_fs (ag_fs a) a) with a by (by destruct a).
  rewrite M_bind_eq. unfold opened, zoom at 1, open_database, get_st at 1, Datatypes.id at 1. rewrite M_bind_eq.
  rewrite (bool_decide_eq_true_2 (_ = _)) by done. cbn [mret M_ret].
  erewrite bind_Ok; [|exact Hscan]. rewrite M_bind_eq. unfold ag_on_fs, zoom at 1.
  cbn [ag_fs with_ag_db with_ag_ticks]. rewrite Hdoc. unfold tick at 1. rewrite M_bind_eq.
  rewrite M_bind_eq. unfold ag_on_db, zoom at 1. cbn [ag_db with_ag_db with_ag_ticks with_ag_fs].
  unfold export_manifest. rewrite M_bind_eq, (list_files_wf count) by done. cbn [mret M_ret].
  erewrite bind_Ok; [|exact Hman]. done.
Qed.

(** ** Two machines that can meet *)

(** The texts of the messages exist and are short. *)
Record speaks (fs : FS) : Prop := {
  sk_presence : ∀ j, ∃ body, to_json {| pp_device_id := me; pp_sent_at := (ticks j).(ti_now_utc);
    pp_agent_version := CARGO_PKG_VERSION |} = Ok body ∧ Z.of_nat (length body) ≤ 65536;
  sk_response : ∀ a j, ∃ bs, to_json (answer_to a {| pp_device_id := me; pp_sent_at := (ticks j).(ti_now_utc);
    pp_agent_version := CARGO_PKG_VERSION |}) = Ok bs ∧ Z.of_nat (length bs) ≤ 1024 * 1024;
  sk_manifest : ∀ i r count manifest db, r.(rm_fs) = fs → none_stale fs remote_scanner r.(rm_db) → db_wf count r.(rm_db) →
    server_export_manifest (ins i) config.(cfg_folder_path) config.(cfg_profile) (server_on r)
    = (Ok manifest, with_db db (server_on r)) →
    ∃ bs, to_json manifest = Ok bs ∧ Z.of_nat (length bs) ≤ 1024 * 1024;
}.

(** Two machines that trust each other, with folders that can be synchronised and databases
    that list no file that is gone. *)
Record meeting (device_config : string) (count rcount : Z) (document rdocument : FolderDocument) (a : Agent) : Prop := {
  mt_linked : linked_to (remote a).(rm_fs);
  mt_speaks : speaks (remote a).(rm_fs);
  mt_servable : ∀ i, servable (ins i) config.(cfg_folder_path) config.(cfg_profile) rcount (server_on (remote a)) rdocument;
  mt_syncable : syncable root device_config profile count a;
  mt_opened : a.(ag_fs) !! components (syncer_dir store) = Some EDir;
  mt_document : folder_store_read store a.(ag_fs) = (Ok document, a.(ag_fs));
  mt_local : none_stale a.(ag_fs) local_scanner a.(ag_db);
  mt_remote : none_stale (remote a).(rm_fs) remote_scanner (remote a).(rm_db);
}.

Lemma syncable_same device_config count (a a' : Agent) : a'.(ag_fs) = a.(ag_fs) → db_wf count a'.(ag_db) →
  Forall (λ r, uuid_named r.(o_id)) (ag_ops a') →
  syncable root device_config profile count a → syncable root device_config profile count a'.
Proof using Type. intros E Hwf Hids [? ? ? ? ? ? ?]. by constructor; rewrite ?E. Qed.

Lemma meeting_same device_config count rcount document rdocument (a a' : Agent) :
  a'.(ag_fs) = a.(ag_fs) → (remote a').(rm_fs) = (remote a).(rm_fs) →
  none_stale a.(ag_fs) local_scanner a'.(ag_db) → none_stale (remote a).(rm_fs) remote_scanner (remote a').(rm_db) →
  db_wf count a'.(ag_db) → Forall (λ r, uuid_named r.(o_id)) (ag_ops a') → db_wf rcount (remote a').(rm_db) →
  meeting device_config count rcount document rdocument a → meeting device_config count rcount document rdocument a'.
Proof using Type.
  intros Ef Er Hk Hkr Hwf Hids Hwfr [Hl Hsp Hse Hsy Ho Hd _ _].
  constructor; rewrite ?Er; rewrite ?Ef; try done.
  - intros i. destruct (Hse i) as [H1 H2 H3 H4 _].
    constructor; cbn [server_on sv_fs sv_db]; rewrite ?Er; done.
  - by eapply syncable_same.
Qed.

(** The server's manifest lists what its folder holds. *)
Lemma manifest_lists r count document i :
  servable (ins i) config.(cfg_folder_path) config.(cfg_profile) count (server_on r) document →
  none_stale r.(rm_fs) remote_scanner r.(rm_db) →
  ∃ manifest db, server_export_manifest (ins i) config.(cfg_folder_path) config.(cfg_profile) (server_on r)
    = (Ok manifest, with_db db (server_on r))
  ∧ indexed r.(rm_fs) remote_scanner db ∧ db_wf count db ∧ lists manifest db
  ∧ manifest.(fm_device_id) = config.(cfg_profile).(lp_device_id).
Proof using RW SL Type.
  intros Hse Hk.
  destruct (export_run (ins i) config.(cfg_folder_path) config.(cfg_profile) count (server_on r) document Hse)
    as (s & db & Hexp & Hout).
  eexists _, db. split; [exact Hexp|]. split_and!; [by eapply scan_indexed|by eapply so_wf|done|done].
Qed.

(** The agent when its presence was acknowledged. *)
Definition presented (a : Agent) : Agent :=
  exchanged_with (with_ag_ticks (S a.(ag_ticks)) a) a.(ag_fs) (served (remote a) (remote a).(rm_fs) (remote a).(rm_db)).

Lemma presence_sent device_config count (a : Agent) : linked_to (remote a).(rm_fs) → speaks (remote a).(rm_fs) →
  syncable root device_config profile count a →
  ∃ response, send_presence endpoint secret_hex device_config a = (Ok response, presented a).
Proof using Hcut UW HW HH EW J2W SL Type.
  intros Hl Hsp Hsy. set (a0 := with_ag_ticks (S a.(ag_ticks)) a).
  pose proof (linked_reachable ins config cut ticks endpoint address me secret_hex secret a0 Hl) as Hr.
  destruct Hl as [Hpaired _ _].
  destruct (sk_presence _ Hsp a.(ag_ticks)) as (body & Hbody & Hblen).
  destruct (sk_response _ Hsp a0 a.(ag_ticks)) as (bs & Hj & Hlen).
  pose proof (presence_exchanged AgentPeerClient a0 _ body bs Hpaired Hr Hbody Hblen Hj Hlen) as Hrun.
  eexists. unfold send_presence, read_profile. rewrite M_bind_eq. unfold ag_on_fs at 1, zoom at 1.
  rewrite (sy_profile _ _ _ _ _ Hsy). replace (with_ag_fs (ag_fs a) a) with a by (by destruct a).
  unfold tick at 1. rewrite M_bind_eq. exact Hrun.
Qed.

(** ** A round up to its queue *)

(** The agent when its plan is made, and when it is queued. *)
Definition queuing (a : Agent) (db dbr : Database) : Agent :=
  exchanged_with (scanned_agent (presented a) db) a.(ag_fs) (served (remote (presented a)) (remote a).(rm_fs) dbr).
Definition queued (a : Agent) (db dbr db' : Database) : Agent :=
  with_ag_db db' (with_ag_ticks (S (queuing a db dbr).(ag_ticks)) (queuing a db dbr)).

Definition round_stamps (a : Agent) (db dbr : Database) : nat → OperationId * Z :=
  (ticks (queuing a db dbr).(ag_ticks)).(ti_stamps).
Definition round_manifest (document : FolderDocument) (a : Agent) (db : Database) : FolderManifest :=
  local_manifest document (ticks (S (presented a).(ag_ticks))).(ti_now_utc) db.
Definition round_plan (document : FolderDocument) (a : Agent) (db : Database) (manifest : FolderManifest) : SyncPlan :=
  plan_manifest_sync_for_mode (round_manifest document a db) manifest document.(fd_folder).(fc_mode).

(** Both databases hold their folders, and the manifest lists the server's. *)
Record surveyed (count rcount : Z) (a : Agent) (db dbr : Database) (manifest : FolderManifest) : Prop := {
  sv_local : indexed a.(ag_fs) local_scanner db;
  sv_remote : indexed (remote a).(rm_fs) remote_scanner dbr;
  sv_lists : lists manifest dbr;
  sv_device : manifest.(fm_device_id) = config.(cfg_profile).(lp_device_id);
  sv_wf : db_wf count db;
  sv_remote_wf : db_wf rcount dbr;
  sv_queue : db.(db_operations) = ag_ops a;
}.

Lemma round_reaches_queue limit device_config count rcount document rdocument (a : Agent) :
  meeting device_config count rcount document rdocument a →
  ∃ db dbr manifest, surveyed count rcount a db dbr manifest ∧ ∀ status db' transfer a',
    enqueue_sync_plan (round_stamps a db dbr) (round_plan document a db manifest) db = (Ok status, db') →
    run_sync_queue root endpoint secret_hex limit device_config (queued a db dbr db') = (Ok transfer, a') →
    db_wf count a'.(ag_db) →
    ∃ out, run_sync_once root endpoint secret_hex limit device_config a = (Ok out, a') ∧ out.(so_transfer) = transfer.
Proof using Hcut UW HW HH AW RW EW J2W MW SL Type.
  intros [Hl Hsp Hse Hsy Hopen Hdoc Hk Hkr].
  destruct (presence_sent device_config count a Hl Hsp Hsy) as [response Hpres].
  set (a0 := presented a) in *.
  assert (syncable root device_config profile count a0) as Hsy0
    by (apply (syncable_same _ _ a); [done|exact (sy_db _ _ _ _ _ Hsy)|exact (sy_ids _ _ _ _ _ Hsy)|exact Hsy]).
  destruct (scan_into_run root device_config profile count a0 RW Hsy0) as (s & db & Hscan & Hout).
  pose proof (so_wf _ _ _ _ _ _ _ _ _ Hout) as Hwf.
  destruct (manifest_lists (remote a0) rcount rdocument (remote a0).(rm_connections) (Hse _) Hkr)
    as (manifest & dbr & Hexp & Hixr & Hwfr & Hlists & Hdev).
  destruct (sk_manifest _ Hsp _ (remote a0) rcount _ _ eq_refl Hkr (se_db _ _ _ _ _ _ (Hse 0%nat)) Hexp)
    as (bs & Hj & Hlen).
  exists db, dbr, manifest. split.
  { constructor; [by eapply scan_indexed|done..|by rewrite (so_queue _ _ _ _ _ _ _ _ _ Hout)]. }
  intros status db' transfer a' Hq Hrun Hwf'. eexists. split.
  - unfold run_sync_once. erewrite bind_Ok; [|exact Hpres].
    erewrite bind_Ok; [|exact (plan_built device_config count a0 s db document manifest dbr bs Hsy0 Hopen Hscan Hwf Hdoc Hl
      Hexp Hj Hlen)].
    unfold enqueue_plan, tick. rewrite !M_bind_eq. unfold ag_on_db at 1, zoom at 1. cbn [ag_db with_ag_ticks].
    match goal with |- context [enqueue_sync_plan ?x ?y ?z] =>
      replace (enqueue_sync_plan x y z) with (Ok status : CoreResult QueueStatus, db') by (symmetry; exact Hq) end.
    erewrite bind_Ok; [|exact Hrun]. rewrite M_bind_eq. unfold ag_on_db, zoom.
    rewrite (queue_status_wf count) by (done || apply Hsy). cbn [map_err].
    replace (with_ag_db (ag_db a') a') with a' by (by destruct a'). reflexivity.
  - done.
Qed.

(** The machines can still meet when the plan is queued. *)
Lemma meeting_queued device_config count rcount document rdocument (a : Agent) db dbr db' manifest rows :
  meeting device_config count rcount document rdocument a → surveyed count rcount a db dbr manifest →
  db' = with_operations (λ old, delete_open remote_id old ++ rows) db → db_wf count db' →
  Forall (λ r, uuid_named r.(o_id)) rows →
  meeting device_config count rcount document rdocument (queued a db dbr db')
  ∧ ag_ops (queued a db dbr db') = delete_open remote_id (ag_ops a) ++ rows.
Proof using Type.
  intros Hm [Hix Hixr _ _ _ Hwfr Hops] Hdb Hwf Hids.
  assert (ag_ops (queued a db dbr db') = delete_open remote_id (ag_ops a) ++ rows) as Hq
    by (unfold ag_ops at 1; cbn; by rewrite Hdb; cbn; rewrite Hops).
  split; [|done]. apply (meeting_same _ _ _ _ _ a); [done|done| |apply (ix_stale _ _ _ Hixr)|done| |done|done].
  - cbn. rewrite Hdb. apply (ix_stale _ _ _ Hix).
  - rewrite Hq. apply Forall_app. split; [|done].
    pose proof (sy_ids _ _ _ _ _ (mt_syncable _ _ _ _ _ _ Hm)) as Ha. rewrite Forall_forall in Ha.
    apply Forall_forall. intros r Hr%delete_open_elem. by apply Ha.
Qed.

(** What is pending when the plan has left one operation. *)
Lemma pending_one rows row kind : row.(o_remote_device_id) = remote_id → row.(o_status) = "pending" →
  pending_of remote_id kind (delete_open remote_id rows ++ [row])
  = if decide (row.(o_kind) = kind_as_str kind) then [row] else [].
Proof using Type.
  intros Hr Hs. unfold pending_of. rewrite filter_app, delete_open_pending, filter_cons, filter_nil. cbn [app].
  destruct (decide (o_kind row = _)) as [Hk|Hk]; [by rewrite decide_True|]. rewrite decide_False; [done|]. by intros (_ & ? & _).
Qed.

(** ** A round between folders that agree *)

(** A run of a queue with nothing open. *)
Lemma idle_run limit device_config count rcount document rdocument (a : Agent) :
  meeting device_config count rcount document rdocument a → 0 ≤ limit ≤ i64_max →
  (∀ kind, pending_of remote_id kind (ag_ops a) = []) →
  ∃ a', run_sync_queue root endpoint secret_hex limit device_config a
    = (Ok {| eq_completed := 0; eq_failed := 0; eq_results := [] |}, a')
  ∧ a'.(ag_fs) = a.(ag_fs) ∧ (remote a').(rm_fs) = (remote a).(rm_fs) ∧ ag_ops a' = ag_ops a
  ∧ meeting device_config count rcount document rdocument a'.
Proof using Hcut UW HW HH AW RW MW SL Type.
  intros Hin Hlim Hnone. pose proof Hin as [Hl Hsp Hse Hsy Hopen Hdoc Hk Hkr].
  destruct (scan_into_run root device_config profile count a RW Hsy) as (s & db1 & Hscan & Hout).
  set (a1 := with_ag_db db1 (with_ag_ticks (S (ag_ticks a)) a)) in *.
  destruct (manifest_lists (remote a1) rcount rdocument (remote a1).(rm_connections) (Hse _) Hkr)
    as (manifest & dbr & Hexp & Hixr & Hwfr & _ & Hdev).
  destruct (sk_manifest _ Hsp _ (remote a) rcount _ _ eq_refl Hkr (se_db _ _ _ _ _ _ (Hse 0%nat)) Hexp)
    as (bs & Hj & Hlen).
  pose proof (so_queue _ _ _ _ _ _ _ _ _ Hout) as Hops. pose proof (so_wf _ _ _ _ _ _ _ _ _ Hout) as Hwf1.
  exists (informed ins config cut ticks a1 dbr). split_and!; [|done|done|exact Hops|].
  - etransitivity; [apply (run_reaches_queue ins config cut ticks Hcut endpoint address me secret_hex secret root profile
      limit device_config count a a1 s manifest dbr bs ([], [])); try done|done].
    apply (pick_rows_one count _ limit db1 [] []); rewrite ?Hdev, ?Hops; try done; [apply Hsy|by apply Nat.leb_le..].
  - apply (meeting_same _ _ _ _ _ a); [done|done| | | | |done|done].
    + apply (ix_stale _ _ _ (scan_indexed _ _ _ _ _ _ _ _ _ Hk Hout)).
    + apply (ix_stale _ _ _ Hixr).
    + exact Hwf1.
    + unfold ag_ops. cbn. rewrite Hops. apply Hsy.
Qed.

(** The machines meet and their folders hold the same files. *)
Definition in_step (device_config : string) (count rcount : Z) (document rdocument : FolderDocument) (a : Agent) : Prop :=
  meeting device_config count rcount document rdocument a
  ∧ agree_but (λ _, False) a.(ag_fs) local_scanner (remote a).(rm_fs) remote_scanner.

(** From [a] to [a'] no file changed on either side, only what was open with the other machine
    is gone from the queue, and the machines are still in step. *)
Record quiet (device_config : string) (count rcount : Z) (document rdocument : FolderDocument) (a a' : Agent) : Prop := {
  qu_files : a'.(ag_fs) = a.(ag_fs);
  qu_remote_files : (remote a').(rm_fs) = (remote a).(rm_fs);
  qu_queue : ag_ops a' = delete_open remote_id (ag_ops a);
  qu_in_step : in_step device_config count rcount document rdocument a';
}.

Lemma idle_round limit device_config count rcount document rdocument (a : Agent) :
  in_step device_config count rcount document rdocument a → 0 ≤ limit ≤ i64_max →
  ∃ out a', run_sync_once root endpoint secret_hex limit device_config a = (Ok out, a')
  ∧ quiet device_config count rcount document rdocument a a'.
Proof using Hcut UW HW HH AW RW EW J2W MW SL Type.
  intros [Hm Hag] Hlim. pose proof (sy_count _ _ _ _ _ (mt_syncable _ _ _ _ _ _ Hm)) as Hn.
  destruct (round_reaches_queue limit device_config count rcount document rdocument a Hm)
    as (db & dbr & manifest & Hsv & Hround). pose proof Hsv as [Hix Hixr Hlists Hdev Hwf _ _].
  destruct (enqueue_nothing count (round_stamps a db dbr) (round_plan document a db manifest) db Hwf)
    as [[status Hq] Hwf']; [|done|].
  { intros e He. apply plan_entry_elem in He as [-> Hsome]. rewrite entry_at_path in Hsome.
    by apply (agreed_in_sync a.(ag_fs) local_scanner db (remote a).(rm_fs) remote_scanner dbr Hix Hixr
      (round_manifest document a db) manifest eq_refl Hlists _ _ _ Hag). }
  assert (sp_remote_device_id (round_plan document a db manifest) = remote_id) as Hrem
    by (unfold round_plan, plan_manifest_sync_for_mode; by rewrite plan_fold, <-Hdev).
  rewrite Hrem in Hq, Hwf'. set (db' := with_operations _ db) in *.
  destruct (meeting_queued device_config count rcount document rdocument a db dbr db' manifest [] Hm Hsv)
    as [Hm' Hops]; [|done|done|].
  { unfold db', with_operations. by rewrite app_nil_r. }
  rewrite app_nil_r in Hops.
  destruct (idle_run limit device_config count rcount document rdocument (queued a db dbr db') Hm' Hlim)
    as (a' & Hrun & Ef & Er & Eo & Hm'').
  { intros kind. rewrite Hops. apply delete_open_pending. }
  destruct (Hround status db' _ a' Hq Hrun) as (out & Hout & _); [apply (mt_syncable _ _ _ _ _ _ Hm'')|].
  exists out, a'. split; [done|]. constructor; [done|done|by rewrite Eo|]. split; [done|]. by rewrite Ef, Er.
Qed.

(** ** The loop between folders that agree *)

Context `{SO : !SerdeJson SyncOnceOutput}.
Hypothesis printable : ∀ output : SyncOnceOutput, ∃ text, to_json output = Ok text.

Lemma quiet_trans device_config count rcount document rdocument (a1 a2 a3 : Agent) :
  quiet device_config count rcount document rdocument a1 a2 → quiet device_config count rcount document rdocument a2 a3 →
  quiet device_config count rcount document rdocument a1 a3.
Proof using Type.
  intros [F1 R1 Q1 S1] [F2 R2 Q2 S2]. constructor; [by rewrite F2|by rewrite R2| |done].
  rewrite Q2. etransitivity; [exact (f_equal (delete_open remote_id) Q1)|]. unfold delete_open.
  rewrite list_filter_filter. apply list_filter_iff. intuition.
Qed.

Lemma idle_sync_round limit iterations device_config count rcount document rdocument completed (a : Agent) :
  in_step device_config count rcount document rdocument a → 0 ≤ limit ≤ i64_max →
  ∃ next a', sync_round root endpoint secret_hex limit iterations device_config completed a = (Ok next, a')
  ∧ quiet device_config count rcount document rdocument a a'.
Proof using Hcut UW HW HH AW RW EW J2W MW SL printable Type.
  intros Hin Hlim.
  destruct (idle_round limit device_config count rcount document rdocument a Hin Hlim)
    as (out & a1 & Hrun & [Ef Er Eo Hin1]).
  destruct (printable out) as [text Htext].
  assert (∀ out slept, quiet device_config count rcount document rdocument a
    {| ag_fs := a1.(ag_fs); ag_db := a1.(ag_db); ag_peer := a1.(ag_peer); ag_out := out; ag_slept := slept;
       ag_ticks := a1.(ag_ticks) |}) as Hquiet.
  { intros o slept. pose proof Hin1 as [Hmeet Hag]. pose proof Hmeet as [_ _ Hse Hsy _ _ Hk Hkr].
    constructor; [exact Ef|exact Er|exact Eo|].
    split; [|done]. apply (meeting_same _ _ _ _ _ a1); [done|done|exact Hk|exact Hkr|exact (sy_db _ _ _ _ _ Hsy)|
      exact (sy_ids _ _ _ _ _ Hsy)|exact (se_db _ _ _ _ _ _ (Hse 0%nat))|done]. }
  unfold sync_round. erewrite bind_Ok; [|exact Hrun]. unfold print_json. rewrite !M_bind_eq.
  unfold lift at 1. rewrite Htext. cbn [map_err]. unfold modify at 1. cbv zeta.
  set (a2 := Build_Agent _ _ _ _ _ _ _). destruct (match iterations with Some _ => _ | None => _ end).
  - eexists None, a2. split; [done|]. by apply Hquiet.
  - rewrite M_bind_eq. unfold ag_on_fs, zoom. cbn [ag_fs a2].
    rewrite (mt_document _ _ _ _ _ _ (proj1 Hin1)). cbn [map_err]. unfold sleep, modify. rewrite M_bind_eq.
    eexists _, _. split; [done|]. by apply Hquiet.
Qed.

Lemma idle_loop limit iterations device_config count rcount document rdocument fuel : ∀ completed (a : Agent),
  in_step device_config count rcount document rdocument a → 0 ≤ limit ≤ i64_max →
  match sync_loop fuel root endpoint secret_hex limit iterations device_config completed a with
  | Some (r, a') => r = Ok tt ∧ is_Some iterations ∧ quiet device_config count rcount document rdocument a a'
  | None => True
  end.
Proof using Hcut UW HW HH AW RW EW J2W MW SL printable Type.
  induction fuel as [|fuel IH]; intros completed a Hin Hlim; [done|]. cbn [sync_loop].
  pose proof (round_cases root endpoint secret_hex limit iterations device_config completed a) as Hcases.
  destruct (idle_sync_round limit iterations device_config count rcount document rdocument completed a Hin Hlim)
    as (next & a1 & Hrun & Hq). rewrite Hrun in Hcases |- *.
  destruct next as [next|].
  - pose proof (IH next a1 (qu_in_step _ _ _ _ _ _ _ Hq) Hlim) as Hrest.
    destruct (sync_loop fuel _ _ _ _ _ _ next a1) as [[r a']|]; [|done].
    destruct Hrest as (-> & Hi & Hq'). split_and!; [done|done|by eapply quiet_trans].
  - destruct Hcases as [_ (max & -> & _)]. split_and!; [done|by eexists|done].
Qed.

(** C6. Folders in step stay in step: when two machines trust each other and their folders hold
    the same files, then however many rounds the sync loop is told to run, it ends without
    an error, no file has changed on either side, what was open with the other machine is
    gone from the queue, nothing else is, and the machines are in step again; told no
    number of rounds, the loop never returns. *)
Theorem folders_in_step_stay limit device_config count rcount document rdocument (a : Agent) :
  in_step device_config count rcount document rdocument a → 0 ≤ limit ≤ i64_max →
  (∀ max fuel, 0 ≤ max ≤ u64_max → (Z.to_nat (Z.max 1 max) ≤ fuel)%nat →
    ∃ a', sync_loop fuel root endpoint secret_hex limit (Some max) device_config 0 a = Some (Ok tt, a')
    ∧ quiet device_config count rcount document rdocument a a')
  ∧ ∀ fuel, sync_loop fuel root endpoint secret_hex limit None device_config 0 a = None.
Proof using Hcut UW HW HH AW RW EW J2W MW SL printable Type.
  intros Hin Hlim. split.
  - intros max fuel Hmax Hfuel.
    pose proof (idle_loop limit (Some max) device_config count rcount document rdocument fuel 0 a Hin Hlim) as Hloop.
    destruct (loop_ends root endpoint secret_hex limit max device_config fuel 0 a) as (r & a' & Hrun & _);
      [lia|lia|by rewrite Z.sub_0_r|].
    rewrite Hrun in Hloop |- *. destruct Hloop as (-> & _ & Hq). by exists a'.
  - intros fuel.
    pose proof (idle_loop limit None device_config count rcount document rdocument fuel 0 a Hin Hlim) as Hloop.
    destruct (sync_loop _ _ _ _ _ None _ _ a) as [[r a']|]; [|done]. by destruct Hloop as (_ & [? ?] & _).
Qed.
End meeting.
