(* ===== verification/AgentWitness.v ===== *)
(** * Witnesses of the transfer engine: an agent and a hostile network

    The agent's folder holds one file, and its queue a download of that path which was
    planned when the file had another content.  Whatever the agent sends, the network
    answers with the same bytes: a manifest that announces new content for the path. *)

From S2P Require Import Prelude RustStd External Error Manifest Limits Model Records Planning StateDb StateDbFacts StateDbSpec FileSys FolderStore Scanner ScannerSpec PathCodec RequestSigning PeerCrypto PeerStore HttpText PeerRequest PeerRequestSpec PeerServer PeerServerSpec PeerUploadSpec PeerSharedSpec PeerClient PeerClientSpec PeerExchangeSpec PeerPutSpec PeerWitness AgentError Agent AgentSpec AgentSafety.
From stdpp Require Import options pretty.
Local Open Scope Z_scope.

Module AgentWitness.
Import Sample SampleFs FolderStore.Witness PeerCrypto.Witness PeerWitness.
#[local] Existing Instances w_reads w_reads_laws PeerWitness.unit_json PeerWitness.presence_json
  PeerWitness.presence_response_json PeerWitness.client_upload_json.

#[local] Instance client_delete_json : SerdeJson ClientDeleteResponse := constant_json _.
#[local] Instance profile_json : SerdeJson LocalDeviceProfile :=
  {| to_json := λ _, Ok (bytes "{}"); from_json := λ _, Ok w_profile |}.

Definition w_announced : FileRecord :=
  {| fr_path := {| rel_str := "a.txt" |}; fr_kind := KFile; fr_size_bytes := 3; fr_modified_at := 0;
     fr_content_hash := Some "new"; fr_generation := 2; fr_device_id := uuid_to_string 7%N;
     fr_sync_state := LocalAvailable |}.
Definition w_manifest : FolderManifest :=
  {| fm_folder_id := 1%N; fm_device_id := 7%N; fm_generated_at := 0; fm_files := [w_announced] |}.
#[local] Instance manifest_json : SerdeJson FolderManifest :=
  {| to_json := λ _, Ok (bytes "{}"); from_json := λ _, Ok w_manifest |}.

(** A download of [a.txt] planned against the content [local]. *)
Definition w_operation (local : string) : OpRow :=
  {| o_id := uuid_to_string 40%N; o_path := "a.txt"; o_kind := "download_from_remote"; o_status := "pending";
     o_reason := "r"; o_local_size_bytes := Some 5; o_remote_size_bytes := Some 3;
     o_local_content_hash := Some local; o_remote_content_hash := Some "new";
     o_remote_device_id := uuid_to_string 7%N; o_last_error := None; o_retry_count := 0;
     o_started_at_unix := None; o_finished_at_unix := None; o_created_at_unix := 0; o_updated_at_unix := 0 |}.
Definition w_db (local : string) : Database :=
  {| db_files := ∅; db_skipped := ∅; db_operations := [w_operation local] |}.

Definition w_reply : list ascii := binary_response 200 "application/json" (bytes "{}").
Definition w_tick : Tick :=
  {| ti_now_utc := 0; ti_unixepoch := 9; ti_id := 50%N; ti_random := replicate 32 dot; ti_client := w_cio;
     ti_scan_now := λ _, 100; ti_scan_now_utc := λ _, 0; ti_scan_end := 200;
     ti_stamps := λ i, (N.of_nat (60 + i), 0) |}.
#[local] Instance hostile : World :=
  {| Peer := unit; respond := λ _ _, (arrives [w_reply], tt); clock := λ _, w_tick; accepts := λ _, Ok [] |}.

Definition w_agent (local : string) : Agent :=
  {| ag_fs := <[w_k [] := EDir]> (<[w_k ["profile.json"] := EFile (bytes "{}") None]> w_disk); ag_db := w_db local; ag_peer := tt;
     ag_out := []; ag_slept := []; ag_ticks := 0%nat |}.
Definition w_run (local : string) := run_sync_queue "/data" w_endpoint w_secret_hex 10 "/profile.json" (w_agent local).

Example w_run_settles : (eq_completed <$> (w_run "old").1, eq_failed <$> (w_run "old").1) = (Ok 0, Ok 1).
Proof. vm_compute. reflexivity. Qed.

(** ** The hypotheses of the safety theorem *)

Lemma w_agent_disk local : scannable (w_agent local).(ag_fs) (scanner_new "/data" 1%N).
Proof. apply ScannerSpec.Witness.scannable_check; [apply fs_wf_check| |]; vm_compute; reflexivity. Qed.

Lemma w_db_wf local : db_wf 0 (w_db local).
Proof.
  constructor; [apply map_Forall_empty..| |apply NoDup_singleton].
  constructor; [|constructor]. constructor; cbn; [by vm_compute| | | |lia|done|done|done|done].
  - by exists KDownloadFromRemote, SPending.
  - intros z [= <-]. done.
  - intros z [= <-]. done.
Qed.

Lemma w_syncable local : syncable "/data" "/profile.json" w_profile 0 (w_agent local).
Proof.
  constructor.
  - unfold profile_read, fs_read, get_st. rewrite M_bind_eq.
    replace (ag_fs (w_agent local) !! components "/profile.json") with (Some (EFile (bytes "{}") None))
      by (symmetry; vm_compute; reflexivity).
    reflexivity.
  - apply w_agent_disk.
  - by exists (bytes "[]").
  - intros i q. vm_compute. reflexivity.
  - apply w_db_wf.
  - vm_compute. discriminate.
  - constructor; [by exists 40%N|constructor].
Qed.

Lemma w_local local : local_file "/data" w_profile [] "a.txt" (bytes "hello") (Some 5000000000) (w_agent local).
Proof.
  constructor.
  - exists [], "a.txt". split; [done|]. split; [constructor|]. split; vm_compute; reflexivity.
  - split; [done|]. intros d n u E. destruct d as [|? [|??]]; [|done..]. injection E as E.
    apply (f_equal (λ s, last (bytes s))) in E. unfold response_name, upload_extension in E.
    rewrite !bytes_app, !last_app in E. vm_compute in E. discriminate.
  - intros j [->|[->|(x & y & Hx & E & _)]%on_way_cons]%on_way_cons; [| |by destruct x].
    + vm_compute. reflexivity.
    + vm_compute. reflexivity.
Qed.

Lemma sync_keeps_local_changes_witness :
  (w_run "old").2.(ag_fs) !! w_k ["data"; "a.txt"] = Some (EFile (bytes "hello") (Some 5000000000)).
Proof.
  destruct (sync_keeps_local_changes "/data" w_endpoint w_secret_hex 10 "/profile.json" w_profile 0 [] "a.txt"
    (bytes "hello") (Some 5000000000) (w_agent "old") (w_syncable "old") (w_local "old")) as [H|((r & Hr & Hh & _) & _)].
  - exact H.
  - apply list_elem_of_filter in Hr as [_ Hr]. apply list_elem_of_singleton in Hr as ->. discriminate Hh.
Defined.

End AgentWitness.
