(* ===== verification/AgentPull.v ===== *)
(** * Two machines: a queued download from end to end

    What the planner queued is carried out: a run of the queue against the real server
    reads the server's manifest, fetches the file in encrypted chunks, publishes it in
    the folder, records it and marks the operation done. *)

From S2P Require Import Prelude RustStd External Error Manifest Limits Model Records Planning StateDb StateDbFacts StateDbSpec FileSys FolderStore Scanner ScannerSpec Agreement PathCodec RequestSigning PeerCrypto PeerStore HttpText PeerRequest PeerRequestSpec PeerServer PeerServerSpec PeerUploadSpec PeerSharedSpec PeerClient PeerClientSpec PeerExchangeSpec PeerPutSpec PeerJsonSpec AgentError Agent AgentSpec AgentSafety AgentRemote.
From stdpp Require Import options pretty.
Local Open Scope Z_scope.

(** Every file and directory there was is as it was. *)
Definition extended (fs fs' : FS) : Prop := ∀ k e, fs !! k = Some e → fs' !! k = Some e.


(** A change that makes directories and touches what was not there extends. *)
Lemma made_extended dir (except : Key → Prop) fs fs' :
  (∀ k, on_way [] dir k → dir_or_none (fs !! k)) → (∀ k, except k → fs !! k = None) →
  made dir except fs fs' → extended fs fs'.
Proof.
  intros Hd Hx Hm k e He. destruct (Hm k) as [[Hw Hk]|[_ Hk]].
  - intros Hex. by rewrite (Hx k Hex) in He.
  - destruct (Hd k Hw) as [E|E]; rewrite E in He; congruence.
  - by rewrite Hk.
Qed.

Section pull.
Context `{TL : !TimeLib, SL : !SqlxLib, UL : !UuidLib, UW : !UuidLaws, SJ : !SerdeJson (list BlockHash),
          BL : !Blake3Lib, IL : !IoLib, RD : !ReadDir, RW : !ReadDirLaws, HL : !HexLib, HW : !HexLaws,
          SH : !Sha256Lib, HM : !HmacLib, HH : !HmacLaws, AL : !AeadLib, AW : !AeadLaws, KL : !KdfLib, RL : !ReadLib,
          FJ : !SerdeJson FolderDocument, PJ : !SerdeJson PeerStoreDocument,
          EJ : !SerdeJson PeerPresence, MJ : !SerdeJson FolderManifest, MW : !SerdeLaws FolderManifest,
          J1 : !SerdeJson HealthResponse, J2 : !SerdeJson PresenceResponse, J3 : !SerdeJson ErrorResponse,
          J4 : !SerdeJson UploadFileResponse, J5 : !SerdeJson DeleteFileResponse,
          LJ : !SerdeJson LocalDeviceProfile, UJ : !SerdeJson unit,
          C1 : !SerdeJson ClientUploadResponse, C2 : !SerdeJson ClientDeleteResponse}.
Context (ins : nat → Inputs) (config : PeerServerConfig) (cut : list ascii → list (list ascii)) (ticks : nat → Tick).
Hypothesis Hcut : delivers cut.
#[local] Instance pull_world : World := server_world ins config cut ticks.
Context (endpoint : string) (address : PeerAddress) (secret_hex : string) (secret : list ascii).
Context (root : string) (profile : LocalDeviceProfile).
Context (p : RelativePath) (d : list string) (n : string) (content : list ascii).
Abbreviation store := (folder_store_new root).
Abbreviation me := (profile.(lp_device_id)).
Abbreviation client a := (next_client ins config cut ticks a).
Abbreviation inputs a := (next_inputs ins config cut ticks a).
Abbreviation remote a := (remote_of ins config cut ticks a).

(** A path both machines write alike, short enough for a request. *)
Record path_ok : Prop := {
  po_canonical : canonical (d ++ [n]) p;
  po_parses : relative_path_parse (rel_str p) = Ok p;
  po_utf8 : utf8_valid (rel_str p) = true;
  po_short : Z.of_nat (length (bytes (file_target p))) ≤ 8192;
}.

(** The server has the file in a folder it can scan, and can encrypt it. *)
Record offered (r : Remote) (count : Z) (document : FolderDocument) (m : option Z) : Prop := {
  of_servable : ∀ i, servable (ins i) config.(cfg_folder_path) config.(cfg_profile) count (server_on r) document;
  of_seen : seen_file r.(rm_fs) (scanner_new config.(cfg_folder_path) config.(cfg_profile).(lp_device_id))
    (d ++ [n]) content m;
  of_nonce : ∀ i, length (ins i).(in_nonce_prefix) = NONCE_PREFIX_BYTES;
  of_reads : full_reads content (reads content);
  of_hash : hash_text (blake3_hex content);
  of_temporary : ∀ i, r.(rm_fs) !! components (response_path (ins i) config.(cfg_folder_path) p) = None;
}.

(** The folder of the agent has room at the target and in the directory of its downloads. *)
Record room (fs : FS) (operation_id : string) : Prop := {
  ro_target : fs !! key root (d ++ [n]) = None;
  ro_way : ∀ j, on_way [] (key root d) j → dir_or_none (fs !! j);
  ro_downloads : ∀ j, on_way [] (components (downloads_dir store)) j → dir_or_none (fs !! j);
  ro_part : fs !! components (part_path store operation_id) = None;
  ro_encrypted : ∀ i, fs !! components (encrypted_download_path (part_path store operation_id)
    (ticks i).(ti_client).(ci_file_id)) = None;
}.

Definition plain_transfer : TransferredFile :=
  {| tf_size_bytes := chunk_len content; tf_content_hash := blake3_hex content |}.

Lemma target_not_part operation_id : path_ok → uuid_named operation_id →
  key root (d ++ [n]) ≠ components (part_path store operation_id).
Proof using UW Type.
  intros [Hp _ _ _] Hid. rewrite part_key, <-key_snoc by done. intros E%(inj (key root)).
  destruct Hp as (_ & _ & Hh & _). apply Hh. by rewrite E.
Qed.

(** The file arrives in the directory of downloads. *)
Lemma fetch_arrives (a : Agent) count document m operation remote_file :
  linked ins config ticks endpoint address me secret_hex secret (remote a).(rm_fs) →
  path_ok → operation.(op_path) = p → uuid_named operation.(op_id) → remote_file.(fr_size_bytes) = chunk_len content →
  offered (remote a) count document m → room a.(ag_fs) operation.(op_id) →
  ∃ fs' db', fetch_download store profile endpoint secret_hex operation remote_file (blake3_hex content) a
    = (Ok (part_path store operation.(op_id), plain_transfer),
       exchanged ins config cut ticks a fs' (served (remote a) (remote a).(rm_fs) db'))
  ∧ holds (part_path store operation.(op_id)) content fs'
  ∧ made (components (downloads_dir store))
      (λ k, k = components (part_path store operation.(op_id))
        ∨ k = components (encrypted_download_path (part_path store operation.(op_id)) (client a).(ci_file_id)))
      a.(ag_fs) fs'.
Proof using Hcut UW HW HH AW RW SL Type.
  intros Hl [Hp Hparse Hutf Hshort] Hop Hid Hsize
    [Hse Hseen Hnonce Hreads Hhash Hfree] [_ _ Hdown Hpart Henc].
  destruct (linked_reachable _ _ cut _ _ _ _ _ _ a Hl) as [Htr Hconn]. destruct Hl as [[Haddr Hhost Hhs His Hsec Hslen Hkey] _ _].
  specialize (Hse (remote a).(rm_connections)). specialize (Hnonce (remote a).(rm_connections)).
  specialize (Hfree (remote a).(rm_connections)). specialize (Henc a.(ag_ticks)).
  destruct (signed_request_short (client a) endpoint address "GET" (file_target p) me secret_hex secret [] [])
    as (request & Hreq & Hrlen); try done; [simpl; lia|by destruct Htr|unfold fields_length; simpl; lia|].
  destruct (download_served (inputs a) config (client a) endpoint address me secret_hex secret request p d n content m
    (server_on (remote a)) document count) as (out & db' & Hct & Hserve); [done..|].
  destruct (create_dirs_ok (components (downloads_dir store)) [] a.(ag_fs)) as (fs1 & Hrun1 & Hin1 & Hout1); [done|].
  set (part := part_path store operation.(op_id)) in *.
  set (enc := encrypted_download_path part (client a).(ci_file_id)) in *.
  assert (components part = components (downloads_dir store) ++ [Normal (op_id operation +:+ ".part")]) as Hpk
    by (unfold part; rewrite part_key, downloads_key; done).
  assert (components enc = components (downloads_dir store) ++ [Normal (response_name (op_id operation +:+ ".part")
    (download_extension (ci_file_id (client a))))]) as Hek by (unfold enc, part; rewrite part_enc_key, downloads_key; done).
  assert (∀ x, ¬ on_way [] (components (downloads_dir store)) (components (downloads_dir store) ++ [x])) as Hnw.
  { intros x (u & w & _ & E & Ek). simpl in Ek. subst u. apply (f_equal length) in E. rewrite !length_app in E.
    simpl in E. lia. }
  assert (∀ x, has_parent fs1 (components (downloads_dir store) ++ [Normal x]) = true) as Hpar.
  { intros x. apply has_parent_snoc. right. apply Hin1. exists (components (downloads_dir store)), [].
    rewrite app_nil_r. split_and!; [rewrite downloads_key; unfold key; by destruct (components root)|done|done]. }
  assert (fs1 !! components part = None) as Hp1 by (rewrite Hout1; [done|by rewrite Hpk]).
  assert (fs1 !! components enc = None) as He1 by (rewrite Hout1; [done|by rewrite Hek]).
  set (answer := download_answer (inputs a).(in_nonce_prefix) content out).
  destruct (Hcut (bytes request)) as [Hf1 Hj1]. destruct (Hcut answer) as [Hf2 Hj2].
  destruct (download_received (client a) endpoint address me secret_hex (inputs a).(in_nonce_prefix) request p content out
    part (client_on fs1 [])) with (segs := cut answer) as (fs2 & Hclient & Hh2 & Hk2); try done.
  { unfold part. by apply enc_not_part. } { left. exact He1. }
  { left. exact Hp1. } { cbn [client_on cl_fs]. fold enc. rewrite Hek. apply Hpar. }
  { cbn [client_on cl_fs]. rewrite Hpk. apply Hpar. }
  exists fs2, db'. split_and!; [|done|].
  - rewrite fetch_download_eq. erewrite bind_Ok; [|exact (ag_fs_at_run _ _ a _ _ Hrun1)].
    unfold fetch_part. rewrite Hop, Hsize. fold part. cbv zeta.
    erewrite bind_Ok.
    2: { eapply (exchange_remote ins config cut ticks TransferPeerClient _ (with_ag_fs fs1 a) (bytes request) answer
           (Ok plain_transfer)).
         - intros E. destruct (signed_header_text _ _ _ _ _ _ _ _ _ _ Haddr Hreq) as (signature & _ & Ht).
           rewrite Ht in E. by apply app_nil in E as [_ E].
         - apply fetch_file_writes_first.
         - by apply Hserve.
         - exact Hclient. }
    cbn [plain_transfer tf_size_bytes tf_content_hash]. rewrite Z.eqb_refl, (bool_decide_eq_true_2 (_ = _)) by done.
    done.
  - intros k Hk. rewrite Hk2; [|tauto..]. cbn [client_on cl_fs].
    destruct (on_way_dec (components (downloads_dir store)) k) as [Hw|Hw];
      [left; split; [done|by apply Hin1]|right; split; [done|by apply Hout1]].
Qed.

(** ** One operation *)

Lemma limit_passes size document st (a : Agent) :
  folder_store_read store a.(ag_fs) = (Ok document, a.(ag_fs)) → folder_status a.(ag_db) = (Ok st, a.(ag_db)) →
  size ≤ remaining_bytes document.(fd_folder).(fc_size_limit) st.(fs_indexed_bytes) →
  enforce_local_download_limit store p size a = (Ok tt, a).
Proof using Type.
  intros Hdoc Hst Hlim. unfold enforce_local_download_limit. rewrite M_bind_eq. unfold ag_on_fs, zoom. rewrite Hdoc.
  rewrite M_bind_eq. unfold ag_on_db, zoom. cbn [with_ag_fs ag_db]. rewrite Hst. cbv zeta.
  rewrite (proj2 (Z.ltb_ge _ _)) by done. by destruct a.
Qed.

Lemma way_free fs : canonical (d ++ [n]) p → fs !! key root (d ++ [n]) = None →
  (∀ j, on_way [] (key root d) j → dir_or_none (fs !! j)) → try_exists fs (path_push root (rel_str p)) = Ok false.
Proof using Type.
  intros Hp Hk Hway. apply try_exists_free; rewrite (rel_key _ _ _ Hp); [done|].
  intros j Hj. apply Hway. rewrite key_snoc, length_app in *. simpl in Hj. rewrite take_app_le by lia.
  exists (take j (key root d)), (drop j (key root d)). split_and!; [|by rewrite take_drop|done].
  intros E. apply (f_equal length) in E. rewrite length_take in E. simpl in E. lia.
Qed.

Lemma replace_free operation (a : Agent) : path_ok → operation.(op_path) = p → room a.(ag_fs) operation.(op_id) →
  replace_existing store operation a = (Ok false, a).
Proof using Type.
  intros [Hp _ _ _] Hop [Hk Hway _ _ _]. unfold replace_existing. cbn [fst_root folder_store_new]. cbv zeta.
  unfold get_st. rewrite M_bind_eq, Hop, way_free by done. done.
Qed.

(** Nothing in the metadata directory is on the way to a file of the user. *)
Lemma hidden_off_way names : canonical (d ++ [n]) p → head names = Some ".syncer" →
  ¬ on_way [] (key root d) (key root names).
Proof using Type.
  intros (_ & _ & Hh & _) Hn [z E]%on_way_key. apply Hh. rewrite E. by destruct names.
Qed.
Lemma target_off_way names : canonical (d ++ [n]) p → head names = Some ".syncer" →
  ¬ on_way [] (key root names) (key root (d ++ [n])).
Proof using Type.
  intros (_ & _ & Hh & _) Hn [z E]%on_way_key. apply Hh. rewrite E in Hn. by destruct d.
Qed.

(** What the download leaves in the database. *)
Definition recorded_done (operation_id : string) (now : Z) (row : FileRow) (db : Database) : Database :=
  (mark_sync_operation_done now operation_id (with_files <[rel_str p := row]> db)).2.

Lemma download_completes (a : Agent) count document m local_document st operation manifest remote_file row :
  linked ins config ticks endpoint address me secret_hex secret (remote a).(rm_fs) →
  path_ok → operation.(op_path) = p → uuid_named operation.(op_id) →
  find_record p manifest.(fm_files) = Some remote_file → remote_file.(fr_kind) = KFile →
  remote_file.(fr_size_bytes) = chunk_len content →
  agreed_hash RemoteHashMissing RemoteFileChanged operation.(op_remote_content_hash) operation.(op_remote_size_bytes)
    remote_file = Ok (blake3_hex content) →
  offered (remote a) count document m → room a.(ag_fs) operation.(op_id) →
  folder_store_read store a.(ag_fs) = (Ok local_document, a.(ag_fs)) → folder_status a.(ag_db) = (Ok st, a.(ag_db)) →
  chunk_len content ≤ remaining_bytes local_document.(fd_folder).(fc_size_limit) st.(fs_indexed_bytes) →
  entry_row (ticks (S a.(ag_ticks))).(ti_unixepoch)
    (downloaded_entry (ticks (S a.(ag_ticks))).(ti_now_utc) profile operation remote_file plain_transfer) = Ok row →
  ∃ fs' db' m', download_operation store profile endpoint secret_hex manifest operation a
    = (Ok (done_result operation (chunk_len content)),
       with_ag_ticks (3 + a.(ag_ticks))
         (with_ag_db (recorded_done operation.(op_id) (ticks (2 + a.(ag_ticks))%nat).(ti_unixepoch) row a.(ag_db))
            (exchanged ins config cut ticks a fs' (served (remote a) (remote a).(rm_fs) db'))))
  ∧ fs' !! key root (d ++ [n]) = Some (EFile content m') ∧ extended a.(ag_fs) fs' ∧ grown_off root (d ++ [n]) a.(ag_fs) fs'
  ∧ (∀ j, on_way [] (key root d) j → fs' !! j = Some EDir).
Proof using Hcut UW HW HH AW RW SL Type.
  intros Hl Hpo Hop Hid Hfind Hkind Hsize Hagree Hoff Hroom Hdoc Hst Hlim Hrow.
  destruct (fetch_arrives a count document m operation remote_file) as (fs1 & db' & Hfetch & [m1 Hpart] & Hmade);
    [done..|].
  pose proof Hpo as [Hp _ _ _]. pose proof Hroom as [Hk Hway Hdown Hfpart Hfenc].
  specialize (Hfenc a.(ag_ticks)). assert (extended a.(ag_fs) fs1) as Hext1.
  { eapply made_extended; [exact Hdown| |exact Hmade]. by intros k [-> | ->]. }
  set (a1 := exchanged ins config cut ticks a fs1 (served (remote a) (remote a).(rm_fs) db')) in *.
  set (part := part_path store operation.(op_id)) in *.
  assert (components part = key root [".syncer"; "tmp"; "downloads"; op_id operation +:+ ".part"]) as Hpk
    by (unfold part; by rewrite part_key, <-key_snoc).
  set (enc := encrypted_download_path part (client a).(ci_file_id)) in *.
  assert (∃ x, components enc = key root [".syncer"; "tmp"; "downloads"; x]) as [x Hek].
  { eexists. unfold enc, part. by rewrite part_enc_key, <-key_snoc. }
  assert (∀ k names, k = key root names → head names ≠ Some ".syncer" → k ≠ components part ∧ k ≠ components enc) as Huser.
  { intros k names -> Hh. rewrite Hpk, Hek. split; intros E%(inj (key root)); by subst names. }
  pose proof Hp as (_ & _ & Hh & _). rewrite downloads_key in Hmade.
  destruct (publish_free root p d n operation.(op_id) content m1 a1) as (fs2 & Hpub & Htarget & Hmade2); try done.
  - cbn [exchanged with_ag_fs with_ag_peer ag_fs a1].
    destruct (Hmade (key root (d ++ [n]))) as [[Hw _]|[_ ->]]; [|by apply target_off_way in Hw|done].
    intros [E|E]; by destruct (Huser _ _ eq_refl Hh).
  - cbn [exchanged with_ag_fs with_ag_peer ag_fs a1]. intros j Hj. destruct (Hmade j) as [[_ ->]|[_ ->]]; [|by right|by apply Hway].
    intros [-> | ->]; [rewrite Hpk in Hj|rewrite Hek in Hj]; by apply hidden_off_way in Hj.
  - fold part in Hpub, Hmade2.
    exists fs2, db', m1. split_and!; [|done| | |].
    + unfold download_operation. rewrite Hop, Hfind. cbn [ok_or]. rewrite bind_lift_Ok, Hkind.
      rewrite (bool_decide_eq_true_2 (KFile = KFile)) by done. cbn [negb].
      erewrite (bind_Ok (lift _)); [|unfold lift; by rewrite Hagree].
      rewrite Hsize. erewrite bind_Ok; [|by eapply limit_passes].
      erewrite bind_Ok; [|by apply replace_free].
      erewrite bind_Ok; [|exact Hfetch]. cbv zeta iota. cbn [fst snd].
      rewrite M_bind_eq. cbn [mret M_ret]. erewrite bind_Ok; [|exact Hpub].
      unfold tick at 1. rewrite M_bind_eq. cbn [with_ag_fs ag_ticks a1 exchanged with_ag_peer with_ag_ticks clock pull_world server_world].
      unfold ag_on_db at 1, zoom at 1. rewrite M_bind_eq. cbn [ag_db with_ag_ticks with_ag_fs a1 exchanged with_ag_peer].
      rewrite upsert_eq.
      match goal with |- context [entry_row ?x ?y] => replace (entry_row x y) with (Ok row : CoreResult FileRow)
        by (symmetry; exact Hrow) end. cbn [fe_path downloaded_entry]. rewrite Hop.
      unfold mark_done, tick. rewrite !M_bind_eq. done.
    + intros k e He. destruct (Hmade2 k) as [[Hw ->]|[_ ->]]; [|cbn in Hw|by apply Hext1].
      * intros [-> | ->]; [by pose proof (eq_trans (eq_sym He) Hfpart)|by pose proof (eq_trans (eq_sym He) Hk)].
      * destruct (Hway k Hw) as [E|E]; pose proof (eq_trans (eq_sym He) E); congruence.
    + intros others Ho Hne. destruct (Huser _ _ eq_refl Ho) as [Hnp Hne'].
      assert (∀ y, dir_or_none (ag_fs a !! key root others) → y = Some EDir →
        y = ag_fs a !! key root others ∨ (ag_fs a !! key root others = None ∧ y = Some EDir)) as Hd
        by (intros y [E|E] ->; [by right|left; by rewrite E]).
      destruct (Hmade2 (key root others)) as [[Hw E2]|[_ E2]];
        [intros [E|E%(inj (key root))]; [by apply Hnp|done]|by apply Hd; [apply Hway|]|].
      cbn [a1 exchanged with_ag_fs with_ag_peer ag_fs] in E2. rewrite E2.
      destruct (Hmade (key root others)) as [[Hw E1]|[_ E1]];
        [by intros [E|E]|apply Hd; [apply Hdown; by rewrite downloads_key|done]|by left].
    + intros j Hj. destruct (Hmade2 j) as [[_ E]|[Hno _]]; [|done|done].
      intros [-> | ->]; [rewrite Hpk in Hj; by apply hidden_off_way in Hj|].
      destruct Hj as (u & w & _ & E & Ek). simpl in Ek. subst u. rewrite key_snoc in E.
      apply (f_equal length) in E. rewrite !length_app in E. simpl in E. lia.
Qed.

(** ** The run *)

(** The server's manifest has the file as it is. *)
Lemma manifest_record r count document m i manifest db :
  path_ok → offered r count document m →
  server_export_manifest (ins i) config.(cfg_folder_path) config.(cfg_profile) (server_on r)
  = (Ok manifest, with_db db (server_on r)) →
  db_wf count db ∧ ∃ remote_file, find_record p manifest.(fm_files) = Some remote_file
  ∧ remote_file.(fr_kind) = KFile ∧ remote_file.(fr_size_bytes) = chunk_len content
  ∧ remote_file.(fr_content_hash) = Some (blake3_hex content) ∧ is_size remote_file.(fr_generation)
  ∧ is_size (chunk_len content).
Proof using RW SL Type.
  intros [Hp _ _ _] [Hse Hseen _ _ _ _] Hexp.
  destruct (export_run (ins i) config.(cfg_folder_path) config.(cfg_profile) count (server_on r) document (Hse i))
    as (s & db' & Hexp' & Hout).
  rewrite Hexp' in Hexp. injection Hexp as <- Edb. subst db'.
  pose proof (so_wf _ _ _ _ _ _ _ _ _ Hout) as Hwf. split; [done|].
  destruct (so_seen _ _ _ _ _ _ _ _ _ Hout _ _ _ Hseen) as (row & Hr & Hrow & _ & Hsz & Hh).
  rewrite <-(canonical_text _ _ Hp) in Hr. pose proof (wf_files _ _ Hwf _ _ Hr) as [_ _ Hs _ Hg _].
  exists (file_record (rel_str p, row)). split_and!.
  - unfold find_record. cbn [fm_files]. rewrite (find_row count db (d ++ [n])) by done. by rewrite Hr.
  - cbn [file_record fr_kind snd]. by rewrite (scan_row_kind _ _ _ _ _ _ _ Hrow).
  - done.
  - done.
  - done.
  - by rewrite Hsz in Hs.
Qed.

(** The folder of the agent, before the run: it can be synchronised, and what the operation
    fetches fits. *)
Record can_pull (device_config : string) (count : Z) (document : FolderDocument) (a a1 : Agent) (r : OpRow) : Prop := {
  cp_syncable : syncable root device_config profile count a;
  cp_opened : a.(ag_fs) !! components (syncer_dir store) = Some EDir;
  cp_room : room a.(ag_fs) r.(o_id);
  cp_document : folder_store_read store a.(ag_fs) = (Ok document, a.(ag_fs));
  cp_scanned : ∃ s, scan_folder_into root profile a = (Ok s, a1);
  cp_fits : ∃ st, folder_status a1.(ag_db) = (Ok st, a1.(ag_db))
    ∧ chunk_len content ≤ remaining_bytes document.(fd_folder).(fc_size_limit) st.(fs_indexed_bytes);
}.

(** The queue holds one transfer with this server, the download of the file. *)
Record queued_pull (remote_device_id : string) (limit : Z) (rows : list OpRow) (r : OpRow) : Prop := {
  qp_limit : 1 ≤ limit ≤ i64_max;
  qp_download : pending_of remote_device_id KDownloadFromRemote rows = [r];
  qp_upload : pending_of remote_device_id KUploadToRemote rows = [];
  qp_path : r.(o_path) = rel_str p;
  qp_hash : r.(o_remote_content_hash) = Some (blake3_hex content);
  qp_size : r.(o_remote_size_bytes) = Some (chunk_len content);
}.

(** What the run leaves. *)
Record pulled (r : OpRow) (a a' : Agent) : Prop := {
  pl_file : ∃ m, a'.(ag_fs) !! key root (d ++ [n]) = Some (EFile content m);
  pl_others : extended a.(ag_fs) a'.(ag_fs);
  pl_row : ∃ row, a'.(ag_db).(db_files) !! rel_str p = Some row ∧ row.(w_size_bytes) = chunk_len content
    ∧ row.(w_content_hash) = Some (blake3_hex content) ∧ row.(w_sync_state) = "local_available";
  pl_done : Forall (λ x, x.(o_id) = r.(o_id) → x.(o_status) = "done") (ag_ops a');
  pl_server : (remote a').(rm_fs) = (remote a).(rm_fs);
}.

Lemma downloaded_row now now_utc operation file bh :
  to_json (@nil BlockHash) = Ok bh → is_size file.(fr_generation) → is_size (chunk_len content) →
  ∃ row, entry_row now (downloaded_entry now_utc profile operation file plain_transfer) = Ok row
  ∧ row.(w_size_bytes) = chunk_len content ∧ row.(w_content_hash) = Some (blake3_hex content)
  ∧ row.(w_sync_state) = "local_available".
Proof using Type.
  intros Hbh [_ Hg] [_ Hs]. unfold entry_row, i64_try_from_u64. cbn [downloaded_entry fe_block_hashes fe_size_bytes fe_version
    fv_generation plain_transfer tf_size_bytes]. rewrite Hbh. cbn [map_err mbind result_bind].
  rewrite !(proj2 (Z.leb_le _ _)) by done. cbn [ok_or mbind result_bind]. by eexists.
Qed.

(** What the run leaves, in full: [a1] is the agent after its scan. *)
Record arrived (r : OpRow) (count : Z) (a a1 a' : Agent) : Prop := {
  ar_file : ∃ m, a'.(ag_fs) !! key root (d ++ [n]) = Some (EFile content m);
  ar_others : extended a.(ag_fs) a'.(ag_fs);
  ar_grown : grown_off root (d ++ [n]) a.(ag_fs) a'.(ag_fs);
  ar_way : ∀ j, on_way [] (key root d) j → a'.(ag_fs) !! j = Some EDir;
  ar_row : ∃ row, a'.(ag_db).(db_files) = <[rel_str p := row]> a1.(ag_db).(db_files)
    ∧ row.(w_size_bytes) = chunk_len content ∧ row.(w_content_hash) = Some (blake3_hex content)
    ∧ row.(w_sync_state) = "local_available";
  ar_wf : (∀ i, unix_in_range (ticks i).(ti_unixepoch) = true ∧ valid_time (ticks i).(ti_now_utc)) →
    db_wf count a'.(ag_db);
  ar_done : Forall (λ x, x.(o_id) = r.(o_id) → x.(o_status) = "done") (ag_ops a');
  ar_server : (remote a').(rm_fs) = (remote a).(rm_fs);
}.

Lemma queued_download_run limit device_config count rcount local_document document m r manifest db bs
    (a a1 : Agent) :
  linked ins config ticks endpoint address me secret_hex secret (remote a).(rm_fs) → path_ok → offered (remote a) rcount document m →
  can_pull device_config count local_document a a1 r →
  server_export_manifest (inputs a) config.(cfg_folder_path) config.(cfg_profile) (server_on (remote a))
  = (Ok manifest, with_db db (server_on (remote a))) →
  to_json manifest = Ok bs → Z.of_nat (length bs) ≤ 1024 * 1024 →
  queued_pull (device_id_to_string manifest.(fm_device_id)) limit (ag_ops a) r →
  ∃ a', run_sync_queue root endpoint secret_hex limit device_config a
    = (Ok {| eq_completed := 1; eq_failed := 0; eq_results := [done_result (op_record r) (chunk_len content)] |}, a')
  ∧ arrived r count a a1 a'.
Proof using Hcut UW HW HH AW RW MW SL Type.
  intros Hl Hpo Hoff [Hsy Hopen Hroom Hdoc [s Hscan] (st & Hst & Hfits)] Hexp Hj Hlen [Hlim Hdown Hup Hpath Hhash Hsize].
  destruct (manifest_record _ _ _ _ _ _ _ Hpo Hoff Hexp) as (Hrwf & file & Hfind & Hkind & Hfs & Hfh & Hgen & Hsz).
  destruct (scan_into_run root device_config profile count a RW Hsy) as (s' & db1 & Hscan' & Hout).
  rewrite Hscan' in Hscan. injection Hscan as _ <-.
  set (a1 := with_ag_db db1 (with_ag_ticks (S (ag_ticks a)) a)) in *.
  pose proof (so_wf _ _ _ _ _ _ _ _ _ Hout) as Hwf1. pose proof (so_queue _ _ _ _ _ _ _ _ _ Hout) as Hops1.
  set (a3 := started r.(o_id) (informed ins config cut ticks a1 db)).
  assert (op_path (op_record r) = p) as Hop by (destruct p; cbn in Hpath; cbn; by rewrite Hpath).
  assert (uuid_named r.(o_id)) as Hid.
  { pose proof (sy_ids _ _ _ _ _ Hsy) as Hids. rewrite Forall_forall in Hids. apply Hids.
    assert (r ∈ pending_of (device_id_to_string manifest.(fm_device_id)) KDownloadFromRemote (ag_ops a)) as Hin
      by (rewrite Hdown; by left). by apply list_elem_of_filter in Hin as [_ ?]. }
  assert (agreed_hash RemoteHashMissing RemoteFileChanged (op_remote_content_hash (op_record r))
    (op_remote_size_bytes (op_record r)) file = Ok (blake3_hex content)) as Hagree.
  { unfold agreed_hash. cbn [op_record op_remote_content_hash op_remote_size_bytes].
    rewrite Hhash, Hsize, Hfh, Hfs. cbn [option_or ok_or mbind result_bind size_changed].
    by rewrite (bool_decide_eq_true_2 (_ = _)), Z.eqb_refl. }
  assert (offered (remote a3) rcount document m) as Hoff3.
  { destruct Hoff as [Hse ? ? ? ? ?]. constructor; try done. intros i. by destruct (Hse i). }
  assert (∃ row, entry_row (ticks (S a3.(ag_ticks))).(ti_unixepoch)
    (downloaded_entry (ticks (S a3.(ag_ticks))).(ti_now_utc) profile (op_record r) file plain_transfer) = Ok row
    ∧ row.(w_size_bytes) = chunk_len content ∧ row.(w_content_hash) = Some (blake3_hex content)
    ∧ row.(w_sync_state) = "local_available") as (row & Hrow & Hrs & Hrh & Hrt).
  { destruct (sy_json _ _ _ _ _ Hsy) as [bh Hbh]. by eapply downloaded_row. }
  destruct (download_completes a3 rcount document m local_document st (op_record r) manifest file row)
    as (fs' & db' & m' & Hrun & Hfile & Hext & Hgrown & Hdirs); [done|done| | |done|done|done| |done| | | |done|exact Hrow|].
  { by rewrite <-Hop. } { exact Hid. } { exact Hagree. } { exact Hroom. } { exact Hdoc. } { by apply status_started. }
  eexists. split.
  - etransitivity; [apply (run_reaches_queue ins config cut ticks Hcut endpoint address me secret_hex secret root profile
      limit device_config count a a1 s' manifest db bs ([op_record r], [])); try done|].
    + apply (pick_rows_one count _ limit db1 [r] []); [done|apply Hsy|done|by rewrite Hops1|by rewrite Hops1|done|simpl; lia].
    + unfold settle_all. cbn [fst snd foldM].
      erewrite bind_Ok; [|erewrite bind_Ok; [reflexivity|by apply settle_done]]. reflexivity.
  - constructor; [by exists m'|exact Hext|exact Hgrown|exact Hdirs|by exists row| | |done].
    + intros Hclock. cbn [with_ag_ticks with_ag_db ag_db recorded_done].
      apply update_status_preserves; [by left|apply Hclock|].
      apply wf_with_files; [|by apply started_preserves; [apply Hclock|]]. intros Hall.
      apply map_Forall_insert_2; [|done]. rewrite <-Hop.
      eapply (entry_row_ok _ (downloaded_entry _ profile (op_record r) file plain_transfer)); [|exact Hrow].
      constructor; cbn; [|by destruct Hsz|apply Hclock|by destruct Hgen].
      pose proof (po_parses Hpo) as Hparse. unfold stable_path. rewrite <-Hop in Hparse. exact Hparse.
    + unfold ag_ops. cbn. apply Forall_fmap, Forall_true. intros x. unfold compose, has_id.
      case_bool_decide as E; [by intros _|]. intros Ex. by rewrite Ex in E.
Qed.
(** C3. A queued download completes: the run of the queue against a server that trusts the
    device fetches the file the plan announced, whatever pieces the network cuts the
    messages into.  The folder then has exactly the server's content at the path, beside
    everything it had, and a record of it; the operation is done and reported so; the
    server's disk is as it was. *)
Theorem queued_download_completes limit device_config count rcount local_document document m r manifest db bs
    (a a1 : Agent) :
  linked ins config ticks endpoint address me secret_hex secret (remote a).(rm_fs) → path_ok → offered (remote a) rcount document m →
  can_pull device_config count local_document a a1 r →
  server_export_manifest (inputs a) config.(cfg_folder_path) config.(cfg_profile) (server_on (remote a))
  = (Ok manifest, with_db db (server_on (remote a))) →
  to_json manifest = Ok bs → Z.of_nat (length bs) ≤ 1024 * 1024 →
  queued_pull (device_id_to_string manifest.(fm_device_id)) limit (ag_ops a) r →
  ∃ a', run_sync_queue root endpoint secret_hex limit device_config a
    = (Ok {| eq_completed := 1; eq_failed := 0; eq_results := [done_result (op_record r) (chunk_len content)] |}, a')
  ∧ pulled r a a'.
Proof using Hcut UW HW HH AW RW MW SL Type.
  intros Hl Hpo Hoff Hcan Hexp Hj Hlen Hq.
  destruct (queued_download_run limit device_config count rcount local_document document m r manifest db bs a a1)
    as (a' & Hrun & [Hfile Hext _ _ (row & Hrow & Hs & Hh & Ht) _ Hdone Hserver]); [done..|].
  exists a'. split; [exact Hrun|]. constructor; [done|done| |done|done].
  exists row. by rewrite Hrow, lookup_insert_eq.
Qed.
End pull.
