(* ===== verification/AgentPullWitness.v ===== *)
(** * Witness of a queued download: two small machines

    The phone has a folder with nothing in it and one queued download; the laptop is the
    server of PeerWitness.v with its file. *)

From S2P Require Import Prelude RustStd External Error Manifest Limits Model Records Planning StateDb StateDbFacts StateDbSpec FileSys FolderStore Scanner ScannerSpec PathCodec RequestSigning PeerCrypto PeerStore HttpText PeerRequest PeerRequestSpec PeerServer PeerServerSpec PeerUploadSpec PeerSharedSpec PeerClient PeerClientSpec PeerExchangeSpec PeerPutSpec PeerJsonSpec PeerWitness AgentError Agent AgentSpec AgentSafety AgentRemote AgentPull.
From stdpp Require Import options pretty.
Local Open Scope Z_scope.

Module PullWitness.
Import Sample SampleFs FolderStore.Witness PeerCrypto.Witness PeerWitness.
#[local] Existing Instances w_reads w_reads_laws PeerWitness.unit_json PeerWitness.presence_json
  PeerWitness.presence_response_json PeerWitness.client_upload_json PeerWitness.upload_json
  PeerWitness.health_json PeerWitness.error_json PeerWitness.delete_json PeerWitness.peers_json.
#[local] Instance client_delete_json : SerdeJson ClientDeleteResponse := constant_json _.

(** The phone. *)
Definition p_profile : LocalDeviceProfile :=
  {| lp_device_id := 7%N; lp_device_name := {| device_name := "Phone" |}; lp_created_at := 0;
     lp_local_api_token_hex := ""; lp_identity_public_hex := "p"; lp_identity_secret_hex := "s" |}.
#[local] Instance profile_json : SerdeJson LocalDeviceProfile :=
  {| to_json := λ _, Ok (bytes "{}"); from_json := λ _, Ok p_profile |}.

(** The manifest of the laptop, and a serialiser that knows it. *)
Definition p_file : FileRecord :=
  {| fr_path := {| rel_str := "a.txt" |}; fr_kind := KFile; fr_size_bytes := 5; fr_modified_at := 5000000000;
     fr_content_hash := Some "hello"; fr_generation := 1; fr_device_id := uuid_to_string 1%N;
     fr_sync_state := LocalAvailable |}.
Definition p_manifest : FolderManifest :=
  {| fm_folder_id := 1%N; fm_device_id := 1%N; fm_generated_at := 0; fm_files := [p_file] |}.
#[local] Instance FileRecord_eq_dec : EqDecision FileRecord.
Proof. solve_decision. Defined.
#[local] Instance FolderManifest_eq_dec : EqDecision FolderManifest.
Proof. solve_decision. Defined.
#[local] Instance p_manifest_json : SerdeJson FolderManifest :=
  {| to_json := λ m, if decide (m = p_manifest) then Ok (bytes "{m}") else Err "other";
     from_json := λ _, Ok p_manifest |}.
#[local] Instance p_manifest_laws : SerdeLaws FolderManifest.
Proof. constructor. intros m bs. simpl. destruct (decide (m = p_manifest)) as [->|]; [|done]. done. Qed.

Definition p_disk : FS := list_to_map
  [(w_k [], EDir); (w_k ["profile.json"], EFile (bytes "{}") None); (w_k ["box"], EDir);
   (w_k ["box"; ".syncer"], EDir); (w_k ["box"; ".syncer"; "folder.json"], EFile (bytes "{}") None)].
Definition p_row : OpRow :=
  {| o_id := uuid_to_string 40%N; o_path := "a.txt"; o_kind := "download_from_remote"; o_status := "pending";
     o_reason := "r"; o_local_size_bytes := None; o_remote_size_bytes := Some 5;
     o_local_content_hash := None; o_remote_content_hash := Some "hello";
     o_remote_device_id := uuid_to_string 1%N; o_last_error := None; o_retry_count := 0;
     o_started_at_unix := None; o_finished_at_unix := None; o_created_at_unix := 0; o_updated_at_unix := 0 |}.
Definition p_tick : Tick :=
  {| ti_now_utc := 0; ti_unixepoch := 9; ti_id := 50%N; ti_random := replicate 32 dot; ti_client := w_cio;
     ti_scan_now := λ _, 100; ti_scan_now_utc := λ _, 0; ti_scan_end := 200;
     ti_stamps := λ i, (N.of_nat (60 + i), 0) |}.

Definition p_ins (_ : nat) : Inputs := w_io.
Definition p_ticks (_ : nat) : Tick := p_tick.
Definition p_cut (bs : list ascii) : list (list ascii) := (λ a, [a]) <$> bs.
#[local] Instance p_world : World := server_world p_ins w_config p_cut p_ticks.
Definition p_laptop : Remote := {| rm_connections := 0; rm_fs := w_disk; rm_db := db_empty |}.
Definition p_agent : Agent :=
  {| ag_fs := p_disk; ag_db := with_operations (λ _, [p_row]) db_empty; ag_peer := p_laptop : @Peer p_world;
     ag_out := []; ag_slept := []; ag_ticks := 0%nat |}.

Lemma p_cut_delivers : delivers p_cut.
Proof.
  intros bs. split; [apply Forall_fmap, Forall_true; intros a; discriminate|].
  induction bs as [|a l IH]; [reflexivity|]. cbn. f_equal. exact IH.
Qed.

Lemma p_linked : linked p_ins w_config p_ticks w_endpoint w_address p_profile.(lp_device_id) w_secret_hex w_secret w_disk.
Proof.
  constructor; [|intros i j; exact w_trusted|intros j; reflexivity].
  constructor; [reflexivity|split; [repeat constructor|vm_compute; reflexivity]|vm_compute; discriminate| | | |reflexivity].
  - apply (bool_decide_eq_true_1 (_ ≤ _)%nat). vm_compute. reflexivity.
  - apply hex_decode_encode.
  - reflexivity.
Qed.

Lemma p_path : path_ok {| rel_str := "a.txt" |} [] "a.txt".
Proof.
  constructor; [apply w_canonical; [vm_compute; reflexivity|discriminate]|vm_compute; reflexivity..|].
  vm_compute. discriminate.
Qed.

Lemma p_offered : offered p_ins w_config {| rel_str := "a.txt" |} [] "a.txt" (bytes "hello") p_laptop 0 w_document
  (Some 5000000000).
Proof.
  constructor; [intros i; exact w_servable|exact w_served_seen|intros i; reflexivity| | |].
  - apply w_one_chunk; [discriminate|vm_compute; discriminate].
  - split; [repeat constructor|]. apply (bool_decide_eq_true_1 (_ ≤ _)%nat). vm_compute. reflexivity.
  - intros i. vm_compute. reflexivity.
Qed.

Lemma p_room : room p_ticks "/box" [] "a.txt" p_disk p_row.(o_id).
Proof.
  constructor; [vm_compute; reflexivity|apply on_way_check; vm_compute; reflexivity..|vm_compute; reflexivity|].
  intros i. vm_compute. reflexivity.
Qed.

Lemma p_syncable : syncable "/box" "/profile.json" p_profile 0 p_agent.
Proof.
  constructor.
  - unfold profile_read, fs_read, get_st. rewrite M_bind_eq.
    replace (ag_fs p_agent !! components "/profile.json") with (Some (EFile (bytes "{}") None))
      by (symmetry; vm_compute; reflexivity).
    reflexivity.
  - apply ScannerSpec.Witness.scannable_check; [apply fs_wf_check| |]; vm_compute; reflexivity.
  - by exists (bytes "[]").
  - intros i q. vm_compute. reflexivity.
  - constructor; [apply map_Forall_empty..| |apply NoDup_singleton].
    constructor; [|constructor]. constructor; cbn; [by vm_compute| | | |lia|done|done|done|done].
    + by exists KDownloadFromRemote, SPending.
    + intros z E. discriminate E.
    + intros z [= <-]. done.
  - vm_compute. discriminate.
  - constructor; [by exists 40%N|constructor].
Qed.

Definition p_scanned : Agent := (scan_folder_into "/box" p_profile p_agent).2.

Lemma p_can_pull : can_pull p_ins w_config p_cut p_ticks "/box" p_profile [] "a.txt" (bytes "hello") "/profile.json" 0
  w_document p_agent p_scanned p_row.
Proof.
  destruct (scan_into_run "/box" "/profile.json" p_profile 0 p_agent _ p_syncable) as (s & db & Hrun & Hout).
  constructor; [exact p_syncable|vm_compute; reflexivity|exact p_room| | |].
  - rewrite read_eq. by f_equal.
  - exists s. unfold p_scanned. by rewrite Hrun.
  - eexists. split; [apply (folder_status_wf 0)|vm_compute; discriminate].
    unfold p_scanned. rewrite Hrun. by eapply so_wf.
Qed.

Lemma p_queued : queued_pull {| rel_str := "a.txt" |} (bytes "hello") (device_id_to_string p_manifest.(fm_device_id)) 10
  (ag_ops p_agent) p_row.
Proof. constructor; [split; vm_compute; discriminate|vm_compute; reflexivity..]. Qed.

Lemma p_export : ∃ db, server_export_manifest w_io "/data" w_profile (server_on p_laptop)
  = (Ok p_manifest, with_db db (server_on p_laptop)).
Proof.
  destruct (export_run w_io "/data" w_profile 0 (server_on p_laptop) w_document w_servable) as (s & db & Hrun & _).
  exists db. rewrite Hrun. f_equal.
  assert ((server_export_manifest w_io "/data" w_profile (server_on p_laptop)).1 = Ok p_manifest) as E
    by (vm_compute; reflexivity).
  rewrite Hrun in E. exact E.
Qed.

Lemma queued_download_completes_witness :
  ∃ a', run_sync_queue "/box" w_endpoint w_secret_hex 10 "/profile.json" p_agent
    = (Ok {| eq_completed := 1; eq_failed := 0; eq_results := [done_result (op_record p_row) 5] |}, a')
  ∧ (∃ m, a'.(ag_fs) !! w_k ["box"; "a.txt"] = Some (EFile (bytes "hello") m))
  ∧ (a'.(ag_peer) : Remote).(rm_fs) = w_disk.
Proof.
  destruct p_export as [db Hexp].
  destruct (queued_download_completes p_ins w_config p_cut p_ticks p_cut_delivers w_endpoint w_address w_secret_hex
    w_secret "/box" p_profile {| rel_str := "a.txt" |} [] "a.txt" (bytes "hello") 10 "/profile.json" 0 0 w_document w_document
    (Some 5000000000) p_row p_manifest db (bytes "{m}") p_agent p_scanned) as (a' & Hrun & Hp).
  - exact p_linked.
  - exact p_path.
  - exact p_offered.
  - exact p_can_pull.
  - exact Hexp.
  - reflexivity.
  - vm_compute. discriminate.
  - exact p_queued.
  - exists a'. split; [exact Hrun|]. split; [exact (pl_file _ _ _ _ _ _ _ _ _ _ _ _ Hp)|exact (pl_server _ _ _ _ _ _ _ _ _ _ _ _ Hp)].
Defined.

End PullWitness.
