(* ===== verification/AgentPush.v ===== *)
(** * Two machines: a queued upload from end to end

    The counterpart of AgentPull.v: a run of the queue against the real server encrypts a
    local file, sends it to a path the server has nothing at, and marks the operation
    done. *)

From S2P Require Import Prelude RustStd External Error Manifest Limits Model Records Planning StateDb StateDbFacts StateDbSpec FileSys FolderStore Scanner ScannerSpec PathCodec RequestSigning PeerCrypto PeerStore HttpText PeerRequest PeerRequestSpec PeerServer PeerServerSpec PeerUploadSpec PeerSharedSpec PeerClient PeerClientSpec PeerExchangeSpec PeerPutSpec PeerJsonSpec AgentError Agent AgentSpec AgentSafety AgentRemote AgentPull.
From stdpp Require Import options pretty.
Local Open Scope Z_scope.

Section push.
Context `{TL : !TimeLib, SL : !SqlxLib, UL : !UuidLib, UW : !UuidLaws, SJ : !SerdeJson (list BlockHash),
          BL : !Blake3Lib, IL : !IoLib, RD : !ReadDir, RW : !ReadDirLaws, HL : !HexLib, HW : !HexLaws,
          SH : !Sha256Lib, HM : !HmacLib, HH : !HmacLaws, AL : !AeadLib, AW : !AeadLaws, KL : !KdfLib, RL : !ReadLib,
          LW : !ReadLaws,
          FJ : !SerdeJson FolderDocument, PJ : !SerdeJson PeerStoreDocument,
          EJ : !SerdeJson PeerPresence, MJ : !SerdeJson FolderManifest, MW : !SerdeLaws FolderManifest,
          J1 : !SerdeJson HealthResponse, J2 : !SerdeJson PresenceResponse, J3 : !SerdeJson ErrorResponse,
          J4 : !SerdeJson UploadFileResponse, J5 : !SerdeJson DeleteFileResponse,
          LJ : !SerdeJson LocalDeviceProfile, UJ : !SerdeJson unit,
          C1 : !SerdeJson ClientUploadResponse, CW : !UploadWire, C2 : !SerdeJson ClientDeleteResponse}.
Context (ins : nat → Inputs) (config : PeerServerConfig) (cut : list ascii → list (list ascii)) (ticks : nat → Tick).
Hypothesis Hcut : delivers cut.
#[local] Instance push_world : World := server_world ins config cut ticks.
Context (endpoint : string) (address : PeerAddress) (secret_hex : string) (secret : list ascii).
Context (root : string) (profile : LocalDeviceProfile).
Context (p : RelativePath) (d : list string) (n : string) (content : list ascii).
Abbreviation store := (folder_store_new root).
Abbreviation me := (profile.(lp_device_id)).
Abbreviation client a := (next_client ins config cut ticks a).
Abbreviation inputs a := (next_inputs ins config cut ticks a).
Abbreviation remote a := (remote_of ins config cut ticks a).
Abbreviation folder := (config.(cfg_folder_path)).
Abbreviation target := (path_push folder (rel_str p)).

Definition upload_answer : UploadFileResponse :=
  {| uf_accepted := true; uf_path := p; uf_size_bytes := chunk_len content; uf_content_hash := blake3_hex content |}.

(** The server has a free place for the file, within the limit of its folder. *)
Record receives (r : Remote) (db : Database) (document : FolderDocument) (answer : list ascii) : Prop := {
  rv_ready : ∀ i, upload_ready (ins i) folder p d r.(rm_fs);
  rv_spool : ∀ i, spool_ready folder (ins i).(in_body_id) r.(rm_fs);
  rv_peers : ∃ peers pm, r.(rm_fs) !! components config.(cfg_peers_path) = Some (EFile peers pm);
  rv_apart : ∀ i, components config.(cfg_peers_path) ≠ components (body_path folder (ins i).(in_body_id));
  rv_document : folder_store_read (folder_store_new folder) r.(rm_fs) = (Ok document, r.(rm_fs));
  rv_fits : ∃ st, folder_status db = (Ok st, db)
    ∧ chunk_len content ≤ remaining_bytes document.(fd_folder).(fc_size_limit) st.(fs_indexed_bytes);
  rv_answer : to_json upload_answer = Ok answer;
  rv_short : Z.of_nat (length answer) ≤ 1024 * 1024;
}.

(** The file of the agent can be read and encrypted beside itself. *)
Record sends (a : Agent) (m : option Z) : Prop := {
  sd_seen : seen_file a.(ag_fs) (scanner_new root me) (d ++ [n]) content m;
  sd_encrypted : ∀ i, let encrypted := components (encrypted_upload_path (path_push root (rel_str p))
      (ticks i).(ti_client).(ci_file_id)) in
    a.(ag_fs) !! encrypted = None ∧ has_parent a.(ag_fs) encrypted = true;
  sd_nonce : ∀ i, length (ticks i).(ti_client).(ci_nonce_prefix) = NONCE_PREFIX_BYTES;
  sd_reads : full_reads content (reads content);
  sd_size : chunk_len content ≤ i64_max;
  sd_hash : hash_text (blake3_hex content);
  sd_clock : ∀ i, unix_in_range (ticks i).(ti_unixepoch) = true;
}.

(** What the server has after the upload. *)
Definition stored (fs : FS) (db : Database) (fs' : FS) (db' : Database) : Prop :=
  holds target content fs'
  ∧ recorded p content db db'
  ∧ ∃ i, grown fs fs' (λ k, k = components (body_path folder (ins i).(in_body_id))
      ∨ k = components (plain_path folder (ins i).(in_plain_id)) ∨ k = components target)
  ∧ (∀ k, on_way [] (key folder d) k → fs' !! k = Some EDir).

(** One upload. *)
Lemma put_arrives {F} (f : PeerClientError → F) (a : Agent) document answer m :
  linked ins config ticks endpoint address me secret_hex secret (remote a).(rm_fs) → path_ok p d n →
  receives (remote a) (remote a).(rm_db) document answer → sends a m → (∃ bh, to_json (@nil BlockHash) = Ok bh) →
  ∃ fs' db', exchange f (λ io, put_file_from_path io endpoint (device_text profile) secret_hex p (blake3_hex content)
      (path_push root (rel_str p)) (chunk_len content)) a
    = (Ok (client_view upload_answer), exchanged ins config cut ticks a a.(ag_fs) (served (remote a) fs' db'))
  ∧ stored (remote a).(rm_fs) (remote a).(rm_db) fs' db'.
Proof using Hcut UW HW HH AW LW CW SL Type.
  intros Hl [Hp Hparse Hutf Hshort] [Hready Hspool (peers & pm & Hpeers) Hapart Hdoc (st & Hst & Hfits) Hans Halen]
    [Hseen Henc Hnonce Hreads Hsize Hhash _] [bh Hbh].
  destruct (linked_reachable _ _ cut _ _ _ _ _ _ a Hl) as [Htr Hconn].
  destruct Hl as [[Haddr Hhost Hhs His Hsec Hslen Hkey] _ _]. destruct (Henc a.(ag_ticks)) as [Hfree Hpar].
  pose proof (seen_target _ _ _ _ _ _ _ Hp Hseen) as Hfile.
  destruct (put_client_run (client a) endpoint address me secret_hex secret p content (path_push root (rel_str p)) m
    (client_on a.(ag_fs) [])) as (out & signature & Hct & Hsig & Hclient); try done.
  { apply Hnonce. } { intros E. by pose proof (eq_trans (eq_sym Hfree) (eq_trans (f_equal (λ k, ag_fs a !! k) E) Hfile)). }
  set (request := upload_message p address.(pa_host) me signature (unix_timestamp (client a).(ci_now)) (blake3_hex content)
    (chunk_len content) (client a).(ci_nonce_prefix) out) in *.
  set (reply := binary_response 200 "application/json" answer).
  destruct (Hcut request) as [Hf1 Hj1]. destruct (Hcut reply) as [Hf2 Hj2].
  destruct (put_serve_run (inputs a) config address.(pa_host) me secret_hex p d n content out (client a).(ci_nonce_prefix)
    signature (unix_timestamp (client a).(ci_now)) (client a).(ci_now) pm peers (server_on (remote a)) document st bh
    answer (cut request)) as (row & fs' & Hserve & Hrs & Hrh & Hrt & Hh & Hg & Hd); try done; [apply Hready|apply Hspool|apply Hapart|].
  exists fs', (with_files <[rel_str p := row]> (remote a).(rm_db)). split.
  - eapply (exchange_remote ins config cut ticks f _ a request reply (Ok (client_view upload_answer))).
    + unfold request, upload_message. intros [E _]%app_nil. by apply app_nil in E as [_ E].
    + apply put_file_writes_first.
    + exact Hserve.
    + apply Hclient; [done| |].
      * rewrite Hj2. by apply json_response_short.
      * rewrite Hj2. unfold reply. by rewrite json_answer, (upload_wire _ _ Hans).
  - split_and!; [done|by exists row|]. by eexists.
Qed.

(** ** One operation *)

Lemma upload_completes (a : Agent) count document answer m operation manifest row :
  linked ins config ticks endpoint address me secret_hex secret (remote a).(rm_fs) → path_ok p d n →
  receives (remote a) (remote a).(rm_db) document answer → sends a m → (∃ bh, to_json (@nil BlockHash) = Ok bh) →
  operation.(op_path) = p → find_remote_target manifest p = None →
  db_wf count a.(ag_db) → a.(ag_db).(db_files) !! rel_str p = Some row → row.(w_kind) = "file" →
  row.(w_size_bytes) = chunk_len content → row.(w_content_hash) = Some (blake3_hex content) →
  operation.(op_local_content_hash) = Some (blake3_hex content) →
  operation.(op_local_size_bytes) = Some (chunk_len content) →
  ∃ fs' db', upload_operation store profile endpoint secret_hex manifest operation a
    = (Ok (done_result operation (chunk_len content)),
       with_ag_ticks (2 + a.(ag_ticks))
         (with_ag_db (mark_sync_operation_done (ticks (S a.(ag_ticks))).(ti_unixepoch) operation.(op_id) a.(ag_db)).2
            (exchanged ins config cut ticks a a.(ag_fs) (served (remote a) fs' db'))))
  ∧ stored (remote a).(rm_fs) (remote a).(rm_db) fs' db'.
Proof using Hcut UW HW HH AW LW CW SL Type.
  intros Hl Hpo Hrec Hsend Hbh Hop Hnone Hwf Hrow Hkind Hrs Hrh Hoh Hos.
  destruct (put_arrives TransferPeerClient a document answer m Hl Hpo Hrec Hsend Hbh) as (fs' & db' & Hput & Hst).
  pose proof Hpo as [Hp _ _ _]. exists fs', db'. split; [|done].
  unfold upload_operation. rewrite Hop, Hnone. rewrite M_bind_eq. unfold ag_on_db at 1, zoom at 1.
  rewrite (list_files_wf count) by done. replace (with_ag_db (ag_db a) a) with a by (by destruct a).
  unfold find_record. rewrite (find_row count _ _ _ Hwf Hp), Hrow. cbn [fmap option_fmap option_map ok_or].
  rewrite bind_lift_Ok. cbn [file_record fr_kind snd]. rewrite Hkind, (bool_decide_eq_true_2 ("file" = "file")) by done.
  rewrite (bool_decide_eq_true_2 (KFile = KFile)) by done. cbn [negb].
  assert (agreed_hash LocalHashMissing LocalFileChanged operation.(op_local_content_hash) operation.(op_local_size_bytes)
    (file_record (rel_str p, row)) = Ok (blake3_hex content)) as Hagree.
  { unfold agreed_hash. rewrite Hoh, Hos. cbn [file_record fr_content_hash fr_size_bytes snd]. rewrite Hrh, Hrs.
    cbn [option_or ok_or mbind result_bind size_changed]. by rewrite (bool_decide_eq_true_2 (_ = _)), Z.eqb_refl. }
  erewrite (bind_Ok (lift _)); [|unfold lift; by rewrite Hagree].
  rewrite M_bind_eq. cbn [mret M_ret]. cbv zeta. cbn [fst_root folder_store_new file_record fr_size_bytes snd]. rewrite Hrs.
  erewrite bind_Ok; [|exact Hput].
  cbn [client_view upload_answer cu_accepted cu_path cu_size_bytes cu_content_hash uf_accepted uf_path uf_size_bytes
    uf_content_hash]. rewrite rel_eqb_refl, Z.eqb_refl, (bool_decide_eq_true_2 (_ = _)) by done. cbn [negb orb].
  unfold mark_done, tick. rewrite !M_bind_eq. done.
Qed.

(** ** The run *)

(** The queue holds one transfer with this server, the upload of the file. *)
Record queued_push (remote_device_id : string) (limit : Z) (rows : list OpRow) (r : OpRow) : Prop := {
  qu_limit : 1 ≤ limit ≤ i64_max;
  qu_download : pending_of remote_device_id KDownloadFromRemote rows = [];
  qu_upload : pending_of remote_device_id KUploadToRemote rows = [r];
  qu_path : r.(o_path) = rel_str p;
  qu_hash : r.(o_local_content_hash) = Some (blake3_hex content);
  qu_size : r.(o_local_size_bytes) = Some (chunk_len content);
}.

(** What the run leaves, in full: [a1] is the agent after its scan. *)
Record delivered (r : OpRow) (count : Z) (db : Database) (a a1 a' : Agent) : Prop := {
  de_files : a'.(ag_fs) = a.(ag_fs);
  de_stored : stored (remote a).(rm_fs) db (remote a').(rm_fs) (remote a').(rm_db);
  de_rows : a'.(ag_db).(db_files) = a1.(ag_db).(db_files);
  de_wf : db_wf count a'.(ag_db);
  de_done : Forall (λ x, x.(o_id) = r.(o_id) → x.(o_status) = "done") (ag_ops a');
}.

Lemma queued_upload_run limit device_config count document answer m r manifest db bs s (a a1 : Agent) :
  linked ins config ticks endpoint address me secret_hex secret (remote a).(rm_fs) → path_ok p d n →
  receives (remote a) db document answer → sends a m →
  syncable root device_config profile count a → a.(ag_fs) !! components (syncer_dir store) = Some EDir →
  scan_folder_into root profile a = (Ok s, a1) →
  server_export_manifest (inputs a) folder config.(cfg_profile) (server_on (remote a))
  = (Ok manifest, with_db db (server_on (remote a))) →
  to_json manifest = Ok bs → Z.of_nat (length bs) ≤ 1024 * 1024 → find_remote_target manifest p = None →
  queued_push (device_id_to_string manifest.(fm_device_id)) limit (ag_ops a) r →
  ∃ a', run_sync_queue root endpoint secret_hex limit device_config a
    = (Ok {| eq_completed := 1; eq_failed := 0; eq_results := [done_result (op_record r) (chunk_len content)] |}, a')
  ∧ delivered r count db a a1 a'.
Proof using Hcut UW HW HH AW RW MW LW CW SL Type.
  intros Hl Hpo Hrec Hsend Hsy Hopen Hscan' Hexp Hj Hlen Hnone [Hlim Hdown Hup Hpath Hhash Hsize].
  destruct (scan_into_run root device_config profile count a RW Hsy) as (s' & db1 & Hscan & Hout).
  rewrite Hscan in Hscan'. injection Hscan' as -> <-.
  pose proof (so_wf _ _ _ _ _ _ _ _ _ Hout) as Hwf1. pose proof (so_queue _ _ _ _ _ _ _ _ _ Hout) as Hops1.
  destruct (so_seen _ _ _ _ _ _ _ _ _ Hout _ _ _ (sd_seen _ _ Hsend)) as (row & Hr & Hrow & _ & Hrs & Hrh).
  pose proof Hpo as [Hp _ _ _]. rewrite <-(canonical_text _ _ Hp) in Hr.
  set (a1 := with_ag_db db1 (with_ag_ticks (S (ag_ticks a)) a)) in *.
  set (a3 := started r.(o_id) (informed ins config cut ticks a1 db)).
  destruct (upload_completes a3 count document answer m (op_record r) manifest row)
    as (fs' & db' & Hrun & Hst); try done.
  { by destruct Hrec. } { by destruct Hsend. } { apply Hsy. }
  { by destruct p; cbn in Hpath |- *; rewrite Hpath. }
  { apply (started_preserves count); [apply (sd_clock _ _ Hsend)|done]. }
  { by rewrite (scan_row_kind _ _ _ _ _ _ _ Hrow). }
  eexists. split.
  - etransitivity; [apply (run_reaches_queue ins config cut ticks Hcut endpoint address me secret_hex secret root profile
      limit device_config count a a1 s manifest db bs ([], [op_record r])); try done|].
    + apply (pick_rows_one count _ limit db1 [] [r]); [done|apply Hsy|done|by rewrite Hops1|by rewrite Hops1|simpl; lia|done].
    + unfold settle_all. cbn [fst snd foldM]. rewrite M_bind_eq. cbn [mret M_ret].
      erewrite bind_Ok; [|by apply settle_done]. reflexivity.
  - constructor; [done|exact Hst|done| |].
    + apply update_status_preserves; [by left|apply (sd_clock _ _ Hsend)|].
      apply (started_preserves count); [apply (sd_clock _ _ Hsend)|done].
    + unfold ag_ops. cbn. apply Forall_fmap, Forall_true. intros x. unfold compose, has_id.
      case_bool_decide as E; [by intros _|]. intros Ex. by rewrite Ex in E.
Qed.

(** C7. A queued upload completes: the run of the queue against a server that trusts the
    device, whose manifest shows nothing at the path and whose folder has room, leaves the
    local file's content at the path on the server, with a record of it, whatever pieces the
    network cuts the messages into.  Beside the temporary files of the request nothing else
    on the server changes, the agent's files are as they were, and the operation is done and
    reported so. *)
Theorem queued_upload_completes limit device_config count document answer m r manifest db bs (a : Agent) :
  linked ins config ticks endpoint address me secret_hex secret (remote a).(rm_fs) → path_ok p d n →
  receives (remote a) db document answer → sends a m →
  syncable root device_config profile count a → a.(ag_fs) !! components (syncer_dir store) = Some EDir →
  server_export_manifest (inputs a) folder config.(cfg_profile) (server_on (remote a))
  = (Ok manifest, with_db db (server_on (remote a))) →
  to_json manifest = Ok bs → Z.of_nat (length bs) ≤ 1024 * 1024 → find_remote_target manifest p = None →
  queued_push (device_id_to_string manifest.(fm_device_id)) limit (ag_ops a) r →
  ∃ a', run_sync_queue root endpoint secret_hex limit device_config a
    = (Ok {| eq_completed := 1; eq_failed := 0; eq_results := [done_result (op_record r) (chunk_len content)] |}, a')
  ∧ a'.(ag_fs) = a.(ag_fs) ∧ stored (remote a).(rm_fs) db (remote a').(rm_fs) (remote a').(rm_db)
  ∧ Forall (λ x, x.(o_id) = r.(o_id) → x.(o_status) = "done") (ag_ops a').
Proof using Hcut UW HW HH AW RW MW LW CW SL Type.
  intros Hl Hpo Hrec Hsend Hsy Hopen Hexp Hj Hlen Hnone Hq.
  destruct (scan_into_run root device_config profile count a RW Hsy) as (s & db1 & Hscan & _).
  destruct (queued_upload_run limit device_config count document answer m r manifest db bs s a _ Hl Hpo Hrec Hsend Hsy Hopen
    Hscan Hexp Hj Hlen Hnone Hq) as (a' & Hrun & [? ? _ _ ?]).
  by exists a'.
Qed.
End push.
