(* ===== verification/AgentPushWitness.v ===== *)
(** * Witness of a queued upload: two small machines

    The phone has a file the laptop does not know, and its upload in the queue. *)

From S2P Require Import Prelude RustStd External Error Manifest Limits Model Records Planning StateDb StateDbFacts StateDbSpec FileSys FolderStore Scanner ScannerSpec PathCodec RequestSigning PeerCrypto PeerStore HttpText PeerRequest PeerRequestSpec PeerServer PeerServerSpec PeerUploadSpec PeerSharedSpec PeerClient PeerClientSpec PeerExchangeSpec PeerPutSpec PeerJsonSpec PeerWitness AgentError Agent AgentSpec AgentSafety AgentRemote AgentPull AgentPullWitness AgentPush.
From stdpp Require Import options pretty.
Local Open Scope Z_scope.

Module PushWitness.
Import Sample SampleFs FolderStore.Witness PeerCrypto.Witness PeerWitness PullWitness.
#[local] Existing Instances w_reads w_reads_laws PeerWitness.unit_json PeerWitness.presence_json
  PeerWitness.presence_response_json PeerWitness.health_json PeerWitness.error_json PeerWitness.delete_json
  PeerWitness.peers_json PeerWitness.UploadFileResponse_eq_dec PullWitness.client_delete_json PullWitness.profile_json
  PullWitness.p_manifest_json PullWitness.p_manifest_laws.

Definition q_path : RelativePath := {| rel_str := "b.txt" |}.
Definition q_answer : UploadFileResponse := upload_answer q_path (bytes "new").
#[local] Instance q_upload_json : SerdeJson UploadFileResponse :=
  {| to_json := λ r, if decide (r = q_answer) then Ok (bytes "{u}") else Err "other";
     from_json := λ _, Err "syntax" |}.
#[local] Instance q_client_upload_json : SerdeJson ClientUploadResponse :=
  {| to_json := λ _, Err "other"; from_json := λ _, Ok (client_view q_answer) |}.
#[local] Instance q_wire : UploadWire.
Proof. constructor. intros r bs. simpl. destruct (decide (r = q_answer)) as [->|]; [|done]. by intros [= <-]. Qed.

Definition q_disk : FS := <[w_k ["box"; "b.txt"] := EFile (bytes "new") (Some 6000000000)]> p_disk.
Definition q_row : OpRow :=
  {| o_id := uuid_to_string 40%N; o_path := "b.txt"; o_kind := "upload_to_remote"; o_status := "pending";
     o_reason := "r"; o_local_size_bytes := Some 3; o_remote_size_bytes := None;
     o_local_content_hash := Some "new"; o_remote_content_hash := None;
     o_remote_device_id := uuid_to_string 1%N; o_last_error := None; o_retry_count := 0;
     o_started_at_unix := None; o_finished_at_unix := None; o_created_at_unix := 0; o_updated_at_unix := 0 |}.
#[local] Instance q_world : World := server_world p_ins w_config p_cut p_ticks.
Definition q_agent : Agent :=
  {| ag_fs := q_disk; ag_db := with_operations (λ _, [q_row]) db_empty; ag_peer := p_laptop : @Peer q_world;
     ag_out := []; ag_slept := []; ag_ticks := 0%nat |}.

Lemma q_path_ok : path_ok q_path [] "b.txt".
Proof.
  constructor; [apply w_canonical; [vm_compute; reflexivity|discriminate]|vm_compute; reflexivity..|].
  vm_compute. discriminate.
Qed.

Lemma q_scannable : scannable q_disk (scanner_new "/box" 7%N).
Proof. apply ScannerSpec.Witness.scannable_check; [apply fs_wf_check| |]; vm_compute; reflexivity. Qed.

Lemma q_sends : sends p_ins w_config p_cut p_ticks "/box" p_profile q_path [] "b.txt" (bytes "new") q_agent (Some 6000000000).
Proof.
  constructor.
  - exists [], "b.txt". split; [done|]. split; [constructor|]. split; vm_compute; reflexivity.
  - intros i. split; vm_compute; reflexivity.
  - intros i. reflexivity.
  - apply w_one_chunk; [discriminate|vm_compute; discriminate].
  - vm_compute. discriminate.
  - split; [repeat constructor|]. apply (bool_decide_eq_true_1 (_ ≤ _)%nat). vm_compute. reflexivity.
  - intros i. vm_compute. reflexivity.
Qed.

Lemma q_receives db st : folder_status db = (Ok st, db) →
  chunk_len (bytes "new") ≤ remaining_bytes w_document.(fd_folder).(fc_size_limit) st.(fs_indexed_bytes) →
  receives p_ins w_config q_path [] (bytes "new") p_laptop db w_document (bytes "{u}").
Proof.
  intros Hst Hfits. constructor.
  - intros i. apply (w_upload_ready 22%N); [vm_compute; reflexivity|discriminate|vm_compute; reflexivity..].
  - intros i. exact w_spool_ready.
  - eexists _, _. vm_compute. reflexivity.
  - intros i. vm_compute. discriminate.
  - exact w_document_read.
  - by exists st.
  - reflexivity.
  - vm_compute. discriminate.
Qed.

Lemma q_syncable : syncable "/box" "/profile.json" p_profile 0 q_agent.
Proof.
  constructor.
  - unfold profile_read, fs_read, get_st. rewrite M_bind_eq.
    replace (ag_fs q_agent !! components "/profile.json") with (Some (EFile (bytes "{}") None))
      by (symmetry; vm_compute; reflexivity).
    reflexivity.
  - exact q_scannable.
  - by exists (bytes "[]").
  - intros i q. vm_compute. reflexivity.
  - constructor; [apply map_Forall_empty..| |apply NoDup_singleton].
    constructor; [|constructor]. constructor; cbn; [by vm_compute| | | |lia|done|done|done|done].
    + by exists KUploadToRemote, SPending.
    + intros z [= <-]. done.
    + intros z E. discriminate E.
  - vm_compute. discriminate.
  - constructor; [by exists 40%N|constructor].
Qed.

Lemma q_queued : queued_push q_path (bytes "new") (device_id_to_string p_manifest.(fm_device_id)) 10 (ag_ops q_agent) q_row.
Proof. constructor; [split; vm_compute; discriminate|vm_compute; reflexivity..]. Qed.

Lemma queued_upload_completes_witness :
  ∃ a', run_sync_queue "/box" w_endpoint w_secret_hex 10 "/profile.json" q_agent
    = (Ok {| eq_completed := 1; eq_failed := 0; eq_results := [done_result (op_record q_row) 3] |}, a')
  ∧ a'.(ag_fs) = q_disk ∧ holds "/data/b.txt" (bytes "new") (a'.(ag_peer) : Remote).(rm_fs).
Proof.
  destruct (export_run w_io "/data" w_profile 0 (server_on p_laptop) w_document w_servable) as (s & db & Hrun & Hout).
  assert (∃ db, server_export_manifest w_io "/data" w_profile (server_on p_laptop)
    = (Ok p_manifest, with_db db (server_on p_laptop)) ∧ folder_status db = (Ok (status_of [p_file] []), db))
    as (db1 & Hexp & Hst).
  { exists db. assert ((server_export_manifest w_io "/data" w_profile (server_on p_laptop)).1 = Ok p_manifest) as E
      by (vm_compute; reflexivity).
    rewrite Hrun in E |- *. cbn [fst] in E. split; [by rewrite E|].
    rewrite (folder_status_wf 0) by (by eapply so_wf). do 3 f_equal; [by injection E|].
    unfold skipped_rows. rewrite (so_unskipped _ _ _ _ _ _ _ _ _ Hout). vm_compute. reflexivity. }
  destruct (queued_upload_completes p_ins w_config p_cut p_ticks p_cut_delivers w_endpoint w_address w_secret_hex
    w_secret "/box" p_profile q_path [] "b.txt" (bytes "new") 10 "/profile.json" 0 w_document (bytes "{u}")
    (Some 6000000000) q_row p_manifest db1 (bytes "{m}") q_agent) as (a' & Hq & Hfs & (Hh & _) & _).
  - exact p_linked.
  - exact q_path_ok.
  - apply (q_receives db1 _ Hst). vm_compute. discriminate.
  - exact q_sends.
  - exact q_syncable.
  - vm_compute. reflexivity.
  - exact Hexp.
  - reflexivity.
  - vm_compute. discriminate.
  - vm_compute. reflexivity.
  - exact q_queued.
  - exists a'. split; [exact Hq|]. split; [exact Hfs|exact Hh].
Defined.
End PushWitness.
