(* ===== verification/AgentRound.v ===== *)
(** * Two machines: a round of synchronisation that brings a file

    [run_sync_once] against the real server when it has one file more: the file is in the
    agent's folder afterwards, and the folders agree. *)

From S2P Require Import Prelude RustStd External Error Manifest Limits Model Records Planning StateDb StateDbFacts StateDbSpec FileSys FolderStore Scanner ScannerSpec Agreement PathCodec RequestSigning PeerCrypto PeerStore HttpText PeerRequest PeerRequestSpec PeerServer PeerServerSpec PeerUploadSpec PeerSharedSpec PeerClient PeerClientSpec PeerExchangeSpec PeerPutSpec PeerJsonSpec AgentError Agent AgentSpec AgentSafety AgentRemote AgentMeeting AgentPull.
From stdpp Require Import options pretty.
Local Open Scope Z_scope.

Section round.
Context `{TL : !TimeLib, SL : !SqlxLib, UL : !UuidLib, UW : !UuidLaws, SJ : !SerdeJson (list BlockHash),
          BL : !Blake3Lib, IL : !IoLib, RD : !ReadDir, RW : !ReadDirLaws, HL : !HexLib, HW : !HexLaws,
          SH : !Sha256Lib, HM : !HmacLib, HH : !HmacLaws, AL : !AeadLib, AW : !AeadLaws, KL : !KdfLib, RL : !ReadLib,
          FJ : !SerdeJson FolderDocument, PJ : !SerdeJson PeerStoreDocument,
          EJ : !SerdeJson PeerPresence, EW : !SerdeLaws PeerPresence,
          MJ : !SerdeJson FolderManifest, MW : !SerdeLaws FolderManifest,
          J1 : !SerdeJson HealthResponse, J2 : !SerdeJson PresenceResponse, J2W : !SerdeLaws PresenceResponse,
          J3 : !SerdeJson ErrorResponse, J4 : !SerdeJson UploadFileResponse, J5 : !SerdeJson DeleteFileResponse,
          LJ : !SerdeJson LocalDeviceProfile, UJ : !SerdeJson unit,
          C1 : !SerdeJson ClientUploadResponse, C2 : !SerdeJson ClientDeleteResponse}.
Context (ins : nat → Inputs) (config : PeerServerConfig) (cut : list ascii → list (list ascii)) (ticks : nat → Tick).
Hypothesis Hcut : delivers cut.
#[local] Instance round_world : World := server_world ins config cut ticks.
Context (endpoint : string) (address : PeerAddress) (secret_hex : string) (secret : list ascii).
Context (root : string) (profile : LocalDeviceProfile).
Abbreviation store := (folder_store_new root).
Abbreviation me := (profile.(lp_device_id)).
Abbreviation client a := (next_client ins config cut ticks a).
Abbreviation inputs a := (next_inputs ins config cut ticks a).
Abbreviation remote a := (remote_of ins config cut ticks a).
Abbreviation exchanged_with a := (exchanged ins config cut ticks a).
Abbreviation linked_to fs := (linked ins config ticks endpoint address me secret_hex secret fs).

Abbreviation local_scanner := (scanner_new root me).
Abbreviation remote_scanner := (scanner_new config.(cfg_folder_path) config.(cfg_profile).(lp_device_id)).
Abbreviation remote_id := (device_id_to_string config.(cfg_profile).(lp_device_id)).
Abbreviation meets := (meeting ins config cut ticks endpoint address secret_hex secret root profile).
Abbreviation surveys := (surveyed ins config cut ticks root profile).
Context (p : RelativePath) (d : list string) (n : string) (content : list ascii).

(** ** The queue *)

(** The operation the new file leads to. *)
Definition planned_download (stamp : OperationId * Z) (reason : string) : OpRow :=
  operation_row remote_id stamp
    (entry (rel_str p) DownloadFromRemote None (Some (chunk_len content)) None (Some (blake3_hex content)) reason)
    KDownloadFromRemote SPending None (Some (chunk_len content)).

Lemma planned_download_ok count stamp reason : path_ok p d n → is_size (chunk_len content) →
  unix_in_range stamp.2 = true → 0 ≤ count → op_row_ok count (planned_download stamp reason).
Proof using Type.
  intros [_ Hparse _ _] Hs Ht Hn. constructor; cbn; try done.
  - unfold stable_path. by destruct p.
  - by exists KDownloadFromRemote, SPending.
  - by intros z [= <-].
Qed.

(** The folder takes downloads and has room for the file, and the new identifiers are new. *)
Record takes (count : Z) (document : FolderDocument) (a : Agent) : Prop := {
  tk_count : 0 ≤ count;
  tk_mode : document.(fd_folder).(fc_mode) ≠ UploadOnly;
  tk_fits : ∀ db st, indexed a.(ag_fs) local_scanner db → folder_status db = (Ok st, db) →
    chunk_len content ≤ remaining_bytes document.(fd_folder).(fc_size_limit) st.(fs_indexed_bytes);
  tk_stamps : ∀ j i, (operation_id_to_string ((ticks j).(ti_stamps) i).1 ∉ (o_id <$> ag_ops a))
    ∧ unix_in_range ((ticks j).(ti_stamps) i).2 = true
    ∧ room ticks root d n a.(ag_fs) (operation_id_to_string ((ticks j).(ti_stamps) i).1);
  tk_clock : ∀ i, unix_in_range (ticks i).(ti_unixepoch) = true ∧ valid_time (ticks i).(ti_now_utc);
  tk_rooted : rooted a.(ag_fs) local_scanner;
}.

(** The part of it the run of the queue needs. *)
Definition takes_at (document : FolderDocument) (a : Agent) (stamp : OperationId * Z) : Prop :=
  (∀ db st, indexed a.(ag_fs) local_scanner db → folder_status db = (Ok st, db) →
    chunk_len content ≤ remaining_bytes document.(fd_folder).(fc_size_limit) st.(fs_indexed_bytes))
  ∧ room ticks root d n a.(ag_fs) (operation_id_to_string stamp.1).

(** The folders differ in the file alone. *)
Definition ahead (a : Agent) : Prop :=
  agree_but (λ names, names = d ++ [n]) a.(ag_fs) local_scanner (remote a).(rm_fs) remote_scanner.

Lemma download_queued device_config count rcount document rdocument m (a : Agent) db dbr manifest :
  meets device_config count rcount document rdocument a → surveys count rcount a db dbr manifest →
  path_ok p d n → seen_file (remote a).(rm_fs) remote_scanner (d ++ [n]) content m → is_size (chunk_len content) →
  takes count document a → ahead a →
  ∃ stamp reason status, let row := planned_download stamp reason in
    let db' := with_operations (λ rows, delete_open remote_id rows ++ [row]) db in
    enqueue_sync_plan (round_stamps ins config cut ticks a db dbr)
      (round_plan ins config cut ticks profile document a db manifest) db = (Ok status, db')
    ∧ db_wf count db' ∧ ∃ j i, stamp = (ticks j).(ti_stamps) i.
Proof using SL Type.
  intros [_ _ _ Hsy _ _ _ _] [Hix Hixr Hlists Hdev Hwf _ Hops] Hpo Hseen Hs [Hn Hmode _ Hst _ _] Hag. pose proof Hpo as [Hp _ _ _].
  pose proof (canonical_text _ _ Hp) as Htext. pose proof Hp as (_ & Hvalid & _ & _).
  assert (node a.(ag_fs) local_scanner (d ++ [n]) = None) as Hfree
    by exact (ro_target _ _ _ _ _ _ (proj2 (proj2 (Hst 0%nat 0%nat)))).
  pose proof (absent_unseen _ _ _ (sb_wf _ _ (sy_scannable _ _ _ _ _ Hsy)) Hvalid Hfree) as Hno.
  destruct (remote_only_download _ _ db _ _ dbr Hix Hixr (round_manifest ins config cut ticks profile document a db) manifest
    eq_refl Hlists document.(fd_folder).(fc_mode) (d ++ [n]) content m Hno Hseen Hmode) as [reason He].
  set (stamps := round_stamps ins config cut ticks a db dbr).
  destruct (queue_one_name _ _ db _ _ dbr Hix Hixr (round_manifest ins config cut ticks profile document a db) manifest
    eq_refl Hlists document.(fd_folder).(fc_mode) count stamps (d ++ [n]) _ (λ stamp, planned_download stamp reason) Hag He)
    as (i & status & Hq & Hwf').
  - right. rewrite (record_of_listed _ _ _ Hlists). destruct (ix_seen _ _ _ Hixr _ _ _ Hseen) as (r & E & _).
    rewrite E. by eexists.
  - intros i. rewrite Hdev, <-Htext. done.
  - intros i. destruct (Hst (queuing ins config cut ticks a db dbr).(ag_ticks) i) as (H1 & H2 & _).
    split_and!; [unfold row_fits; cbn; apply Z.leb_le, Hs|by apply planned_download_ok|by rewrite Hops].
  - done.
  - apply Hsy.
  - rewrite Hdev in Hq, Hwf'. exists (stamps i), reason, status. split_and!; [exact Hq|exact Hwf'|by eexists _, i].
Qed.

Lemma offered_served r fs db count document m : fs = r.(rm_fs) → db_wf count db →
  offered ins config p d n content r count document m → offered ins config p d n content (served r fs db) count document m.
Proof using Type.
  intros -> Hwf [Hse ? ? ? ? ?]. constructor; try done. intros i. by destruct (Hse i).
Qed.

Lemma offered_size r count document m : offered ins config p d n content r count document m → is_size (chunk_len content).
Proof using Type.
  intros [Hse Hseen _ _ _ _]. pose proof (sb_size _ _ (se_scan _ _ _ _ _ _ (Hse 0%nat)) _ _ _ Hseen).
  unfold is_size, chunk_len in *. lia.
Qed.

(** ** The run of the queue *)

Lemma planned_run limit device_config count rcount document rdocument m stamp reason rows (a : Agent) :
  meets device_config count rcount document rdocument a → path_ok p d n →
  offered ins config p d n content (remote a) rcount rdocument m → takes_at document a stamp →
  1 ≤ limit ≤ i64_max → ag_ops a = delete_open remote_id rows ++ [planned_download stamp reason] →
  ∃ results a' a1, run_sync_queue root endpoint secret_hex limit device_config a
    = (Ok {| eq_completed := 1; eq_failed := 0; eq_results := results |}, a')
  ∧ arrived ins config cut ticks root p d n content (planned_download stamp reason) count a a1 a'
  ∧ indexed a.(ag_fs) local_scanner a1.(ag_db).
Proof using Hcut UW HW HH AW RW MW SL Type.
  intros [Hl Hsp Hse Hsy Hopen Hdoc Hk Hkr] Hpo Hoff [Hfits Hroom] Hlim Hops.
  destruct (manifest_lists ins config (remote a) rcount rdocument (remote a).(rm_connections) (Hse _) Hkr)
    as (manifest & dbr & Hexp & _ & _ & _ & Hdev).
  destruct (sk_manifest _ _ _ _ _ _ Hsp _ (remote a) rcount _ _ eq_refl Hkr (se_db _ _ _ _ _ _ (Hse 0%nat)) Hexp)
    as (bs & Hj & Hlen).
  destruct (scan_into_run root device_config profile count a RW Hsy) as (s & db1 & Hscan & Hout).
  pose proof (scan_indexed _ _ _ _ _ _ _ _ _ Hk Hout) as Hix.
  set (a1 := with_ag_db db1 (with_ag_ticks (S (ag_ticks a)) a)) in *.
  destruct (queued_download_run ins config cut ticks Hcut endpoint address secret_hex secret root profile p d n content
    limit device_config count rcount document rdocument m (planned_download stamp reason) manifest dbr bs a a1)
    as (a' & Hrun & Har); try done.
  - constructor; [done|done|exact Hroom|done|by exists s|].
    eexists. split; [by apply (folder_status_wf count); eapply so_wf|].
    apply (Hfits db1); [done|by apply (folder_status_wf count); eapply so_wf].
  - assert (queued_pull p content (device_id_to_string manifest.(fm_device_id)) limit (ag_ops a)
      (planned_download stamp reason)) as Hq; [|exact Hq].
    rewrite Hops, Hdev. constructor; [done|by rewrite pending_one|by rewrite pending_one|done..].
  - eexists _, a', a1. split; [exact Hrun|by split].
Qed.

(** ** The folders afterwards *)

Lemma arrived_added row count (a a1 a' : Agent) : path_ok p d n → a.(ag_fs) !! key root (d ++ [n]) = None →
  arrived ins config cut ticks root p d n content row count a a1 a' →
  file_added local_scanner d n content a.(ag_fs) a'.(ag_fs).
Proof using Type.
  intros [(_ & _ & Hh & _) _ _ _] Hfree [Hfile _ Hgrown Hway _ _ _ _].
  constructor; [by apply bool_decide_eq_false|exact Hfree|exact Hfile|exact Hgrown|exact Hway].
Qed.

(** ** The round *)

(** C4. A round of synchronisation brings a new file: when the two folders differ in one file
    that only the server has, and the two devices trust each other, then [sync-once] sends
    its presence, plans the one download, queues it and carries it out, whatever pieces the
    network cuts the messages into.  Afterwards the two folders hold the same files with
    the same content, everything the agent's folder held is as it was, its database lists
    every one of its files as available with its size and hash, and no other path, and the server's disk is unchanged. *)
Theorem round_brings_new_file limit device_config count rcount document rdocument m (a : Agent) :
  meets device_config count rcount document rdocument a → path_ok p d n →
  offered ins config p d n content (remote a) rcount rdocument m → takes count document a → ahead a →
  1 ≤ limit ≤ i64_max →
  ∃ out a', run_sync_once root endpoint secret_hex limit device_config a = (Ok out, a')
  ∧ out.(so_transfer).(eq_completed) = 1 ∧ out.(so_transfer).(eq_failed) = 0
  ∧ agree_but (λ _, False) a'.(ag_fs) local_scanner (remote a').(rm_fs) remote_scanner
  ∧ indexed a'.(ag_fs) local_scanner a'.(ag_db)
  ∧ extended a.(ag_fs) a'.(ag_fs) ∧ (remote a').(rm_fs) = (remote a).(rm_fs).
Proof using Hcut UW HW HH AW RW EW J2W MW SL Type.
  intros Hm Hpo Hoff Htk Hag Hlim. pose proof (of_seen _ _ _ _ _ _ _ _ _ _ Hoff) as Hseen.
  destruct (round_reaches_queue ins config cut ticks Hcut endpoint address secret_hex secret root profile limit device_config
    count rcount document rdocument a Hm) as (db & dbr & manifest & Hsv & Hround).
  destruct (download_queued device_config count rcount document rdocument m a db dbr manifest Hm Hsv Hpo Hseen)
    as (stamp & reason & status & Hq & Hwf' & j & i & Hstamp); [by eapply offered_size|done|done|].
  set (row := planned_download stamp reason) in *. set (db' := with_operations _ db) in *. cbv zeta in Hq, Hwf'.
  destruct (meeting_queued ins config cut ticks endpoint address secret_hex secret root profile device_config count rcount
    document rdocument a db dbr db' manifest [row] Hm Hsv eq_refl Hwf') as [Hm' Hops].
  { constructor; [by eexists|constructor]. }
  set (a2 := queued ins config cut ticks a db dbr db') in *.
  destruct (planned_run limit device_config count rcount document rdocument m stamp reason (ag_ops a) a2)
    as (results & a' & a3 & Hrun & Har & Hix3); [exact Hm'|done| | |done|exact Hops|].
  { apply offered_served; [done|by destruct Hsv|]. apply offered_served; [done|apply (of_servable _ _ _ _ _ _ _ _ _ _ Hoff 0%nat)|exact Hoff]. }
  { split; [exact (tk_fits _ _ _ Htk)|]. rewrite Hstamp. apply (tk_stamps _ _ _ Htk). }
  assert (a.(ag_fs) !! key root (d ++ [n]) = None) as Hfree by exact (ro_target _ _ _ _ _ _ (proj2 (proj2 (tk_stamps _ _ _ Htk 0%nat 0%nat)))).
  pose proof (arrived_added row count a2 a3 a' Hpo Hfree Har) as Hadded.
  destruct (ar_row _ _ _ _ _ _ _ _ _ _ _ _ _ _ Har) as (frow & Hfiles & Hsize & Hhash & Hstate).
  rewrite (canonical_text _ _ (po_canonical _ _ _ Hpo)) in Hfiles.
  destruct (po_canonical _ _ _ Hpo) as (_ & Hvalid & _).
  pose proof Hm as [_ _ Hservable Hsyncable _ _ _ _].
  pose proof (added_indexed _ _ _ _ _ _ _ _ _ Hadded (tk_rooted _ _ _ Htk) Hix3 Hfiles Hvalid
    (sb_wf _ _ (sy_scannable _ _ _ _ _ Hsyncable)) Hstate Hsize Hhash) as Hindexed.
  pose proof (added_agree _ _ _ _ _ _ Hadded _ _ (tk_rooted _ _ _ Htk) Hag (ex_intro _ m Hseen)) as Hagree.
  assert (db_wf count a'.(ag_db)) as Hwfa by (eapply ar_wf; [exact Har|apply (tk_clock _ _ _ Htk)]).
  destruct (Hround status db' _ a' Hq Hrun Hwfa) as (out & Hout & Htr).
  assert ((remote a').(rm_fs) = (remote a).(rm_fs)) as Hserver by exact (ar_server _ _ _ _ _ _ _ _ _ _ _ _ _ _ Har).
  exists out, a'. rewrite Htr, Hserver.
  split_and!; [done|done|done|exact Hagree|exact Hindexed|exact (ar_others _ _ _ _ _ _ _ _ _ _ _ _ _ _ Har)|done].
Qed.
End round.
