(* ===== verification/AgentRoundPush.v ===== *)
(** * Two machines: a round of synchronisation that sends a file

    [run_sync_once] against the real server when the agent has one file more: the file is in
    the server's folder afterwards, and the folders agree. *)

From S2P Require Import Prelude RustStd External Error Manifest Limits Model Records Planning StateDb StateDbFacts StateDbSpec FileSys FolderStore Scanner ScannerSpec Agreement PathCodec RequestSigning PeerCrypto PeerStore HttpText PeerRequest PeerRequestSpec PeerServer PeerServerSpec PeerUploadSpec PeerSharedSpec PeerClient PeerClientSpec PeerExchangeSpec PeerPutSpec PeerJsonSpec AgentError Agent AgentSpec AgentSafety AgentRemote AgentMeeting AgentPull AgentPush.
From stdpp Require Import options pretty.
Local Open Scope Z_scope.

Section round.
Context `{TL : !TimeLib, SL : !SqlxLib, UL : !UuidLib, UW : !UuidLaws, SJ : !SerdeJson (list BlockHash),
          BL : !Blake3Lib, IL : !IoLib, RD : !ReadDir, RW : !ReadDirLaws, HL : !HexLib, HW : !HexLaws,
          SH : !Sha256Lib, HM : !HmacLib, HH : !HmacLaws, AL : !AeadLib, AW : !AeadLaws, KL : !KdfLib, RL : !ReadLib,
          LW : !ReadLaws,
          FJ : !SerdeJson FolderDocument, PJ : !SerdeJson PeerStoreDocument,
          EJ : !SerdeJson PeerPresence, EW : !SerdeLaws PeerPresence,
          MJ : !SerdeJson FolderManifest, MW : !SerdeLaws FolderManifest,
          J1 : !SerdeJson HealthResponse, J2 : !SerdeJson PresenceResponse,
          J2W : !SerdeLaws PresenceResponse, J3 : !SerdeJson ErrorResponse,
          J4 : !SerdeJson UploadFileResponse, J5 : !SerdeJson DeleteFileResponse,
          LJ : !SerdeJson LocalDeviceProfile, UJ : !SerdeJson unit,
          C1 : !SerdeJson ClientUploadResponse, CW : !UploadWire, C2 : !SerdeJson ClientDeleteResponse}.
Context (ins : nat → Inputs) (config : PeerServerConfig) (cut : list ascii → list (list ascii)) (ticks : nat → Tick).
Hypothesis Hcut : delivers cut.
#[local] Instance upload_round_world : World := server_world ins config cut ticks.
Context (endpoint : string) (address : PeerAddress) (secret_hex : string) (secret : list ascii).
Context (root : string) (profile : LocalDeviceProfile).
Abbreviation store := (folder_store_new root).
Abbreviation me := (profile.(lp_device_id)).
Abbreviation inputs a := (next_inputs ins config cut ticks a).
Abbreviation remote a := (remote_of ins config cut ticks a).
Abbreviation local_scanner := (scanner_new root me).
Abbreviation remote_scanner := (scanner_new config.(cfg_folder_path) config.(cfg_profile).(lp_device_id)).
Abbreviation remote_id := (device_id_to_string config.(cfg_profile).(lp_device_id)).
Abbreviation meets := (meeting ins config cut ticks endpoint address secret_hex secret root profile).
Abbreviation surveys := (surveyed ins config cut ticks root profile).
Context (p : RelativePath) (d : list string) (n : string) (content : list ascii).

(** ** The queue *)

(** The operation the new file leads to. *)
Definition planned_upload (stamp : OperationId * Z) (reason : string) : OpRow :=
  operation_row remote_id stamp
    (entry (rel_str p) UploadToRemote (Some (chunk_len content)) None (Some (blake3_hex content)) None reason)
    KUploadToRemote SPending (Some (chunk_len content)) None.

Lemma planned_upload_ok count stamp reason : path_ok p d n → is_size (chunk_len content) →
  unix_in_range stamp.2 = true → 0 ≤ count → op_row_ok count (planned_upload stamp reason).
Proof using Type.
  intros [_ Hparse _ _] Hs Ht Hn. constructor; cbn; try done.
  - unfold stable_path. by destruct p.
  - by exists KUploadToRemote, SPending.
  - by intros z [= <-].
Qed.

(** The agent gives its file, the server takes it and has room for it, and the new
    identifiers are new. *)
Record gives (count rcount : Z) (document rdocument : FolderDocument) (answer : list ascii) (m : option Z) (a : Agent) : Prop := {
  gv_count : 0 ≤ count;
  gv_mode : document.(fd_folder).(fc_mode) ≠ DownloadOnly;
  gv_sends : sends ins config cut ticks root profile p d n content a m;
  gv_receives : ∀ db, indexed (remote a).(rm_fs) remote_scanner db → db_wf rcount db →
    receives ins config p d content (remote a) db rdocument answer;
  gv_stamps : ∀ j i, (operation_id_to_string ((ticks j).(ti_stamps) i).1 ∉ (o_id <$> ag_ops a))
    ∧ unix_in_range ((ticks j).(ti_stamps) i).2 = true;
  gv_rooted : rooted (remote a).(rm_fs) remote_scanner;
}.

(** The folders differ in the file alone. *)
Definition behind (a : Agent) : Prop :=
  agree_but (λ names, names = d ++ [n]) a.(ag_fs) local_scanner (remote a).(rm_fs) remote_scanner.

Lemma given_free count rcount document rdocument answer m (a : Agent) db : path_ok p d n →
  gives count rcount document rdocument answer m a → indexed (remote a).(rm_fs) remote_scanner db → db_wf rcount db →
  node (remote a).(rm_fs) remote_scanner (d ++ [n]) = None.
Proof using Type.
  intros [Hp _ _ _] Hg Hix Hwf. pose proof (ur_target _ _ _ _ _ (rv_ready _ _ _ _ _ _ _ _ _ (gv_receives _ _ _ _ _ _ _ Hg db Hix Hwf) 0%nat)) as Hfree.
  rewrite (target_key_eq _ _ _ _ Hp) in Hfree. exact Hfree.
Qed.

Lemma upload_queued device_config count rcount document rdocument answer m (a : Agent) db dbr manifest :
  meets device_config count rcount document rdocument a → surveys count rcount a db dbr manifest →
  path_ok p d n → gives count rcount document rdocument answer m a → behind a →
  ∃ stamp reason status, let row := planned_upload stamp reason in
    let db' := with_operations (λ rows, delete_open remote_id rows ++ [row]) db in
    enqueue_sync_plan (round_stamps ins config cut ticks a db dbr)
      (round_plan ins config cut ticks profile document a db manifest) db = (Ok status, db')
    ∧ db_wf count db'.
Proof using SL Type.
  intros [_ _ Hse Hsy _ _ _ _] [Hix Hixr Hlists Hdev Hwf Hwfr Hops] Hpo Hg Hag.
  pose proof (given_free _ _ _ _ _ _ _ _ Hpo Hg Hixr Hwfr) as Hfree.
  destruct Hg as [Hn Hmode Hsend _ Hst _]. pose proof Hpo as [Hp _ _ _].
  pose proof (canonical_text _ _ Hp) as Htext. pose proof Hp as (_ & Hvalid & _ & _).
  pose proof (sd_seen _ _ _ _ _ _ _ _ _ _ _ _ Hsend) as Hseen.
  assert (is_size (chunk_len content)) as Hs.
  { pose proof (sb_size _ _ (sy_scannable _ _ _ _ _ Hsy) _ _ _ Hseen). unfold is_size, chunk_len in *. lia. }
  pose proof (absent_unseen _ _ _ (sb_wf _ _ (se_scan _ _ _ _ _ _ (Hse 0%nat))) Hvalid Hfree) as Hno.
  destruct (local_only_upload _ _ db _ _ dbr Hix Hixr (round_manifest ins config cut ticks profile document a db) manifest
    eq_refl Hlists document.(fd_folder).(fc_mode) (d ++ [n]) content m Hno Hseen Hmode) as [reason He].
  set (stamps := round_stamps ins config cut ticks a db dbr).
  destruct (queue_one_name _ _ db _ _ dbr Hix Hixr (round_manifest ins config cut ticks profile document a db) manifest
    eq_refl Hlists document.(fd_folder).(fc_mode) count stamps (d ++ [n]) _ (λ stamp, planned_upload stamp reason) Hag He)
    as (i & status & Hq & Hwf').
  - left. rewrite (record_of_listed (round_manifest ins config cut ticks profile document a db) db _ eq_refl). destruct (ix_seen _ _ _ Hix _ _ _ Hseen) as (r & E & _).
    rewrite E. by eexists.
  - intros i. rewrite Hdev, <-Htext. done.
  - intros i. destruct (Hst (queuing ins config cut ticks a db dbr).(ag_ticks) i) as (H1 & H2).
    split_and!; [unfold row_fits; cbn; rewrite andb_true_r; apply Z.leb_le, Hs|by apply planned_upload_ok|by rewrite Hops].
  - done.
  - apply Hsy.
  - rewrite Hdev in Hq, Hwf'. exists (stamps i), reason, status. by split.
Qed.

(** ** The run of the queue *)

(** Nothing is there to be replaced. *)
Lemma no_remote_target count manifest db : lists manifest db → db_wf count db → path_ok p d n →
  db.(db_files) !! rel_str p = None → find_remote_target manifest p = None.
Proof using Type.
  intros Hl Hwf [Hp _ _ _] Hnone. pose proof (find_row count db _ p Hwf Hp) as Hfind. rewrite Hnone in Hfind.
  destruct (filter _ (file_record <$> file_rows db)) as [|x l'] eqn:E0; [clear Hfind|by discriminate Hfind]. unfold find_remote_target.
  rewrite Hl. match goal with |- head ?files = _ => destruct files as [|file l] eqn:E; [done|exfalso] end.
  assert (file ∈ file :: l) as Hin by left. rewrite <-E in Hin. apply list_elem_of_filter in Hin as [Hf Hin].
  apply andb_prop in Hf as [Hf _].
  assert (file ∈ ([] : list FileRecord)) as Hno by (rewrite <-E0; by apply list_elem_of_filter). by apply elem_of_nil in Hno.
Qed.

Lemma planned_upload_run limit device_config count rcount document rdocument answer m stamp reason rows (a : Agent) :
  meets device_config count rcount document rdocument a → path_ok p d n →
  sends ins config cut ticks root profile p d n content a m →
  (∀ db, indexed (remote a).(rm_fs) remote_scanner db → db_wf rcount db →
    receives ins config p d content (remote a) db rdocument answer
    ∧ node (remote a).(rm_fs) remote_scanner (d ++ [n]) = None) →
  1 ≤ limit ≤ i64_max → ag_ops a = delete_open remote_id rows ++ [planned_upload stamp reason] →
  ∃ results a' a1 dbr, run_sync_queue root endpoint secret_hex limit device_config a
    = (Ok {| eq_completed := 1; eq_failed := 0; eq_results := results |}, a')
  ∧ delivered ins config cut ticks p d content (planned_upload stamp reason) count dbr a a1 a'
  ∧ indexed a.(ag_fs) local_scanner a1.(ag_db) ∧ indexed (remote a).(rm_fs) remote_scanner dbr ∧ db_wf rcount dbr.
Proof using Hcut UW HW HH AW RW MW LW CW SL Type.
  intros [Hl Hsp Hse Hsy Hopen Hdoc Hk Hkr] Hpo Hsend Hrec Hlim Hops.
  destruct (manifest_lists ins config (remote a) rcount rdocument (remote a).(rm_connections) (Hse _) Hkr)
    as (manifest & dbr & Hexp & Hixr & Hwfr & Hlists & Hdev).
  destruct (sk_manifest _ _ _ _ _ _ Hsp _ (remote a) rcount _ _ eq_refl Hkr (se_db _ _ _ _ _ _ (Hse 0%nat)) Hexp)
    as (bs & Hj & Hlen).
  destruct (scan_into_run root device_config profile count a RW Hsy) as (s & db1 & Hscan & Hout).
  pose proof (scan_indexed _ _ _ _ _ _ _ _ _ Hk Hout) as Hix.
  set (a1 := with_ag_db db1 (with_ag_ticks (S (ag_ticks a)) a)) in *.
  destruct (Hrec dbr Hixr Hwfr) as [Hrv Hnone].
  destruct (queued_upload_run ins config cut ticks Hcut endpoint address secret_hex secret root profile p d n content
    limit device_config count rdocument answer m (planned_upload stamp reason) manifest dbr bs s a a1)
    as (a' & Hrun & Hde); try done.
  - apply (no_remote_target rcount manifest dbr); [done..|]. pose proof Hpo as [Hp _ _ _].
    rewrite (canonical_text _ _ Hp). apply (ix_stale _ _ _ Hixr).
    apply (absent_unseen _ _ _ (sb_wf _ _ (se_scan _ _ _ _ _ _ (Hse 0%nat)))); [apply Hp|exact Hnone].
  - assert (queued_push p content (device_id_to_string manifest.(fm_device_id)) limit (ag_ops a)
      (planned_upload stamp reason)) as Hq; [|exact Hq].
    rewrite Hops, Hdev. constructor; [done|by rewrite pending_one|by rewrite pending_one|done..].
  - eexists _, a', a1, dbr. split_and!; [exact Hrun|done..].
Qed.

(** ** The round *)

(** The server's folder has the file more. *)
Lemma stored_added fs db fs' db' : path_ok p d n → node fs remote_scanner (d ++ [n]) = None →
  stored ins config p d content fs db fs' db' → file_added remote_scanner d n content fs fs'.
Proof using UW Type.
  intros [Hp _ _ _] Hfree ([m Hm] & _ & i & Hg & Hway). pose proof Hp as (_ & _ & Hh & _).
  rewrite (rel_key _ _ _ Hp) in Hm, Hg.
  constructor; [by apply bool_decide_eq_false|done|by exists m| |exact Hway].
  intros others Ho Hne. apply Hg. rewrite body_key, plain_key.
  intros [E|[E|E]]; apply (inj (key _)) in E; subst others; [by apply Ho|by apply Ho|by apply Hne].
Qed.

(** C5. A round of synchronisation sends a new file: when the two folders differ in one file
    that only the agent has, and the two devices trust each other, then [sync-once] sends
    its presence, plans the one upload, queues it and carries it out, whatever pieces the
    network cuts the messages into.  Afterwards the two folders hold the same files with
    the same content, each database lists exactly the files
    of its folder, with their sizes and hashes, the agent's files are
    as they were, and the server's folder has gained the file and directories on the way to
    it alone. *)
Theorem round_sends_new_file limit device_config count rcount document rdocument answer m (a : Agent) :
  meets device_config count rcount document rdocument a → path_ok p d n →
  gives count rcount document rdocument answer m a → behind a → 1 ≤ limit ≤ i64_max →
  ∃ out a', run_sync_once root endpoint secret_hex limit device_config a = (Ok out, a')
  ∧ out.(so_transfer).(eq_completed) = 1 ∧ out.(so_transfer).(eq_failed) = 0
  ∧ agree_but (λ _, False) a'.(ag_fs) local_scanner (remote a').(rm_fs) remote_scanner
  ∧ indexed a'.(ag_fs) local_scanner a'.(ag_db) ∧ indexed (remote a').(rm_fs) remote_scanner (remote a').(rm_db)
  ∧ a'.(ag_fs) = a.(ag_fs) ∧ file_added remote_scanner d n content (remote a).(rm_fs) (remote a').(rm_fs).
Proof using Hcut UW HW HH AW RW EW J2W MW LW CW SL Type.
  intros Hm Hpo Hg Hag Hlim. pose proof (gv_sends _ _ _ _ _ _ _ Hg) as Hsend.
  destruct (round_reaches_queue ins config cut ticks Hcut endpoint address secret_hex secret root profile limit device_config
    count rcount document rdocument a Hm) as (db & dbr & manifest & Hsv & Hround).
  pose proof (given_free _ _ _ _ _ _ _ _ Hpo Hg (sv_remote _ _ _ _ _ _ _ _ _ _ _ _ Hsv) (sv_remote_wf _ _ _ _ _ _ _ _ _ _ _ _ Hsv)) as Hfree.
  destruct (upload_queued device_config count rcount document rdocument answer m a db dbr manifest Hm Hsv Hpo Hg Hag)
    as (stamp & reason & status & Hq & Hwf').
  set (row := planned_upload stamp reason) in *. set (db' := with_operations _ db) in *. cbv zeta in Hq, Hwf'.
  destruct (meeting_queued ins config cut ticks endpoint address secret_hex secret root profile device_config count rcount
    document rdocument a db dbr db' manifest [row] Hm Hsv eq_refl Hwf') as [Hm' Hops].
  { constructor; [by eexists|constructor]. }
  set (a2 := queued ins config cut ticks a db dbr db') in *.
  destruct (planned_upload_run limit device_config count rcount document rdocument answer m stamp reason (ag_ops a) a2)
    as (results & a' & a3 & dbr3 & Hrun & Hde & Hix3 & Hixr3 & Hwfr3); [exact Hm'|done| | |done|exact Hops|].
  { by destruct Hsend. }
  { intros db3 Hix3 Hwf3. split; [by destruct (gv_receives _ _ _ _ _ _ _ Hg db3 Hix3 Hwf3)|]. exact Hfree. }
  pose proof (stored_added _ _ _ _ Hpo Hfree (de_stored _ _ _ _ _ _ _ _ _ _ _ _ _ Hde)) as Hadded.
  destruct (de_stored _ _ _ _ _ _ _ _ _ _ _ _ _ Hde) as (_ & (frow & Hfiles & Hsize & Hhash & Hstate) & _).
  rewrite (canonical_text _ _ (po_canonical _ _ _ Hpo)) in Hfiles.
  destruct (po_canonical _ _ _ Hpo) as (_ & Hvalid & _).
  pose proof Hm as [_ _ Hservable Hsyncable _ _ _ _].
  pose proof (added_indexed _ _ _ _ _ _ _ _ _ Hadded (gv_rooted _ _ _ _ _ _ _ Hg) Hixr3 (f_equal db_files Hfiles) Hvalid
    (sb_wf _ _ (se_scan _ _ _ _ _ _ (Hservable 0%nat))) Hstate Hsize Hhash) as Hindexed.
  pose proof (added_agree _ _ _ _ _ _ Hadded _ _ (gv_rooted _ _ _ _ _ _ _ Hg) (agree_but_sym _ _ _ _ _ Hag)
    (ex_intro _ m (sd_seen _ _ _ _ _ _ _ _ _ _ _ _ Hsend))) as Hagree.
  destruct (Hround status db' _ a' Hq Hrun (de_wf _ _ _ _ _ _ _ _ _ _ _ _ _ Hde)) as (out & Hout & Htr).
  assert (a'.(ag_fs) = a.(ag_fs)) as Hfs by exact (de_files _ _ _ _ _ _ _ _ _ _ _ _ _ Hde).
  exists out, a'. rewrite Htr, Hfs.
  split_and!; [done|done|done|by apply agree_but_sym| |exact Hindexed|done|exact Hadded].
  exact (indexed_rows _ _ _ _ (de_rows _ _ _ _ _ _ _ _ _ _ _ _ _ Hde) Hix3).
Qed.
End round.
