(* ===== verification/AgentRoundWitness.v ===== *)
(** * Witness of a round of synchronisation: two small machines

    The phone of AgentPullWitness.v with nothing queued, and the laptop with its file; the
    phone with that file; and with one more. *)

From S2P Require Import Prelude RustStd External Error Manifest Limits Model Records Planning StateDb StateDbFacts StateDbSpec FileSys FolderStore Scanner ScannerSpec Agreement PathCodec RequestSigning PeerCrypto PeerStore HttpText PeerRequest PeerRequestSpec PeerServer PeerServerSpec PeerUploadSpec PeerSharedSpec PeerClient PeerClientSpec PeerExchangeSpec PeerPutSpec PeerJsonSpec PeerWitness AgentError Agent AgentSpec AgentSafety AgentRemote AgentMeeting AgentPull AgentPullWitness AgentPush AgentPushWitness AgentRound AgentRoundPush.
From stdpp Require Import options pretty.
Local Open Scope Z_scope.

Module RoundWitness.
Import Sample SampleFs FolderStore.Witness PeerCrypto.Witness PeerWitness PullWitness PushWitness.
#[local] Existing Instances w_reads w_reads_laws PeerWitness.unit_json PushWitness.q_client_upload_json
  PushWitness.q_upload_json PushWitness.q_wire PeerWitness.health_json PeerWitness.error_json PeerWitness.delete_json
  PeerWitness.peers_json PullWitness.client_delete_json PullWitness.profile_json PullWitness.p_manifest_json
  PullWitness.p_manifest_laws.

(** The presence of the phone, what the laptop answers, and serialisers that know them. *)
Definition r_presence : PeerPresence := {| pp_device_id := 7%N; pp_sent_at := 0; pp_agent_version := CARGO_PKG_VERSION |}.
Definition r_answer : PresenceResponse :=
  {| pr_accepted := true; pr_received_from := device_id_to_string 7%N;
     pr_local_presence := {| pp_device_id := 1%N; pp_sent_at := 0; pp_agent_version := CARGO_PKG_VERSION |} |}.
#[local] Instance PeerPresence_eq_dec : EqDecision PeerPresence.
Proof. solve_decision. Defined.
#[local] Instance PresenceResponse_eq_dec : EqDecision PresenceResponse.
Proof. solve_decision. Defined.
#[local] Instance r_presence_json : SerdeJson PeerPresence :=
  {| to_json := λ m, if decide (m = r_presence) then Ok (bytes "{p}") else Err "other"; from_json := λ _, Ok r_presence |}.
#[local] Instance r_presence_laws : SerdeLaws PeerPresence.
Proof. constructor. intros m bs. simpl. destruct (decide (m = r_presence)) as [->|]; done. Qed.
#[local] Instance r_answer_json : SerdeJson PresenceResponse :=
  {| to_json := λ m, if decide (m = r_answer) then Ok (bytes "{a}") else Err "other"; from_json := λ _, Ok r_answer |}.
#[local] Instance r_answer_laws : SerdeLaws PresenceResponse.
Proof. constructor. intros m bs. simpl. destruct (decide (m = r_answer)) as [->|]; done. Qed.

#[local] Instance r_world : World := server_world p_ins w_config p_cut p_ticks.
Definition r_agent : Agent :=
  {| ag_fs := p_disk; ag_db := db_empty; ag_peer := p_laptop : @Peer r_world;
     ag_out := []; ag_slept := []; ag_ticks := 0%nat |}.
Abbreviation box := (scanner_new "/box" 7%N).
Abbreviation data := (scanner_new "/data" 1%N).

(** *** What the two disks hold *)

(** An entry of a disk given as a list is one of the list. *)
Lemma listed_entry (l : list (Key * Entry)) (Q : Key → Entry → Prop) :
  Forall (λ ke, Q ke.1 ke.2) l → ∀ k e, (list_to_map l : FS) !! k = Some e → Q k e.
Proof. intros HQ k e He%elem_of_list_to_map_2. rewrite Forall_forall in HQ. by apply (HQ (k, e)). Qed.

Local Ltac each_entry := repeat (apply Forall_cons_2; [cbn [fst snd]|]); [..|apply Forall_nil_2].

Lemma box_length names : length (key "/box" names) = (2 + length names)%nat.
Proof. unfold key. by rewrite length_app, length_fmap. Qed.
Lemma data_length names : length (key "/data" names) = (2 + length names)%nat.
Proof. unfold key. by rewrite length_app, length_fmap. Qed.

Lemma p_disk_files names c m : ¬ seen_file p_disk box names c m.
Proof.
  intros (d & n & -> & _ & Hh & Hn). unfold node in Hn. revert Hn. cbn [ls_root scanner_new].
  assert (∀ k e, p_disk !! k = Some e → e = EFile c m →
    length k = 2%nat ∨ k = key "/box" [".syncer"; "folder.json"]) as Hd.
  { apply (listed_entry _ (λ k e, e = EFile c m → length k = 2%nat ∨ k = key "/box" [".syncer"; "folder.json"])).
    each_entry; try discriminate; intros _; [left|right]; vm_compute; reflexivity. }
  intros Hn. destruct (Hd _ _ Hn eq_refl) as [E|E].
  - rewrite box_length, length_app in E. cbn in E. lia.
  - apply (inj (key "/box")) in E. rewrite E in Hh. discriminate Hh.
Qed.

Lemma w_disk_files names c : (∃ m, seen_file w_disk data names c m) → names = ["a.txt"].
Proof.
  intros (m & d & n & -> & _ & Hh & Hn). unfold node in Hn. revert Hn. cbn [ls_root scanner_new].
  assert (∀ k e, w_disk !! k = Some e → e = EFile c m →
    length k = 2%nat ∨ k = key "/data" ["a.txt"] ∨ k = key "/data" [".syncer"; "folder.json"]) as Hd.
  { apply (listed_entry _ (λ k e, e = EFile c m →
      length k = 2%nat ∨ k = key "/data" ["a.txt"] ∨ k = key "/data" [".syncer"; "folder.json"])).
    each_entry; try discriminate; intros _; [left|right; left|right; right]; vm_compute; reflexivity. }
  intros Hn. destruct (Hd _ _ Hn eq_refl) as [E|[E|E]].
  - rewrite data_length, length_app in E. cbn in E. lia.
  - by apply (inj (key "/data")) in E.
  - apply (inj (key "/data")) in E. rewrite E in Hh. discriminate Hh.
Qed.

Lemma p_disk_rooted : rooted p_disk box.
Proof.
  intros names n [e He]. unfold node in *. cbn [ls_root scanner_new] in *.
  assert (∀ k e, p_disk !! k = Some e → Nat.leb (length k) 2 = true ∨ p_disk !! removelast k = Some EDir) as Hd.
  { apply (listed_entry _ (λ k _, Nat.leb (length k) 2 = true ∨ p_disk !! removelast k = Some EDir)).
    each_entry; first [left; vm_compute; reflexivity|right; vm_compute; reflexivity]. }
  rewrite key_snoc in He. destruct (Hd _ _ He) as [E|E].
  - apply Nat.leb_le in E. rewrite length_app, box_length in E. cbn in E. lia.
  - by rewrite removelast_last in E.
Qed.

Lemma w_disk_rooted : rooted w_disk data.
Proof.
  intros names n [e He]. unfold node in *. cbn [ls_root scanner_new] in *.
  assert (∀ k e, w_disk !! k = Some e → Nat.leb (length k) 2 = true ∨ w_disk !! removelast k = Some EDir) as Hd.
  { apply (listed_entry _ (λ k _, Nat.leb (length k) 2 = true ∨ w_disk !! removelast k = Some EDir)).
    each_entry; first [left; vm_compute; reflexivity|right; vm_compute; reflexivity]. }
  rewrite key_snoc in He. destruct (Hd _ _ He) as [E|E].
  - apply Nat.leb_le in E. rewrite length_app, data_length in E. cbn in E. lia.
  - by rewrite removelast_last in E.
Qed.

Lemma p_disk_deep k : (4 < length k)%nat → p_disk !! k = None.
Proof.
  intros Hk. destruct (p_disk !! k) as [e|] eqn:E; [|done]. exfalso. revert Hk. apply Nat.nlt_ge.
  revert k e E. apply (listed_entry _ (λ k _, (length k ≤ 4)%nat)).
  each_entry; apply Nat.leb_le; vm_compute; reflexivity.
Qed.

Lemma r_room id : uuid_named id → room p_ticks "/box" [] "a.txt" p_disk id.
Proof.
  intros Hid. constructor; [vm_compute; reflexivity|apply on_way_check; vm_compute; reflexivity..| |].
  - apply p_disk_deep. rewrite part_key, length_app, box_length by done. cbn. lia.
  - intros i. apply p_disk_deep. rewrite part_enc_key, length_app, box_length by done. cbn. lia.
Qed.

(** *** The conditions of the theorem *)

Lemma r_indexed_empty db : indexed p_disk box db → db.(db_files) = ∅.
Proof.
  intros Hix. apply map_eq. intros q. rewrite lookup_empty. apply (ix_stale _ _ _ Hix).
  intros names c m Hs. by apply p_disk_files in Hs.
Qed.

Lemma r_speaks : speaks p_ins w_config p_cut p_ticks p_profile w_disk.
Proof.
  constructor.
  - intros j. exists (bytes "{p}"). split; [reflexivity|vm_compute; discriminate].
  - intros a j. exists (bytes "{a}"). split; [reflexivity|vm_compute; discriminate].
  - intros i r count manifest db Hfs Hk Hwf Hexp. exists (bytes "{m}"). split; [|vm_compute; discriminate].
    destruct (export_run w_io "/data" w_profile count (server_on r) w_document) as (s & db' & Hexp' & Hout).
    { destruct w_servable as [H1 H2 H3 H4 _]. unfold server_on. rewrite Hfs. constructor; [exact H1|exact H2|exact H3|exact H4|exact Hwf]. }
    pose proof (eq_trans (eq_sym Hexp') Hexp) as E. injection E as <- _.
    cbn [server_on sv_fs sv_db] in Hout. rewrite Hfs in Hout.
    destruct (so_seen _ _ _ _ _ _ _ _ _ Hout _ _ _ w_served_seen) as (row & Hr & Hrow & _).
    assert (db_files db' = {["a.txt" := row]}) as Hfiles.
    { apply map_eq. intros q. destruct (decide (q = "a.txt")) as [->|Hne]; [by rewrite lookup_singleton_eq|].
      rewrite lookup_singleton_ne by congruence. apply (ix_stale w_disk data db'); [by eapply scan_indexed|].
      intros names c m Hs ->. apply Hne. by rewrite (w_disk_files names c (ex_intro _ m Hs)). }
    unfold file_rows. rewrite Hfiles. vm_compute in Hrow. injection Hrow as <-. vm_compute. reflexivity.
Qed.

Lemma r_meets : meeting p_ins w_config p_cut p_ticks w_endpoint w_address w_secret_hex w_secret "/box" p_profile
  "/profile.json" 0 0 w_document w_document r_agent.
Proof.
  constructor.
  - exact p_linked.
  - exact r_speaks.
  - intros i. exact w_servable.
  - destruct p_syncable as [H1 H2 H3 H4 _ H6 _].
    constructor; [exact H1|exact H2|exact H3|exact H4|apply db_empty_wf|exact H6|constructor].
  - exact (cp_opened _ _ _ _ _ _ _ _ _ _ _ _ _ _ _ p_can_pull).
  - exact (cp_document _ _ _ _ _ _ _ _ _ _ _ _ _ _ _ p_can_pull).
  - by intros q _.
  - by intros q _.
Qed.

Lemma r_takes : takes p_ins w_config p_cut p_ticks "/box" p_profile [] "a.txt" (bytes "hello") 0 w_document r_agent.
Proof.
  constructor.
  - reflexivity.
  - discriminate.
  - intros db st Hix Hst. apply r_indexed_empty in Hix.
    assert (list_files db = (Ok [], db)) as E.
    { unfold list_files, get_st. rewrite M_bind_eq. unfold lift, file_rows. by rewrite Hix. }
    unfold folder_status in Hst. rewrite M_bind_eq, E, M_bind_eq in Hst.
    destruct (list_skipped_files db) as [[skipped|x] db']; [|discriminate Hst].
    injection Hst as <- _. vm_compute. discriminate.
  - intros j i. split_and!; [by apply not_elem_of_nil|vm_compute; reflexivity|apply r_room; by eexists].
  - intros i. split; vm_compute; reflexivity.
  - exact p_disk_rooted.
Qed.

Lemma r_ahead : ahead p_ins w_config p_cut p_ticks "/box" p_profile [] "a.txt" r_agent.
Proof.
  intros names c Hne. split; intros Hs; exfalso.
  - destruct Hs as [m Hs]. by apply p_disk_files in Hs.
  - by apply w_disk_files in Hs.
Qed.

Lemma round_brings_new_file_witness :
  ∃ out a', run_sync_once "/box" w_endpoint w_secret_hex 10 "/profile.json" r_agent = (Ok out, a')
  ∧ out.(so_transfer).(eq_completed) = 1
  ∧ agree_but (λ _, False) a'.(ag_fs) box w_disk data.
Proof.
  destruct (round_brings_new_file p_ins w_config p_cut p_ticks p_cut_delivers w_endpoint w_address w_secret_hex
    w_secret "/box" p_profile {| rel_str := "a.txt" |} [] "a.txt" (bytes "hello") 10 "/profile.json" 0 0 w_document w_document
    (Some 5000000000) r_agent) as (out & a' & Hrun & Hdone & _ & Hag & _ & _ & Hfs).
  - exact r_meets.
  - exact p_path.
  - exact p_offered.
  - exact r_takes.
  - exact r_ahead.
  - split; vm_compute; discriminate.
  - exists out, a'. split; [exact Hrun|]. split; [exact Hdone|]. rewrite Hfs in Hag. exact Hag.
Defined.

(** *** Folders in step: the phone has the file too, and a download of it left in its queue *)

#[local] Instance s_once_json : SerdeJson SyncOnceOutput := constant_json _.
Lemma s_printable (output : SyncOnceOutput) : ∃ text, to_json output = Ok text.
Proof. by eexists. Qed.

Definition s_disk : FS := list_to_map
  [(w_k [], EDir); (w_k ["profile.json"], EFile (bytes "{}") None); (w_k ["box"], EDir);
   (w_k ["box"; ".syncer"], EDir); (w_k ["box"; ".syncer"; "folder.json"], EFile (bytes "{}") None);
   (w_k ["box"; "a.txt"], EFile (bytes "hello") (Some 7000000000))].
Definition s_agent : Agent :=
  {| ag_fs := s_disk; ag_db := with_operations (λ _, [p_row]) db_empty; ag_peer := p_laptop : @Peer r_world;
     ag_out := []; ag_slept := []; ag_ticks := 0%nat |}.

Lemma s_disk_files names c m : seen_file s_disk box names c m → names = ["a.txt"].
Proof.
  intros (d & n & -> & _ & Hh & Hn). unfold node in Hn. revert Hn. cbn [ls_root scanner_new].
  assert (∀ k e, s_disk !! k = Some e → e = EFile c m →
    length k = 2%nat ∨ k = key "/box" ["a.txt"] ∨ k = key "/box" [".syncer"; "folder.json"]) as Hd.
  { apply (listed_entry _ (λ k e, e = EFile c m →
      length k = 2%nat ∨ k = key "/box" ["a.txt"] ∨ k = key "/box" [".syncer"; "folder.json"])).
    each_entry; try discriminate; intros _; [left|right; right|right; left]; vm_compute; reflexivity. }
  intros Hn. destruct (Hd _ _ Hn eq_refl) as [E|[E|E]].
  - rewrite box_length, length_app in E. cbn in E. lia.
  - by apply (inj (key "/box")) in E.
  - apply (inj (key "/box")) in E. rewrite E in Hh. discriminate Hh.
Qed.

Lemma s_seen : seen_file s_disk box ["a.txt"] (bytes "hello") (Some 7000000000).
Proof. exists [], "a.txt". split; [done|]. split; [constructor|]. split; vm_compute; reflexivity. Qed.

Lemma s_syncable : syncable "/box" "/profile.json" p_profile 0 s_agent.
Proof.
  destruct p_syncable as [_ _ Hj Hclock Hdb Hcount Hids]. constructor; [| |exact Hj|exact Hclock|exact Hdb|exact Hcount|exact Hids].
  - unfold profile_read, fs_read, get_st. rewrite M_bind_eq.
    replace (ag_fs s_agent !! components "/profile.json") with (Some (EFile (bytes "{}") None))
      by (symmetry; vm_compute; reflexivity).
    reflexivity.
  - apply ScannerSpec.Witness.scannable_check; [apply fs_wf_check| |]; vm_compute; reflexivity.
Qed.

Lemma s_in_step : in_step p_ins w_config p_cut p_ticks w_endpoint w_address w_secret_hex w_secret "/box" p_profile
  "/profile.json" 0 0 w_document w_document s_agent.
Proof.
  split; [constructor|].
  - exact p_linked.
  - exact r_speaks.
  - intros i. exact w_servable.
  - exact s_syncable.
  - vm_compute. reflexivity.
  - rewrite read_eq. by f_equal.
  - by intros q _.
  - by intros q _.
  - intros names c _. split; intros [m Hs].
    + pose proof (s_disk_files _ _ _ Hs) as ->. rewrite (seen_functional _ _ _ _ _ _ _ Hs s_seen).
      eexists. exact w_served_seen.
    + pose proof (w_disk_files _ _ (ex_intro _ _ Hs)) as ->. rewrite (seen_functional _ _ _ _ _ _ _ Hs w_served_seen).
      eexists. exact s_seen.
Qed.

Lemma folders_in_step_stay_witness :
  ∃ a', sync_loop 3 "/box" w_endpoint w_secret_hex 10 (Some 3) "/profile.json" 0 s_agent = Some (Ok tt, a')
  ∧ a'.(ag_fs) = s_disk ∧ ag_ops a' = [].
Proof.
  destruct (folders_in_step_stay p_ins w_config p_cut p_ticks p_cut_delivers w_endpoint w_address w_secret_hex
    w_secret "/box" p_profile s_printable 10 "/profile.json" 0 0 w_document w_document s_agent s_in_step)
    as [Hmax _]; [split; vm_compute; discriminate|].
  destruct (Hmax 3 3%nat) as (a' & Hrun & [Hfs _ Hq _]); [split; vm_compute; discriminate|vm_compute; lia|].
  exists a'. split; [exact Hrun|]. split; [exact Hfs|]. etransitivity; [exact Hq|]. vm_compute. reflexivity.
Defined.

(** *** A file only the phone has *)

Definition t_disk : FS := list_to_map
  [(w_k [], EDir); (w_k ["profile.json"], EFile (bytes "{}") None); (w_k ["box"], EDir);
   (w_k ["box"; ".syncer"], EDir); (w_k ["box"; ".syncer"; "folder.json"], EFile (bytes "{}") None);
   (w_k ["box"; "a.txt"], EFile (bytes "hello") (Some 7000000000));
   (w_k ["box"; "b.txt"], EFile (bytes "new") (Some 6000000000))].
Definition t_agent : Agent :=
  {| ag_fs := t_disk; ag_db := db_empty; ag_peer := p_laptop : @Peer r_world;
     ag_out := []; ag_slept := []; ag_ticks := 0%nat |}.

Lemma t_disk_files names c m : seen_file t_disk box names c m → names = ["a.txt"] ∨ names = ["b.txt"].
Proof.
  intros (d & n & -> & _ & Hh & Hn). unfold node in Hn. revert Hn. cbn [ls_root scanner_new].
  assert (∀ k e, t_disk !! k = Some e → e = EFile c m →
    length k = 2%nat ∨ k = key "/box" ["a.txt"] ∨ k = key "/box" ["b.txt"] ∨ k = key "/box" [".syncer"; "folder.json"]) as Hd.
  { apply (listed_entry _ (λ k e, e = EFile c m →
      length k = 2%nat ∨ k = key "/box" ["a.txt"] ∨ k = key "/box" ["b.txt"] ∨ k = key "/box" [".syncer"; "folder.json"])).
    each_entry; try discriminate; intros _; [left|do 3 right|right; left|do 2 right; left]; vm_compute; reflexivity. }
  intros Hn. destruct (Hd _ _ Hn eq_refl) as [E|[E|[E|E]]].
  - rewrite box_length, length_app in E. cbn in E. lia.
  - left. by apply (inj (key "/box")) in E.
  - right. by apply (inj (key "/box")) in E.
  - apply (inj (key "/box")) in E. rewrite E in Hh. discriminate Hh.
Qed.

Lemma t_seen : seen_file t_disk box ["a.txt"] (bytes "hello") (Some 7000000000).
Proof. exists [], "a.txt". split; [done|]. split; [constructor|]. split; vm_compute; reflexivity. Qed.

Lemma t_meets : meeting p_ins w_config p_cut p_ticks w_endpoint w_address w_secret_hex w_secret "/box" p_profile
  "/profile.json" 0 0 w_document w_document t_agent.
Proof.
  constructor.
  - exact p_linked.
  - exact r_speaks.
  - intros i. exact w_servable.
  - destruct p_syncable as [_ _ Hj Hclock _ Hcount _].
    constructor; [| |exact Hj|exact Hclock|apply db_empty_wf|exact Hcount|constructor].
    + unfold profile_read, fs_read, get_st. rewrite M_bind_eq.
      replace (ag_fs t_agent !! components "/profile.json") with (Some (EFile (bytes "{}") None))
        by (symmetry; vm_compute; reflexivity).
      reflexivity.
    + apply ScannerSpec.Witness.scannable_check; [apply fs_wf_check| |]; vm_compute; reflexivity.
  - vm_compute. reflexivity.
  - rewrite read_eq. by f_equal.
  - by intros q _.
  - by intros q _.
Qed.

(** A database that holds the laptop's folder counts five bytes. *)
Lemma t_indexed db : indexed w_disk data db → db_wf 0 db →
  ∃ st, folder_status db = (Ok st, db) ∧ chunk_len (bytes "new")
    ≤ remaining_bytes w_document.(fd_folder).(fc_size_limit) st.(fs_indexed_bytes).
Proof.
  intros Hix Hwf. eexists. split; [by apply (folder_status_wf 0)|].
  destruct (ix_seen _ _ _ Hix _ _ _ w_served_seen) as (row & Hr & _ & Hz & _).
  assert (db_files db = {["a.txt" := row]}) as Hfiles.
  { apply map_eq. intros q. destruct (decide (q = "a.txt")) as [->|Hne]; [by rewrite lookup_singleton_eq|].
    rewrite lookup_singleton_ne by congruence. apply (ix_stale _ _ _ Hix).
    intros names c m Hsn ->. apply Hne. by rewrite (w_disk_files names c (ex_intro _ m Hsn)). }
  unfold file_rows. rewrite Hfiles, map_to_list_singleton. cbn [sort_by fmap list_fmap].
  unfold status_of, sum_sizes. cbn. rewrite Hz. vm_compute. discriminate.
Qed.

Lemma t_gives : gives p_ins w_config p_cut p_ticks "/box" p_profile q_path [] "b.txt" (bytes "new") 0 0 w_document w_document
  (bytes "{u}") (Some 6000000000) t_agent.
Proof.
  constructor.
  - reflexivity.
  - discriminate.
  - destruct q_sends as [_ _ H3 H4 H5 H6 H7]. constructor; [| |exact H3|exact H4|exact H5|exact H6|exact H7].
    + exists [], "b.txt". split; [done|]. split; [constructor|]. split; vm_compute; reflexivity.
    + intros i. split; vm_compute; reflexivity.
  - intros db Hix Hwf. destruct (t_indexed db Hix Hwf) as (st & Hst & Hfits). by eapply q_receives.
  - intros j i. split; [by apply not_elem_of_nil|vm_compute; reflexivity].
  - exact w_disk_rooted.
Qed.

Lemma t_behind : behind p_ins w_config p_cut p_ticks "/box" p_profile [] "b.txt" t_agent.
Proof.
  intros names c Hne. split; intros [m Hs].
  - destruct (t_disk_files _ _ _ Hs) as [->| ->]; [|by destruct Hne].
    rewrite (seen_functional _ _ _ _ _ _ _ Hs t_seen). eexists. exact w_served_seen.
  - pose proof (w_disk_files _ _ (ex_intro _ _ Hs)) as ->. rewrite (seen_functional _ _ _ _ _ _ _ Hs w_served_seen).
    eexists. exact t_seen.
Qed.

Lemma round_sends_new_file_witness :
  ∃ out a', run_sync_once "/box" w_endpoint w_secret_hex 10 "/profile.json" t_agent = (Ok out, a')
  ∧ out.(so_transfer).(eq_completed) = 1
  ∧ agree_but (λ _, False) t_disk box (a'.(ag_peer) : Remote).(rm_fs) data.
Proof.
  destruct (round_sends_new_file p_ins w_config p_cut p_ticks p_cut_delivers w_endpoint w_address w_secret_hex
    w_secret "/box" p_profile q_path [] "b.txt" (bytes "new") 10 "/profile.json" 0 0 w_document w_document
    (bytes "{u}") (Some 6000000000) t_agent) as (out & a' & Hrun & Hdone & _ & Hag & _ & _ & Hfs & _).
  - exact t_meets.
  - exact q_path_ok.
  - exact t_gives.
  - exact t_behind.
  - split; vm_compute; discriminate.
  - exists out, a'. split; [exact Hrun|]. split; [exact Hdone|]. rewrite Hfs in Hag. exact Hag.
Defined.
End RoundWitness.
