(* ===== verification/AgentRisks.v ===== *)
(** * What can go wrong: two losses the transfer engine allows

    An upload that replaces a file deletes it on the remote machine before it sends the
    new content, and a deletion on both sides removes the local file before anything
    else is checked. *)

From S2P Require Import Prelude RustStd External Error Manifest Limits Model Records Planning StateDb StateDbFacts StateDbSpec FileSys FolderStore Scanner ScannerSpec PathCodec RequestSigning PeerCrypto PeerStore HttpText PeerRequest PeerRequestSpec PeerServer PeerServerSpec PeerUploadSpec PeerSharedSpec PeerClient PeerClientSpec PeerExchangeSpec PeerPutSpec PeerJsonSpec PeerWitness AgentError Agent AgentCommands AgentSpec AgentSafety AgentRemote.
From stdpp Require Import options pretty.
Local Open Scope Z_scope.

(** ** An upload the server refuses *)

Module UploadRisk.
Import Sample SampleFs PeerCrypto.Witness PeerWitness.
#[local] Existing Instances w_reads w_reads_laws PeerWitness.unit_json PeerWitness.presence_json
  PeerWitness.presence_response_json PeerWitness.health_json PeerWitness.error_json PeerWitness.peers_json.

Section limit.
(** The size limit of the server's folder, which has five bytes. *)
Context (max : Z).
Definition r_document : FolderDocument := folder_document_new
  {| fc_id := 1%N; fc_display_name := "Docs"; fc_root := NativePath "/data";
     fc_mode := Bidirectional; fc_interval_seconds := 900;
     fc_size_limit := {| max_bytes := max; warning_threshold_percent := 80 |};
     fc_retention := retention_policy_default; fc_peers := [] |}.
#[local] Instance document_json : SerdeJson FolderDocument :=
  {| to_json := λ _, Ok (bytes "{}"); from_json := λ _, Ok r_document |}.
Definition r_profile : LocalDeviceProfile :=
  {| lp_device_id := 7%N; lp_device_name := {| device_name := "Phone" |}; lp_created_at := 0;
     lp_local_api_token_hex := ""; lp_identity_public_hex := "p"; lp_identity_secret_hex := "s" |}.
#[local] Instance profile_json : SerdeJson LocalDeviceProfile :=
  {| to_json := λ _, Ok (bytes "{}"); from_json := λ _, Ok r_profile |}.

Definition r_file : FileRecord :=
  {| fr_path := {| rel_str := "a.txt" |}; fr_kind := KFile; fr_size_bytes := 5; fr_modified_at := 5000000000;
     fr_content_hash := Some "hello"; fr_generation := 1; fr_device_id := uuid_to_string 1%N;
     fr_sync_state := LocalAvailable |}.
Definition r_manifest : FolderManifest :=
  {| fm_folder_id := 1%N; fm_device_id := 1%N; fm_generated_at := 0; fm_files := [r_file] |}.
#[local] Instance manifest_json : SerdeJson FolderManifest :=
  {| to_json := λ _, Ok (bytes "{m}"); from_json := λ _, Ok r_manifest |}.
#[local] Instance delete_json : SerdeJson DeleteFileResponse :=
  {| to_json := λ _, Ok (bytes "{d}"); from_json := λ _, Err "syntax" |}.
#[local] Instance client_delete_json : SerdeJson ClientDeleteResponse :=
  {| to_json := λ _, Ok (bytes "{}");
     from_json := λ _, Ok {| cd_accepted := true; cd_path := {| rel_str := "a.txt" |}; cd_size_bytes := 5;
                             cd_content_hash := "hello" |} |}.
#[local] Instance upload_json : SerdeJson UploadFileResponse :=
  {| to_json := λ _, Ok (bytes "{u}"); from_json := λ _, Err "syntax" |}.
#[local] Instance client_upload_json : SerdeJson ClientUploadResponse :=
  {| to_json := λ _, Ok (bytes "{}");
     from_json := λ _, Ok {| cu_accepted := true; cu_path := {| rel_str := "a.txt" |}; cu_size_bytes := 6;
                             cu_content_hash := "newer!" |} |}.

(** The agent changed the file to six bytes, and its queue has the upload. *)
Definition r_disk : FS := list_to_map
  [(w_k [], EDir); (w_k ["profile.json"], EFile (bytes "{}") None); (w_k ["box"], EDir);
   (w_k ["box"; "a.txt"], EFile (bytes "newer!") (Some 6000000000));
   (w_k ["box"; ".syncer"], EDir); (w_k ["box"; ".syncer"; "folder.json"], EFile (bytes "{}") None)].
Definition r_row : OpRow :=
  {| o_id := uuid_to_string 40%N; o_path := "a.txt"; o_kind := "upload_to_remote"; o_status := "pending";
     o_reason := "r"; o_local_size_bytes := Some 6; o_remote_size_bytes := Some 5;
     o_local_content_hash := Some "newer!"; o_remote_content_hash := Some "hello";
     o_remote_device_id := uuid_to_string 1%N; o_last_error := None; o_retry_count := 0;
     o_started_at_unix := None; o_finished_at_unix := None; o_created_at_unix := 0; o_updated_at_unix := 0 |}.
Definition r_tick : Tick :=
  {| ti_now_utc := 0; ti_unixepoch := 9; ti_id := 50%N; ti_random := replicate 32 dot; ti_client := w_cio;
     ti_scan_now := λ _, 100; ti_scan_now_utc := λ _, 0; ti_scan_end := 200;
     ti_stamps := λ i, (N.of_nat (60 + i), 0) |}.
#[local] Instance r_world : World :=
  server_world (λ _, w_io) w_config (λ bs, (λ a, [a]) <$> bs) (λ _, r_tick).
Definition r_agent : Agent :=
  {| ag_fs := r_disk; ag_db := with_operations (λ _, [r_row]) db_empty;
     ag_peer := {| rm_connections := 0; rm_fs := w_disk; rm_db := db_empty |} : @Peer r_world;
     ag_out := []; ag_slept := []; ag_ticks := 0%nat |}.
Definition r_run := run_sync_queue "/box" w_endpoint w_secret_hex 10 "/profile.json" r_agent.
Definition r_remote (a : Agent) : Remote := a.(ag_peer).

End limit.

(** What the agent reports and what the server then has at the path. *)
Definition r_reports (max : Z) : result AgentError (list (string * option string)) :=
  (λ out, (λ r, (r.(tr_status), r.(tr_error))) <$> out.(eq_results)) <$> (r_run max).1.
Definition r_left (max : Z) : option (list ascii) :=
  match (r_remote max (r_run max).2).(rm_fs) !! w_k ["data"; "a.txt"] with Some (EFile c _) => Some c | _ => None end.

(** A refused upload loses the remote file: replacing a file of the server with a larger
    one works when the folder of the server has room for it; when it has not, the upload
    fails after the old file was deleted, and the server has nothing at the path. *)
Theorem refused_upload_loses_remote_file :
  w_disk !! w_k ["data"; "a.txt"] = Some (EFile (bytes "hello") (Some 5000000000))
  ∧ (r_reports 6, r_left 6) = (Ok [("done", None)], Some (bytes "newer!"))
  ∧ (r_reports 5, r_left 5) = (Ok [("failed", Some "peer returned HTTP 400")], None).
Proof. split_and!; vm_compute; reflexivity. Qed.
End UploadRisk.

(** ** A deletion on both sides without a peer *)

Section deletion.
Context `{W : !World}.
Context `{TL : !TimeLib, SL : !SqlxLib, UL : !UuidLib, SJ : !SerdeJson (list BlockHash), BL : !Blake3Lib,
          IL : !IoLib, RD : !ReadDir, HL : !HexLib, SH : !Sha256Lib, HM : !HmacLib, AL : !AeadLib, KL : !KdfLib,
          RL : !ReadLib, FJ : !SerdeJson FolderDocument, LJ : !SerdeJson LocalDeviceProfile,
          J1 : !SerdeJson unit, J2 : !SerdeJson PeerPresence, J3 : !SerdeJson PresenceResponse,
          J4 : !SerdeJson FolderManifest, J5 : !SerdeJson ClientUploadResponse,
          J6 : !SerdeJson ClientDeleteResponse, J7 : !SerdeJson DeleteFileOutput}.

Lemma remove_there target c m a : a.(ag_fs) !! components target = Some (EFile c m) →
  remove_if_there target a = (Ok tt, with_ag_fs (delete (components target) a.(ag_fs)) a).
Proof using Type.
  intros Hk. unfold remove_if_there, get_st. rewrite M_bind_eq. unfold try_exists. rewrite Hk. cbn [map_err].
  rewrite bind_lift_Ok. unfold agent_fs_at, ag_on_fs, zoom. by rewrite (remove_file_run _ c m).
Qed.

(** C36. A deletion that is to reach the peer removes the local file before it looks for the
    peer's address and secret: without one of them the command fails, and by then the file
    is gone, while the peer was not asked and the database still lists the file. *)
Theorem unsent_delete_loses_local_file path file endpoint secret device_config count p row c m a :
  relative_path_parse file = Ok p → a.(ag_fs) !! components (syncer_dir (folder_store_new path)) = Some EDir →
  db_wf count a.(ag_db) → a.(ag_db).(db_files) !! rel_str p = Some row →
  a.(ag_fs) !! components (path_push path (rel_str p)) = Some (EFile c m) →
  endpoint = None ∨ secret = None →
  agent_delete_file path file PropagateToPeers endpoint secret device_config a
  = (Err MissingDeletePeerConfig, with_ag_fs (delete (components (path_push path (rel_str p))) a.(ag_fs)) a).
Proof using SL Type.
  intros Hparse Hopen Hwf Hrow Hfile Hmissing. pose proof (parse_canonical _ _ Hparse) as Hp.
  unfold agent_delete_file. rewrite Hparse. cbn [map_err]. rewrite bind_lift_Ok. cbv zeta.
  rewrite M_bind_eq. unfold opened, zoom at 1, open_database, get_st at 1, id at 1. rewrite M_bind_eq.
  rewrite (bool_decide_eq_true_2 (_ = _)) by done. cbn [mret M_ret].
  rewrite M_bind_eq. unfold ag_on_db at 1, zoom at 1. rewrite (list_files_wf count) by done.
  replace (with_ag_db (ag_db a) a) with a by (by destruct a).
  unfold find_record. rewrite (find_row count _ _ _ Hwf Hp), Hrow. cbn [fmap option_fmap option_map ok_or].
  rewrite bind_lift_Ok. erewrite bind_Ok; [|by eapply remove_there]. cbn [fst_root folder_store_new].
  rewrite M_bind_eq. unfold delete_on_peer. destruct Hmissing as [-> | ->]; [done|by destruct endpoint].
Qed.
End deletion.

Module DeletionRisk.
Import Sample SampleFs PeerCrypto.Witness PeerWitness UploadRisk.
#[local] Existing Instances w_reads PeerWitness.unit_json PeerWitness.presence_json
  PeerWitness.presence_response_json UploadRisk.profile_json UploadRisk.manifest_json
  UploadRisk.client_delete_json UploadRisk.client_upload_json FolderStore.Witness.w_json.
#[local] Instance deleted_json : SerdeJson DeleteFileOutput := constant_json _.
#[local] Instance silent_world : World :=
  {| Peer := unit; respond := λ _ _, ([], tt); clock := λ _, r_tick; accepts := λ _, Ok [] |}.
Definition d_row : FileRow :=
  {| w_kind := "file"; w_size_bytes := 6; w_modified_at_unix := 6; w_content_hash := Some "newer!";
     w_block_hashes_json := "[]"; w_generation := 1; w_device_id := "7"; w_scan_missing := false;
     w_sync_state := "local_available"; w_updated_at_unix := 6 |}.
Definition d_agent : Agent :=
  {| ag_fs := r_disk; ag_db := with_files <["a.txt" := d_row]> db_empty; ag_peer := tt; ag_out := [];
     ag_slept := []; ag_ticks := 0%nat |}.

Lemma unsent_delete_loses_local_file_witness :
  ∃ a', agent_delete_file "/box" "a.txt" PropagateToPeers (Some w_endpoint) None "/profile.json" d_agent
    = (Err MissingDeletePeerConfig, a')
  ∧ a'.(ag_fs) !! w_k ["box"; "a.txt"] = None ∧ a'.(ag_db) = d_agent.(ag_db).
Proof.
  eexists. split; [|split].
  - apply (unsent_delete_loses_local_file "/box" "a.txt" (Some w_endpoint) None "/profile.json" 0 {| rel_str := "a.txt" |}
      d_row (bytes "newer!") (Some 6000000000)).
    + vm_compute. reflexivity.
    + vm_compute. reflexivity.
    + constructor; [|apply map_Forall_empty|constructor|constructor].
      apply map_Forall_insert_2; [|apply map_Forall_empty]. constructor; cbn.
      * vm_compute. reflexivity.
      * by exists KFile.
      * done.
      * reflexivity.
      * done.
      * by left.
    + vm_compute. reflexivity.
    + vm_compute. reflexivity.
    + right. reflexivity.
  - vm_compute. reflexivity.
  - reflexivity.
Defined.
End DeletionRisk.
