(* ===== verification/DesktopCommand.v ===== *)
(** * [linux-tauri/src-tauri/src/agent_command.rs]: running the agent from the desktop

    The desktop backend works through the agent: it builds a command line, starts
    the process and reads its output as JSON.  What a process answers and does to
    the file system is a parameter, [DesktopEnv]; the state [Desktop] is the file
    system and the processes started so far. *)

From S2P Require Import Prelude RustStd External Error FileSys.
From stdpp Require Import options pretty.
Local Open Scope Z_scope.

Record AgentRuntime := { ar_binary : string; ar_device_config : string }.
Record PeerConnection := { pc_endpoint : string; pc_shared_secret : string }.
Record FolderConnection := { fo_path : string; fo_peer : option PeerConnection }.
Record AgentCommand := { ac_binary : string; ac_args : list string }.

#[export] Instance AgentCommand_eq_dec : EqDecision AgentCommand.
Proof. solve_decision. Defined.

Inductive AgentCommandError :=
| MissingAgentBinary
| MissingPeer
| AgentFailed (status : Z) (stderr : string)
| AgentInvalidJson (message : string)
| AgentIo (message : string).

Definition agent_command_error_to_string (e : AgentCommandError) : string :=
  match e with
  | MissingAgentBinary => "syncer-agent is not configured"
  | MissingPeer => "folder has no online peer configuration"
  | AgentFailed status stderr =>
      "syncer-agent failed with status " +:+ pretty status +:+ ": " +:+ stderr
  | AgentInvalidJson message => "syncer-agent output is not valid JSON: " +:+ message
  | AgentIo message => "failed to run syncer-agent: " +:+ message
  end.

(** [std::process::Output]: no code when a signal ended the process. *)
Record ProcessOutput := { po_code : option Z; po_stdout : list ascii; po_stderr : list ascii }.
Definition exit_success (o : ProcessOutput) : bool := bool_decide (o.(po_code) = Some 0).

(** The data directory Tauri resolves, the environment, and what a process started after
    others answers and leaves of the file system. *)
Class DesktopEnv := {
  app_data_dir : option string;
  env_var : string → option string;
  spawn : list AgentCommand → FS → AgentCommand → result string ProcessOutput * FS;
}.

Record Desktop := { dk_fs : FS; dk_started : list AgentCommand }.

(** [String::from_utf8_lossy]: every maximal part that is no character becomes one
    replacement character. *)
Definition replacement : list ascii := Ascii.ascii_of_N <$> [239; 191; 189]%N.
Definition second3 (n m : N) : bool :=
  RustStd.between 128 191 m && implb (n =? 224)%N (160 <=? m)%N && implb (n =? 237)%N (m <=? 159)%N.
Definition second4 (n m : N) : bool :=
  RustStd.between 128 191 m && implb (n =? 240)%N (144 <=? m)%N && implb (n =? 244)%N (m <=? 143)%N.
Fixpoint from_utf8_lossy (l : list ascii) : list ascii :=
  match l with
  | [] => []
  | a :: l1 =>
      let n := byte_val a in
      let replaced := replacement ++ from_utf8_lossy l1 in
      if (n <? 128)%N then a :: from_utf8_lossy l1
      else match l1 with
      | [] => replaced
      | b :: l2 =>
          if RustStd.between 194 223 n then
            if cont b then a :: b :: from_utf8_lossy l2 else replaced
          else if RustStd.between 224 239 n then
            if second3 n (byte_val b) then
              match l2 with
              | c :: l3 =>
                  if cont c then a :: b :: c :: from_utf8_lossy l3 else replacement ++ from_utf8_lossy l2
              | [] => replacement
              end
            else replaced
          else if RustStd.between 240 244 n then
            if second4 n (byte_val b) then
              match l2 with
              | c :: l3 =>
                  if cont c then
                    match l3 with
                    | d :: l4 =>
                        if cont d then a :: b :: c :: d :: from_utf8_lossy l4
                        else replacement ++ from_utf8_lossy l3
                    | [] => replacement
                    end
                  else replacement ++ from_utf8_lossy l2
              | [] => replacement
              end
            else replaced
          else replaced
      end
  end.

Section run.
Context `{!DesktopEnv}.

Definition from_env_or_default (dir : string) : AgentRuntime :=
  {| ar_binary := default "syncer-agent" (env_var "SYNCER_AGENT_BIN");
     ar_device_config := default (path_push dir "device.json") (env_var "SYNCER_DEVICE_CONFIG") |}.

(** [Command::output]. *)
Definition command_output (c : AgentCommand) : M Desktop AgentCommandError ProcessOutput := λ d,
  let '(r, fs) := spawn d.(dk_started) d.(dk_fs) c in
  (map_err AgentIo r, {| dk_fs := fs; dk_started := d.(dk_started) ++ [c] |}).

Definition run_json (T : Type) `{!SerdeJson T} (c : AgentCommand) : M Desktop AgentCommandError T :=
  if bool_decide (c.(ac_binary) = "") then throw MissingAgentBinary
  else
    output ← command_output c;
    if negb (exit_success output) then
      throw (AgentFailed (default (-1) output.(po_code))
               (trim (of_bytes (from_utf8_lossy output.(po_stderr)))))
    else lift (map_err AgentInvalidJson (from_json output.(po_stdout))).

End run.

(** ** The command lines *)

Definition agent_command_new (binary : string) (args : list string) : AgentCommand :=
  {| ac_binary := binary; ac_args := args |}.

Definition build_queue_status (runtime : AgentRuntime) (folder : FolderConnection) : AgentCommand :=
  agent_command_new runtime.(ar_binary) ["queue-status"; "--path"; folder.(fo_path)].

Definition build_init_folder (runtime : AgentRuntime) (folder : FolderConnection) (display_name : string)
    (max_bytes warning_threshold_percent : Z) : AgentCommand :=
  agent_command_new runtime.(ar_binary)
    ["init-folder"; "--path"; folder.(fo_path); "--display-name"; display_name;
     "--max-bytes"; pretty max_bytes;
     "--warning-threshold-percent"; pretty warning_threshold_percent].

Definition build_folder_status (runtime : AgentRuntime) (folder : FolderConnection) : AgentCommand :=
  agent_command_new runtime.(ar_binary) ["folder-status"; "--path"; folder.(fo_path)].

Definition build_retry_failed (runtime : AgentRuntime) (folder : FolderConnection) : AgentCommand :=
  agent_command_new runtime.(ar_binary) ["retry-failed"; "--path"; folder.(fo_path)].

Definition build_resolve_blocked (runtime : AgentRuntime) (folder : FolderConnection)
    (operation_id action : string) : AgentCommand :=
  agent_command_new runtime.(ar_binary)
    ["resolve-blocked"; "--path"; folder.(fo_path); "--operation-id"; operation_id; "--action"; action].

Definition build_sync_once (runtime : AgentRuntime) (folder : FolderConnection) (limit : Z)
    : result AgentCommandError AgentCommand :=
  peer ← ok_or MissingPeer folder.(fo_peer);
  Ok (agent_command_new runtime.(ar_binary)
    ["sync-once"; "--path"; folder.(fo_path); "--endpoint"; peer.(pc_endpoint);
     "--shared-secret"; peer.(pc_shared_secret); "--limit"; pretty limit;
     "--device-config"; runtime.(ar_device_config)]).

Definition build_delete_file (runtime : AgentRuntime) (folder : FolderConnection) (file scope : string)
    : result AgentCommandError AgentCommand :=
  let peer := folder.(fo_peer) in
  let args := ["delete-file"; "--path"; folder.(fo_path); "--file"; file; "--scope"; scope;
               "--device-config"; runtime.(ar_device_config)] in
  args ← (if bool_decide (scope = "both_sides") then
            peer ← ok_or MissingPeer peer;
            Ok (args ++ ["--endpoint"; peer.(pc_endpoint); "--shared-secret"; peer.(pc_shared_secret)])
          else Ok args);
  Ok (agent_command_new runtime.(ar_binary) args).
