(* ===== verification/Desktop.v ===== *)
(** * [linux-tauri/src-tauri/src/main.rs]: the desktop backend

    The folders the user configured are in [state.json] of the data directory; each
    command of the user interface reads it, may start the agent, and answers a
    snapshot.  [run_ui] is the table of commands Tauri dispatches on.  Clock readings
    ([now], [later], in nanoseconds since the epoch) are arguments. *)

From S2P Require Import Prelude RustStd External Error FileSys DesktopCommand.
From stdpp Require Import options pretty.
Local Open Scope Z_scope.

Definition DESKTOP_FOLDER_SIZE_LIMIT_BYTES : Z := 10737418240.
Definition DEFAULT_SYNC_INTERVAL_SECONDS : Z := 300.
Definition DEFAULT_WARNING_THRESHOLD_PERCENT : Z := 80.

Record PeerConfig := { pf_device_id : string; pf_endpoint : string; pf_shared_secret : string }.

(** [FolderConfig] of this file. *)
Record DesktopFolder := {
  df_id : string;
  df_name : string;
  df_path : string;
  df_mode : string;
  df_max_bytes : Z;
  df_warning_threshold_percent : Z;
  df_sync_interval_seconds : Z;
  df_peer : option PeerConfig;
}.

Record LinuxState := { ls_selected_folder_id : option string; ls_folders : list DesktopFolder }.

Record AddFolderInput := {
  ai_display_name : string;
  ai_path : string;
  ai_mode : string;
  ai_max_bytes : option Z;
  ai_interval_seconds : option Z;
}.

Record FolderConfigSnapshot := {
  cs_id : string;
  cs_display_name : string;
  cs_path : string;
  cs_mode : string;
  cs_interval_seconds : Z;
  cs_max_bytes : Z;
}.

Record FolderStatusSnapshot := {
  fs_indexed_files : Z;
  fs_indexed_bytes : Z;
  fs_skipped_folder_limit : Z;
  fs_unsynchronized_local_missing : Z;
}.

Record FolderSnapshot := { sn_config : FolderConfigSnapshot; sn_status : FolderStatusSnapshot }.
Record PeerSnapshot := { sp_online : bool; sp_endpoint : option string }.
Record QueueSummary := { qs_total : Z; qs_pending : Z; qs_blocked : Z; qs_done : Z; qs_failed : Z }.

(** [QueueStatus] and [QueueStatusOutput] of this file: what it reads of the agent's answer.
    [Value] is [serde_json::Value]. *)
Record DesktopQueueStatus := { dq_total : Z; dq_pending : Z; dq_blocked : Z; dq_done : Z; dq_failed : Z }.
Record QueueOutput (Value : Type) := { qo_status : DesktopQueueStatus; qo_operations : list Value }.
Arguments qo_status {Value}.
Arguments qo_operations {Value}.

Record DashboardSnapshot (Value : Type) := {
  da_selected_folder_id : option string;
  da_folders : list FolderSnapshot;
  da_peer : PeerSnapshot;
  da_queue : QueueSummary;
  da_operations : list Value;
}.
Arguments da_selected_folder_id {Value}.
Arguments da_folders {Value}.
Arguments da_peer {Value}.
Arguments da_queue {Value}.
Arguments da_operations {Value}.

Inductive AppError :=
| MissingStatePath
| InvalidFolderPath
| MissingFolderName
| InvalidFolderMode (mode : string)
| DuplicateFolder
| MissingFolder (id : string)
| AppIo (message : string)
| AppJson (message : string)
| AppAgent (e : AgentCommandError).

(** [Display], which [Serialize] writes. *)
Definition app_error_to_string (e : AppError) : string :=
  match e with
  | MissingStatePath => "Linux state path is unavailable"
  | InvalidFolderPath => "folder path must be an existing absolute directory"
  | MissingFolderName => "folder name is required"
  | InvalidFolderMode mode => "folder mode is not supported: " +:+ mode
  | DuplicateFolder => "folder is already configured"
  | MissingFolder id => "folder is not configured: " +:+ id
  | AppIo message => message
  | AppJson message => message
  | AppAgent e => agent_command_error_to_string e
  end.

(** ** Folders by name and id *)

Record AppContext := { cx_state : LinuxState; cx_runtime : AgentRuntime }.

Definition context_folder (c : AppContext) (folder_id : string) : result AppError DesktopFolder :=
  ok_or (MissingFolder folder_id)
    (head (filter (λ f, f.(df_id) = folder_id) c.(cx_state).(ls_folders))).

Definition selected_folder (c : AppContext) : result AppError DesktopFolder :=
  let first := df_id <$> head c.(cx_state).(ls_folders) in
  folder_id ← ok_or (MissingFolder "selected")
    (match c.(cx_state).(ls_selected_folder_id) with Some id => Some id | None => first end);
  context_folder c folder_id.

Definition connection (f : DesktopFolder) : FolderConnection :=
  {| fo_path := f.(df_path);
     fo_peer := (λ p, {| pc_endpoint := p.(pf_endpoint); pc_shared_secret := p.(pf_shared_secret) |})
                  <$> f.(df_peer) |}.

(** [char::is_ascii_alphanumeric], [to_ascii_lowercase], [char::is_whitespace]. *)
Definition ascii_alphanumeric (c : N) : bool :=
  RustStd.between 48 57 c || RustStd.between 65 90 c || RustStd.between 97 122 c.
Definition ascii_lowercase (c : N) : N := if RustStd.between 65 90 c then (c + 32)%N else c.
Definition whitespace (c : N) : bool :=
  RustStd.between 9 13 c || (c =? 32)%N || (c =? 133)%N || (c =? 160)%N || (c =? 5760)%N
  || RustStd.between 8192 8202 c || (c =? 8232)%N || (c =? 8233)%N || (c =? 8239)%N
  || (c =? 8287)%N || (c =? 12288)%N.

Definition dash : ascii := Ascii.ascii_of_N 45.
Definition slug_char (c : N) : option ascii :=
  if ascii_alphanumeric c then Some (Ascii.ascii_of_N (ascii_lowercase c))
  else if whitespace c || (c =? 45)%N || (c =? 95)%N then Some dash
  else None.
Definition slug (name : string) : string :=
  join_with dash (filter (λ part, part ≠ "") (split_on dash (of_bytes (omap slug_char (chars name))))).
Definition as_millis (now : Z) : Z := if now <? 0 then 0 else now / 1000000.
Definition new_folder_id (now : Z) (name : string) : string :=
  let slug := slug name in
  (if bool_decide (slug = "") then "folder" else slug) +:+ "-" +:+ pretty (as_millis now).

Definition folder_modes : list string := ["bidirectional"; "upload_only"; "download_only"].

(** [Path::is_dir]. *)
Definition is_dir (fs : FS) (path : string) : bool := bool_decide (fs !! components path = Some EDir).

Definition create_folder_config (now : Z) (fs : FS) (input : AddFolderInput) (state : LinuxState)
    : result AppError DesktopFolder :=
  let name := trim input.(ai_display_name) in
  if bool_decide (name = "") then Err MissingFolderName
  else if negb (is_absolute input.(ai_path)) || negb (is_dir fs input.(ai_path)) then
    Err InvalidFolderPath
  else if negb (bool_decide (input.(ai_mode) ∈ folder_modes)) then
    Err (InvalidFolderMode input.(ai_mode))
  else if existsb (λ f, path_eqb f.(df_path) input.(ai_path) || bool_decide (f.(df_name) = name))
            state.(ls_folders) then Err DuplicateFolder
  else Ok {| df_id := new_folder_id now name;
             df_name := name;
             df_path := input.(ai_path);
             df_mode := input.(ai_mode);
             df_max_bytes := default DESKTOP_FOLDER_SIZE_LIMIT_BYTES input.(ai_max_bytes);
             df_warning_threshold_percent := DEFAULT_WARNING_THRESHOLD_PERCENT;
             df_sync_interval_seconds :=
               Z.max (default DEFAULT_SYNC_INTERVAL_SECONDS input.(ai_interval_seconds)) 30;
             df_peer := None |}.

(** ** The state file and the commands *)

Definition empty_state : LinuxState := {| ls_selected_folder_id := None; ls_folders := [] |}.
Definition state_path (dir : string) : string := path_push dir "state.json".
Definition no_queue : QueueSummary :=
  {| qs_total := 0; qs_pending := 0; qs_blocked := 0; qs_done := 0; qs_failed := 0 |}.
Definition queue_summary (s : DesktopQueueStatus) : QueueSummary :=
  {| qs_total := s.(dq_total); qs_pending := s.(dq_pending); qs_blocked := s.(dq_blocked);
     qs_done := s.(dq_done); qs_failed := s.(dq_failed) |}.
Definition no_status : FolderStatusSnapshot :=
  {| fs_indexed_files := 0; fs_indexed_bytes := 0; fs_skipped_folder_limit := 0;
     fs_unsynchronized_local_missing := 0 |}.

(** A call of the file system, and a run of the agent, with [?]. *)
Definition desktop_fs {A} (m : M FS string A) : M Desktop AppError A :=
  zoom dk_fs (λ fs d, {| dk_fs := fs; dk_started := d.(dk_started) |}) AppIo m.
Definition agent {A} (m : M Desktop AgentCommandError A) : M Desktop AppError A :=
  zoom (λ d, d) (λ d _, d) AppAgent m.
(** [Result::ok] of a run of the agent. *)
Definition agent_ok {A} (m : M Desktop AgentCommandError A) : M Desktop AppError (option A) := λ d,
  let '(r, d) := m d in (Ok (result_ok r), d).

Section commands.
Context `{!IoLib, !DesktopEnv}.
Context {Value : Type} `{!SerdeJson Value, !SerdeJson LinuxState, !SerdeJson FolderStatusSnapshot}.
Context `{!SerdeJson (QueueOutput Value)}.

Definition load_state (path : string) : M Desktop AppError LinuxState :=
  d ← get_st;
  if negb (default false (result_ok (try_exists d.(dk_fs) path))) then mret empty_state
  else
    bytes ← lift (map_err AppIo (fs_read d.(dk_fs) path));
    lift (map_err AppJson (from_json bytes)).

Definition write_state (now : Z) (path : string) (state : LinuxState) : M Desktop AppError unit :=
  bytes ← lift (map_err AppJson (to_json state));
  desktop_fs (fs_write now path bytes).

(** The data directory, made where it is missing. *)
Definition data_dir : M Desktop AppError string :=
  dir ← lift (ok_or MissingStatePath app_data_dir);
  _ ← desktop_fs (create_dir_all dir);
  mret dir.

Definition load_context : M Desktop AppError AppContext :=
  dir ← data_dir;
  state ← load_state (state_path dir);
  mret {| cx_state := state; cx_runtime := from_env_or_default dir |}.

Definition config_snapshot (folder : DesktopFolder) : FolderConfigSnapshot :=
  {| cs_id := folder.(df_id); cs_display_name := folder.(df_name);
     cs_path := path_display folder.(df_path); cs_mode := folder.(df_mode);
     cs_interval_seconds := folder.(df_sync_interval_seconds);
     cs_max_bytes := folder.(df_max_bytes) |}.

Definition folder_snapshot (runtime : AgentRuntime) (folder : DesktopFolder)
    : M Desktop AppError FolderSnapshot :=
  status ← agent_ok (run_json FolderStatusSnapshot (build_folder_status runtime (connection folder)));
  mret {| sn_config := config_snapshot folder; sn_status := default no_status status |}.

Definition folder_snapshots (runtime : AgentRuntime) (folders : list DesktopFolder)
    : M Desktop AppError (list FolderSnapshot) :=
  foldM (λ acc folder, snapshot ← folder_snapshot runtime folder; mret (acc ++ [snapshot])) [] folders.

Definition load_snapshot (context : AppContext) : M Desktop AppError (DashboardSnapshot Value) :=
  let selected := result_ok (selected_folder context) in
  queue_output ← match selected with
                 | Some folder => agent_ok (run_json (QueueOutput Value)
                                     (build_queue_status context.(cx_runtime) (connection folder)))
                 | None => mret None
                 end;
  let peer := match selected ≫= df_peer with
              | Some peer => {| sp_online := false; sp_endpoint := Some peer.(pf_endpoint) |}
              | None => {| sp_online := false; sp_endpoint := None |}
              end in
  let '(queue, operations) := match queue_output with
                              | Some output => (queue_summary output.(qo_status), output.(qo_operations))
                              | None => (no_queue, [])
                              end in
  folders ← folder_snapshots context.(cx_runtime) context.(cx_state).(ls_folders);
  mret {| da_selected_folder_id := context.(cx_state).(ls_selected_folder_id); da_folders := folders;
          da_peer := peer; da_queue := queue; da_operations := operations |}.

Definition syncer_load_snapshot : M Desktop AppError (DashboardSnapshot Value) :=
  context ← load_context;
  load_snapshot context.

Definition syncer_add_folder (now later : Z) (folder : AddFolderInput)
    : M Desktop AppError (DashboardSnapshot Value) :=
  dir ← data_dir;
  let runtime := from_env_or_default dir in
  state ← load_state (state_path dir);
  d ← get_st;
  folder_config ← lift (create_folder_config now d.(dk_fs) folder state);
  let init := build_init_folder runtime (connection folder_config) folder_config.(df_name)
                folder_config.(df_max_bytes) folder_config.(df_warning_threshold_percent) in
  _ ← agent (run_json Value init);
  let state := {| ls_selected_folder_id := Some folder_config.(df_id);
                  ls_folders := state.(ls_folders) ++ [folder_config] |} in
  _ ← write_state later (state_path dir) state;
  load_snapshot {| cx_state := state; cx_runtime := runtime |}.

(** The commands on one folder: find it, build and run the agent's command, look again. *)
Definition reload (command : AgentCommand) : M Desktop AppError (DashboardSnapshot Value) :=
  _ ← agent (run_json Value command);
  context ← load_context;
  load_snapshot context.

Definition syncer_sync_once (folder_id : string) : M Desktop AppError (DashboardSnapshot Value) :=
  context ← load_context;
  folder ← lift (context_folder context folder_id);
  command ← lift (map_err AppAgent (build_sync_once context.(cx_runtime) (connection folder) 100));
  reload command.

Definition syncer_retry_failed (folder_id : string) : M Desktop AppError (DashboardSnapshot Value) :=
  context ← load_context;
  folder ← lift (context_folder context folder_id);
  reload (build_retry_failed context.(cx_runtime) (connection folder)).

Definition syncer_resolve_blocked (operation_id action : string)
    : M Desktop AppError (DashboardSnapshot Value) :=
  context ← load_context;
  folder ← lift (selected_folder context);
  reload (build_resolve_blocked context.(cx_runtime) (connection folder) operation_id action).

Definition syncer_delete_file (folder_id path scope : string)
    : M Desktop AppError (DashboardSnapshot Value) :=
  context ← load_context;
  folder ← lift (context_folder context folder_id);
  command ← lift (map_err AppAgent
                    (build_delete_file context.(cx_runtime) (connection folder) path scope));
  reload command.

End commands.

(** ** The commands of the user interface *)

Inductive UiCommand :=
| UiLoadSnapshot
| UiAddFolder (now later : Z) (folder : AddFolderInput)
| UiSyncOnce (folder_id : string)
| UiRetryFailed (folder_id : string)
| UiResolveBlocked (operation_id action : string)
| UiDeleteFile (folder_id path scope : string).

Section dispatch.
Context `{!IoLib, !DesktopEnv}.
Context {Value : Type} `{!SerdeJson Value, !SerdeJson LinuxState, !SerdeJson FolderStatusSnapshot}.
Context `{!SerdeJson (QueueOutput Value)}.

Definition run_ui (c : UiCommand) : M Desktop AppError (DashboardSnapshot Value) :=
  match c with
  | UiLoadSnapshot => syncer_load_snapshot
  | UiAddFolder now later folder => syncer_add_folder now later folder
  | UiSyncOnce folder_id => syncer_sync_once folder_id
  | UiRetryFailed folder_id => syncer_retry_failed folder_id
  | UiResolveBlocked operation_id action => syncer_resolve_blocked operation_id action
  | UiDeleteFile folder_id path scope => syncer_delete_file folder_id path scope
  end.

(** What the user does one after another; a failed command leaves what it changed. *)
Definition session (cs : list UiCommand) (d : Desktop) : Desktop :=
  foldl (λ d c, (run_ui c d).2) d cs.

End dispatch.
