(* ===== verification/DesktopSpec.v ===== *)
(** * The desktop backend: what its sessions keep

    A session is any sequence of commands of the user interface.  What they change is
    the state file and the list of agent runs; [session_keeps] lifts an invariant of
    the state and a condition on the runs to sessions, given that the agent leaves the
    state file alone ([leaves_state]). *)

From S2P Require Import Prelude RustStd External Error FileSys FolderStore HttpText DesktopCommand Desktop.
From stdpp Require Import options pretty.
Local Open Scope Z_scope.

(** ** Ids *)

Lemma split_last {A} (x : A) (a b r s : list A) :
  a ++ x :: r = b ++ x :: s → x ∉ r → x ∉ s → r = s.
Proof.
  revert b; induction a as [|y a IH]; intros [|z b] H Hr Hs; simplify_eq/=; [done| | |by eapply IH].
  - by destruct Hr; apply elem_of_app; right; left.
  - by destruct Hs; apply elem_of_app; right; left.
Qed.

Definition stamped (id : string) (t : Z) : Prop := ∃ p, id = p +:+ "-" +:+ pretty t.

Lemma stamp_digits t : 0 ≤ t → dash ∉ bytes (pretty t).
Proof.
  intros Ht. rewrite pretty_nonneg by done. destruct (pretty_digits (Z.to_N t)) as [Hd _].
  intros H. rewrite Forall_forall in Hd. by destruct (Hd _ H).
Qed.

Lemma stamped_inj id s t : stamped id s → stamped id t → 0 ≤ s → 0 ≤ t → s = t.
Proof.
  intros [p ->] [q H] Hs Ht. apply (f_equal bytes) in H. rewrite !bytes_app in H.
  apply split_last in H; [|by apply stamp_digits..]. by apply bytes_inj, (inj pretty) in H.
Qed.

(** ** Steps under an invariant *)

Section yields.
Context {S E : Type}.

(** From [P], a step ends in [P'], and its answer satisfies [Q]. *)
Definition yields {A} (P P' : S → Prop) (Q : A → Prop) (m : M S E A) : Prop :=
  ∀ s, P s → P' (m s).2 ∧ ∀ a, (m s).1 = Ok a → Q a.

Lemma yields_ret {A} (P : S → Prop) (Q : A → Prop) a : Q a → yields P P Q (mret a).
Proof. intros HQ s HP. split; [done|]. by intros ? [= <-]. Qed.

Lemma yields_bind {A B} (P P' : S → Prop) (Q : A → Prop) (R : B → Prop) (m : M S E A) (f : A → M S E B) :
  (∀ s, P s → P' s) → yields P P Q m → (∀ a, Q a → yields P P' R (f a)) → yields P P' R (m ≫= f).
Proof.
  intros HP Hm Hf s Hs. rewrite M_bind_eq. specialize (Hm s Hs) as [Hs' Ha].
  destruct (m s) as [[a|e] s']; [by apply Hf, Hs'; apply Ha|]. by split; [apply HP|].
Qed.

Lemma yields_lift {A} (P : S → Prop) (Q : A → Prop) (r : result E A) :
  (∀ a, r = Ok a → Q a) → yields P P Q (lift r).
Proof. intros HQ s Hs. by split. Qed.

Lemma yields_conseq {A} (P P1 P' P1' : S → Prop) (Q Q1 : A → Prop) (m : M S E A) :
  yields P1 P1' Q1 m → (∀ s, P s → P1 s) → (∀ s, P1' s → P' s) → (∀ a, Q1 a → Q a) →
  yields P P' Q m.
Proof. intros Hm H1 H2 H3 s Hs. destruct (Hm s) as [? Ha]; [by apply H1|]. split; [by apply H2|]. eauto. Qed.
End yields.

(** ** What of a [Desktop] the invariants speak of *)

Section desktop.
Context `{IL : !IoLib, DE : !DesktopEnv}.
Context {Value : Type} `{SV : !SerdeJson Value, SS : !SerdeJson LinuxState}.
Context `{SF : !SerdeJson FolderStatusSnapshot, SQ : !SerdeJson (QueueOutput Value)}.
Variable dir : string.

Definition state_key : Key := components (state_path dir).
Definition state_entry (d : Desktop) : option Entry := d.(dk_fs) !! state_key.
(** What the state file loads as. *)
Definition stored (e : option Entry) : result AppError LinuxState :=
  match e with
  | None => Ok empty_state
  | Some (EFile content _) => map_err AppJson (from_json content)
  | Some EDir => Err (AppIo io_is_a_directory)
  | Some EOther => Err (AppIo io_not_found)
  end.

Definition leaves_state : Prop := ∀ started fs c, (spawn started fs c).2 !! state_key = fs !! state_key.

Definition added (state : LinuxState) (folder : DesktopFolder) : LinuxState :=
  {| ls_selected_folder_id := Some folder.(df_id); ls_folders := state.(ls_folders) ++ [folder] |}.

(** The agent runs the backend can start for a folder. *)
Inductive may_start (folder : DesktopFolder) : AgentCommand → Prop :=
| start_queue_status : may_start folder (build_queue_status (from_env_or_default dir) (connection folder))
| start_folder_status : may_start folder (build_folder_status (from_env_or_default dir) (connection folder))
| start_init_folder name max_bytes percent :
    may_start folder (build_init_folder (from_env_or_default dir) (connection folder) name max_bytes percent)
| start_retry_failed : may_start folder (build_retry_failed (from_env_or_default dir) (connection folder))
| start_resolve_blocked id action :
    may_start folder (build_resolve_blocked (from_env_or_default dir) (connection folder) id action)
| start_sync_once limit c :
    build_sync_once (from_env_or_default dir) (connection folder) limit = Ok c → may_start folder c
| start_delete_file file scope c :
    build_delete_file (from_env_or_default dir) (connection folder) file scope = Ok c → may_start folder c.

(** *** Equations of the steps *)

Lemma state_key_eq : state_key = components dir ++ [Normal "state.json"].
Proof. apply components_push1, (bool_decide_eq_true_1 (valid_name "state.json")). by vm_compute. Qed.

Lemma load_state_eq d : load_state (state_path dir) d = (stored (state_entry d), d).
Proof.
  unfold load_state, get_st, stored, state_entry, state_key, try_exists, fs_read. rewrite M_bind_eq. cbv zeta.
  destruct (dk_fs d !! components (state_path dir)) as [[c m| |]|]; try done.
  by destruct (existsb _ _).
Qed.

Lemma create_dirs_other (rest d k : Key) fs :
  ¬ on_way d rest k → (create_dirs d rest fs).2 !! k = fs !! k.
Proof.
  revert d fs; induction rest as [|c rest IH]; intros d fs Hk; [done|].
  rewrite on_way_cons in Hk. cbn [create_dirs]. unfold get_st. rewrite M_bind_eq. cbv zeta.
  destruct (fs !! (d ++ [c])) as [[]|] eqn:E; [done|apply IH; tauto|done|].
  rewrite M_bind_eq. unfold modify. rewrite IH by tauto. apply lookup_insert_ne. naive_solver.
Qed.

Lemma make_dir_entry fs : (create_dir_all dir fs).2 !! state_key = fs !! state_key.
Proof.
  apply create_dirs_other. rewrite state_key_eq. intros (a & b & _ & E & H). simpl in H. subst a.
  apply (f_equal length) in E. rewrite !length_app in E. simpl in E. lia.
Qed.

(** *** What each step keeps of the state file and of the runs started *)

Context (Hdir : app_data_dir = Some dir) (Hagent : leaves_state).

Definition holds (P : option Entry → Prop) (G : list AgentCommand → Prop) (d : Desktop) : Prop :=
  P (state_entry d) ∧ G d.(dk_started).

Section steps.
Context (P : option Entry → Prop) (G : list AgentCommand → Prop) (C : AgentCommand → Prop).
Context (HG : ∀ l c, G l → C c → G (l ++ [c])).

Abbreviation Kept := (holds P G).

Lemma desktop_fs_yields {A} (m : M FS string A) :
  (∀ fs, (m fs).2 !! state_key = fs !! state_key) → yields Kept Kept (λ _, True) (desktop_fs m).
Proof using.
  intros Hm d [HP Hl]. unfold desktop_fs, zoom. specialize (Hm (dk_fs d)).
  by destruct (m (dk_fs d)) as [[a|e] fs]; (split; [|done]); split; unfold state_entry in *; simpl in *;
    try rewrite Hm.
Qed.

Lemma run_json_yields (T : Type) `{SJ : !SerdeJson T} c : C c → yields Kept Kept (λ _, True) (run_json T c).
Proof using HG Hagent.
  intros Hc d [HP Hl]. split; [|done]. unfold run_json. case_bool_decide; [done|].
  rewrite M_bind_eq. unfold command_output. pose proof (Hagent (dk_started d) (dk_fs d) c) as Hk.
  destruct (spawn _ _ c) as [r fs]. simpl in Hk.
  assert (Kept {| dk_fs := fs; dk_started := dk_started d ++ [c] |}) as Hd.
  { split; [unfold state_entry in *; simpl; by rewrite Hk|by apply HG]. }
  destruct r as [output|e]; simpl; [|done]. by destruct (exit_success output).
Qed.

Lemma agent_yields {A} (m : M Desktop AgentCommandError A) :
  yields Kept Kept (λ _, True) m → yields Kept Kept (λ _, True) (agent m).
Proof using.
  intros Hm d Hd. specialize (Hm d Hd) as [Hd' _]. split; [|done]. unfold agent, zoom.
  by destruct (m d) as [[a|e] d'].
Qed.

Lemma agent_ok_yields {A} (m : M Desktop AgentCommandError A) :
  yields Kept Kept (λ _, True) m → yields Kept Kept (λ _, True) (agent_ok m).
Proof using.
  intros Hm d Hd. specialize (Hm d Hd) as [Hd' _]. split; [|done]. unfold agent_ok. by destruct (m d).
Qed.

Lemma data_dir_yields : yields Kept Kept (λ x, x = dir) data_dir.
Proof using Hdir.
  unfold data_dir. rewrite Hdir. apply yields_bind with (Q := λ x, x = dir); [done| |].
  { by apply yields_lift; intros ? [= <-]. }
  intros ? ->. apply yields_bind with (Q := λ _, True); [done| |].
  - apply desktop_fs_yields, make_dir_entry.
  - intros _ _. by apply yields_ret.
Qed.

Definition loaded (state : LinuxState) : Prop := ∃ e, P e ∧ stored e = Ok state.

Lemma load_state_yields : yields Kept Kept loaded (load_state (state_path dir)).
Proof using.
  intros d Hd. rewrite load_state_eq. split; [done|]. intros st Hst. exists (state_entry d).
  by split; [apply Hd|].
Qed.

Lemma load_context_yields : yields Kept Kept
  (λ c, loaded c.(cx_state) ∧ c.(cx_runtime) = from_env_or_default dir) load_context.
Proof using Hdir.
  unfold load_context. eapply yields_bind; [done|apply data_dir_yields|]. intros ? ->.
  eapply yields_bind; [done|apply load_state_yields|]. intros st Hst. by apply yields_ret.
Qed.

Lemma context_folder_in c id f : context_folder c id = Ok f → f ∈ ls_folders (cx_state c) ∧ df_id f = id.
Proof using.
  unfold context_folder. rewrite ok_or_Ok. intros Hf. apply head_Some_elem_of, list_elem_of_filter in Hf.
  tauto.
Qed.

Lemma selected_folder_in c f : selected_folder c = Ok f → f ∈ ls_folders (cx_state c).
Proof using.
  unfold selected_folder. intros (id & _ & Hf)%result_bind_Ok. by apply context_folder_in in Hf as [? _].
Qed.

(** Every run the folders of a state can lead to is allowed. *)
Definition allowed (state : LinuxState) : Prop := ∀ f c, f ∈ ls_folders state → may_start f c → C c.

Lemma folder_snapshots_yields l acc : (∀ f c, f ∈ l → may_start f c → C c) →
  yields Kept Kept (λ r, sn_config <$> r = (sn_config <$> acc) ++ (config_snapshot <$> l))
    (foldM (λ acc f, s ← folder_snapshot (from_env_or_default dir) f; mret (acc ++ [s])) acc l).
Proof using HG Hagent.
  revert acc; induction l as [|f l IH]; intros acc Ha; cbn [foldM].
  { apply yields_ret. by rewrite app_nil_r. }
  apply yields_bind with (Q := λ r, sn_config <$> r = (sn_config <$> acc) ++ [config_snapshot f]); [done| |].
  - apply yields_bind with (Q := λ s, sn_config s = config_snapshot f); [done| |].
    + eapply yields_bind; [done| |by intros; apply yields_ret].
      apply agent_ok_yields, run_json_yields, (Ha f); [left|constructor].
    + intros s Hs. apply yields_ret. by rewrite fmap_app, <-Hs.
  - intros acc' Hacc. eapply yields_conseq; [apply IH|done..|].
    + intros f' c Hf'. apply Ha. by right.
    + intros r Hr. simpl in Hr. by rewrite Hr, Hacc, <-app_assoc.
Qed.

Lemma load_snapshot_yields state : allowed state → yields Kept Kept
  (λ r : DashboardSnapshot Value, da_selected_folder_id r = ls_selected_folder_id state
     ∧ sn_config <$> da_folders r = config_snapshot <$> ls_folders state)
  (load_snapshot {| cx_state := state; cx_runtime := from_env_or_default dir |}).
Proof using HG Hagent.
  intros Ha. unfold load_snapshot. simpl. apply yields_bind with (Q := λ _, True); [done| |].
  { destruct (selected_folder _) as [f|] eqn:E; simpl; [|by apply yields_ret].
    apply selected_folder_in in E. apply agent_ok_yields, run_json_yields, (Ha f); [done|constructor]. }
  intros output _. destruct (match output with Some _ => _ | None => _ end) as [q ops].
  eapply yields_bind; [done|by apply folder_snapshots_yields|]. intros r Hr. by apply yields_ret.
Qed.

Lemma reload_yields c : C c → (∀ state, loaded state → allowed state) →
  yields Kept Kept (λ _, True) (reload (Value := Value) c).
Proof using HG Hagent Hdir.
  intros Hc Ha. unfold reload. eapply yields_bind; [done|by apply agent_yields, run_json_yields|].
  intros _ _. eapply yields_bind; [done|apply load_context_yields|].
  intros [st rt] [Hst Hrt]. simpl in *. subst rt. eapply yields_conseq; [by apply load_snapshot_yields, Ha|done..].
Qed.
End steps.

(** A write of the state file is read back; a failed one changes nothing. *)
Lemma write_state_runs now state d `{SLS : !SerdeLaws LinuxState} :
  let '(r, d') := write_state now (state_path dir) state d in
  dk_started d' = dk_started d ∧
  match r with
  | Ok _ => stored (state_entry d') = Ok state
  | Err _ => state_entry d' = state_entry d
  end.
Proof using.
  unfold write_state. rewrite M_bind_eq. destruct (to_json state) as [bs|e] eqn:Ej; simpl; [|done].
  apply from_to_json in Ej. unfold desktop_fs, zoom, fs_write, get_st. rewrite M_bind_eq. cbv zeta.
  destruct d as [fs started]. unfold state_entry, state_key. simpl.
  destruct (fs !! components (state_path dir)) as [[c m| |]|] eqn:E; [destruct (has_parent _ _)| | |destruct (has_parent _ _)];
    simpl; (split; [done|]); rewrite ?lookup_insert_eq; simpl; by rewrite ?E, ?Ej.
Qed.

Lemma write_state_yields (P P' : option Entry → Prop) (G : list AgentCommand → Prop) now state
    `{SLS : !SerdeLaws LinuxState} :
  (∀ e, P e → P' e) → (∀ e, stored e = Ok state → P' e) →
  yields (holds P G) (holds P' G) (λ _, True) (write_state now (state_path dir) state).
Proof using.
  intros HP Hw d [He Hl]. pose proof (write_state_runs now state d) as Hd.
  destruct (write_state _ _ _ d) as [[[]|e] d'], Hd as [Hs Hd]; (split; [|done]); split; simpl;
    try (by rewrite Hs); [by apply Hw|by rewrite Hd; apply HP].
Qed.

(** *** A snapshot is always answered *)

Definition answers {S E A} (m : M S E A) : Prop := ∀ s, is_ok (m s).1 = true.

Lemma answers_bind {S E A B} (m : M S E A) (f : A → M S E B) :
  answers m → (∀ a, answers (f a)) → answers (m ≫= f).
Proof using.
  intros Hm Hf s. rewrite M_bind_eq. specialize (Hm s). destruct (m s) as [[a|e] s']; [apply Hf|done].
Qed.

Lemma agent_ok_answers {A} (m : M Desktop AgentCommandError A) : answers (agent_ok m).
Proof using. intros d. unfold agent_ok. by destruct (m d). Qed.

Lemma load_snapshot_answers context : answers (load_snapshot (Value := Value) context).
Proof using.
  unfold load_snapshot. apply answers_bind.
  { destruct (result_ok _); [apply agent_ok_answers|done]. }
  intros output. destruct (match output with Some _ => _ | None => _ end) as [q ops].
  apply answers_bind; [|done]. unfold folder_snapshots. generalize (@nil FolderSnapshot) at 2.
  induction (ls_folders _) as [|f l IH]; intros acc; [done|]. cbn [foldM].
  apply answers_bind; [|apply IH]. apply answers_bind; [|done].
  apply answers_bind; [apply agent_ok_answers|done].
Qed.

(** ** Sessions *)

Definition keeps (I : LinuxState → Prop) (e : option Entry) : Prop := ∀ state, stored e = Ok state → I state.

Context `{SLS : !SerdeLaws LinuxState}.

Section session.
Context (I I' : LinuxState → Prop) (C : AgentCommand → Prop).
Context (HI : ∀ state, I state → I' state) (HC : ∀ state, I' state → allowed C state).

Lemma keeps_loaded state : loaded (keeps I') state → I' state.
Proof using. intros (e & He & Hs). by apply He. Qed.

Lemma add_folder_yields now later input :
  (∀ fs state f, I state → create_folder_config now fs input state = Ok f → I' (added state f)) →
  yields (holds (keeps I) (Forall C)) (holds (keeps I') (Forall C)) (λ _, True)
    (syncer_add_folder (Value := Value) now later input).
Proof using HC HI Hagent Hdir SLS.
  intros Hadd. assert (∀ l c, Forall C l → C c → Forall C (l ++ [c])) as HG.
  { intros l c Hl Hc. apply Forall_app. by split; [|constructor]. }
  assert (∀ e, keeps I e → keeps I' e) as HK by (intros e He st Hst; by apply HI, He).
  assert (∀ d, holds (keeps I) (Forall C) d → holds (keeps I') (Forall C) d) as HK'.
  { intros d [He Hl]. by split; [apply HK|]. }
  unfold syncer_add_folder. eapply yields_bind; [done|apply data_dir_yields|]. intros ? ->.
  eapply yields_bind; [done|apply load_state_yields|]. intros state (e & He & Hst).
  apply He in Hst. eapply yields_bind with (Q := λ _, True); [done|by intros d Hd|]. intros d _.
  apply yields_bind with (Q := λ f, I' (added state f)); [done| |].
  { apply yields_lift. intros f. by apply Hadd. }
  intros f Hf. eapply yields_bind; [done| |].
  { apply agent_yields, run_json_yields with (C := C); [done|].
    apply (HC _ Hf f); [by apply elem_of_app; right; left|constructor]. }
  intros _ _ d0 Hd0. rewrite M_bind_eq.
  destruct (write_state_yields (keeps I) (keeps I') (Forall C) later (added state f) HK) with (s := d0)
    as [Hd1 _]; [by intros e' He' st' Hst'; simplify_eq/=; congruence|done|].
  fold (added state f). destruct (write_state _ _ _ d0) as [[[]|e0] d1]; [|by split].
  apply (load_snapshot_yields (keeps I') (Forall C) C HG _ (HC _ Hf)) in Hd1 as [Hd2 _]. by split.
Qed.

Lemma ui_keeps c d :
  (∀ now later input fs state f, c = UiAddFolder now later input → I state →
     create_folder_config now fs input state = Ok f → I' (added state f)) →
  holds (keeps I) (Forall C) d → holds (keeps I') (Forall C) (run_ui (Value := Value) c d).2.
Proof using HC HI Hagent Hdir SLS.
  intros Hadd Hd. destruct c as [|now later input|id|id|op action|id path scope]; simpl.
  2: by apply add_folder_yields; [intros fs st f; by apply (Hadd now later)|].
  all: assert (holds (keeps I') (Forall C) d) as Hd' by (split; [intros st Hst; by apply HI, (proj1 Hd)|apply Hd]).
  all: clear Hd; revert d Hd'.
  all: assert (∀ l c, Forall C l → C c → Forall C (l ++ [c])) as HG
    by (intros l c Hl Hc; apply Forall_app; by split; [|constructor]).
  all: assert (∀ state, loaded (keeps I') state → allowed C state) as HL by (intros st Hst; by apply HC, keeps_loaded).
  all: match goal with |- ∀ d, _ → holds ?P ?G (?m d).2 =>
         cut (yields (holds P G) (holds P G) (λ _, True) m); [intros Hy d Hd; by apply Hy|] end.
  all: eapply yields_bind; [done|apply load_context_yields|intros [st rt] [Hst Hrt]; simpl in *; subst rt].
  all: pose proof (HL _ Hst) as Ha.
  1: eapply yields_conseq; [by apply (load_snapshot_yields (keeps I') (Forall C) C)|done..].
  all: apply yields_bind with (Q := λ f, f ∈ ls_folders st); [done|apply yields_lift; intros f Hf;
         first [by apply context_folder_in in Hf as [? _]|by apply selected_folder_in in Hf]|intros f Hf].
  2, 3: apply reload_yields with (C := C); [done| |done]; apply (Ha f); [done|constructor].
  all: eapply yields_bind; [done|apply yields_lift; intros c Hc; exact (proj1 (map_err_Ok _ _ _) Hc)|].
  all: intros c Hc; apply reload_yields with (C := C); [done| |done]; (apply (Ha f); [done|by first [eapply start_sync_once, Hc|eapply start_delete_file, Hc]]).
Qed.
End session.

(** *** The folders a session configures *)

Record folder_ok (t : Z) (f : DesktopFolder) : Prop := {
  fok_name : f.(df_name) ≠ "" ∧ trim f.(df_name) = f.(df_name);
  fok_path : is_absolute f.(df_path) = true;
  fok_mode : f.(df_mode) ∈ folder_modes;
  fok_interval : 30 ≤ f.(df_sync_interval_seconds);
  fok_percent : f.(df_warning_threshold_percent) = DEFAULT_WARNING_THRESHOLD_PERCENT;
  fok_id : ∃ s, stamped f.(df_id) s ∧ 0 ≤ s ≤ t;
}.

Record state_ok (t : Z) (state : LinuxState) : Prop := {
  sok_folders : Forall (folder_ok t) state.(ls_folders);
  sok_ids : NoDup (df_id <$> state.(ls_folders));
  sok_names : NoDup (df_name <$> state.(ls_folders));
  sok_paths : NoDup ((λ f, components f.(df_path)) <$> state.(ls_folders));
  sok_selected : match state.(ls_selected_folder_id) with
                 | Some id => id ∈ (df_id <$> state.(ls_folders))
                 | None => state.(ls_folders) = []
                 end;
}.

(** Folders are added at later and later milliseconds. *)
Fixpoint ticking (t : Z) (cs : list UiCommand) : Prop :=
  match cs with
  | [] => True
  | UiAddFolder now _ _ :: cs => t < as_millis now ∧ ticking (as_millis now) cs
  | _ :: cs => ticking t cs
  end.

Lemma NoDup_snoc {A B} (g : A → B) l x : NoDup (g <$> l) → g x ∉ (g <$> l) → NoDup (g <$> l ++ [x]).
Proof using.
  intros Hl Hx. rewrite fmap_app. apply NoDup_app. split_and!; [done| |apply NoDup_singleton].
  intros y Hy Hy'. apply list_elem_of_singleton in Hy'. congruence.
Qed.

Lemma folder_ok_later s t f : s ≤ t → folder_ok s f → folder_ok t f.
Proof using. intros Hst [? ? ? ? ? (u & ? & ?)]. constructor; try done. exists u. split; [done|lia]. Qed.

Lemma created_ok now fs input state f : create_folder_config now fs input state = Ok f →
  folder_ok (as_millis now) f ∧ stamped f.(df_id) (as_millis now)
  ∧ (f.(df_name) ∉ (df_name <$> state.(ls_folders)))
  ∧ (components f.(df_path) ∉ ((λ f, components f.(df_path)) <$> state.(ls_folders)))
  ∧ f.(df_peer) = None.
Proof using.
  unfold create_folder_config. cbv zeta. case_bool_decide as Hn; [done|].
  destruct (is_absolute (ai_path input)) eqn:Hp; [|done]. destruct (is_dir _ _) eqn:Hd; [|done]. simpl.
  case_bool_decide as Hm; [|done]. simpl. destruct (existsb _ _) eqn:Hx; [done|]. intros [= <-]. simpl.
  assert (stamped (new_folder_id now (trim (ai_display_name input))) (as_millis now)) as Hid by by eexists.
  assert (0 ≤ as_millis now) as Hpos.
  { unfold as_millis. destruct (Z.ltb_spec now 0); [done|]. apply Z.div_pos; lia. }
  split_and!; [|done| | |done].
  - constructor; simpl; [by rewrite trim_idem|done|done|lia|done|by exists (as_millis now)].
  - intros (g & Hg & Hin)%list_elem_of_fmap. apply not_true_iff_false in Hx. apply Hx, existsb_exists.
    exists g. split; [by apply list_elem_of_In|]. rewrite <-Hg, bool_decide_true by done. apply orb_true_r.
  - intros (g & Hg & Hin)%list_elem_of_fmap. apply not_true_iff_false in Hx. apply Hx, existsb_exists.
    exists g. split; [by apply list_elem_of_In|]. unfold path_eqb. by rewrite bool_decide_true.
Qed.

Lemma state_ok_added t now fs input state f : state_ok t state → t < as_millis now →
  create_folder_config now fs input state = Ok f → state_ok (as_millis now) (added state f).
Proof using.
  intros [H1 H2 H3 H4 _] Ht (Hf & Hid & Hname & Hpath & _)%created_ok.
  constructor; simpl; [|apply NoDup_snoc..|]; try done.
  - apply Forall_app. split; [|by constructor]. eapply Forall_impl; [exact H1|].
    intros g. apply folder_ok_later. lia.
  - intros (g & Hg & Hin)%list_elem_of_fmap. rewrite Forall_forall in H1.
    destruct (fok_id _ _ (H1 g Hin)) as (s & Hs & Hle). rewrite Hg in Hid.
    assert (s = as_millis now) by (apply (stamped_inj (df_id g)); [done|done|lia|lia]). lia.
  - rewrite fmap_app. apply elem_of_app. right. by left.
Qed.

Lemma state_ok_later s t state : s ≤ t → state_ok s state → state_ok t state.
Proof using.
  intros Hst [H1 ? ? ? ?]. constructor; try done. eapply Forall_impl; [exact H1|].
  intros f. by apply folder_ok_later.
Qed.

Lemma session_ok cs t d : ticking t cs → holds (keeps (state_ok t)) (Forall (λ _, True)) d →
  ∃ t', holds (keeps (state_ok t')) (Forall (λ _, True)) (session (Value := Value) cs d).
Proof using Hagent Hdir SLS.
  revert t d; induction cs as [|c cs IH]; intros t d Ht Hd; [by exists t|].
  set (t' := match c with UiAddFolder now _ _ => as_millis now | _ => t end).
  assert (t ≤ t' ∧ ticking t' cs) as [Hle Ht'] by (destruct c; simpl in *; unfold t'; by intuition lia).
  eapply IH; [exact Ht'|]. eapply ui_keeps; [intros st; by apply state_ok_later|by intros ??| |exact Hd].
  intros now later input fs st f -> Hst Hf. destruct Ht as [Ht _]. by eapply state_ok_added.
Qed.

(** *** Runs that name no peer *)

(** The names of a command line's options: every other argument after the subcommand. *)
Fixpoint every_other (args : list string) : list string :=
  match args with
  | name :: _ :: args => name :: every_other args
  | _ => []
  end.
Definition option_names (c : AgentCommand) : list string := every_other (tail c.(ac_args)).

Definition local_run (c : AgentCommand) : Prop :=
  head c.(ac_args) ≠ Some "sync-once"
  ∧ ("--endpoint" ∉ option_names c) ∧ ("--shared-secret" ∉ option_names c).

Definition unpaired (state : LinuxState) : Prop := Forall (λ f, f.(df_peer) = None) state.(ls_folders).

Lemma unpaired_runs state : unpaired state → allowed local_run state.
Proof using.
  clear SLS Hagent Hdir. intros Hu f c Hf Hc. unfold unpaired in Hu. rewrite Forall_forall in Hu. specialize (Hu f Hf).
  assert (fo_peer (connection f) = None) as Hp by (unfold connection; by rewrite Hu).
  destruct Hc as [| |name mb pc| |id action|limit c Hs|file scope c Hs].
  6: by unfold build_sync_once in Hs; rewrite Hp in Hs.
  6: { unfold build_delete_file in Hs. rewrite Hp in Hs. case_bool_decide; [done|].
       injection Hs as <-. unfold local_run, option_names. simpl. split_and!; set_solver. }
  all: unfold local_run, option_names; simpl; split_and!; set_solver.
Qed.

Lemma session_local cs d : holds (keeps unpaired) (Forall local_run) d →
  holds (keeps unpaired) (Forall local_run) (session (Value := Value) cs d).
Proof using Hagent Hdir SLS.
  revert d; induction cs as [|c cs IH]; intros d Hd; [done|]. apply IH.
  eapply ui_keeps; [done|apply unpaired_runs| |exact Hd].
  intros now later input fs st f _ Hst (_ & _ & _ & _ & Hp)%created_ok.
  unfold unpaired. simpl. apply Forall_app. by split; [|constructor].
Qed.

(** *** Adding a folder *)

(** The run of the agent that creates the folder's metadata. *)
Definition init_of (f : DesktopFolder) : AgentCommand :=
  build_init_folder (from_env_or_default dir) (connection f) f.(df_name) f.(df_max_bytes)
    f.(df_warning_threshold_percent).

(** A run of the agent that succeeds was started, and leaves the state file alone. *)
Lemma run_json_started (T : Type) `{SJ : !SerdeJson T} c d x d' :
  agent (run_json T c) d = (Ok x, d') →
  state_entry d' = state_entry d ∧ dk_started d' = dk_started d ++ [c].
Proof using Hagent.
  unfold agent, zoom, run_json. case_bool_decide; [done|]. rewrite M_bind_eq. unfold command_output.
  pose proof (Hagent (dk_started d) (dk_fs d) c) as Hk. destruct (spawn _ _ c) as [r fs]. simpl in Hk.
  destruct r as [output|e]; simpl; [|done]. destruct (exit_success output); simpl; [|done].
  unfold lift. destruct (map_err _ _); [|done]. by intros [= _ <-].
Qed.

(** From the folder's configuration on. *)
Lemma add_folder_tail later state f d r d' :
  (_ ← agent (run_json Value (init_of f));
   _ ← write_state later (state_path dir) (added state f);
   load_snapshot (Value := Value) {| cx_state := added state f; cx_runtime := from_env_or_default dir |}) d = (r, d') →
  match r with
  | Ok snapshot =>
      stored (state_entry d') = Ok (added state f) ∧ da_selected_folder_id snapshot = Some f.(df_id)
      ∧ sn_config <$> da_folders snapshot = config_snapshot <$> state.(ls_folders) ++ [f]
      ∧ ∃ runs, dk_started d' = dk_started d ++ init_of f :: runs
  | Err e => state_entry d' = state_entry d
  end.
Proof using Hagent SLS.
  rewrite M_bind_eq. destruct (agent _ d) as [[x|e] d1] eqn:E1.
  2: { intros [= <- <-]. pose proof (agent_yields (λ e, e = state_entry d) (λ _, True) (run_json Value (init_of f))
         (run_json_yields _ _ (λ _, True) (λ _ _ _ _, I) _ _ I) d (conj eq_refl I)) as [[Hd _] _]. by rewrite E1 in Hd. }
  apply run_json_started in E1 as [He Hs]. rewrite M_bind_eq.
  set (G := λ l : list AgentCommand, ∃ runs, l = dk_started d ++ init_of f :: runs).
  assert (∀ l c, G l → True → G (l ++ [c])) as HG.
  { intros l c [runs ->] _. exists (runs ++ [c]). by rewrite <-app_assoc. }
  assert (G (dk_started d1)) as Hg by (exists []; by rewrite Hs).
  pose proof (write_state_runs later (added state f) d1) as Hw.
  destruct (write_state later _ _ d1) as [[[]|e] d2]; destruct Hw as [Hsame Hst].
  - pose proof (load_snapshot_yields (λ e, stored e = Ok (added state f)) G (λ _, True) HG (added state f)
      (λ _ _ _ _, I) d2) as Hy.
    pose proof (load_snapshot_answers {| cx_state := added state f; cx_runtime := from_env_or_default dir |} d2) as Ha.
    intros Hr. rewrite Hr in Hy, Ha. destruct r as [snapshot|]; [|done].
    destruct Hy as [[Hy1 Hy2] Hy3]; [split; [done|by rewrite Hsame]|].
    specialize (Hy3 _ eq_refl) as [Hsel Hfs]. done.
  - intros [= <- <-]. by rewrite Hst.
Qed.

Lemma context_folder_found c f : NoDup (df_id <$> ls_folders (cx_state c)) → f ∈ ls_folders (cx_state c) →
  context_folder c (df_id f) = Ok f.
Proof using.
  unfold context_folder. generalize (MissingFolder (df_id f)) as e. intros e.
  induction (ls_folders (cx_state c)) as [|g l IH]; intros Hn Hf; [by apply elem_of_nil in Hf|].
  rewrite fmap_cons in Hn. apply NoDup_cons in Hn as [Hg Hn]. rewrite filter_cons.
  apply elem_of_cons in Hf as [<-|Hf]; [by rewrite decide_True|].
  rewrite decide_False; [by apply IH|]. intros Heq. apply Hg. rewrite Heq. by apply list_elem_of_fmap_2.
Qed.

(** ** Properties *)

(** C34. Adding a folder, whatever the agent answers: on success the state file holds the
    folders it held before and the new one, which is selected; the folder's metadata was
    created by the agent before that, and the snapshot lists exactly these folders in
    order.  On any error (no data directory, an unreadable state file, a name, path or
    mode that is refused, a folder already configured, a failed agent or write) the state
    file is what it was. *)
Theorem add_folder_spec now later input d r d' :
  syncer_add_folder (Value := Value) now later input d = (r, d') →
  match r with
  | Ok snapshot => ∃ fs state folder,
      stored (state_entry d) = Ok state ∧ create_folder_config now fs input state = Ok folder
      ∧ stored (state_entry d') = Ok (added state folder)
      ∧ da_selected_folder_id snapshot = Some folder.(df_id)
      ∧ sn_config <$> da_folders snapshot = config_snapshot <$> state.(ls_folders) ++ [folder]
      ∧ ∃ runs, dk_started d' = dk_started d ++ init_of folder :: runs
  | Err _ => state_entry d' = state_entry d
  end.
Proof using Hagent Hdir SLS.
  unfold syncer_add_folder. rewrite M_bind_eq.
  pose proof (data_dir_yields (λ e, e = state_entry d) (λ l, l = dk_started d) d (conj eq_refl eq_refl))
    as [[He Hs] Hx].
  destruct (data_dir d) as [[x|e] d1]; simpl in *; [|by intros [= <- <-]].
  rewrite (Hx _ eq_refl). clear x Hx.
  rewrite M_bind_eq, load_state_eq. destruct (stored (state_entry d1)) as [state|e] eqn:Est; [|by intros [= <- <-]].
  unfold get_st. rewrite M_bind_eq. rewrite M_bind_eq. unfold lift.
  destruct (create_folder_config now (dk_fs d1) input state) as [f|e] eqn:Ef; [|by intros [= <- <-]].
  intros Ht%add_folder_tail. destruct r as [snapshot|e]; [|by rewrite Ht].
  rewrite <-Hs, <-He. exists (dk_fs d1), state, f. split; [done|]. split; [done|exact Ht].
Qed.

(** C33. The state file of the desktop backend after any session that starts without one,
    whatever agent runs fail: when it loads, the ids, names and paths of its folders are
    pairwise different, every folder is found by its id and one is selected unless there
    is none; every name is trimmed and not empty, every path absolute, every mode known
    and every interval at least 30 seconds.  Folders are added at different milliseconds. *)
Theorem desktop_session_keeps_state cs d state :
  state_entry d = None → ticking (-1) cs →
  stored (state_entry (session (Value := Value) cs d)) = Ok state →
  (∃ t, state_ok t state)
  ∧ (∀ runtime f, f ∈ state.(ls_folders) →
      context_folder {| cx_state := state; cx_runtime := runtime |} f.(df_id) = Ok f)
  ∧ (∀ runtime, state.(ls_folders) ≠ [] →
      is_ok (selected_folder {| cx_state := state; cx_runtime := runtime |}) = true).
Proof using Hagent Hdir SLS.
  intros Hd Ht Hs. destruct (session_ok cs (-1) d Ht) as (t & Hk & _).
  { split; [|by apply Forall_true]. rewrite Hd. intros st [= <-]. constructor; simpl; constructor. }
  apply Hk in Hs. split; [by exists t|]. destruct Hs as [_ Hids _ _ Hsel].
  split; [intros rt f; by apply (context_folder_found {| cx_state := state; cx_runtime := rt |})|].
  intros rt Hne. unfold selected_folder. simpl.
  destruct (ls_selected_folder_id state) as [id|]; [|done]. simpl.
  apply list_elem_of_fmap in Hsel as (f & -> & Hf).
  by rewrite (context_folder_found {| cx_state := state; cx_runtime := rt |} f Hids Hf).
Qed.

(** C37. The desktop backend cannot name a peer: nothing it offers gives a folder one.  After
    any session that starts without a state file every command asking for a
    synchronisation fails, and no agent run so far was a [sync-once] or named an endpoint
    or a shared secret. *)
Theorem desktop_never_reaches_a_peer cs d :
  state_entry d = None → d.(dk_started) = [] →
  let d' := session (Value := Value) cs d in
  Forall local_run d'.(dk_started)
  ∧ ∀ id, is_ok (run_ui (Value := Value) (UiSyncOnce id) d').1 = false.
Proof using Hagent Hdir SLS.
  intros Hd Hs d'. assert (holds (keeps unpaired) (Forall local_run) d') as [Hk Hl].
  { apply session_local. split; [|by rewrite Hs]. rewrite Hd. intros st [= <-]. constructor. }
  split; [done|]. intros id. simpl. unfold syncer_sync_once. rewrite M_bind_eq.
  pose proof (load_context_yields (keeps unpaired) (λ _, True) d' (conj Hk I)) as [_ Hc].
  destruct (load_context d') as [[c|e] d1]; [|done]. destruct (Hc c eq_refl) as [(e & He & Hst) _].
  apply He in Hst. unfold unpaired in Hst. rewrite Forall_forall in Hst.
  rewrite M_bind_eq. unfold lift. destruct (context_folder c id) as [f|] eqn:Ef; [|done].
  apply context_folder_in in Ef as [Hf _]. rewrite M_bind_eq. unfold build_sync_once, connection. simpl.
  by rewrite (Hst f Hf).
Qed.

End desktop.
