(* ===== verification/DesktopWitness.v ===== *)
(** * A small desktop: the theorems of DesktopSpec on a concrete machine

    An agent that succeeds without touching the file system, and a codec that knows one
    state, the one a first folder leads to. *)

From S2P Require Import Prelude RustStd External Error FileSys FolderStore DesktopCommand Desktop DesktopSpec.
From stdpp Require Import options.
Local Open Scope Z_scope.

Module DesktopWitness.
Export SampleFs.

#[export] Instance PeerConfig_eq_dec : EqDecision PeerConfig.
Proof. solve_decision. Defined.
#[export] Instance DesktopFolder_eq_dec : EqDecision DesktopFolder.
Proof. solve_decision. Defined.
#[export] Instance LinuxState_eq_dec : EqDecision LinuxState.
Proof. solve_decision. Defined.

#[export] Instance desktop_env : DesktopEnv :=
  {| app_data_dir := Some "/data"; env_var := λ _, None;
     spawn := λ _ fs _, (Ok {| po_code := Some 0; po_stdout := bytes "{}"; po_stderr := [] |}, fs) |}.

Definition w_folder : DesktopFolder :=
  {| df_id := "my-docs-5"; df_name := "My Docs"; df_path := "/docs"; df_mode := "bidirectional";
     df_max_bytes := 1024; df_warning_threshold_percent := 80; df_sync_interval_seconds := 30;
     df_peer := None |}.
Definition w_state : LinuxState := {| ls_selected_folder_id := Some "my-docs-5"; ls_folders := [w_folder] |}.

#[export] Instance state_json : SerdeJson LinuxState :=
  {| to_json := λ st, if bool_decide (st = w_state) then Ok (bytes "{...}") else Err "unknown";
     from_json := λ bs, if bool_decide (bs = bytes "{...}") then Ok w_state else Err "unknown" |}.
#[export] Instance state_laws : SerdeLaws LinuxState.
Proof. constructor. intros st bs. simpl. case_bool_decide; [|done]. by intros [= <-]; subst. Qed.

Definition w_queue : DesktopQueueStatus :=
  {| dq_total := 1; dq_pending := 1; dq_blocked := 0; dq_done := 0; dq_failed := 0 |}.

#[export] Instance value_json : SerdeJson unit := {| to_json := λ _, Ok []; from_json := λ _, Ok tt |}.
#[export] Instance status_json : SerdeJson FolderStatusSnapshot :=
  {| to_json := λ _, Ok []; from_json := λ _, Ok no_status |}.
#[export] Instance queue_json : SerdeJson (QueueOutput unit) :=
  {| to_json := λ _, Ok []; from_json := λ _, Ok {| qo_status := w_queue; qo_operations := [tt] |} |}.

Definition w_input : AddFolderInput :=
  {| ai_display_name := " My Docs "; ai_path := "/docs"; ai_mode := "bidirectional";
     ai_max_bytes := Some 1024; ai_interval_seconds := Some 5 |}.
Definition w_desktop : Desktop := {| dk_fs := <[[RootDir; Normal "docs"] := EDir]> ∅; dk_started := [] |}.
Definition w_session : list UiCommand :=
  [UiAddFolder 5000000 6000000 w_input; UiSyncOnce "my-docs-5"; UiDeleteFile "my-docs-5" "a.txt" "both_sides"].

Lemma w_dir : app_data_dir = Some "/data".
Proof. done. Qed.
Lemma w_leaves : leaves_state "/data".
Proof. by intros started fs c. Qed.

Lemma add_folder_spec_witness :
  ∃ r d', syncer_add_folder (Value := unit) 5000000 6000000 w_input w_desktop = (r, d') ∧ is_ok r = true
  ∧ ∃ folder, stored (state_entry "/data" d') = Ok (added empty_state folder).
Proof.
  destruct (syncer_add_folder (Value := unit) 5000000 6000000 w_input w_desktop) as [r d'] eqn:E.
  exists r, d'. split; [done|].
  assert (is_ok r = true) as Hr.
  { change (is_ok (r, d').1 = true). rewrite <-E. by vm_compute. }
  split; [done|].
  pose proof (add_folder_spec (Value := unit) "/data" w_dir w_leaves _ _ _ _ _ _ E) as H.
  destruct r as [snapshot|e]; [|done]. destruct H as (fs & state & folder & Hst & _ & Hd & _).
  exists folder. assert (state = empty_state) as <- by (by vm_compute in Hst; injection Hst as <-).
  exact Hd.
Defined.

Lemma desktop_session_keeps_state_witness :
  stored (state_entry "/data" (session (Value := unit) w_session w_desktop)) = Ok w_state
  ∧ ∃ t, state_ok t w_state.
Proof.
  assert (stored (state_entry "/data" (session (Value := unit) w_session w_desktop)) = Ok w_state) as Hs
    by (by vm_compute).
  split; [exact Hs|].
  exact (proj1 (desktop_session_keeps_state (Value := unit) "/data" w_dir w_leaves w_session w_desktop w_state
    ltac:(by vm_compute) ltac:(by vm_compute) Hs)).
Defined.

Lemma desktop_never_reaches_a_peer_witness :
  is_ok (run_ui (Value := unit) (UiSyncOnce "my-docs-5") (session (Value := unit) w_session w_desktop)).1 = false
  ∧ Forall local_run (dk_started (session (Value := unit) w_session w_desktop)).
Proof.
  destruct (desktop_never_reaches_a_peer (Value := unit) "/data" w_dir w_leaves w_session w_desktop
    ltac:(by vm_compute) eq_refl) as [Hl Hn].
  split; [exact (Hn _)|exact Hl].
Defined.

End DesktopWitness.
